(** * MeetAI plugin: ASR client, renderer client and meeting tools

    A shallow embedding of the TypeScript sources of the MeetAI extension
    (the ASR client of [asr-client.ts], the renderer client of
    [renderer-client.ts], the four tools of [tools.ts] and the plugin
    entry of [index.ts]) together with the properties the specification
    states about them and further properties read off the sources.

    Strings are JavaScript strings, that is sequences of UTF-16 code
    units; asynchronous code is written in an exception-and-trace monad
    over an explicit environment that answers the clock, the random
    source, the file system, the network and the host LLM. *)

From Stdlib Require Import ZArith NArith List String Ascii Bool Lia.
From Stdlib Require Import Permutation Sorting.Sorted.
From Stdlib Require Import DecimalString.
Import ListNotations.

Set Implicit Arguments.
Set Warnings "-register-all".

(* ================================================================== *)
(** * JavaScript strings and values *)
(* ================================================================== *)

Module JS.

Local Open Scope N_scope.

(** A JavaScript string: its UTF-16 code units. *)
Definition jsstring := list N.

(** Source literals are written as UTF-8 text and decoded to code units
    once and for all (characters above U+FFFF become a surrogate pair). *)
Fixpoint decode_utf8 (bs : list N) : jsstring :=
  match bs with
  | [] => []
  | b0 :: r0 =>
    if b0 <? 128 then b0 :: decode_utf8 r0
    else
      match r0 with
      | [] => []
      | b1 :: r1 =>
        if b0 <? 224
        then N.lor (N.shiftl (N.land b0 31) 6) (N.land b1 63) :: decode_utf8 r1
        else
          match r1 with
          | [] => []
          | b2 :: r2 =>
            if b0 <? 240
            then N.lor (N.shiftl (N.land b0 15) 12)
                       (N.lor (N.shiftl (N.land b1 63) 6) (N.land b2 63))
                 :: decode_utf8 r2
            else
              match r2 with
              | [] => []
              | b3 :: r3 =>
                let cp :=
                  N.lor (N.shiftl (N.land b0 7) 18)
                    (N.lor (N.shiftl (N.land b1 63) 12)
                       (N.lor (N.shiftl (N.land b2 63) 6) (N.land b3 63))) in
                let v := cp - 65536 in
                (55296 + N.shiftr v 10) :: (56320 + N.land v 1023)
                :: decode_utf8 r3
              end
          end
      end
  end.

Definition js (s : string) : jsstring :=
  decode_utf8 (List.map N_of_ascii (list_ascii_of_string s)).

(** [a === b] on strings. *)
Fixpoint str_eqb (a b : jsstring) : bool :=
  match a, b with
  | [], [] => true
  | x :: a', y :: b' => (x =? y) && str_eqb a' b'
  | _, _ => false
  end.

(** [a < b] on strings: lexicographic on code units. *)
Fixpoint str_ltb (a b : jsstring) : bool :=
  match a, b with
  | _, [] => false
  | [], _ :: _ => true
  | x :: a', y :: b' => (x <? y) || ((x =? y) && str_ltb a' b')
  end.

(** The order a default [sort()] arranges strings in. *)
Definition lex_le (a b : jsstring) : Prop := str_ltb b a = false.

(** A string is truthy when it is not empty. *)
Definition str_truthy (s : jsstring) : bool :=
  match s with [] => false | _ :: _ => true end.

(** WhiteSpace and LineTerminator code units, as [String.prototype.trim]
    strips them. *)
Definition is_white_space (c : N) : bool :=
  (c =? 9) || (c =? 10) || (c =? 11) || (c =? 12) || (c =? 13) || (c =? 32)
  || (c =? 160) || (c =? 5760) || ((8192 <=? c) && (c <=? 8202))
  || (c =? 8232) || (c =? 8233) || (c =? 8239) || (c =? 8287)
  || (c =? 12288) || (c =? 65279).

Fixpoint trimStart (s : jsstring) : jsstring :=
  match s with
  | [] => []
  | c :: r => if is_white_space c then trimStart r else s
  end.

Definition trimEnd (s : jsstring) : jsstring := rev (trimStart (rev s)).

Definition trim (s : jsstring) : jsstring := trimEnd (trimStart s).

Fixpoint startsWith (s p : jsstring) : bool :=
  match p, s with
  | [], _ => true
  | _ :: _, [] => false
  | y :: p', x :: s' => (x =? y) && startsWith s' p'
  end.

Definition endsWith (s p : jsstring) : bool := startsWith (rev s) (rev p).

(** [s.includes(p)]. *)
Fixpoint includes (s p : jsstring) : bool :=
  startsWith s p ||
  match s with
  | [] => false
  | _ :: s' => includes s' p
  end.

(** [s.replace(p, r)] for a string pattern [p] and a replacement without
    [$]: the first occurrence only. *)
Fixpoint replace (s p r : jsstring) : jsstring :=
  if startsWith s p then r ++ skipn (List.length p) s
  else
    match s with
    | [] => []
    | c :: s' => c :: replace s' p r
    end.

(** [parts.join(sep)]. *)
Fixpoint join (sep : jsstring) (parts : list jsstring) : jsstring :=
  match parts with
  | [] => []
  | [p] => p
  | p :: rest => p ++ sep ++ join sep rest
  end.

(** The line feed of ["\n"]. *)
Definition LF : jsstring := [10].

(** [Array.prototype.includes] on an array of strings. *)
Definition arr_includes (l : list jsstring) (s : jsstring) : bool :=
  existsb (str_eqb s) l.

(** ** Numbers *)

(** The decimal digits of an integer. *)
Definition decimal (z : Z) : jsstring :=
  js (NilZero.string_of_int (Z.to_int z)).

(** The Number that stands for the integer [n >= 0]: the nearest double,
    a tie going to the even significand.  Every integer below [2 ^ 53] is
    a double. *)
Definition round_double (n : Z) : Z :=
  let bits := (Z.log2 n + 1)%Z in
  if (bits <=? 53)%Z then n
  else
    let sh := (bits - 53)%Z in
    let q := Z.shiftr n sh in
    let r := (n - Z.shiftl q sh)%Z in
    let half := Z.shiftl 1 (sh - 1) in
    let q' :=
      if (half <? r)%Z || ((r =? half)%Z && Z.odd q) then (q + 1)%Z else q in
    Z.shiftl q' sh.

(** The multiples of [10 ^ e] on either side of the double [d] that read
    back as [d]: the one closer to [d], the even one at a tie. *)
Definition shortest_at (d e : Z) : option Z :=
  let unit := (10 ^ e)%Z in
  let lo := (d / unit * unit)%Z in
  let hi := (lo + unit)%Z in
  let lo_ok := (0 <? lo)%Z && (round_double lo =? d)%Z in
  let hi_ok := (round_double hi =? d)%Z in
  if lo_ok && hi_ok then
    if (d - lo <? hi - d)%Z then Some lo
    else if (hi - d <? d - lo)%Z then Some hi
    else if Z.even (d / unit) then Some lo else Some hi
  else if lo_ok then Some lo
  else if hi_ok then Some hi
  else None.

(** The integer with the fewest significant digits that reads back as
    [d]: one digit is tried first, then two, and so on (seventeen always
    do). *)
Fixpoint shortest_from (fuel : nat) (d e : Z) : Z :=
  match fuel with
  | O => d
  | S fuel' =>
    if (e <=? 0)%Z then d
    else
      match shortest_at d e with
      | Some c => c
      | None => shortest_from fuel' d (e - 1)
      end
  end.

Definition shortest (d : Z) : Z :=
  shortest_from 17 d (Z.of_nat (List.length (decimal d)) - 1).

Fixpoint strip_zeros (reversed_digits : jsstring) : jsstring :=
  match reversed_digits with
  | 48 :: r => strip_zeros r
  | _ => reversed_digits
  end.

(** [d.ddde+n]. *)
Definition exponent_form (c : Z) : jsstring :=
  let ds := decimal c in
  let e := (Z.of_nat (List.length ds) - 1)%Z in
  match rev (strip_zeros (rev ds)) with
  | [] => ds
  | [d] => d :: js "e+" ++ decimal e
  | d :: more => d :: js "." ++ more ++ js "e+" ++ decimal e
  end.

Definition nat_to_string (n : Z) : jsstring :=
  if (n <? 2 ^ 53)%Z then decimal n
  else
    let d := round_double n in
    if (2 ^ 1024 <=? d)%Z then js "Infinity"
    else
      let c := shortest d in
      if (c <? 10 ^ 21)%Z then decimal c else exponent_form c.

(** [String(n)], [n.toString()] and [`${n}`] for the Number that stands
    for the integer [z] (Number::toString of ECMAScript): all the digits
    below [2 ^ 53]; from there on the fewest digits that read back as the
    same double, followed by zeros, and the exponent form from ten to the
    twenty-first on. *)
Definition Z_to_string (z : Z) : jsstring :=
  if (z <? 0)%Z then js "-" ++ nat_to_string (- z) else nat_to_string z.

(** [n.toString(36)] for an integer below [2 ^ 53], as every time value
    is. *)
Definition digit36 (d : N) : N := if d <? 10 then 48 + d else 87 + d.

Fixpoint base36_digits (fuel : nat) (n : N) (acc : jsstring) : jsstring :=
  match fuel with
  | O => acc
  | S fuel' =>
    let acc' := digit36 (n mod 36) :: acc in
    if n / 36 =? 0 then acc' else base36_digits fuel' (n / 36) acc'
  end.

Definition Z_to_base36 (z : Z) : jsstring :=
  let n := Z.abs_N z in
  (if (z <? 0)%Z then js "-" else [])
  ++ base36_digits (S (N.to_nat (N.log2 n))) n [].

(** ** UTF-8 and URI encoding *)

Definition is_high_surrogate (c : N) : bool := (55296 <=? c) && (c <=? 56319).
Definition is_low_surrogate (c : N) : bool := (56320 <=? c) && (c <=? 57343).

Definition pair_code_point (hi lo : N) : N :=
  (hi - 55296) * 1024 + (lo - 56320) + 65536.

(** UTF-8 octets of one code point. *)
Definition utf8_of_code_point (cp : N) : list N :=
  if cp <? 128 then [cp]
  else if cp <? 2048 then [192 + N.shiftr cp 6; 128 + N.land cp 63]
  else if cp <? 65536 then
    [224 + N.shiftr cp 12; 128 + N.land (N.shiftr cp 6) 63; 128 + N.land cp 63]
  else
    [240 + N.shiftr cp 18; 128 + N.land (N.shiftr cp 12) 63;
     128 + N.land (N.shiftr cp 6) 63; 128 + N.land cp 63].

(** The code points of a string; [None] at an unpaired surrogate. *)
Fixpoint code_points (s : jsstring) : list (option N) :=
  match s with
  | [] => []
  | c :: r =>
    if is_high_surrogate c then
      match r with
      | d :: r' =>
        if is_low_surrogate d then Some (pair_code_point c d) :: code_points r'
        else None :: code_points r
      | [] => [None]
      end
    else if is_low_surrogate c then None :: code_points r
    else Some c :: code_points r
  end.

(** The strings a [for ... of] over a string visits: one per code point,
    an unpaired surrogate standing alone. *)
Fixpoint string_chars (s : jsstring) : list jsstring :=
  match s with
  | [] => []
  | c :: r =>
    if is_high_surrogate c then
      match r with
      | d :: r' =>
        if is_low_surrogate d then [c; d] :: string_chars r'
        else [c] :: string_chars r
      | [] => [[c]]
      end
    else [c] :: string_chars r
  end.

(** How Node encodes a string handed to [crypto]: UTF-8, an unpaired
    surrogate becoming U+FFFD. *)
Definition utf8_encode (s : jsstring) : list N :=
  flat_map (fun o => utf8_of_code_point
                       (match o with Some cp => cp | None => 65533 end))
           (code_points s).

Definition hex_digit_upper (n : N) : N := if n <? 10 then 48 + n else 55 + n.
Definition hex_digit_lower (n : N) : N := if n <? 10 then 48 + n else 87 + n.

Definition percent_octet (b : N) : jsstring :=
  [37; hex_digit_upper (N.shiftr b 4); hex_digit_upper (N.land b 15)].

(** Characters [encodeURIComponent] leaves alone:
    [A-Z a-z 0-9 - _ . ! ~ * ' ( )]. *)
Definition uri_unreserved (c : N) : bool :=
  ((65 <=? c) && (c <=? 90)) || ((97 <=? c) && (c <=? 122))
  || ((48 <=? c) && (c <=? 57))
  || (c =? 45) || (c =? 95) || (c =? 46) || (c =? 33) || (c =? 126)
  || (c =? 42) || (c =? 39) || (c =? 40) || (c =? 41).

Definition encode_code_point (cp : N) : jsstring :=
  if uri_unreserved cp then [cp]
  else flat_map percent_octet (utf8_of_code_point cp).

Fixpoint encode_all (cps : list (option N)) : option jsstring :=
  match cps with
  | [] => Some []
  | None :: _ => None
  | Some cp :: r =>
    match encode_all r with
    | Some t => Some (encode_code_point cp ++ t)
    | None => None
    end
  end.

(** [encodeURIComponent(s)]; [None] stands for the [URIError] raised on an
    unpaired surrogate. *)
Definition encodeURIComponent (s : jsstring) : option jsstring :=
  encode_all (code_points s).

(** ** Letter case *)

(** [String.prototype.toLowerCase] follows the Unicode Character Database:
    the lowercase mappings of [UnicodeData.txt], the unconditional mapping
    of [SpecialCasing.txt] (U+0130) and its rule for a final sigma.  The
    tables below are those of Unicode 14.

    A row [(first, last, stride, lower)] says that the code points
    [first], [first + stride], ..., [last] lowercase to [lower],
    [lower + stride], ... *)
Definition lowercase_rows : list (N * N * N * N) :=
  [
   (65, 90, 1, 97); (192, 214, 1, 224); (216, 222, 1, 248);
   (256, 302, 2, 257); (306, 310, 2, 307); (313, 327, 2, 314);
   (330, 374, 2, 331); (376, 376, 1, 255); (377, 381, 2, 378);
   (385, 385, 1, 595); (386, 388, 2, 387); (390, 390, 1, 596);
   (391, 391, 1, 392); (393, 394, 1, 598); (395, 395, 1, 396);
   (398, 398, 1, 477); (399, 399, 1, 601); (400, 400, 1, 603);
   (401, 401, 1, 402); (403, 403, 1, 608); (404, 404, 1, 611);
   (406, 406, 1, 617); (407, 407, 1, 616); (408, 408, 1, 409);
   (412, 412, 1, 623); (413, 413, 1, 626); (415, 415, 1, 629);
   (416, 420, 2, 417); (422, 422, 1, 640); (423, 423, 1, 424);
   (425, 425, 1, 643); (428, 428, 1, 429); (430, 430, 1, 648);
   (431, 431, 1, 432); (433, 434, 1, 650); (435, 437, 2, 436);
   (439, 439, 1, 658); (440, 440, 1, 441); (444, 444, 1, 445);
   (452, 452, 1, 454); (453, 453, 1, 454); (455, 455, 1, 457);
   (456, 456, 1, 457); (458, 458, 1, 460); (459, 475, 2, 460);
   (478, 494, 2, 479); (497, 497, 1, 499); (498, 500, 2, 499);
   (502, 502, 1, 405); (503, 503, 1, 447); (504, 542, 2, 505);
   (544, 544, 1, 414); (546, 562, 2, 547); (570, 570, 1, 11365);
   (571, 571, 1, 572); (573, 573, 1, 410); (574, 574, 1, 11366);
   (577, 577, 1, 578); (579, 579, 1, 384); (580, 580, 1, 649);
   (581, 581, 1, 652); (582, 590, 2, 583); (880, 882, 2, 881);
   (886, 886, 1, 887); (895, 895, 1, 1011); (902, 902, 1, 940);
   (904, 906, 1, 941); (908, 908, 1, 972); (910, 911, 1, 973);
   (913, 929, 1, 945); (931, 939, 1, 963); (975, 975, 1, 983);
   (984, 1006, 2, 985); (1012, 1012, 1, 952); (1015, 1015, 1, 1016);
   (1017, 1017, 1, 1010); (1018, 1018, 1, 1019); (1021, 1023, 1, 891);
   (1024, 1039, 1, 1104); (1040, 1071, 1, 1072); (1120, 1152, 2, 1121);
   (1162, 1214, 2, 1163); (1216, 1216, 1, 1231); (1217, 1229, 2, 1218);
   (1232, 1326, 2, 1233); (1329, 1366, 1, 1377); (4256, 4293, 1, 11520);
   (4295, 4295, 1, 11559); (4301, 4301, 1, 11565); (5024, 5103, 1, 43888);
   (5104, 5109, 1, 5112); (7312, 7354, 1, 4304); (7357, 7359, 1, 4349);
   (7680, 7828, 2, 7681); (7838, 7838, 1, 223); (7840, 7934, 2, 7841);
   (7944, 7951, 1, 7936); (7960, 7965, 1, 7952); (7976, 7983, 1, 7968);
   (7992, 7999, 1, 7984); (8008, 8013, 1, 8000); (8025, 8031, 2, 8017);
   (8040, 8047, 1, 8032); (8072, 8079, 1, 8064); (8088, 8095, 1, 8080);
   (8104, 8111, 1, 8096); (8120, 8121, 1, 8112); (8122, 8123, 1, 8048);
   (8124, 8124, 1, 8115); (8136, 8139, 1, 8050); (8140, 8140, 1, 8131);
   (8152, 8153, 1, 8144); (8154, 8155, 1, 8054); (8168, 8169, 1, 8160);
   (8170, 8171, 1, 8058); (8172, 8172, 1, 8165); (8184, 8185, 1, 8056);
   (8186, 8187, 1, 8060); (8188, 8188, 1, 8179); (8486, 8486, 1, 969);
   (8490, 8490, 1, 107); (8491, 8491, 1, 229); (8498, 8498, 1, 8526);
   (8544, 8559, 1, 8560); (8579, 8579, 1, 8580); (9398, 9423, 1, 9424);
   (11264, 11311, 1, 11312); (11360, 11360, 1, 11361); (11362, 11362, 1, 619);
   (11363, 11363, 1, 7549); (11364, 11364, 1, 637); (11367, 11371, 2, 11368);
   (11373, 11373, 1, 593); (11374, 11374, 1, 625); (11375, 11375, 1, 592);
   (11376, 11376, 1, 594); (11378, 11378, 1, 11379); (11381, 11381, 1, 11382);
   (11390, 11391, 1, 575); (11392, 11490, 2, 11393); (11499, 11501, 2, 11500);
   (11506, 11506, 1, 11507); (42560, 42604, 2, 42561); (42624, 42650, 2, 42625);
   (42786, 42798, 2, 42787); (42802, 42862, 2, 42803); (42873, 42875, 2, 42874);
   (42877, 42877, 1, 7545); (42878, 42886, 2, 42879); (42891, 42891, 1, 42892);
   (42893, 42893, 1, 613); (42896, 42898, 2, 42897); (42902, 42920, 2, 42903);
   (42922, 42922, 1, 614); (42923, 42923, 1, 604); (42924, 42924, 1, 609);
   (42925, 42925, 1, 620); (42926, 42926, 1, 618); (42928, 42928, 1, 670);
   (42929, 42929, 1, 647); (42930, 42930, 1, 669); (42931, 42931, 1, 43859);
   (42932, 42946, 2, 42933); (42948, 42948, 1, 42900); (42949, 42949, 1, 642);
   (42950, 42950, 1, 7566); (42951, 42953, 2, 42952); (42960, 42960, 1, 42961);
   (42966, 42968, 2, 42967); (42997, 42997, 1, 42998); (65313, 65338, 1, 65345);
   (66560, 66599, 1, 66600); (66736, 66771, 1, 66776); (66928, 66938, 1, 66967);
   (66940, 66954, 1, 66979); (66956, 66962, 1, 66995); (66964, 66965, 1, 67003);
   (68736, 68786, 1, 68800); (71840, 71871, 1, 71872); (93760, 93791, 1, 93792);
   (125184, 125217, 1, 125218)
  ].

(** Code points that are case-ignorable, and cased code points that are
    not case-ignorable, as ranges [(first, last)]. *)
Definition case_ignorable_ranges : list (N * N) :=
  [
   (39, 39); (46, 46); (58, 58); (94, 94); (96, 96);
   (168, 168); (173, 173); (175, 175); (180, 180); (183, 184);
   (688, 879); (884, 885); (890, 890); (900, 901); (903, 903);
   (1155, 1161); (1369, 1369); (1375, 1375); (1425, 1469); (1471, 1471);
   (1473, 1474); (1476, 1477); (1479, 1479); (1524, 1524); (1536, 1541);
   (1552, 1562); (1564, 1564); (1600, 1600); (1611, 1631); (1648, 1648);
   (1750, 1757); (1759, 1768); (1770, 1773); (1807, 1807); (1809, 1809);
   (1840, 1866); (1958, 1968); (2027, 2037); (2042, 2042); (2045, 2045);
   (2070, 2093); (2137, 2139); (2184, 2184); (2192, 2193); (2200, 2207);
   (2249, 2306); (2362, 2362); (2364, 2364); (2369, 2376); (2381, 2381);
   (2385, 2391); (2402, 2403); (2417, 2417); (2433, 2433); (2492, 2492);
   (2497, 2500); (2509, 2509); (2530, 2531); (2558, 2558); (2561, 2562);
   (2620, 2620); (2625, 2626); (2631, 2632); (2635, 2637); (2641, 2641);
   (2672, 2673); (2677, 2677); (2689, 2690); (2748, 2748); (2753, 2757);
   (2759, 2760); (2765, 2765); (2786, 2787); (2810, 2815); (2817, 2817);
   (2876, 2876); (2879, 2879); (2881, 2884); (2893, 2893); (2901, 2902);
   (2914, 2915); (2946, 2946); (3008, 3008); (3021, 3021); (3072, 3072);
   (3076, 3076); (3132, 3132); (3134, 3136); (3142, 3144); (3146, 3149);
   (3157, 3158); (3170, 3171); (3201, 3201); (3260, 3260); (3263, 3263);
   (3270, 3270); (3276, 3277); (3298, 3299); (3328, 3329); (3387, 3388);
   (3393, 3396); (3405, 3405); (3426, 3427); (3457, 3457); (3530, 3530);
   (3538, 3540); (3542, 3542); (3633, 3633); (3636, 3642); (3654, 3662);
   (3761, 3761); (3764, 3772); (3782, 3782); (3784, 3789); (3864, 3865);
   (3893, 3893); (3895, 3895); (3897, 3897); (3953, 3966); (3968, 3972);
   (3974, 3975); (3981, 3991); (3993, 4028); (4038, 4038); (4141, 4144);
   (4146, 4151); (4153, 4154); (4157, 4158); (4184, 4185); (4190, 4192);
   (4209, 4212); (4226, 4226); (4229, 4230); (4237, 4237); (4253, 4253);
   (4348, 4348); (4957, 4959); (5906, 5908); (5938, 5939); (5970, 5971);
   (6002, 6003); (6068, 6069); (6071, 6077); (6086, 6086); (6089, 6099);
   (6103, 6103); (6109, 6109); (6155, 6159); (6211, 6211); (6277, 6278);
   (6313, 6313); (6432, 6434); (6439, 6440); (6450, 6450); (6457, 6459);
   (6679, 6680); (6683, 6683); (6742, 6742); (6744, 6750); (6752, 6752);
   (6754, 6754); (6757, 6764); (6771, 6780); (6783, 6783); (6823, 6823);
   (6832, 6862); (6912, 6915); (6964, 6964); (6966, 6970); (6972, 6972);
   (6978, 6978); (7019, 7027); (7040, 7041); (7074, 7077); (7080, 7081);
   (7083, 7085); (7142, 7142); (7144, 7145); (7149, 7149); (7151, 7153);
   (7212, 7219); (7222, 7223); (7288, 7293); (7376, 7378); (7380, 7392);
   (7394, 7400); (7405, 7405); (7412, 7412); (7416, 7417); (7468, 7530);
   (7544, 7544); (7579, 7679); (8125, 8125); (8127, 8129); (8141, 8143);
   (8157, 8159); (8173, 8175); (8189, 8190); (8203, 8207); (8216, 8217);
   (8228, 8228); (8231, 8231); (8234, 8238); (8288, 8292); (8294, 8303);
   (8305, 8305); (8319, 8319); (8336, 8348); (8400, 8432); (11388, 11389);
   (11503, 11505); (11631, 11631); (11647, 11647); (11744, 11775); (11823, 11823);
   (12293, 12293); (12330, 12333); (12337, 12341); (12347, 12347); (12441, 12446);
   (12540, 12542); (40981, 40981); (42232, 42237); (42508, 42508); (42607, 42610);
   (42612, 42621); (42623, 42623); (42652, 42655); (42736, 42737); (42752, 42785);
   (42864, 42864); (42888, 42890); (42994, 42996); (43000, 43001); (43010, 43010);
   (43014, 43014); (43019, 43019); (43045, 43046); (43052, 43052); (43204, 43205);
   (43232, 43249); (43263, 43263); (43302, 43309); (43335, 43345); (43392, 43394);
   (43443, 43443); (43446, 43449); (43452, 43453); (43471, 43471); (43493, 43494);
   (43561, 43566); (43569, 43570); (43573, 43574); (43587, 43587); (43596, 43596);
   (43632, 43632); (43644, 43644); (43696, 43696); (43698, 43700); (43703, 43704);
   (43710, 43711); (43713, 43713); (43741, 43741); (43756, 43757); (43763, 43764);
   (43766, 43766); (43867, 43871); (43881, 43883); (44005, 44005); (44008, 44008);
   (44013, 44013); (64286, 64286); (64434, 64450); (65024, 65039); (65043, 65043);
   (65056, 65071); (65106, 65106); (65109, 65109); (65279, 65279); (65287, 65287);
   (65294, 65294); (65306, 65306); (65342, 65342); (65344, 65344); (65392, 65392);
   (65438, 65439); (65507, 65507); (65529, 65531); (66045, 66045); (66272, 66272);
   (66422, 66426); (67456, 67461); (67463, 67504); (67506, 67514); (68097, 68099);
   (68101, 68102); (68108, 68111); (68152, 68154); (68159, 68159); (68325, 68326);
   (68900, 68903); (69291, 69292); (69446, 69456); (69506, 69509); (69633, 69633);
   (69688, 69702); (69744, 69744); (69747, 69748); (69759, 69761); (69811, 69814);
   (69817, 69818); (69821, 69821); (69826, 69826); (69837, 69837); (69888, 69890);
   (69927, 69931); (69933, 69940); (70003, 70003); (70016, 70017); (70070, 70078);
   (70089, 70092); (70095, 70095); (70191, 70193); (70196, 70196); (70198, 70199);
   (70206, 70206); (70367, 70367); (70371, 70378); (70400, 70401); (70459, 70460);
   (70464, 70464); (70502, 70508); (70512, 70516); (70712, 70719); (70722, 70724);
   (70726, 70726); (70750, 70750); (70835, 70840); (70842, 70842); (70847, 70848);
   (70850, 70851); (71090, 71093); (71100, 71101); (71103, 71104); (71132, 71133);
   (71219, 71226); (71229, 71229); (71231, 71232); (71339, 71339); (71341, 71341);
   (71344, 71349); (71351, 71351); (71453, 71455); (71458, 71461); (71463, 71467);
   (71727, 71735); (71737, 71738); (71995, 71996); (71998, 71998); (72003, 72003);
   (72148, 72151); (72154, 72155); (72160, 72160); (72193, 72202); (72243, 72248);
   (72251, 72254); (72263, 72263); (72273, 72278); (72281, 72283); (72330, 72342);
   (72344, 72345); (72752, 72758); (72760, 72765); (72767, 72767); (72850, 72871);
   (72874, 72880); (72882, 72883); (72885, 72886); (73009, 73014); (73018, 73018);
   (73020, 73021); (73023, 73029); (73031, 73031); (73104, 73105); (73109, 73109);
   (73111, 73111); (73459, 73460); (78896, 78904); (92912, 92916); (92976, 92982);
   (92992, 92995); (94031, 94031); (94095, 94111); (94176, 94177); (94179, 94180);
   (110576, 110579); (110581, 110587); (110589, 110590); (113821, 113822); (113824, 113827);
   (118528, 118573); (118576, 118598); (119143, 119145); (119155, 119170); (119173, 119179);
   (119210, 119213); (119362, 119364); (121344, 121398); (121403, 121452); (121461, 121461);
   (121476, 121476); (121499, 121503); (121505, 121519); (122880, 122886); (122888, 122904);
   (122907, 122913); (122915, 122916); (122918, 122922); (123184, 123197); (123566, 123566);
   (123628, 123631); (125136, 125142); (125252, 125259); (127995, 127999); (917505, 917505);
   (917536, 917631); (917760, 917999)
  ].

Definition cased_ranges : list (N * N) :=
  [
   (65, 90); (97, 122); (170, 170); (181, 181); (186, 186);
   (192, 214); (216, 246); (248, 442); (444, 447); (452, 659);
   (661, 687); (880, 883); (886, 887); (891, 893); (895, 895);
   (902, 902); (904, 906); (908, 908); (910, 929); (931, 1013);
   (1015, 1153); (1162, 1327); (1329, 1366); (1376, 1416); (4256, 4293);
   (4295, 4295); (4301, 4301); (4304, 4346); (4349, 4351); (5024, 5109);
   (5112, 5117); (7296, 7304); (7312, 7354); (7357, 7359); (7424, 7467);
   (7531, 7543); (7545, 7578); (7680, 7957); (7960, 7965); (7968, 8005);
   (8008, 8013); (8016, 8023); (8025, 8025); (8027, 8027); (8029, 8029);
   (8031, 8061); (8064, 8116); (8118, 8124); (8126, 8126); (8130, 8132);
   (8134, 8140); (8144, 8147); (8150, 8155); (8160, 8172); (8178, 8180);
   (8182, 8188); (8450, 8450); (8455, 8455); (8458, 8467); (8469, 8469);
   (8473, 8477); (8484, 8484); (8486, 8486); (8488, 8488); (8490, 8493);
   (8495, 8500); (8505, 8505); (8508, 8511); (8517, 8521); (8526, 8526);
   (8544, 8575); (8579, 8580); (9398, 9449); (11264, 11387); (11390, 11492);
   (11499, 11502); (11506, 11507); (11520, 11557); (11559, 11559); (11565, 11565);
   (42560, 42605); (42624, 42651); (42786, 42863); (42865, 42887); (42891, 42894);
   (42896, 42954); (42960, 42961); (42963, 42963); (42965, 42969); (42997, 42998);
   (43002, 43002); (43824, 43866); (43872, 43880); (43888, 43967); (64256, 64262);
   (64275, 64279); (65313, 65338); (65345, 65370); (66560, 66639); (66736, 66771);
   (66776, 66811); (66928, 66938); (66940, 66954); (66956, 66962); (66964, 66965);
   (66967, 66977); (66979, 66993); (66995, 67001); (67003, 67004); (68736, 68786);
   (68800, 68850); (71840, 71903); (93760, 93823); (119808, 119892); (119894, 119964);
   (119966, 119967); (119970, 119970); (119973, 119974); (119977, 119980); (119982, 119993);
   (119995, 119995); (119997, 120003); (120005, 120069); (120071, 120074); (120077, 120084);
   (120086, 120092); (120094, 120121); (120123, 120126); (120128, 120132); (120134, 120134);
   (120138, 120144); (120146, 120485); (120488, 120512); (120514, 120538); (120540, 120570);
   (120572, 120596); (120598, 120628); (120630, 120654); (120656, 120686); (120688, 120712);
   (120714, 120744); (120746, 120770); (120772, 120779); (122624, 122633); (122635, 122654);
   (125184, 125251); (127280, 127305); (127312, 127337); (127344, 127369)
  ].

Definition in_ranges (ranges : list (N * N)) (cp : N) : bool :=
  existsb (fun r => (fst r <=? cp) && (cp <=? snd r)) ranges.

Definition case_ignorable (cp : N) : bool :=
  in_ranges case_ignorable_ranges cp.

Definition cased (cp : N) : bool := in_ranges cased_ranges cp.

Definition in_row (cp : N) (row : N * N * N * N) : bool :=
  let '(first, last, stride, _) := row in
  (first <=? cp) && (cp <=? last) && ((cp - first) mod stride =? 0).

Definition lower_point (cp : N) : N :=
  match find (in_row cp) lowercase_rows with
  | Some (first, _, _, lower) => lower + (cp - first)
  | None => cp
  end.

(** The code points of a string, an unpaired surrogate standing for
    itself, and the code units of a code point. *)
Fixpoint points (s : jsstring) : list N :=
  match s with
  | [] => []
  | c :: r =>
    if is_high_surrogate c then
      match r with
      | d :: r' =>
        if is_low_surrogate d then pair_code_point c d :: points r'
        else c :: points r
      | [] => [c]
      end
    else c :: points r
  end.

Definition units (cp : N) : jsstring :=
  if cp <? 65536 then [cp]
  else [55296 + (cp - 65536) / 1024; 56320 + (cp - 65536) mod 1024].

(** Whether the first code point that is not case-ignorable is cased. *)
Fixpoint meets_cased (cps : list N) : bool :=
  match cps with
  | [] => false
  | c :: r => if case_ignorable c then meets_cased r else cased c
  end.

(** The lowercase of the code points [cps]; [before] holds the code
    points already passed, the last one first.  A capital sigma (U+03A3)
    becomes the final sigma when a cased letter comes before it and none
    after it, case-ignorable code points being skipped on both sides. *)
Fixpoint lower_points (before cps : list N) : list N :=
  match cps with
  | [] => []
  | c :: r =>
    (if c =? 931 then
       if meets_cased before && negb (meets_cased r) then [962] else [963]
     else if c =? 304 then [105; 775]
     else [lower_point c])
    ++ lower_points (c :: before) r
  end.

(** [s.toLowerCase()]. *)
Definition toLowerCase (s : jsstring) : jsstring :=
  flat_map units (lower_points [] (points s)).

(** ** Values *)

(** What [JSON.parse] produces, plus [undefined].  [VNum n] is the Number
    that stands for the integer [n] (the one [JSON.parse] makes of the
    digits of [n]).  [VReal text] is a Number that is not an integer, held
    as the text Number::toString prints for it ([3.5], [1e-7],
    [Infinity]); it is never zero and never [NaN], which JSON cannot
    express. *)
Inductive value : Type :=
| VUndefined
| VNull
| VBool (b : bool)
| VNum (n : Z)
| VReal (text : jsstring)
| VStr (s : jsstring)
| VArr (elems : list value)
| VObj (props : list (jsstring * value)).

Definition truthy (v : value) : bool :=
  match v with
  | VUndefined | VNull => false
  | VBool b => b
  | VNum n => negb (Z.eqb n 0)
  | VReal _ => true
  | VStr s => str_truthy s
  | VArr _ | VObj _ => true
  end.

(** [a || b]. *)
Definition or_else (a b : value) : value := if truthy a then a else b.

Definition nullish (v : value) : bool :=
  match v with VUndefined | VNull => true | _ => false end.

Fixpoint lookup (k : jsstring) (props : list (jsstring * value)) : value :=
  match props with
  | [] => VUndefined
  | (k', v) :: r => if str_eqb k k' then v else lookup k r
  end.

(** [v.k] for the property names the sources read (none of them is a
    built-in of strings or arrays): [None] is the [TypeError] raised on
    [null] and [undefined]. *)
Definition get (v : value) (k : jsstring) : option value :=
  match v with
  | VUndefined | VNull => None
  | VObj props => Some (lookup k props)
  | _ => Some VUndefined
  end.

(** [v?.k]. *)
Definition get_opt (v : value) (k : jsstring) : value :=
  match get v k with Some x => x | None => VUndefined end.

(** The text [String(v)] and a template literal give for [v], when they
    give one (see [stringable] and [ToString] below). *)
Fixpoint to_string (v : value) : jsstring :=
  match v with
  | VUndefined => js "undefined"
  | VNull => js "null"
  | VBool true => js "true"
  | VBool false => js "false"
  | VNum n => Z_to_string n
  | VReal text => text
  | VStr s => s
  | VArr l =>
    (fix elems (l : list value) : jsstring :=
       match l with
       | [] => []
       | [x] => if nullish x then [] else to_string x
       | x :: r => (if nullish x then [] else to_string x) ++ js "," ++ elems r
       end) l
  | VObj _ => js "[object Object]"
  end.

(** Whether [props] has a property of its own named [k]. *)
Definition has_own (k : jsstring) (props : list (jsstring * value)) : bool :=
  existsb (fun entry => str_eqb k (fst entry)) props.

(** Whether the conversion of [v] to a string succeeds.  For an object
    the conversion calls its [toString]; an object of [JSON.parse] that
    has a [toString] of its own has one that is not a function, and
    neither it nor [valueOf] (its own, not a function either, or the
    inherited one, which returns the object) yields a primitive: the
    conversion throws a [TypeError].  An object without a [toString] of
    its own uses the inherited one.  An array converts its elements,
    except [null] and [undefined], and joins them. *)
Fixpoint stringable (v : value) : bool :=
  match v with
  | VArr l =>
    (fix all (l : list value) : bool :=
       match l with
       | [] => true
       | x :: r => (nullish x || stringable x) && all r
       end) l
  | VObj props => negb (has_own (js "toString") props)
  | _ => true
  end.

(** [a === b] against a number or a string literal. *)
Definition strict_eq_num (v : value) (n : Z) : bool :=
  match v with VNum m => Z.eqb m n | _ => false end.

Definition strict_eq_str (v : value) (s : jsstring) : bool :=
  match v with VStr t => str_eqb t s | _ => false end.

End JS.

(* ================================================================== *)
(** * Node's [crypto]: SHA-1, HMAC and base64 *)
(* ================================================================== *)

Module Crypto.

Local Open Scope N_scope.

Definition word_mask : N := 4294967295.

(** 32-bit addition and left rotation, with the wrap-around written out. *)
Definition add32 (x y : N) : N := N.land (x + y) word_mask.

Definition rotl32 (n x : N) : N :=
  N.lor (N.land (N.shiftl x n) word_mask) (N.shiftr x (32 - n)).

Definition not32 (x : N) : N := N.lxor x word_mask.

(** Big-endian octets of a number, [n] of them. *)
Fixpoint be_octets (n : nat) (x : N) : list N :=
  match n with
  | O => []
  | S n' => N.land (N.shiftr x (8 * N.of_nat n')) 255 :: be_octets n' x
  end.

Definition be_word (b0 b1 b2 b3 : N) : N :=
  N.lor (N.shiftl b0 24) (N.lor (N.shiftl b1 16) (N.lor (N.shiftl b2 8) b3)).

(** Message padding: a [0x80] octet, zeros up to 56 modulo 64, then the
    bit length on eight octets. *)
Definition sha1_pad (msg : list N) : list N :=
  let len := N.of_nat (List.length msg) in
  let zeros := N.to_nat ((119 - len mod 64) mod 64) in
  msg ++ [128] ++ repeat 0 zeros ++ be_octets 8 (8 * len).

Fixpoint words_of (n : nat) (bs : list N) : list N :=
  match n, bs with
  | S n', b0 :: b1 :: b2 :: b3 :: r => be_word b0 b1 b2 b3 :: words_of n' r
  | _, _ => []
  end.

(** The message schedule: sixteen words extended to eighty. *)
Fixpoint schedule (n : nat) (w : list N) : list N :=
  match n with
  | O => w
  | S n' =>
    let t := List.length w in
    let x i := nth (t - i) w 0 in
    schedule n' (w ++ [rotl32 1 (N.lxor (N.lxor (x 3%nat) (x 8%nat))
                                        (N.lxor (x 14%nat) (x 16%nat)))])
  end.

Definition sha1_f (t : nat) (b c d : N) : N :=
  if Nat.ltb t 20 then N.lor (N.land b c) (N.land (not32 b) d)
  else if Nat.ltb t 40 then N.lxor b (N.lxor c d)
  else if Nat.ltb t 60 then
    N.lor (N.land b c) (N.lor (N.land b d) (N.land c d))
  else N.lxor b (N.lxor c d).

Definition sha1_k (t : nat) : N :=
  if Nat.ltb t 20 then 1518500249
  else if Nat.ltb t 40 then 1859775393
  else if Nat.ltb t 60 then 2400959708
  else 3395469782.

Definition sha1_state : Type := N * N * N * N * N.

Definition sha1_round (st : sha1_state) (tw : nat * N) : sha1_state :=
  let '(a, b, c, d, e) := st in
  let '(t, w) := tw in
  let temp := add32 (add32 (add32 (add32 (rotl32 5 a) (sha1_f t b c d)) e)
                           (sha1_k t)) w in
  (temp, a, rotl32 30 b, c, d).

Definition sha1_block (h : sha1_state) (block : list N) : sha1_state :=
  let w := schedule 64 (words_of 16 block) in
  let '(a, b, c, d, e) :=
    fold_left sha1_round (combine (seq 0 80) w) h in
  let '(h0, h1, h2, h3, h4) := h in
  (add32 h0 a, add32 h1 b, add32 h2 c, add32 h3 d, add32 h4 e).

Fixpoint sha1_blocks (n : nat) (h : sha1_state) (bs : list N) : sha1_state :=
  match n with
  | O => h
  | S n' => sha1_blocks n' (sha1_block h (firstn 64 bs)) (skipn 64 bs)
  end.

Definition sha1_init : sha1_state :=
  (1732584193, 4023233417, 2562383102, 271733878, 3285377520).

Definition sha1 (msg : list N) : list N :=
  let padded := sha1_pad msg in
  let '(h0, h1, h2, h3, h4) :=
    sha1_blocks (Nat.div (List.length padded) 64) sha1_init padded in
  be_octets 4 h0 ++ be_octets 4 h1 ++ be_octets 4 h2
  ++ be_octets 4 h3 ++ be_octets 4 h4.

(** HMAC with SHA-1 (block size 64). *)
Definition hmac_key_block (key : list N) : list N :=
  let k := if Nat.ltb 64 (List.length key) then sha1 key else key in
  k ++ repeat 0 (64 - List.length k)%nat.

Definition hmac_sha1 (key msg : list N) : list N :=
  let k := hmac_key_block key in
  sha1 (List.map (N.lxor 92) k ++ sha1 (List.map (N.lxor 54) k ++ msg)).

(** Base64 with the standard alphabet and [=] padding. *)
Definition base64_char (n : N) : N :=
  if n <? 26 then 65 + n
  else if n <? 52 then 71 + n
  else if n <? 62 then n - 4
  else if n =? 62 then 43
  else 47.

Fixpoint base64_groups (n : nat) (bs : list N) : JS.jsstring :=
  match n with
  | O => []
  | S n' =>
    match bs with
    | [] => []
    | [b0] =>
      [base64_char (N.shiftr b0 2); base64_char (N.shiftl (N.land b0 3) 4);
       61; 61]
    | [b0; b1] =>
      [base64_char (N.shiftr b0 2);
       base64_char (N.lor (N.shiftl (N.land b0 3) 4) (N.shiftr b1 4));
       base64_char (N.shiftl (N.land b1 15) 2); 61]
    | b0 :: b1 :: b2 :: r =>
      [base64_char (N.shiftr b0 2);
       base64_char (N.lor (N.shiftl (N.land b0 3) 4) (N.shiftr b1 4));
       base64_char (N.lor (N.shiftl (N.land b1 15) 2) (N.shiftr b2 6));
       base64_char (N.land b2 63)] ++ base64_groups n' r
    end
  end.

Definition base64 (bs : list N) : JS.jsstring :=
  base64_groups (S (List.length bs)) bs.

(** [buf.toString("hex")]. *)
Definition hex (bs : list N) : JS.jsstring :=
  flat_map (fun b => [JS.hex_digit_lower (N.land (N.shiftr b 4) 15);
                      JS.hex_digit_lower (N.land b 15)]) bs.

(** [createHmac("sha1", key).update(msg).digest("base64")] on strings. *)
Definition hmac_sha1_base64 (key msg : JS.jsstring) : JS.jsstring :=
  base64 (hmac_sha1 (JS.utf8_encode key) (JS.utf8_encode msg)).

End Crypto.

(* ================================================================== *)
(** * Node's [path] (POSIX flavour) *)
(* ================================================================== *)

Module NodePath.

Import JS.
Local Open Scope Z_scope.

Definition CHAR_FORWARD_SLASH : N := 47%N.
Definition CHAR_DOT : N := 46%N.

Definition slice (s : jsstring) (from to : Z) : jsstring :=
  firstn (Z.to_nat (to - from)) (skipn (Z.to_nat from) s).

(** The variables of the backward scan of [extname]. *)
Record ext_scan : Type := {
  startDot : Z;
  startPart : Z;
  endIdx : Z;
  matchedSlash : bool;
  preDotState : Z
}.

(** The loop [for (i = path.length - 1; i >= 0; --i)], [n] being [i + 1]. *)
Fixpoint extname_loop (n : nat) (path : jsstring) (st : ext_scan) : ext_scan :=
  match n with
  | O => st
  | S i =>
    let code := nth i path 0%N in
    if N.eqb code CHAR_FORWARD_SLASH then
      if negb (matchedSlash st) then
        {| startDot := startDot st; startPart := Z.of_nat i + 1;
           endIdx := endIdx st; matchedSlash := matchedSlash st;
           preDotState := preDotState st |}
      else extname_loop i path st
    else
      let st1 :=
        if endIdx st =? -1 then
          {| startDot := startDot st; startPart := startPart st;
             endIdx := Z.of_nat i + 1; matchedSlash := false;
             preDotState := preDotState st |}
        else st in
      let st2 :=
        if N.eqb code CHAR_DOT then
          if startDot st1 =? -1 then
            {| startDot := Z.of_nat i; startPart := startPart st1;
               endIdx := endIdx st1; matchedSlash := matchedSlash st1;
               preDotState := preDotState st1 |}
          else if negb (preDotState st1 =? 1) then
            {| startDot := startDot st1; startPart := startPart st1;
               endIdx := endIdx st1; matchedSlash := matchedSlash st1;
               preDotState := 1 |}
          else st1
        else if negb (startDot st1 =? -1) then
          {| startDot := startDot st1; startPart := startPart st1;
             endIdx := endIdx st1; matchedSlash := matchedSlash st1;
             preDotState := -1 |}
        else st1 in
      extname_loop i path st2
  end.

(** [path.extname(p)]. *)
Definition extname (path : jsstring) : jsstring :=
  let st := extname_loop (List.length path) path
              {| startDot := -1; startPart := 0; endIdx := -1;
                 matchedSlash := true; preDotState := 0 |} in
  if (startDot st =? -1) || (endIdx st =? -1) || (preDotState st =? 0)
     || ((preDotState st =? 1) && (startDot st =? endIdx st - 1)
         && (startDot st =? startPart st + 1))
  then []
  else slice path (startDot st) (endIdx st).

(** The scan of [basename] without a suffix: [(start, end, matchedSlash)]. *)
Fixpoint basename_loop (n : nat) (path : jsstring) (st : Z * Z * bool)
  : Z * Z * bool :=
  match n with
  | O => st
  | S i =>
    let '(start, e, matched) := st in
    if N.eqb (nth i path 0%N) CHAR_FORWARD_SLASH then
      if negb matched then (Z.of_nat i + 1, e, matched)
      else basename_loop i path st
    else if e =? -1 then basename_loop i path (start, Z.of_nat i + 1, false)
    else basename_loop i path st
  end.

(** [path.basename(p)]. *)
Definition basename (path : jsstring) : jsstring :=
  let '(start, e, _) := basename_loop (List.length path) path (0, -1, true) in
  if e =? -1 then [] else slice path start e.

End NodePath.

(* ================================================================== *)
(** * Effects: exceptions, the environment and the trace *)
(* ================================================================== *)

Module Eff.

Import JS.

(** An [Error] object: its name, its message and the [code] of Node's
    system errors. *)
Record error_obj : Type := {
  err_name : jsstring;
  err_message : jsstring;
  err_code : option jsstring
}.

(** What a [throw] carries: an [Error] object or any other value. *)
Inductive exn : Type :=
| ErrorObj (e : error_obj)
| Thrown (v : value).

(** [new Error(message)]. *)
Definition mkError (message : jsstring) : exn :=
  ErrorObj {| err_name := js "Error"; err_message := message;
              err_code := None |}.

Definition URIError : exn :=
  ErrorObj {| err_name := js "URIError"; err_message := js "URI malformed";
              err_code := None |}.

Definition TypeError (message : jsstring) : exn :=
  ErrorObj {| err_name := js "TypeError"; err_message := message;
              err_code := None |}.

(** [String(v)] and [`${v}`]: the text, or the [TypeError] of a value that
    cannot be converted. *)
Definition ToString (v : value) : exn + jsstring :=
  if stringable v then inr (to_string v)
  else inl (TypeError (js "Cannot convert object to primitive value")).

(** The [TypeError] of reading the property [k] of [v], which is [null]
    or [undefined]. *)
Definition cannot_read (v : value) (k : jsstring) : exn :=
  TypeError (js "Cannot read properties of " ++ to_string v
               ++ js " (reading '" ++ k ++ js "')").

(** What was thrown, as a value the [catch] reads properties of; an
    [Error] object is never [null]. *)
Definition thrown_value (e : exn) : value :=
  match e with
  | ErrorObj _ => VObj []
  | Thrown v => v
  end.

(** [error.code] and [error.message], as values; [None] is the
    [TypeError] of a property read on [null] or [undefined]. *)
Definition exn_code (e : exn) : option value :=
  match e with
  | ErrorObj o =>
    Some (match err_code o with Some c => VStr c | None => VUndefined end)
  | Thrown v => get v (js "code")
  end.

Definition exn_message (e : exn) : option value :=
  match e with
  | ErrorObj o => Some (VStr (err_message o))
  | Thrown v => get v (js "message")
  end.

Inductive body : Type :=
| BodyJSON (v : value)                         (* [JSON.stringify(v)] *)
| BodyForm (field fileName : jsstring) (bytes : list N).

Record request : Type := {
  req_url : jsstring;
  req_method : jsstring;
  req_headers : list (jsstring * jsstring);
  req_body : body
}.

Record response : Type := {
  resp_status : Z;
  resp_text : error_obj + jsstring;     (* [await response.text()] *)
  resp_json : error_obj + value         (* [await response.json()] *)
}.

(** [response.ok]: a status in the range 200-299. *)
Definition resp_ok (r : response) : bool :=
  (200 <=? resp_status r)%Z && (resp_status r <=? 299)%Z.

Record stats : Type := { isFile : bool; size : Z }.

Inductive file_data : Type :=
| Text (s : jsstring)
| Bytes (bs : list N).

(** Everything the code does to the outside world, in order. *)
Inductive event : Type :=
| EvStat (path : jsstring)
| EvReadFile (path : jsstring)
| EvMkdir (path : jsstring)
| EvWriteFile (path : jsstring) (data : file_data)
| EvFetch (req : request)
| EvSleep (ms : Z)
| EvLLM (prompt : jsstring).

(** The outside world.  Each answer may depend on how many questions of
    its kind were already asked. *)
Record env : Type := {
  date_now : nat -> Z;                          (* [Date.now()] *)
  random_bytes : nat -> nat -> list N;          (* [crypto.randomBytes(n)] *)
  fs_stat : nat -> jsstring -> error_obj + stats;
  fs_readFile : nat -> jsstring -> error_obj + file_data;
  fs_mkdir : nat -> jsstring -> option error_obj;
  fs_writeFile : nat -> jsstring -> file_data -> option error_obj;
  net_fetch : nat -> request -> error_obj + response;
  callLLM : option (nat -> jsstring -> exn + jsstring);
  (* whether an abort signal held by the caller is raised when the k-th
     network request is about to be issued; nothing in the sources takes
     or reads such a signal *)
  abort_signal : nat -> bool;
  path_resolve : jsstring -> jsstring;          (* [path.resolve(p)] *)
  path_join : jsstring -> jsstring -> jsstring; (* [path.join(a, b)] *)
  iso_date : Z -> jsstring; (* [new Date(ms).toISOString().slice(0, 10)] *)
  (* [Buffer.from(v, "base64")] *)
  buffer_from_base64 : value -> error_obj + list N
}.

Record state : Type := {
  n_clock : nat;
  n_random : nat;
  n_fs : nat;
  n_net : nat;
  n_llm : nat;
  trace : list event
}.

Definition init : state :=
  {| n_clock := 0; n_random := 0; n_fs := 0; n_net := 0; n_llm := 0;
     trace := [] |}.

Inductive outcome (A : Type) : Type :=
| Ok (a : A)
| Throw (e : exn)
| OutOfFuel.

Arguments Ok {A} a.
Arguments Throw {A} e.
Arguments OutOfFuel {A}.

Definition M (A : Type) : Type := state -> outcome A * state.

Definition ret {A} (a : A) : M A := fun s => (Ok a, s).
Definition throw {A} (e : exn) : M A := fun s => (Throw e, s).
Definition out_of_fuel {A} : M A := fun s => (OutOfFuel, s).

Definition bind {A B} (c : M A) (k : A -> M B) : M B :=
  fun s =>
    match c s with
    | (Ok a, s') => k a s'
    | (Throw e, s') => (Throw e, s')
    | (OutOfFuel, s') => (OutOfFuel, s')
    end.

(** [try { c } catch (e) { h e }]. *)
Definition try_catch {A} (c : M A) (h : exn -> M A) : M A :=
  fun s =>
    match c s with
    | (Throw e, s') => h e s'
    | r => r
    end.

(** Lifting of a partial built-in: [None] raises [e]. *)
Definition lift_option {A} (o : option A) (e : exn) : M A :=
  match o with Some a => ret a | None => throw e end.

Definition lift_sum {A} (r : exn + A) : M A :=
  match r with inl e => throw e | inr a => ret a end.

Definition lift_err {A} (r : error_obj + A) : M A :=
  match r with inl e => throw (ErrorObj e) | inr a => ret a end.

Definition log (ev : event) (s : state) : list event := trace s ++ [ev].

Section Primitives.

Variable E : env.

Definition DateNow : M Z := fun s =>
  (Ok (date_now E (n_clock s)),
   {| n_clock := S (n_clock s); n_random := n_random s; n_fs := n_fs s;
      n_net := n_net s; n_llm := n_llm s; trace := trace s |}).

Definition randomBytes (n : nat) : M (list N) := fun s =>
  (Ok (random_bytes E (n_random s) n),
   {| n_clock := n_clock s; n_random := S (n_random s); n_fs := n_fs s;
      n_net := n_net s; n_llm := n_llm s; trace := trace s |}).

Definition fs_step (ev : event) (s : state) : state :=
  {| n_clock := n_clock s; n_random := n_random s; n_fs := S (n_fs s);
     n_net := n_net s; n_llm := n_llm s; trace := log ev s |}.

Definition stat (path : jsstring) : M stats := fun s =>
  lift_err (fs_stat E (n_fs s) path) (fs_step (EvStat path) s).

(** [fs.readFile(path)] yields the octets, [fs.readFile(path, "utf-8")]
    the decoded text. *)
Definition readFile (path : jsstring) : M (list N) := fun s =>
  match fs_readFile E (n_fs s) path with
  | inl e => (Throw (ErrorObj e), fs_step (EvReadFile path) s)
  | inr (Bytes bs) => (Ok bs, fs_step (EvReadFile path) s)
  | inr (Text t) => (Ok (utf8_encode t), fs_step (EvReadFile path) s)
  end.

Definition readFileUtf8 (path : jsstring) : M jsstring := fun s =>
  match fs_readFile E (n_fs s) path with
  | inl e => (Throw (ErrorObj e), fs_step (EvReadFile path) s)
  | inr (Text t) => (Ok t, fs_step (EvReadFile path) s)
  | inr (Bytes bs) => (Ok (decode_utf8 bs), fs_step (EvReadFile path) s)
  end.

Definition mkdir (path : jsstring) : M unit := fun s =>
  match fs_mkdir E (n_fs s) path with
  | Some e => (Throw (ErrorObj e), fs_step (EvMkdir path) s)
  | None => (Ok tt, fs_step (EvMkdir path) s)
  end.

Definition writeFile (path : jsstring) (data : file_data) : M unit := fun s =>
  match fs_writeFile E (n_fs s) path data with
  | Some e => (Throw (ErrorObj e), fs_step (EvWriteFile path data) s)
  | None => (Ok tt, fs_step (EvWriteFile path data) s)
  end.

Definition fetch (req : request) : M response := fun s =>
  lift_err (net_fetch E (n_net s) req)
    {| n_clock := n_clock s; n_random := n_random s; n_fs := n_fs s;
       n_net := S (n_net s); n_llm := n_llm s;
       trace := log (EvFetch req) s |}.

(** [await new Promise((resolve) => setTimeout(resolve, ms))]. *)
Definition sleep (ms : Z) : M unit := fun s =>
  (Ok tt,
   {| n_clock := n_clock s; n_random := n_random s; n_fs := n_fs s;
      n_net := n_net s; n_llm := n_llm s; trace := log (EvSleep ms) s |}).

(** [await api.callLLM({ messages: [{ role: "user", content: prompt }] })]
    for a host that provides [llm]. *)
Definition invokeLLM (llm : nat -> jsstring -> exn + jsstring)
  (prompt : jsstring) : M jsstring := fun s =>
  lift_sum (llm (n_llm s) prompt)
    {| n_clock := n_clock s; n_random := n_random s; n_fs := n_fs s;
       n_net := n_net s; n_llm := S (n_llm s);
       trace := log (EvLLM prompt) s |}.

End Primitives.

Declare Scope eff_scope.
Delimit Scope eff_scope with eff.
Notation "x <- c ;; k" := (bind c (fun x => k))
  (at level 61, c at next level, right associativity) : eff_scope.

(** A computation that takes every state [s] to a state related to [s]
    by [R], however it ends. *)
Definition preserves {A} (R : state -> state -> Prop) (c : M A) : Prop :=
  forall s, R s (snd (c s)).

(** No request went to the network between two states. *)
Definition no_network (s s' : state) : Prop := n_net s' = n_net s.

(** The events between two states all satisfy [P]. *)
Definition extends_by (P : event -> Prop) (s s' : state) : Prop :=
  exists evs, trace s' = trace s ++ evs /\ Forall P evs.

(** A computation that always ends, with a value or an exception. *)
Definition terminates {A} (c : M A) : Prop :=
  forall s, fst (c s) <> OutOfFuel.

(** The requests of a trace, in order. *)
Definition fetches (tr : list event) : list request :=
  flat_map (fun ev => match ev with EvFetch r => [r] | _ => [] end) tr.

Definition is_readFile (ev : event) : bool :=
  match ev with EvReadFile _ => true | _ => false end.

End Eff.

(* ================================================================== *)
(** * The ASR client *)
(* ================================================================== *)

Module AsrClient.

Import JS Eff.
Local Open Scope eff_scope.
Local Open Scope Z_scope.

Record AsrConfig : Type := {
  serviceUrl : jsstring;
  appid : option jsstring;
  accessKeyId : option jsstring;
  accessKeySecret : option jsstring
}.

Record AsrSegment : Type := {
  speaker : value;
  text : jsstring;
  startTime : value;
  endTime : value
}.

Record AsrResult : Type := {
  res_text : jsstring;
  res_orderId : value;
  res_segments : list AsrSegment
}.

(** The constructor: the spread of [config] comes after the default, so
    the [serviceUrl] of [config] is the one kept. *)
Definition new (config : AsrConfig) : AsrConfig :=
  {| serviceUrl := serviceUrl config; appid := appid config;
     accessKeyId := accessKeyId config;
     accessKeySecret := accessKeySecret config |}.

(** [o || d] for an optional string. *)
Definition str_or (o : option jsstring) (d : jsstring) : jsstring :=
  match o with
  | Some s => if str_truthy s then s else d
  | None => d
  end.

(** A [Record<string, string>]: its own properties in the order
    [Object.keys] enumerates them. *)
Definition params : Type := list (jsstring * jsstring).

Definition object_keys (p : params) : list jsstring := List.map fst p.

(** [params[k]]; [None] is [undefined]. *)
Fixpoint param_get (p : params) (k : jsstring) : option jsstring :=
  match p with
  | [] => None
  | (k', v) :: r => if str_eqb k k' then Some v else param_get r k
  end.

Definition param_truthy (p : params) (k : jsstring) : bool :=
  match param_get p k with Some v => str_truthy v | None => false end.

(** [encodeURIComponent(params[k])]. *)
Definition encode_param (p : params) (k : jsstring) : option jsstring :=
  match param_get p k with
  | Some v => encodeURIComponent v
  | None => Some (js "undefined")
  end.

(** [Array.prototype.sort()] without a comparator, on strings: ascending
    in code-unit order, stable. *)
Fixpoint sort_insert (x : jsstring) (l : list jsstring) : list jsstring :=
  match l with
  | [] => [x]
  | y :: r => if str_ltb y x then y :: sort_insert x r else x :: l
  end.

Definition sort (l : list jsstring) : list jsstring :=
  fold_right sort_insert [] l.

(** [`${encodeURIComponent(k)}=${encodeURIComponent(params[k])}`]. *)
Definition encode_pair (p : params) (k : jsstring) : option jsstring :=
  match encodeURIComponent k with
  | None => None
  | Some ek =>
    match encode_param p k with
    | None => None
    | Some ev => Some (ek ++ js "=" ++ ev)
    end
  end.

(** [keys.map(f)] for an [f] that may throw: the first failure wins. *)
Fixpoint map_opt {A B} (f : A -> option B) (l : list A) : option (list B) :=
  match l with
  | [] => Some []
  | x :: r =>
    match f x with
    | None => None
    | Some y =>
      match map_opt f r with
      | None => None
      | Some ys => Some (y :: ys)
      end
    end
  end.

(** A [params] record as it is at run time.  Its declared type says
    strings, but [pollResult] stores in it the [orderId] it was handed,
    and [transcribe] hands it what the upload reply held under that name,
    which can be any value. *)
Definition raw_params : Type := list (jsstring * value).

(** A record of strings, seen as such a record. *)
Definition as_raw (p : params) : raw_params :=
  List.map (fun entry => (fst entry, VStr (snd entry))) p.

(** [encodeURIComponent(v)]: [v] is converted to a string first. *)
Definition encode_value (v : value) : exn + jsstring :=
  match ToString v with
  | inl e => inl e
  | inr text =>
    match encodeURIComponent text with
    | Some encoded => inr encoded
    | None => inl URIError
    end
  end.

(** [`${encodeURIComponent(k)}=${encodeURIComponent(params[k])}`]. *)
Definition encode_raw_pair (p : raw_params) (k : jsstring) : exn + jsstring :=
  match encodeURIComponent k with
  | None => inl URIError
  | Some ek =>
    match encode_value (lookup k p) with
    | inl e => inl e
    | inr ev => inr (ek ++ js "=" ++ ev)
    end
  end.

Fixpoint map_err {A B} (f : A -> exn + B) (l : list A) : exn + list B :=
  match l with
  | [] => inr []
  | x :: r =>
    match f x with
    | inl e => inl e
    | inr y =>
      match map_err f r with
      | inl e => inl e
      | inr ys => inr (y :: ys)
      end
    end
  end.

Section Client.

Variable E : env.
Variable config : AsrConfig.

(** [generateSignature]: the only failure is the [URIError] of
    [encodeURIComponent]. *)
Definition generateSignature (p : params) : exn + jsstring :=
  match accessKeySecret config with
  | None => inr []
  | Some secret =>
    if negb (str_truthy secret) then inr []
    else
      let keys :=
        sort (filter (fun k => negb (str_eqb k (js "signature"))
                               && param_truthy p k)
                     (object_keys p)) in
      match map_opt (encode_pair p) keys with
      | None => inl URIError
      | Some pairs =>
        let sortedParams := join (js "&") pairs in
        inr (Crypto.hmac_sha1_base64 secret sortedParams)
      end
  end.

(** [Object.keys(params).map(k => ...).join("&")]. *)
Definition queryString (p : params) : exn + jsstring :=
  match map_opt (encode_pair p) (object_keys p) with
  | None => inl URIError
  | Some pairs => inr (join (js "&") pairs)
  end.

(** [generateSignature] and the query string on a record as it is at run
    time: a parameter is signed when its value is truthy, and every value
    is converted to a string where it is encoded. *)
Definition generateSignature_raw (p : raw_params) : exn + jsstring :=
  match accessKeySecret config with
  | None => inr []
  | Some secret =>
    if negb (str_truthy secret) then inr []
    else
      let keys :=
        sort (filter (fun k => negb (str_eqb k (js "signature"))
                               && truthy (lookup k p))
                     (List.map fst p)) in
      match map_err (encode_raw_pair p) keys with
      | inl e => inl e
      | inr pairs =>
        let sortedParams := join (js "&") pairs in
        inr (Crypto.hmac_sha1_base64 secret sortedParams)
      end
  end.

Definition queryString_raw (p : raw_params) : exn + jsstring :=
  match map_err (encode_raw_pair p) (List.map fst p) with
  | inl e => inl e
  | inr pairs => inr (join (js "&") pairs)
  end.

Definition allowed_extensions : list jsstring :=
  [js ".wav"; js ".mp3"; js ".m4a"].

Definition checkAudioFile (audioPath : jsstring) : M unit :=
  try_catch
    (stats <- stat E audioPath ;;
     if negb (isFile stats)
     then throw (mkError (js "不是有效的文件: " ++ audioPath))
     else
       let ext := toLowerCase (NodePath.extname audioPath) in
       if negb (arr_includes allowed_extensions ext)
       then throw (mkError (js "不支持的音频格式: " ++ ext
                              ++ js "，仅支持 wav/mp3/m4a"))
       else ret tt)
    (fun error =>
       code <- lift_option (exn_code error)
                 (cannot_read (thrown_value error) (js "code")) ;;
       if strict_eq_str code (js "ENOENT")
       then throw (mkError (js "音频文件不存在: " ++ audioPath))
       else throw error).

(** [result.k]: a [TypeError] when [result] is [null]. *)
Definition prop (v : value) (k : jsstring) : M value :=
  lift_option (get v k) (cannot_read v k).

(** [throw new Error(`<prefix>${result.code} - ${result.descInfo ||
    "未知错误"}`)]: the two values are converted to strings in turn, and
    a conversion that fails throws its [TypeError] instead. *)
Definition vendor_error {A} (prefix : jsstring) (result code : value) : M A :=
  codeText <- lift_sum (ToString code) ;;
  descInfo <- prop result (js "descInfo") ;;
  descText <- lift_sum (ToString (or_else descInfo (VStr (js "未知错误")))) ;;
  throw (mkError (prefix ++ codeText ++ js " - " ++ descText)).

Definition uploadAudio (audioPath : jsstring) : M value :=
  stats <- stat E audioPath ;;
  let fileSize := size stats in
  let fileName := NodePath.basename audioPath in
  now <- DateNow E ;;
  let timestamp := Z_to_string (now / 1000) in
  rb <- randomBytes E 8 ;;
  let nonce := Crypto.hex rb in
  let params : params :=
    [ (js "appId", str_or (appid config) []);
      (js "accessKeyId", str_or (accessKeyId config) []);
      (js "timestamp", timestamp);
      (js "nonce", nonce);
      (js "fileSize", Z_to_string fileSize);
      (js "fileName", fileName);
      (js "language", js "zh");
      (js "duration", js "0") ] in
  signature <- lift_sum (generateSignature params) ;;
  query <- lift_sum (queryString params) ;;
  let uploadUrl := serviceUrl config ++ js "/v1/upload?" ++ query in
  fileBuffer <- readFile E audioPath ;;
  response <-
    fetch E {| req_url := uploadUrl; req_method := js "POST";
               req_headers := [(js "signature", signature)];
               req_body := BodyForm (js "file") fileName fileBuffer |} ;;
  if negb (resp_ok response) then
    text <- lift_err (resp_text response) ;;
    throw (mkError (js "上传失败: " ++ Z_to_string (resp_status response)
                      ++ js " " ++ text))
  else
    result <- lift_err (resp_json response) ;;
    code <- prop result (js "code") ;;
    if negb (strict_eq_str code (js "000000")) then
      vendor_error (js "上传失败: ") result code
    else ret result.

(** The parameters and the request of one status query.  [orderId] goes
    into the record as [pollResult] was handed it. *)
Definition poll_params (orderId : value) (timestamp nonce : jsstring)
  : raw_params :=
  [ (js "appId", VStr (str_or (appid config) []));
    (js "accessKeyId", VStr (str_or (accessKeyId config) []));
    (js "timestamp", VStr timestamp);
    (js "nonce", VStr nonce);
    (js "orderId", orderId) ].

Definition poll_request (query signature : jsstring) : request :=
  {| req_url := serviceUrl config ++ js "/v1/getResult?" ++ query;
     req_method := js "POST";
     req_headers := [(js "Content-Type", js "application/json");
                     (js "signature", signature)];
     req_body := BodyJSON (VObj []) |}.

(** One turn of the loop of [pollResult], up to the wait: [Some result]
    when the loop returns [result] (status 4), [None] when it goes on to
    wait and retry (status 3); every other case throws. *)
Definition pollAttempt (orderId : value) : M (option value) :=
  now <- DateNow E ;;
  let timestamp := Z_to_string (now / 1000) in
  rb <- randomBytes E 8 ;;
  let nonce := Crypto.hex rb in
  let params := poll_params orderId timestamp nonce in
  signature <- lift_sum (generateSignature_raw params) ;;
  query <- lift_sum (queryString_raw params) ;;
  response <- fetch E (poll_request query signature) ;;
  if negb (resp_ok response) then
    throw (mkError (js "查询失败: " ++ Z_to_string (resp_status response)))
  else
    result <- lift_err (resp_json response) ;;
    code <- prop result (js "code") ;;
    if negb (strict_eq_str code (js "000000")) then
      vendor_error (js "查询失败: ") result code
    else
      let status :=
        get_opt (get_opt (get_opt result (js "content")) (js "orderInfo"))
                (js "status") in
      if strict_eq_num status 4 then ret (Some result)
      else if negb (strict_eq_num status 3) then
        statusText <- lift_sum (ToString status) ;;
        throw (mkError (js "转写异常: 状态码=" ++ statusText))
      else ret None.

(** The [while (retries < maxRetries)] loop; [fuel] bounds the number of
    turns. *)
Fixpoint pollLoop (fuel : nat) (orderId : value) (maxRetries retries : Z)
  : M value :=
  if retries <? maxRetries then
    match fuel with
    | O => out_of_fuel
    | S fuel' =>
      attempt <- pollAttempt orderId ;;
      match attempt with
      | Some result => ret result
      | None =>
        _ <- sleep 10000 ;;
        pollLoop fuel' orderId maxRetries (retries + 1)
      end
    end
  else
    throw (mkError (js "查询超时: 已重试 " ++ Z_to_string maxRetries
                      ++ js " 次")).

(** The default of the parameter [maxRetries = 100]. *)
Definition defaultRetries (maxRetries : option Z) : Z :=
  match maxRetries with Some n => n | None => 100 end.

(** [pollResult(orderId, maxRetries = 100)]. *)
Definition pollResult (orderId : value) (maxRetries : option Z) : M value :=
  let maxRetries := defaultRetries maxRetries in
  pollLoop (Z.to_nat maxRetries) orderId maxRetries 0.

(** [for (const sentence of sentences)]: the elements the iteration
    visits, a [TypeError] when the value is not iterable. *)
Definition iterate (v : value) : exn + list value :=
  match v with
  | VArr l => inr l
  | VStr s => inr (List.map VStr (string_chars s))
  | _ => inl (TypeError (js "sentences is not iterable"))
  end.

(** The body of the loop of [parseTranscript], with its two arrays. *)
Fixpoint parseLoop (sentences : list value)
  (segments : list AsrSegment) (textParts : list jsstring)
  : exn + (list AsrSegment * list jsstring) :=
  match sentences with
  | [] => inr (segments, textParts)
  | sentence :: rest =>
    match get sentence (js "speakerId"), get sentence (js "text"),
          get sentence (js "beginTime"), get sentence (js "endTime") with
    | Some speakerId, Some text0, Some startTime, Some endTime =>
      let speaker := or_else speakerId (VStr (js "S0")) in
      match or_else text0 (VStr []) with
      | VStr text =>
        if str_truthy (trim text) then
          match ToString speaker with
          | inl e => inl e
          | inr label =>
            parseLoop rest
              (segments ++ [{| speaker := speaker; text := trim text;
                               startTime := startTime; endTime := endTime |}])
              (textParts ++ [label ++ js ": " ++ trim text])
          end
        else parseLoop rest segments textParts
      | _ => inl (TypeError (js "text.trim is not a function"))
      end
    | _, _, _, _ => inl (cannot_read sentence (js "speakerId"))
    end
  end.

Definition parseTranscript (result : value)
  : exn + (jsstring * list AsrSegment) :=
  match get result (js "content") with
  | None => inl (cannot_read result (js "content"))
  | Some content =>
    let sentences :=
      or_else (get_opt (get_opt content (js "orderResult")) (js "sentences"))
              (VArr []) in
    match iterate sentences with
    | inl e => inl e
    | inr elems =>
      match parseLoop elems [] [] with
      | inl e => inl e
      | inr (segments, textParts) => inr (join LF textParts, segments)
      end
    end
  end.

Definition transcribe (audioPath : jsstring) : M AsrResult :=
  _ <- checkAudioFile audioPath ;;
  uploadResult <- uploadAudio audioPath ;;
  let orderId := get_opt (get_opt uploadResult (js "content")) (js "orderId") in
  if negb (truthy orderId) then
    throw (mkError (js "上传失败：未获取到订单ID"))
  else
    result <- pollResult orderId None ;;
    parsed <- lift_sum (parseTranscript result) ;;
    ret {| res_text := fst parsed; res_orderId := orderId;
           res_segments := snd parsed |}.

End Client.

End AsrClient.

(* ================================================================== *)
(** * The renderer client *)
(* ================================================================== *)

Module RendererClient.

Import JS Eff.
Local Open Scope eff_scope.
Local Open Scope Z_scope.

Record RendererConfig : Type := {
  markmapUrl : option jsstring;
  mermaidUrl : option jsstring
}.

Record RenderOptions : Type := {
  width : option Z;
  height : option Z;
  format : option jsstring;
  theme : option jsstring
}.

Definition no_options : RenderOptions :=
  {| width := None; height := None; format := None; theme := None |}.

Record RenderResult : Type := {
  success : bool;
  imageData : option (list N);
  error : option jsstring
}.

(** The configuration the constructor stores, both URLs defaulted. *)
Record client : Type := {
  cl_markmapUrl : jsstring;
  cl_mermaidUrl : jsstring
}.

Definition new (config : RendererConfig) : client :=
  {| cl_markmapUrl :=
       AsrClient.str_or (markmapUrl config) (js "http://localhost:3000");
     cl_mermaidUrl :=
       AsrClient.str_or (mermaidUrl config) (js "http://localhost:3001") |}.

Definition failure (msg : jsstring) : RenderResult :=
  {| success := false; imageData := None; error := Some msg |}.

Section Client.

Variable E : env.
Variable this : client.

Definition opt_default {A} (o : option A) (d : A) : A :=
  match o with Some a => a | None => d end.

Definition renderMarkmap (markdown : jsstring) (options : RenderOptions)
  : M RenderResult :=
  let width := opt_default (width options) 1920 in
  let height := opt_default (height options) 1080 in
  let format := opt_default (format options) (js "png") in
  try_catch
    (response <-
       fetch E {| req_url := cl_markmapUrl this ++ js "/render";
                  req_method := js "POST";
                  req_headers := [(js "Content-Type", js "application/json")];
                  req_body :=
                    BodyJSON (VObj [(js "markdown", VStr markdown);
                                    (js "width", VNum width);
                                    (js "height", VNum height);
                                    (js "format", VStr format)]) |} ;;
     if negb (resp_ok response) then
       text <- lift_err (resp_text response) ;;
       ret (failure (js "渲染失败: " ++ Z_to_string (resp_status response)
                       ++ js " " ++ text))
     else
       result <- lift_err (resp_json response) ;;
       image <- AsrClient.prop result (js "image") ;;
       if truthy image then
         imageData <- lift_err (buffer_from_base64 E image) ;;
         ret {| success := true; imageData := Some imageData; error := None |}
       else ret (failure (js "渲染结果为空")))
    (fun error =>
       message <- lift_option (exn_message error)
                    (cannot_read (thrown_value error) (js "message")) ;;
       ret (failure (js "Markmap 服务不可用: " ++ to_string message))).

End Client.

End RendererClient.

(* ================================================================== *)
(** * The meeting tools *)
(* ================================================================== *)

Module Tools.

Import JS Eff.
Local Open Scope eff_scope.
Local Open Scope Z_scope.

Record ToolsConfig : Type := {
  outputDir : jsstring;
  asr : AsrClient.AsrConfig;
  renderer : option RendererClient.RendererConfig
}.

(** Modelled from the spec: [jsonResult] of the plugin SDK is not among
    the sources; the "structured result object carrying a status flag and
    message" is the payload a tool hands to it. *)
Inductive tool_result : Type :=
| jsonResult (payload : value).

Record summarize_input : Type := {
  s_source : jsstring;
  s_output_name : option jsstring
}.

Record mindmap_input : Type := {
  source : jsstring;
  output_name : option jsstring;
  render_image : option bool
}.

(** The test both tools apply to [input.source]. *)
Definition looks_like_path (source : jsstring) : bool :=
  endsWith source (js ".md") || includes source (js "/").

Definition summaryPrompt (sourceContent : jsstring) : jsstring :=
  js "请根据以下会议转写内容，生成一份专业的会议纪要。" ++ LF ++ LF
  ++ js "要求：" ++ LF
  ++ js "1. **会议基本信息**：提取会议主题、参会人员等信息" ++ LF
  ++ js "2. **会议议题**：总结会议讨论的主要议题" ++ LF
  ++ js "3. **讨论要点**：按议题分类，总结每个议题的讨论内容" ++ LF
  ++ js "4. **决策事项**：明确列出会议中做出的决策" ++ LF
  ++ js "5. **待办事项**：列出需要后续跟进的任务，包括负责人（如果提到）" ++ LF
  ++ js "6. **使用 Markdown 格式**：使用标题、列表、表格等格式" ++ LF ++ LF
  ++ js "会议转写内容：" ++ LF
  ++ js "---" ++ LF
  ++ sourceContent ++ LF
  ++ js "---" ++ LF ++ LF
  ++ js "请直接输出会议纪要，使用 Markdown 格式。".

Definition mindmapPrompt (sourceContent : jsstring) : jsstring :=
  js "请根据以下内容生成一个思维导图，使用 Markdown 格式（Markmap 语法）。"
  ++ LF ++ LF
  ++ js "要求：" ++ LF
  ++ js "1. 使用 Markdown 标题层级（# ## ### ####）表示思维导图的层级结构" ++ LF
  ++ js "2. 每个节点简洁明了，不超过 10 个字" ++ LF
  ++ js "3. 层级不超过 4 层" ++ LF
  ++ js "4. 主题明确，分支合理" ++ LF
  ++ js "5. 只输出 Markdown 内容，不要添加代码块标记" ++ LF ++ LF
  ++ js "内容：" ++ LF
  ++ js "---" ++ LF
  ++ sourceContent ++ LF
  ++ js "---".

Definition tip_with_image : jsstring := js "已生成 Markdown 和 PNG 图片".
Definition tip_without_image : jsstring :=
  js "已生成 Markdown（渲染服务不可用，未生成图片）".

Section Tools.

Variable E : env.
Variable config : ToolsConfig.

Definition rendererClient : option RendererClient.client :=
  match renderer config with
  | Some r => Some (RendererClient.new r)
  | None => None
  end.

Definition ensureOutputDir (outputDir : jsstring) : M jsstring :=
  let fullPath := path_resolve E outputDir in
  _ <- mkdir E fullPath ;;
  ret fullPath.

Definition generateOutputName (prefix suffix : jsstring) : M jsstring :=
  now1 <- DateNow E ;;
  let date := iso_date E now1 in
  now2 <- DateNow E ;;
  let time := Z_to_base36 now2 in
  ret (date ++ js "_" ++ prefix ++ js "_" ++ time ++ suffix).

Definition saveMarkdown (outputDir name content : jsstring) : M jsstring :=
  dir <- ensureOutputDir outputDir ;;
  let filePath :=
    path_join E dir (if endsWith name (js ".md") then name
                     else name ++ js ".md") in
  _ <- writeFile E filePath (Text content) ;;
  ret filePath.

(** The first step of [meeting_summarize] and [meeting_mindmap]. *)
Definition readSource (source : jsstring) : M jsstring :=
  if looks_like_path source then readFileUtf8 E source else ret source.

(** [input.output_name || generateOutputName(prefix, suffix)]. *)
Definition outputNameOr (name : option jsstring) (prefix suffix : jsstring)
  : M jsstring :=
  match name with
  | Some n => if str_truthy n then ret n else generateOutputName prefix suffix
  | None => generateOutputName prefix suffix
  end.

(** The [catch] of every tool: a result with status [error]. *)
Definition error_result (fallback : jsstring) (error : exn) : M tool_result :=
  ret (jsonResult
         (VObj [(js "status", VStr (js "error"));
                (js "message",
                 match error with
                 | ErrorObj o => VStr (err_message o)
                 | Thrown _ => VStr fallback
                 end)])).

(** Steps 2 and 3 of [meeting_summarize], for a host that has an LLM. *)
Definition summarize_steps (input : summarize_input)
  (llm : nat -> jsstring -> exn + jsstring) (sourceContent : jsstring)
  : M tool_result :=
  summary <- invokeLLM llm (summaryPrompt sourceContent) ;;
  outputName <- outputNameOr (s_output_name input)
                  (js "meeting") (js "_summary.md") ;;
  outputPath <- saveMarkdown (outputDir config) outputName summary ;;
  ret (jsonResult
         (VObj [(js "status", VStr (js "success"));
                (js "message", VStr (js "会议纪要生成完成"));
                (js "output_file", VStr outputPath)])).

Definition meeting_summarize (input : summarize_input) : M tool_result :=
  try_catch
    (sourceContent <- readSource (s_source input) ;;
     match callLLM E with
     | None => throw (mkError (js "LLM 服务不可用"))
     | Some llm => summarize_steps input llm sourceContent
     end)
    (error_result (js "纪要生成失败")).

(** Step 4 of [meeting_mindmap]: the optional rendering. *)
Definition renderImage (input : mindmap_input)
  (mindmapMarkdown markdownPath : jsstring) : M (option jsstring) :=
  match render_image input, rendererClient with
  | Some false, _ => ret None
  | _, None => ret None
  | _, Some client =>
    renderResult <- RendererClient.renderMarkmap E client mindmapMarkdown
                      RendererClient.no_options ;;
    match RendererClient.success renderResult,
          RendererClient.imageData renderResult with
    | true, Some imageData =>
      let imagePath := replace markdownPath (js ".md") (js ".png") in
      _ <- writeFile E imagePath (Bytes imageData) ;;
      ret (Some imagePath)
    | _, _ => ret None
    end
  end.

(** The result of a successful [meeting_mindmap]. *)
Definition mindmap_success (markdownPath : jsstring)
  (imagePath : option jsstring) : tool_result :=
  jsonResult
    (VObj [(js "status", VStr (js "success"));
           (js "message", VStr (js "思维导图生成完成"));
           (js "markdown_file", VStr markdownPath);
           (js "image_file",
            match imagePath with
            | Some p => VStr p
            | None => VUndefined
            end);
           (js "tip",
            VStr (match imagePath with
                  | Some p =>
                    if str_truthy p then tip_with_image
                    else tip_without_image
                  | None => tip_without_image
                  end))]).

(** Steps 2 to 4 of [meeting_mindmap], for a host that has an LLM. *)
Definition mindmap_steps (input : mindmap_input)
  (llm : nat -> jsstring -> exn + jsstring) (sourceContent : jsstring)
  : M tool_result :=
  mindmapMarkdown <- invokeLLM llm (mindmapPrompt sourceContent) ;;
  outputName <- outputNameOr (output_name input) (js "mindmap") (js ".md") ;;
  markdownPath <- saveMarkdown (outputDir config) outputName mindmapMarkdown ;;
  imagePath <- renderImage input mindmapMarkdown markdownPath ;;
  ret (mindmap_success markdownPath imagePath).

Definition meeting_mindmap (input : mindmap_input) : M tool_result :=
  try_catch
    (sourceContent <- readSource (source input) ;;
     match callLLM E with
     | None => throw (mkError (js "LLM 服务不可用"))
     | Some llm => mindmap_steps input llm sourceContent
     end)
    (error_result (js "思维导图生成失败")).

End Tools.

End Tools.

(* ================================================================== *)
(** * The signer as the specification words it *)
(* ================================================================== *)

Module SignerSpec.

Import JS.


(** "Sort remaining keys lexicographically": the entries, by key. *)
Fixpoint insert_entry (e : jsstring * jsstring)
  (l : list (jsstring * jsstring)) : list (jsstring * jsstring) :=
  match l with
  | [] => [e]
  | e' :: r =>
    if str_ltb (fst e') (fst e) then e' :: insert_entry e r else e :: l
  end.

Definition sort_entries (l : list (jsstring * jsstring))
  : list (jsstring * jsstring) :=
  fold_right insert_entry [] l.



(** "If no secret is configured". *)
Definition no_secret (secret : option jsstring) : Prop :=
  secret = None \/ secret = Some [].

End SignerSpec.

(* ================================================================== *)
(** * Vocabulary of the polling properties *)
(* ================================================================== *)

Module PollSpec.

Import JS Eff.

(** The status a payload reports: [result.content?.orderInfo?.status]. *)
Definition status_of (payload : value) : value :=
  get_opt (get_opt (get_opt payload (js "content")) (js "orderInfo"))
          (js "status").

(** An OK HTTP response whose body is [payload], with the vendor code
    ["000000"]. *)
Definition accepted (resp : response) (payload : value) : Prop :=
  resp_ok resp = true
  /\ resp_json resp = inr payload
  /\ get payload (js "code") = Some (VStr (js "000000")).

(** The [k]-th network request is answered by such a response. *)
Definition answers (E : env) (k : nat) (payload : value) : Prop :=
  forall req,
    exists resp, net_fetch E k req = inr resp /\ accepted resp payload.

(** From the [k]-th request on, [n] answers in a row report status 3. *)
Definition processing_from (E : env) (k n : nat) : Prop :=
  forall i, (i < n)%nat ->
    exists payload, answers E (k + i) payload /\ status_of payload = VNum 3.

(** No unpaired surrogate: the strings [encodeURIComponent] accepts. *)
Definition well_formed (s : jsstring) : bool :=
  forallb (fun o => match o with Some _ => true | None => false end)
          (code_points s).

(** The identifier and the credentials that go into every query string
    are well-formed: the identifier is a value that can be converted to a
    string, and neither that string nor a credential has an unpaired
    surrogate. *)
Definition encodable (config : AsrClient.AsrConfig) (orderId : value)
  : Prop :=
  well_formed (AsrClient.str_or (AsrClient.appid config) []) = true
  /\ well_formed (AsrClient.str_or (AsrClient.accessKeyId config) []) = true
  /\ stringable orderId = true
  /\ well_formed (to_string orderId) = true.

(** The events of the turns that found the order still processing: a
    status query, then the ten-second wait. *)
Definition processing_rounds (reqs : list request) : list event :=
  flat_map (fun r => [EvFetch r; EvSleep 10000]) reqs.

(** A parameter whose key and value can both be URL-encoded. *)
Definition entry_ok (e : jsstring * jsstring) : Prop :=
  well_formed (fst e) = true /\ well_formed (snd e) = true.

(** A parameter of a record as it is at run time whose key and value
    can both be URL-encoded. *)
Definition raw_entry_ok (e : jsstring * value) : Prop :=
  well_formed (fst e) = true
  /\ stringable (snd e) = true
  /\ well_formed (to_string (snd e)) = true.

(** What the encoding of [v] throws when it throws: the [TypeError] of a
    value that cannot be converted to a string, the [URIError] of a text
    that holds an unpaired surrogate. *)
Definition unbuildable (v : value) : exn :=
  if stringable v then URIError
  else TypeError (js "Cannot convert object to primitive value").

(** The error that reports the unexpected [status]; when [status] cannot
    be converted to a string, the [TypeError] of the conversion is what is
    thrown. *)
Definition status_report (status : value) : exn :=
  match ToString status with
  | inl err => err
  | inr text => mkError (js "转写异常: 状态码=" ++ text)
  end.

(** The state once a turn of the loop has read the clock, drawn its nonce
    and sent [req]; and the state once the wait is over. *)
Definition after_fetch (s : state) (req : request) : state :=
  {| n_clock := S (n_clock s); n_random := S (n_random s); n_fs := n_fs s;
     n_net := S (n_net s); n_llm := n_llm s;
     trace := trace s ++ [EvFetch req] |}.

Definition after_sleep (s : state) : state :=
  {| n_clock := n_clock s; n_random := n_random s; n_fs := n_fs s;
     n_net := n_net s; n_llm := n_llm s;
     trace := trace s ++ [EvSleep 10000] |}.

(** The environment [E] with another abort signal. *)
Definition with_abort_signal (E : env) (signal : nat -> bool) : env :=
  {| date_now := date_now E; random_bytes := random_bytes E;
     fs_stat := fs_stat E; fs_readFile := fs_readFile E;
     fs_mkdir := fs_mkdir E; fs_writeFile := fs_writeFile E;
     net_fetch := net_fetch E; callLLM := callLLM E;
     abort_signal := signal;
     path_resolve := path_resolve E; path_join := path_join E;
     iso_date := iso_date E; buffer_from_base64 := buffer_from_base64 E |}.

End PollSpec.

(* ================================================================== *)
(** * Vocabulary of the validation and parsing properties *)
(* ================================================================== *)

Module AsrSpec.

Import JS Eff.

(** [audioPath] does not name an existing regular file: [fs.stat] fails,
    or what it finds is not a file. *)
Definition not_regular_file (E : env) (s : state) (audioPath : jsstring)
  : Prop :=
  match fs_stat E (n_fs s) audioPath with
  | inl _ => True
  | inr st => isFile st = false
  end.

(** The lowercased extension of [audioPath] is outside the allow-list. *)
Definition extension_refused (audioPath : jsstring) : Prop :=
  arr_includes AsrClient.allowed_extensions
    (toLowerCase (NodePath.extname audioPath)) = false.

(** A sentence of the vendor: a speaker id, a text, and the times when
    they are given. *)
Record sentence : Type := {
  speakerId : option jsstring;
  text : option jsstring;
  beginTime : option Z;
  endTime : option Z
}.

Definition field (name : jsstring) (v : option value)
  : list (jsstring * value) :=
  match v with Some x => [(name, x)] | None => [] end.

(** The JSON object of a sentence; a missing field is left out. *)
Definition sentence_json (x : sentence) : value :=
  VObj (field (js "speakerId") (option_map VStr (speakerId x))
        ++ field (js "text") (option_map VStr (text x))
        ++ field (js "beginTime") (option_map VNum (beginTime x))
        ++ field (js "endTime") (option_map VNum (endTime x))).

(** Where [parseTranscript] looks for the sentences:
    [result.content?.orderResult?.sentences]. *)
Definition sentences_of (result : value) : option value :=
  match get result (js "content") with
  | Some content =>
    Some (get_opt (get_opt content (js "orderResult")) (js "sentences"))
  | None => None
  end.

(** The text of a sentence, trimmed; an entry is kept when it is not
    empty. *)
Definition trimmed_text (x : sentence) : jsstring :=
  trim (match text x with Some t => t | None => [] end).

Definition kept (x : sentence) : bool := negb (str_eqb (trimmed_text x) []).

(** The speaker of a retained entry, ["S0"] when the id is missing (or
    empty). *)
Definition speaker_label (x : sentence) : jsstring :=
  match speakerId x with
  | Some id => if str_eqb id [] then js "S0" else id
  | None => js "S0"
  end.

Definition optional_number (o : option Z) : value :=
  match o with Some n => VNum n | None => VUndefined end.

Definition segment_of (x : sentence) : AsrClient.AsrSegment :=
  {| AsrClient.speaker := VStr (speaker_label x);
     AsrClient.text := trimmed_text x;
     AsrClient.startTime := optional_number (beginTime x);
     AsrClient.endTime := optional_number (endTime x) |}.

(** The line ["speaker: text"] of a retained entry. *)
Definition line_of (x : sentence) : jsstring :=
  speaker_label x ++ js ": " ++ trimmed_text x.

End AsrSpec.

(* ================================================================== *)
(** * Vocabulary of the tool properties *)
(* ================================================================== *)

Module ToolSpec.

Import JS Eff.

(** The renderer request fails: the network refuses it, or the response
    is not an OK one, or its body yields no image. *)
Definition render_failure (E : env) (reply : error_obj + response) : Prop :=
  match reply with
  | inl _ => True
  | inr resp =>
    resp_ok resp = false
    \/ match resp_json resp with
       | inl _ => True
       | inr result =>
         truthy (get_opt result (js "image")) = false
         \/ exists e,
              buffer_from_base64 E (get_opt result (js "image")) = inl e
       end
  end.

(** The state once [req] has gone to the network. *)
Definition after_request (s : state) (req : request) : state :=
  {| n_clock := n_clock s; n_random := n_random s; n_fs := n_fs s;
     n_net := S (n_net s); n_llm := n_llm s;
     trace := trace s ++ [EvFetch req] |}.

(** Events that are not the writing of an image, not the reading of a
    file, not a request. *)
Definition not_image_write (ev : event) : Prop :=
  match ev with EvWriteFile _ (Bytes _) => False | _ => True end.

Definition not_read (ev : event) : Prop := is_readFile ev = false.

(** How a tool run from [s] to [s'] gets the content of [source]: it
    reads a file exactly when [source] looks like a path, and that file
    is [source], read first, its text going into the prompt; otherwise
    [source] itself goes into the prompt, which is then the first thing
    done. *)
Definition source_rule (E : env) (source : jsstring)
  (prompt : jsstring -> jsstring) (s s' : state) : Prop :=
  exists evs,
    trace s' = trace s ++ evs
    /\ ((exists p, In (EvReadFile p) evs)
        <-> Tools.looks_like_path source = true)
    /\ (Tools.looks_like_path source = true ->
        exists rest,
          evs = EvReadFile source :: rest
          /\ forall content llm,
              fs_readFile E (n_fs s) source = inr (Text content) ->
              callLLM E = Some llm ->
              exists rest', rest = EvLLM (prompt content) :: rest')
    /\ (Tools.looks_like_path source = false ->
        forall llm,
          callLLM E = Some llm ->
          exists rest, evs = EvLLM (prompt source) :: rest).

(** What [meeting_mindmap] returns when it has the Markdown only. *)
Definition markdown_only (markdownPath : jsstring) : Tools.tool_result :=
  Tools.jsonResult
    (VObj [(js "status", VStr (js "success"));
           (js "message", VStr (js "思维导图生成完成"));
           (js "markdown_file", VStr markdownPath);
           (js "image_file", VUndefined);
           (js "tip",
            VStr (js "已生成 Markdown（渲染服务不可用，未生成图片）"))]).

End ToolSpec.

(* ================================================================== *)
(** * Concrete inputs *)
(* ================================================================== *)

Module Fixtures.

Import JS Eff.

Definition signed_config : AsrClient.AsrConfig :=
  {| AsrClient.serviceUrl := js "http://127.0.0.1:18001";
     AsrClient.appid := Some (js "app");
     AsrClient.accessKeyId := Some (js "ak");
     AsrClient.accessKeySecret := Some (js "key") |}.

Definition unsigned_config : AsrClient.AsrConfig :=
  {| AsrClient.serviceUrl := js "http://127.0.0.1:18001";
     AsrClient.appid := None;
     AsrClient.accessKeyId := None;
     AsrClient.accessKeySecret := None |}.

(** A parameter map with an entry named [signature] and an empty value. *)
Definition some_params : AsrClient.params :=
  [(js "b", js "2"); (js "signature", js "zzz"); (js "a", js "1");
   (js "c", [])].

(** The same map, enumerated in another order. *)
Definition some_params_permuted : AsrClient.params :=
  [(js "c", []); (js "a", js "1"); (js "b", js "2");
   (js "signature", js "zzz")].

(** A vendor payload reporting [status], and the OK response carrying a
    payload. *)
Definition payload_with_status (status : value) : value :=
  VObj [(js "code", VStr (js "000000"));
        (js "content", VObj [(js "orderInfo", VObj [(js "status", status)])])].

Definition ok_response (payload : value) : response :=
  {| resp_status := 200; resp_text := inr []; resp_json := inr payload |}.

Definition enoent : error_obj :=
  {| err_name := js "Error"; err_message := js "ENOENT: no such file";
     err_code := Some (js "ENOENT") |}.

(** A poller fixture: the [k]-th request is answered with the status
    [statuses k]; the caller's abort signal is [signal]. *)
Definition poller (statuses : nat -> value) (signal : nat -> bool) : env :=
  {| date_now := fun k => (1700000000000 + 10000 * Z.of_nat k)%Z;
     random_bytes := fun k n => repeat (N.of_nat k) n;
     fs_stat := fun _ _ => inl enoent;
     fs_readFile := fun _ _ => inl enoent;
     fs_mkdir := fun _ _ => None;
     fs_writeFile := fun _ _ _ => None;
     net_fetch :=
       fun k _ => inr (ok_response (payload_with_status (statuses k)));
     callLLM := None;
     abort_signal := signal;
     path_resolve := fun p => p;
     path_join := fun a b => a ++ js "/" ++ b;
     iso_date := fun _ => js "2026-01-01";
     buffer_from_base64 := fun _ => inr [] |}.

(** Status 3 for the first [n] calls, then [final]. *)
Definition processing_then (n : nat) (final : value) (k : nat) : value :=
  if Nat.ltb k n then VNum 3 else final.

(** An identifier that ends with an unpaired surrogate (["ab\uD800"]),
    and a status that is an object with a [toString] of its own. *)
Definition lone_surrogate_id : jsstring := js "ab" ++ [55296%N].

Definition opaque_status : value := VObj [(js "toString", VNum 1)].

Definition never_aborted (k : nat) : bool := false.
Definition always_aborted (k : nat) : bool := true.

(** Three sentences of a vendor: the second has a blank text, the first
    no speaker id. *)
Definition three_sentences : list AsrSpec.sentence :=
  [ {| AsrSpec.speakerId := None; AsrSpec.text := Some (js " hello ");
       AsrSpec.beginTime := Some 0%Z; AsrSpec.endTime := Some 900%Z |};
    {| AsrSpec.speakerId := Some (js "S1"); AsrSpec.text := Some (js "   ");
       AsrSpec.beginTime := Some 900%Z; AsrSpec.endTime := Some 1000%Z |};
    {| AsrSpec.speakerId := Some (js "S1"); AsrSpec.text := Some (js "world");
       AsrSpec.beginTime := None; AsrSpec.endTime := None |} ].

(** The payload of a completed order with these sentences. *)
Definition completed_payload : value :=
  VObj [(js "code", VStr (js "000000"));
        (js "content",
         VObj [(js "orderInfo", VObj [(js "status", VNum 4)]);
               (js "orderResult",
                VObj [(js "sentences",
                       VArr (List.map AsrSpec.sentence_json
                               three_sentences))])])].

(** A disk on which every path is a regular file of 1024 octets, and a
    network that accepts the upload and then serves the poller. *)
Definition disk : env :=
  {| date_now := fun k => (1700000000000 + 10000 * Z.of_nat k)%Z;
     random_bytes := fun k n => repeat (N.of_nat k) n;
     fs_stat := fun _ _ => inr {| isFile := true; size := 1024 |};
     fs_readFile := fun _ _ => inr (Bytes [82%N; 73%N; 70%N; 70%N]);
     fs_mkdir := fun _ _ => None;
     fs_writeFile := fun _ _ _ => None;
     net_fetch := fun k _ =>
       inr (ok_response
              (match k with
               | O => VObj [(js "code", VStr (js "000000"));
                            (js "content",
                             VObj [(js "orderId", VStr (js "abc123"))])]
               | S O => payload_with_status (VNum 3)
               | _ => completed_payload
               end));
     callLLM := None;
     abort_signal := never_aborted;
     path_resolve := fun p => p;
     path_join := fun a b => a ++ js "/" ++ b;
     iso_date := fun _ => js "2026-01-01";
     buffer_from_base64 := fun _ => inr [] |}.

(** A host with an LLM, a disk that holds notes, and a renderer that
    cannot be reached. *)
Definition fetch_failed : error_obj :=
  {| err_name := js "TypeError"; err_message := js "fetch failed";
     err_code := None |}.

Definition unreachable_renderer : env :=
  {| date_now := fun k => (1700000000000 + 10000 * Z.of_nat k)%Z;
     random_bytes := fun k n => repeat (N.of_nat k) n;
     fs_stat := fun _ _ => inr {| isFile := true; size := 1024 |};
     fs_readFile := fun _ _ => inr (Text (js "S0: hello"));
     fs_mkdir := fun _ _ => None;
     fs_writeFile := fun _ _ _ => None;
     net_fetch := fun _ _ => inl fetch_failed;
     callLLM := Some (fun _ _ => inr (js "# Topic"));
     abort_signal := never_aborted;
     path_resolve := fun p => p;
     path_join := fun a b => a ++ js "/" ++ b;
     iso_date := fun _ => js "2026-01-01";
     buffer_from_base64 := fun _ => inr [] |}.

Definition tools_config : Tools.ToolsConfig :=
  {| Tools.outputDir := js "/out";
     Tools.asr := unsigned_config;
     Tools.renderer :=
       Some {| RendererClient.markmapUrl := None;
               RendererClient.mermaidUrl := None |} |}.

(** A mindmap of a literal text, with an image asked for; and one whose
    literal text has a slash in it. *)
Definition mindmap_of_text : Tools.mindmap_input :=
  {| Tools.source := js "notes of the meeting";
     Tools.output_name := Some (js "mm");
     Tools.render_image := Some true |}.

Definition mindmap_of_slash_text : Tools.mindmap_input :=
  {| Tools.source := js "pros/cons of the plan";
     Tools.output_name := Some (js "mm");
     Tools.render_image := Some false |}.

End Fixtures.

(* ================================================================== *)
(** * The rest of the sources *)
(* ================================================================== *)

(** ** [path.basename] with a suffix *)

Module NodePathSuffix.

Import JS NodePath.
Local Open Scope Z_scope.

(** The variables of the backward scan of [basename(path, suffix)]. *)
Record base_scan : Type := {
  b_start : Z;
  b_end : Z;
  b_matchedSlash : bool;
  b_extIdx : Z;
  b_firstNonSlashEnd : Z
}.

(** The loop [for (i = path.length - 1; i >= 0; --i)], [n] being [i + 1]. *)
Fixpoint basename_suffix_loop (n : nat) (path suffix : jsstring)
  (st : base_scan) : base_scan :=
  match n with
  | O => st
  | S i =>
    let code := nth i path 0%N in
    if N.eqb code CHAR_FORWARD_SLASH then
      if negb (b_matchedSlash st) then
        {| b_start := Z.of_nat i + 1; b_end := b_end st;
           b_matchedSlash := b_matchedSlash st; b_extIdx := b_extIdx st;
           b_firstNonSlashEnd := b_firstNonSlashEnd st |}
      else basename_suffix_loop i path suffix st
    else
      let st1 :=
        if b_firstNonSlashEnd st =? -1 then
          {| b_start := b_start st; b_end := b_end st;
             b_matchedSlash := false; b_extIdx := b_extIdx st;
             b_firstNonSlashEnd := Z.of_nat i + 1 |}
        else st in
      let st2 :=
        if 0 <=? b_extIdx st1 then
          if N.eqb code (nth (Z.to_nat (b_extIdx st1)) suffix 0%N) then
            if b_extIdx st1 - 1 =? -1 then
              {| b_start := b_start st1; b_end := Z.of_nat i;
                 b_matchedSlash := b_matchedSlash st1;
                 b_extIdx := b_extIdx st1 - 1;
                 b_firstNonSlashEnd := b_firstNonSlashEnd st1 |}
            else
              {| b_start := b_start st1; b_end := b_end st1;
                 b_matchedSlash := b_matchedSlash st1;
                 b_extIdx := b_extIdx st1 - 1;
                 b_firstNonSlashEnd := b_firstNonSlashEnd st1 |}
          else
            {| b_start := b_start st1; b_end := b_firstNonSlashEnd st1;
               b_matchedSlash := b_matchedSlash st1; b_extIdx := -1;
               b_firstNonSlashEnd := b_firstNonSlashEnd st1 |}
        else st1 in
      basename_suffix_loop i path suffix st2
  end.

(** [path.basename(p, suffix)]. *)
Definition basename_suffix (path suffix : jsstring) : jsstring :=
  let plen := Z.of_nat (List.length path) in
  let slen := Z.of_nat (List.length suffix) in
  if (0 <? slen) && (slen <=? plen) then
    if str_eqb suffix path then []
    else
      let st := basename_suffix_loop (List.length path) path suffix
                  {| b_start := 0; b_end := -1; b_matchedSlash := true;
                     b_extIdx := slen - 1; b_firstNonSlashEnd := -1 |} in
      let e :=
        if b_start st =? b_end st then b_firstNonSlashEnd st
        else if b_end st =? -1 then plen
        else b_end st in
      slice path (b_start st) e
  else basename path.

End NodePathSuffix.

(** ** The other methods of the renderer client *)

Module RendererMore.

Import JS Eff RendererClient.
Local Open Scope eff_scope.
Local Open Scope Z_scope.

Inductive service : Type := Markmap | Mermaid.

Section Client.

Variable E : env.
Variable this : client.

(** The request of [checkHealth]: a [GET] without headers or body. *)
Definition health_request (sv : service) : request :=
  let url := match sv with
             | Markmap => cl_markmapUrl this
             | Mermaid => cl_mermaidUrl this
             end in
  {| req_url := url ++ js "/health"; req_method := js "GET";
     req_headers := []; req_body := BodyJSON VUndefined |}.

Definition checkHealth (sv : service) : M bool :=
  try_catch
    (response <- fetch E (health_request sv) ;;
     ret (resp_ok response))
    (fun _ => ret false).

(** The request of [renderMermaid]. *)
Definition mermaid_request (code : jsstring) (options : RenderOptions)
  : request :=
  let width := opt_default (width options) 1920 in
  let height := opt_default (height options) 1080 in
  let format := opt_default (format options) (js "png") in
  let theme := opt_default (theme options) (js "default") in
  {| req_url := cl_mermaidUrl this ++ js "/render";
     req_method := js "POST";
     req_headers := [(js "Content-Type", js "application/json")];
     req_body :=
       BodyJSON (VObj [(js "code", VStr code);
                       (js "width", VNum width);
                       (js "height", VNum height);
                       (js "format", VStr format);
                       (js "theme", VStr theme)]) |}.

Definition renderMermaid (code : jsstring) (options : RenderOptions)
  : M RenderResult :=
  try_catch
    (response <- fetch E (mermaid_request code options) ;;
     if negb (resp_ok response) then
       text <- lift_err (resp_text response) ;;
       ret (failure (js "渲染失败: " ++ Z_to_string (resp_status response)
                       ++ js " " ++ text))
     else
       result <- lift_err (resp_json response) ;;
       image <- AsrClient.prop result (js "image") ;;
       if truthy image then
         imageData <- lift_err (buffer_from_base64 E image) ;;
         ret {| success := true; imageData := Some imageData; error := None |}
       else ret (failure (js "渲染结果为空")))
    (fun error =>
       message <- lift_option (exn_message error)
                    (cannot_read (thrown_value error) (js "message")) ;;
       ret (failure (js "Mermaid 服务不可用: " ++ to_string message))).

End Client.

End RendererMore.

(** ** The other two tools *)

Module ToolsMore.

Import JS Eff Tools.
Local Open Scope eff_scope.
Local Open Scope Z_scope.

Record transcribe_input : Type := {
  audio_path : jsstring;
  optimize : option bool;
  t_output_name : option jsstring
}.

Record diagram_input : Type := {
  description : jsstring;
  diagram_type : option jsstring;
  d_output_name : option jsstring;
  d_render_image : option bool
}.

Definition optimizePrompt (transcriptText : jsstring) : jsstring :=
  js "请优化以下会议转写文本，修正错别字、补充标点、使语句通顺，保持说话人标签格式（如 S0:、S1:）："
  ++ LF ++ LF
  ++ transcriptText ++ LF ++ LF
  ++ js "直接输出优化后的文本，不要添加额外说明。".

Definition diagramPrompt (diagramType description : jsstring) : jsstring :=
  js "请根据以下描述生成一个 " ++ diagramType
  ++ js " 图表，使用 Mermaid 语法。" ++ LF ++ LF
  ++ js "要求：" ++ LF
  ++ js "1. 只输出 Mermaid 代码，不要添加 ```mermaid 代码块标记" ++ LF
  ++ js "2. 节点文字简洁，不超过 15 个字" ++ LF
  ++ js "3. 使用合适的箭头和连接符" ++ LF
  ++ js "4. 布局清晰，逻辑正确" ++ LF ++ LF
  ++ js "图表类型：" ++ diagramType ++ LF
  ++ js "描述：" ++ description.

(** The Markdown of a transcript. *)
Definition transcriptMarkdown (fileName time : jsstring) (orderId : value)
  (transcriptText : jsstring) : jsstring :=
  js "# 会议转写记录" ++ LF ++ LF
  ++ js "**音频文件**: " ++ fileName ++ LF
  ++ js "**转写时间**: " ++ time ++ LF
  ++ js "**订单ID**: " ++ to_string (or_else orderId (VStr (js "N/A"))) ++ LF
  ++ LF
  ++ js "---" ++ LF ++ LF
  ++ transcriptText ++ LF.

(** The Markdown of a diagram: the description as a heading, then the
    code in a [mermaid] fence. *)
Definition diagramMarkdown (description mermaidCode : jsstring) : jsstring :=
  js "# " ++ description ++ LF ++ LF
  ++ js "```mermaid" ++ LF
  ++ trim mermaidCode ++ LF
  ++ js "```" ++ LF.

(** The names of the tools [createMeetAITools] returns, in order. *)
Definition tool_names : list jsstring :=
  [js "meeting_transcribe"; js "meeting_summarize"; js "meeting_mindmap";
   js "meeting_diagram"].

Section Tools.

Variable E : env.
Variable config : ToolsConfig.

(** [new Date(ms).toLocaleString("zh-CN")], a function of the platform. *)
Variable toLocaleString : Z -> jsstring.

(** Step 2 of [meeting_transcribe]: the optional rewriting by the LLM. *)
Definition optimizeText (input : transcribe_input)
  (transcriptText : jsstring) : M jsstring :=
  match optimize input, callLLM E with
  | Some false, _ => ret transcriptText
  | _, None => ret transcriptText
  | _, Some llm => invokeLLM llm (optimizePrompt transcriptText)
  end.

(** The [catch] of [meeting_transcribe]. *)
Definition transcribe_error (error : exn) : M tool_result :=
  ret (jsonResult
         (VObj [(js "status", VStr (js "error"));
                (js "message",
                 match error with
                 | ErrorObj o => VStr (err_message o)
                 | Thrown _ => VStr (js "转写失败")
                 end);
                (js "tip", VStr (js "请确保 ASR 服务已启动"))])).

Definition meeting_transcribe (input : transcribe_input) : M tool_result :=
  try_catch
    (asrResult <- AsrClient.transcribe E (asr config) (audio_path input) ;;
     transcriptText <- optimizeText input (AsrClient.res_text asrResult) ;;
     let audioName :=
       NodePathSuffix.basename_suffix (audio_path input)
         (NodePath.extname (audio_path input)) in
     outputName <- outputNameOr E (t_output_name input) audioName
                     (js "_transcript.md") ;;
     now <- DateNow E ;;
     (* the template converts [asrResult.orderId || "N/A"] to a string *)
     _ <- lift_sum (ToString (or_else (AsrClient.res_orderId asrResult)
                                (VStr (js "N/A")))) ;;
     let markdownContent :=
       transcriptMarkdown (NodePath.basename (audio_path input))
         (toLocaleString now) (AsrClient.res_orderId asrResult)
         transcriptText in
     outputPath <- saveMarkdown E (outputDir config) outputName
                     markdownContent ;;
     ret (jsonResult
            (VObj [(js "status", VStr (js "success"));
                   (js "message", VStr (js "转写完成"));
                   (js "output_file", VStr outputPath);
                   (js "order_id", AsrClient.res_orderId asrResult);
                   (js "tip",
                    VStr (js "转写结果已保存为 Markdown，可使用 memory_search 检索内容"))])))
    transcribe_error.

(** Step 4 of [meeting_diagram]: the optional rendering. *)
Definition renderDiagram (input : diagram_input)
  (mermaidCode markdownPath : jsstring) : M (option jsstring) :=
  match d_render_image input, rendererClient config with
  | Some false, _ => ret None
  | _, None => ret None
  | _, Some client =>
    renderResult <- RendererMore.renderMermaid E client (trim mermaidCode)
                      RendererClient.no_options ;;
    match RendererClient.success renderResult,
          RendererClient.imageData renderResult with
    | true, Some imageData =>
      let imagePath := replace markdownPath (js ".md") (js ".png") in
      _ <- writeFile E imagePath (Bytes imageData) ;;
      ret (Some imagePath)
    | _, _ => ret None
    end
  end.

(** The result of a successful [meeting_diagram]. *)
Definition diagram_success (markdownPath : jsstring)
  (imagePath : option jsstring) : tool_result :=
  jsonResult
    (VObj [(js "status", VStr (js "success"));
           (js "message", VStr (js "图表生成完成"));
           (js "markdown_file", VStr markdownPath);
           (js "image_file",
            match imagePath with
            | Some p => VStr p
            | None => VUndefined
            end);
           (js "tip",
            VStr (match imagePath with
                  | Some p =>
                    if str_truthy p then tip_with_image
                    else tip_without_image
                  | None => tip_without_image
                  end))]).

(** The steps of [meeting_diagram], for a host that has an LLM. *)
Definition diagram_steps (input : diagram_input)
  (llm : nat -> jsstring -> exn + jsstring) : M tool_result :=
  let diagramType :=
    AsrClient.str_or (diagram_type input) (js "flowchart") in
  mermaidCode <- invokeLLM llm
                   (diagramPrompt diagramType (description input)) ;;
  let markdownContent := diagramMarkdown (description input) mermaidCode in
  outputName <- outputNameOr E (d_output_name input)
                  (js "diagram") (js ".md") ;;
  markdownPath <- saveMarkdown E (outputDir config) outputName
                    markdownContent ;;
  imagePath <- renderDiagram input mermaidCode markdownPath ;;
  ret (diagram_success markdownPath imagePath).

Definition meeting_diagram (input : diagram_input) : M tool_result :=
  try_catch
    (match callLLM E with
     | None => throw (mkError (js "LLM 服务不可用"))
     | Some llm => diagram_steps input llm
     end)
    (error_result (js "图表生成失败")).

End Tools.

End ToolsMore.

(** ** The plugin entry *)

Module Plugin.

Import JS Eff.

(** The configuration the host hands over: every field may be missing. *)
Record AsrSettings : Type := {
  set_serviceUrl : option jsstring;
  set_appid : option jsstring;
  set_accessKeyId : option jsstring;
  set_accessKeySecret : option jsstring
}.

Record MeetAIConfig : Type := {
  enabled : option bool;
  cfg_outputDir : option jsstring;
  cfg_asr : option AsrSettings;
  cfg_renderer : option RendererClient.RendererConfig
}.

(** [api.getConfig?.() || {}]. *)
Definition empty_config : MeetAIConfig :=
  {| enabled := None; cfg_outputDir := None; cfg_asr := None;
     cfg_renderer := None |}.

(** [process.env.HOME || process.env.USERPROFILE || "/tmp"]. *)
Definition homeDir (HOME USERPROFILE : option jsstring) : jsstring :=
  AsrClient.str_or HOME (AsrClient.str_or USERPROFILE (js "/tmp")).

(** [config.asr?.field]. *)
Definition asr_field (config : MeetAIConfig)
  (f : AsrSettings -> option jsstring) : option jsstring :=
  match cfg_asr config with Some a => f a | None => None end.

(** The configuration [register] hands to [createMeetAITools]. *)
Definition toolsConfig (config : MeetAIConfig)
  (HOME USERPROFILE : option jsstring) : Tools.ToolsConfig :=
  {| Tools.outputDir :=
       AsrClient.str_or (cfg_outputDir config)
         (homeDir HOME USERPROFILE ++ js "/.openclaw/workspace/meetings");
     Tools.asr :=
       {| AsrClient.serviceUrl :=
            AsrClient.str_or (asr_field config set_serviceUrl)
              (js "http://127.0.0.1:18001");
          AsrClient.appid := asr_field config set_appid;
          AsrClient.accessKeyId := asr_field config set_accessKeyId;
          AsrClient.accessKeySecret := asr_field config set_accessKeySecret |};
     Tools.renderer :=
       Some (match cfg_renderer config with
             | Some r => r
             | None =>
               {| RendererClient.markmapUrl := Some (js "http://localhost:3000");
                  RendererClient.mermaidUrl := Some (js "http://localhost:3001") |}
             end) |}.

(** [register]: the configuration of the tools and the names registered,
    in order; nothing when the extension is disabled. *)
Definition register (getConfig : option MeetAIConfig)
  (HOME USERPROFILE : option jsstring)
  : option (Tools.ToolsConfig * list jsstring) :=
  let config := match getConfig with Some c => c | None => empty_config end in
  match enabled config with
  | Some false => None
  | _ => Some (toolsConfig config HOME USERPROFILE, ToolsMore.tool_names)
  end.

End Plugin.

(** ** Vocabulary of the further properties *)

Module ClientSpec.

Import JS Eff.

(** A status query that fails below the vendor protocol: the network
    refuses it (the error of [fetch] is the one thrown) or the response is
    not an OK one. *)
Definition query_failure (reply : error_obj + response) (e : exn) : Prop :=
  match reply with
  | inl err => e = ErrorObj err
  | inr resp =>
    resp_ok resp = false
    /\ e = mkError (js "查询失败: " ++ Z_to_string (resp_status resp))
  end.

(** The error that reports the vendor code of [payload]: its message
    has the code and the description, ["未知错误"] standing for a missing
    or empty description; when the code or the description cannot be
    converted to a string, the [TypeError] of the conversion is what is
    thrown. *)
Definition vendor_report (prefix : jsstring) (payload code : value) : exn :=
  match ToString code with
  | inl err => err
  | inr codeText =>
    match ToString (or_else (get_opt payload (js "descInfo"))
                      (VStr (js "未知错误"))) with
    | inl err => err
    | inr descText => mkError (prefix ++ codeText ++ js " - " ++ descText)
    end
  end.

(** An OK response whose vendor code is not ["000000"]. *)
Definition vendor_refusal (prefix : jsstring)
  (reply : error_obj + response) (e : exn) : Prop :=
  exists resp payload code,
    reply = inr resp
    /\ resp_ok resp = true
    /\ resp_json resp = inr payload
    /\ get payload (js "code") = Some code
    /\ code <> VStr (js "000000")
    /\ e = vendor_report prefix payload code.

(** The status query [pollResult] builds from the clock reading [now] and
    the random octets [rb]; [None] when it cannot be built. *)
Definition query_of (config : AsrClient.AsrConfig) (orderId : value)
  (now : Z) (rb : list N) : option request :=
  let params :=
    AsrClient.poll_params config orderId (Z_to_string (now / 1000))
      (Crypto.hex rb) in
  match AsrClient.generateSignature_raw config params,
        AsrClient.queryString_raw params with
  | inr signature, inr query =>
    Some (AsrClient.poll_request config query signature)
  | _, _ => None
  end.

(** The credentials and the name of the file, which go into the query
    string of the upload, are strings [encodeURIComponent] accepts. *)
Definition upload_encodable (config : AsrClient.AsrConfig)
  (audioPath : jsstring) : Prop :=
  PollSpec.well_formed (AsrClient.str_or (AsrClient.appid config) []) = true
  /\ PollSpec.well_formed
       (AsrClient.str_or (AsrClient.accessKeyId config) []) = true
  /\ PollSpec.well_formed (NodePath.basename audioPath) = true.

(** The state once [uploadAudio] has examined the file, read it and sent
    [req]. *)
Definition after_upload (s : state) (audioPath : jsstring) (req : request)
  : state :=
  {| n_clock := S (n_clock s); n_random := S (n_random s);
     n_fs := S (S (n_fs s)); n_net := S (n_net s); n_llm := n_llm s;
     trace := trace s ++ [EvStat audioPath; EvReadFile audioPath;
                          EvFetch req] |}.

(** The upload is refused below the vendor protocol: the network refuses
    the request, or the response is not an OK one and has the text [t]. *)
Definition upload_failure (reply : error_obj + response) (e : exn) : Prop :=
  match reply with
  | inl err => e = ErrorObj err
  | inr resp =>
    resp_ok resp = false
    /\ exists t,
         resp_text resp = inr t
         /\ e = mkError (js "上传失败: " ++ Z_to_string (resp_status resp)
                           ++ js " " ++ t)
  end.

(** The file at [audioPath] passes the validation. *)
Definition valid_audio (E : env) (k : nat) (audioPath : jsstring) : Prop :=
  (exists st, fs_stat E k audioPath = inr st /\ isFile st = true)
  /\ arr_includes AsrClient.allowed_extensions
       (toLowerCase (NodePath.extname audioPath)) = true.

(** The octets [fs.readFile] hands over. *)
Definition octets (data : file_data) : list N :=
  match data with Bytes bs => bs | Text t => utf8_encode t end.

(** The file at [audioPath] passes the validation at the [k]-th access to
    the disk, and the two accesses of the upload find its size and its
    contents. *)
Definition readable_audio (E : env) (k : nat) (audioPath : jsstring)
  (data : file_data) : Prop :=
  valid_audio E k audioPath
  /\ (exists st, fs_stat E (S k) audioPath = inr st)
  /\ fs_readFile E (S (S k)) audioPath = inr data.

(** The upload request of [audioPath] with the contents [data]: a [POST]
    to [/v1/upload] whose form has the one field [file]. *)
Definition upload_request (config : AsrClient.AsrConfig)
  (audioPath : jsstring) (data : file_data) (req : request) : Prop :=
  req_method req = js "POST"
  /\ startsWith (req_url req)
       (AsrClient.serviceUrl config ++ js "/v1/upload?") = true
  /\ req_body req
     = BodyForm (js "file") (NodePath.basename audioPath) (octets data).

(** The upload request [uploadAudio] builds for a file of [fileSize]
    octets holding [data], from the clock reading [now] and the random
    octets [rb]; [None] when it cannot be built. *)
Definition upload_of (config : AsrClient.AsrConfig) (audioPath : jsstring)
  (now : Z) (rb : list N) (fileSize : Z) (data : file_data)
  : option request :=
  let params :=
    [ (js "appId", AsrClient.str_or (AsrClient.appid config) []);
      (js "accessKeyId", AsrClient.str_or (AsrClient.accessKeyId config) []);
      (js "timestamp", Z_to_string (now / 1000));
      (js "nonce", Crypto.hex rb);
      (js "fileSize", Z_to_string fileSize);
      (js "fileName", NodePath.basename audioPath);
      (js "language", js "zh");
      (js "duration", js "0") ] in
  match AsrClient.generateSignature config params,
        AsrClient.queryString params with
  | inr signature, inr query =>
    Some {| req_url := AsrClient.serviceUrl config ++ js "/v1/upload?"
                         ++ query;
            req_method := js "POST";
            req_headers := [(js "signature", signature)];
            req_body := BodyForm (js "file") (NodePath.basename audioPath)
                          (octets data) |}
  | _, _ => None
  end.

(** The events of [transcribe] up to the upload. *)
Definition upload_events (audioPath : jsstring) (req : request)
  : list event :=
  [EvStat audioPath; EvStat audioPath; EvReadFile audioPath; EvFetch req].

(** The state after the rounds that sent [reqs], each followed by the
    wait. *)
Fixpoint after_rounds (s : state) (reqs : list request) : state :=
  match reqs with
  | [] => s
  | req :: rest =>
    after_rounds (PollSpec.after_sleep (PollSpec.after_fetch s req)) rest
  end.

(** The line of a segment in the transcript. *)
Definition segment_line (g : AsrClient.AsrSegment) : jsstring :=
  to_string (AsrClient.speaker g) ++ js ": " ++ AsrClient.text g.

(** What the loop establishes for each segment it pushes. *)
Definition segment_ok (g : AsrClient.AsrSegment) : Prop :=
  AsrClient.text g <> []
  /\ trim (AsrClient.text g) = AsrClient.text g
  /\ truthy (AsrClient.speaker g) = true.

End ClientSpec.

(** ** Vocabulary of the rendering properties *)

Module RenderSpec.

Import JS Eff RendererClient.
Local Open Scope Z_scope.

(** The request of [renderMarkmap]. *)
Definition markmap_request (this : client) (markdown : jsstring)
  (options : RenderOptions) : request :=
  {| req_url := cl_markmapUrl this ++ js "/render";
     req_method := js "POST";
     req_headers := [(js "Content-Type", js "application/json")];
     req_body :=
       BodyJSON (VObj [(js "markdown", VStr markdown);
                       (js "width", VNum (opt_default (width options) 1920));
                       (js "height", VNum (opt_default (height options) 1080));
                       (js "format",
                        VStr (opt_default (format options) (js "png")))]) |}.

(** The renderer answers with an image: an OK response whose body has a
    truthy [image] that decodes to [data]. *)
Definition rendered (E : env) (reply : error_obj + response)
  (data : list N) : Prop :=
  exists resp result image,
    reply = inr resp
    /\ resp_ok resp = true
    /\ resp_json resp = inr result
    /\ get result (js "image") = Some image
    /\ truthy image = true
    /\ buffer_from_base64 E image = inr data.

(** The result of a rendering that gave the image [data]. *)
Definition image_result (data : list N) : RenderResult :=
  {| success := true; imageData := Some data; error := None |}.

(** What a renderer makes of the [reply] to its request; [prefix] is the
    message it puts before the error of a request that could not be
    completed. *)
Definition render_outcome (E : env) (prefix : jsstring)
  (reply : error_obj + response) (r : RenderResult) : Prop :=
  ((exists data, rendered E reply data /\ r = image_result data)
   \/ (ToolSpec.render_failure E reply /\ exists msg, r = failure msg))
  /\ (forall err,
        reply = inl err -> r = failure (prefix ++ err_message err))
  /\ (forall resp t,
        reply = inr resp -> resp_ok resp = false -> resp_text resp = inr t ->
        r = failure (js "渲染失败: " ++ Z_to_string (resp_status resp)
                       ++ js " " ++ t)).

End RenderSpec.

(** ** Vocabulary of the properties of the tools *)

Module ToolRunSpec.

Import JS Eff Tools.

(** A result with the status [status] and a message. *)
Definition has_status (status : jsstring) (r : tool_result) : Prop :=
  exists message rest,
    r = jsonResult (VObj ((js "status", VStr status)
                            :: (js "message", VStr message) :: rest)).

(** The values a computation may return all satisfy [P]. *)
Definition yields {A} (P : A -> Prop) (c : M A) : Prop :=
  forall s a, fst (c s) = Ok a -> P a.

(** The exceptions of a computation are all [Error] objects. *)
Definition throws_errors {A} (c : M A) : Prop :=
  forall s e, fst (c s) = Throw e -> exists o, e = ErrorObj o.

(** The result of a tool that failed with the message [message]. *)
Definition failed_with (message : jsstring) : tool_result :=
  jsonResult (VObj [(js "status", VStr (js "error"));
                    (js "message", VStr message)]).

(** A tool returns a result whose status is [success] or [error]. *)
Definition answered (c : M tool_result) (s : state) : Prop :=
  exists r,
    fst (c s) = Ok r
    /\ (has_status (js "success") r \/ has_status (js "error") r).

(** The state a tool leaves when all it did was to look at [source]. *)
Definition after_source (source : jsstring) (s : state) : state :=
  if looks_like_path source then fs_step (EvReadFile source) s else s.

(** The text [fs.readFile(path, "utf-8")] hands over. *)
Definition text_of (data : file_data) : jsstring :=
  match data with Text t => t | Bytes bs => decode_utf8 bs end.

(** The content a tool works on: the text of the file when [source]
    looks like a path and the file can be read at the [k]-th access to the
    disk, [source] itself when it does not look like a path. *)
Definition source_content (E : env) (k : nat) (source content : jsstring)
  : Prop :=
  if looks_like_path source then
    exists data, fs_readFile E k source = inr data /\ content = text_of data
  else content = source.

(** What a tool does to get that content. *)
Definition source_events (source : jsstring) : list event :=
  if looks_like_path source then [EvReadFile source] else [].

(** The message of a tool that has no LLM: the one that says so, unless
    reading the source failed first. *)
Definition no_llm_message (E : env) (source : jsstring) (s : state)
  (message : jsstring) : Prop :=
  if looks_like_path source then
    match fs_readFile E (n_fs s) source with
    | inl err => message = err_message err
    | inr _ => message = js "LLM 服务不可用"
    end
  else message = js "LLM 服务不可用".

(** The name [saveMarkdown] gives the file. *)
Definition markdown_name (name : jsstring) : jsstring :=
  if endsWith name (js ".md") then name else name ++ js ".md".

(** A disk that lets every directory be created and every file be
    written. *)
Definition disk_accepts (E : env) : Prop :=
  (forall k p, fs_mkdir E k p = None)
  /\ (forall k p d, fs_writeFile E k p d = None).

(** The events of a tool that saves [markdown] under [markdownPath] and
    has it rendered by the request [req] into the image [data]. *)
Definition rendering_events (E : env) (outputDir markdownPath : jsstring)
  (prompt markdown : jsstring) (req : request) (data : list N)
  : list event :=
  [EvLLM prompt; EvMkdir (path_resolve E outputDir);
   EvWriteFile markdownPath (Text markdown); EvFetch req;
   EvWriteFile (replace markdownPath (js ".md") (js ".png")) (Bytes data)].

(** The name [generateOutputName] makes from the clock. *)
Definition generated_name (E : env) (k : nat) (prefix suffix : jsstring)
  : jsstring :=
  iso_date E (date_now E k) ++ js "_" ++ prefix ++ js "_"
  ++ Z_to_base36 (date_now E (S k)) ++ suffix.

(** The path of a Markdown file in the output directory: its name is the
    one the caller asked for, when there is one, and a generated one
    otherwise. *)
Definition output_path (E : env) (outputDir : jsstring)
  (asked : option jsstring) (prefix suffix path : jsstring) : Prop :=
  exists name,
    path = path_join E (path_resolve E outputDir) (markdown_name name)
    /\ (forall n, asked = Some n -> str_truthy n = true -> name = n)
    /\ (AsrClient.str_or asked [] = [] ->
        exists k, name = generated_name E k prefix suffix).

(** What [meeting_transcribe] does with the transcript before it saves
    it: nothing when optimizing is turned off or the host has no LLM;
    otherwise the text is the answer of the LLM to the prompt. *)
Definition optimized (E : env) (asked : option bool) (k : nat)
  (transcript text : jsstring) (evs : list event) : Prop :=
  ((asked = Some false \/ callLLM E = None)
   /\ text = transcript /\ evs = [])
  \/ (exists llm,
        asked <> Some false /\ callLLM E = Some llm
        /\ llm k (ToolsMore.optimizePrompt transcript) = inr text
        /\ evs = [EvLLM (ToolsMore.optimizePrompt transcript)]).

(** The result of a successful [meeting_transcribe]. *)
Definition transcribed (outputPath : jsstring) (orderId : value)
  : tool_result :=
  jsonResult
    (VObj [(js "status", VStr (js "success"));
           (js "message", VStr (js "转写完成"));
           (js "output_file", VStr outputPath);
           (js "order_id", orderId);
           (js "tip",
            VStr (js "转写结果已保存为 Markdown，可使用 memory_search 检索内容"))]).

(** A computation that sends at most one request. *)
Definition one_request_at_most {A} (c : M A) : Prop :=
  forall s,
    n_net (snd (c s)) = n_net s \/ n_net (snd (c s)) = S (n_net s).

(** The state once the LLM has been asked [prompt]. *)
Definition after_llm (s : state) (prompt : jsstring) : state :=
  {| n_clock := n_clock s; n_random := n_random s; n_fs := n_fs s;
     n_net := n_net s; n_llm := S (n_llm s);
     trace := trace s ++ [EvLLM prompt] |}.

(** [error instanceof Error ? error.message : fallback]. *)
Definition reported (fallback : jsstring) (e : exn) : jsstring :=
  match e with
  | ErrorObj o => err_message o
  | Thrown _ => fallback
  end.

(** The result of a successful [meeting_summarize]. *)
Definition summarized (outputPath : jsstring) : tool_result :=
  jsonResult
    (VObj [(js "status", VStr (js "success"));
           (js "message", VStr (js "会议纪要生成完成"));
           (js "output_file", VStr outputPath)]).

End ToolRunSpec.

(** ** Vocabulary of what goes on the wire *)

Module WireSpec.

Import JS.
Local Open Scope N_scope.

(** The characters that delimit the parts of a URL and of a query
    string: [&], [=], [?], [#], [/], [+] and the space. *)
Definition uri_delimiter (c : N) : bool :=
  (c =? 38) || (c =? 61) || (c =? 63) || (c =? 35) || (c =? 47)
  || (c =? 43) || (c =? 32).

(** How many times the code unit [c] occurs in [s]. *)
Definition occurrences (c : N) (s : jsstring) : nat :=
  List.length (filter (N.eqb c) s).

(** The characters of Base64: letters, digits, [+], [/] and the padding
    [=]. *)
Definition base64_unit (c : N) : bool :=
  ((65 <=? c) && (c <=? 90)) || ((97 <=? c) && (c <=? 122))
  || ((48 <=? c) && (c <=? 57)) || (c =? 43) || (c =? 47) || (c =? 61).

End WireSpec.

(** ** Further concrete inputs *)

Module Scenarios.

Import JS Eff.

(** A world whose network answers the [k]-th request with [replies k],
    whose host has the LLM [llm], and on whose disk every path is a
    regular file of 1024 octets holding ["S0: hello"]. *)
Definition world (replies : nat -> error_obj + response)
  (llm : option (nat -> jsstring -> exn + jsstring)) : env :=
  {| date_now := fun k => (1700000000000 + 10000 * Z.of_nat k)%Z;
     random_bytes := fun k n => repeat (N.of_nat k) n;
     fs_stat := fun _ _ => inr {| isFile := true; size := 1024 |};
     fs_readFile := fun _ _ => inr (Text (js "S0: hello"));
     fs_mkdir := fun _ _ => None;
     fs_writeFile := fun _ _ _ => None;
     net_fetch := fun k _ => replies k;
     callLLM := llm;
     abort_signal := Fixtures.never_aborted;
     path_resolve := fun p => p;
     path_join := fun a b => a ++ js "/" ++ b;
     iso_date := fun _ => js "2026-01-01";
     buffer_from_base64 :=
       fun v => match v with
                | VStr _ => inr [137; 80; 78; 71]%N
                | _ => inl Fixtures.fetch_failed
                end |}.

Definition processing : error_obj + response :=
  inr (Fixtures.ok_response (Fixtures.payload_with_status (VNum 3))).

Definition bad_gateway : error_obj + response :=
  inr {| resp_status := 502; resp_text := inr (js "Bad Gateway");
         resp_json := inl Fixtures.fetch_failed |}.

Definition quota_exceeded : error_obj + response :=
  inr (Fixtures.ok_response
         (VObj [(js "code", VStr (js "100013"));
                (js "descInfo", VStr (js "quota exceeded"))])).

(** A refusal whose code is an object with a [toString] of its own. *)
Definition opaque_code : error_obj + response :=
  inr (Fixtures.ok_response (VObj [(js "code", Fixtures.opaque_status)])).

Definition no_order : error_obj + response :=
  inr (Fixtures.ok_response
         (VObj [(js "code", VStr (js "000000")); (js "content", VNull)])).

(** [first] for the first [n] requests, [then_] afterwards. *)
Definition first_then (n : nat) (first then_ : error_obj + response)
  (k : nat) : error_obj + response :=
  if Nat.ltb k n then first else then_.

End Scenarios.

Module ToolScenarios.

Import JS Eff.

(** A renderer that answers every request with an image, on a host whose
    LLM answers every prompt with the same text. *)
Definition image_reply : error_obj + response :=
  inr (Fixtures.ok_response (VObj [(js "image", VStr (js "iVBORw=="))])).

Definition llm_text : jsstring := js "graph TD; A-->B".

Definition studio : env :=
  Scenarios.world (fun _ => image_reply) (Some (fun _ _ => inr llm_text)).

Definition login_diagram : ToolsMore.diagram_input :=
  {| ToolsMore.description := js "login flow";
     ToolsMore.diagram_type := None;
     ToolsMore.d_output_name := Some (js "login");
     ToolsMore.d_render_image := None |}.

Definition meeting_audio : ToolsMore.transcribe_input :=
  {| ToolsMore.audio_path := js "/tmp/meeting.wav";
     ToolsMore.optimize := None;
     ToolsMore.t_output_name := None |}.

Definition meeting_notes : ToolsMore.transcribe_input :=
  {| ToolsMore.audio_path := js "/tmp/notes.txt";
     ToolsMore.optimize := None;
     ToolsMore.t_output_name := None |}.

(** The same world with an LLM that is overloaded. *)
Definition mute_studio : env :=
  Scenarios.world (fun _ => image_reply)
    (Some (fun _ _ => inl (mkError (js "model overloaded")))).

Definition weekly_summary : Tools.summarize_input :=
  {| Tools.s_source := js "S0: hello";
     Tools.s_output_name := Some (js "weekly") |}.

(** A summary of a file of notes. *)
Definition weekly_notes : Tools.summarize_input :=
  {| Tools.s_source := js "/notes/weekly.md";
     Tools.s_output_name := Some (js "weekly") |}.

(** A mindmap for which no image is asked. *)
Definition quiet_mindmap : Tools.mindmap_input :=
  {| Tools.source := js "notes of the meeting";
     Tools.output_name := Some (js "mm");
     Tools.render_image := Some false |}.

End ToolScenarios.

(* ================================================================== *)
(** * Properties *)
(* ================================================================== *)

Unset Implicit Arguments.

(** ** The model on known values *)

Module KnownValues.

Import JS Eff AsrClient.

(** The digest of ["abc"] (FIPS 180) and a widely quoted HMAC. *)
Example sha1_abc :
  Crypto.hex (Crypto.sha1 (utf8_encode (js "abc")))
  = js "a9993e364706816aba3e25717850c26c9cd0d89d".
Proof. vm_compute. reflexivity. Qed.

Example hmac_quick_brown_fox :
  Crypto.hmac_sha1_base64 (js "key")
    (js "The quick brown fox jumps over the lazy dog")
  = js "3nybhbi3iqa8ino29wqQcBydtNk=".
Proof. vm_compute. reflexivity. Qed.

Example encodeURIComponent_text :
  encodeURIComponent (js "a b&é/会议.wav")
  = Some (js "a%20b%26%C3%A9%2F%E4%BC%9A%E8%AE%AE.wav").
Proof. vm_compute. reflexivity. Qed.

Example encodeURIComponent_unpaired_surrogate :
  encodeURIComponent [55296%N] = None.
Proof. reflexivity. Qed.

Example trim_spaces :
  trim ([9; 32; 12288]%N ++ js "a b" ++ [160; 10]%N) = js "a b".
Proof. vm_compute. reflexivity. Qed.

(** Numbers as [String()] prints them: every digit below [2 ^ 53], the
    shortest digits that read back as the same double above, the
    exponent form from ten to the twenty-first on. *)
Example number_samples :
  List.map Z_to_string
    [0; -42; 1700000000; 9007199254740991; 9007199254740993;
     1152921504606846976; 123456789012345678901; 1000000000000000000000;
     -123456789012345678901234567890; 2 ^ 1024]%Z
  = [js "0"; js "-42"; js "1700000000"; js "9007199254740991";
     js "9007199254740992"; js "1152921504606847000";
     js "123456789012345680000"; js "1e+21";
     js "-1.2345678901234568e+29"; js "Infinity"].
Proof. vm_compute. reflexivity. Qed.

(** Values as a template literal renders them, and the ones it cannot
    render. *)
Example ToString_samples :
  List.map ToString
    [VNull; VBool true; VNum 1000000000000000000000; VReal (js "3.5");
     VArr [VNum 1; VNull; VArr [VStr (js "a"); VStr (js "b")]];
     VObj [(js "valueOf", VNum 1)];
     VObj [(js "toString", VNum 1)];
     VArr [VNum 1; VObj [(js "toString", VNull)]]]
  = [inr (js "null"); inr (js "true"); inr (js "1e+21"); inr (js "3.5");
     inr (js "1,,a,b"); inr (js "[object Object]");
     inl (TypeError (js "Cannot convert object to primitive value"));
     inl (TypeError (js "Cannot convert object to primitive value"))].
Proof. vm_compute. reflexivity. Qed.

(** Lowercase beyond ASCII: accented letters, the Kelvin sign, a letter
    that becomes two code units, the two sigmas, a letter outside the
    Basic Multilingual Plane. *)
Example toLowerCase_samples :
  List.map toLowerCase
    [js ".WAV"; js ".ÀÉ"; [8490%N]; [304%N]; js "ΟΔΟΣ"; js "Σ";
     js "ΑΣ.Β"; [55297%N; 56320%N]; [55296%N]]
  = [js ".wav"; js ".àé"; js "k"; [105%N; 775%N]; js "οδος"; js "σ";
     js "ασ.β"; [55297%N; 56360%N]; [55296%N]].
Proof. vm_compute. reflexivity. Qed.

Example extname_samples :
  List.map NodePath.extname
    [js "/a/b.c/d.WAV"; js ".bashrc"; js "index."; js ".."; js "a.b/";
     js "notes"; js "a/b.tar.gz"]
  = [js ".WAV"; js ""; js "."; js ""; js ".b"; js ""; js ".gz"].
Proof. vm_compute. reflexivity. Qed.

Example basename_sample :
  NodePath.basename (js "/tmp/audio/meeting.wav//") = js "meeting.wav".
Proof. vm_compute. reflexivity. Qed.

(** The end-to-end scenario: the upload returns the order [abc123], the
    first status query finds it processing, the second finds it complete
    with its sentences. *)
Example transcribe_end_to_end :
  match transcribe Fixtures.disk Fixtures.signed_config
          (js "/tmp/meeting.wav") init with
  | (Ok r, s) =>
    res_text r = js "S0: hello" ++ LF ++ js "S1: world"
    /\ res_orderId r = VStr (js "abc123")
    /\ List.length (fetches (trace s)) = 3%nat
    /\ List.map (fun ev => match ev with EvSleep ms => Some ms | _ => None end)
         (trace s)
       = [None; None; None; None; None; Some 10000%Z; None]
  | _ => False
  end.
Proof. vm_compute. repeat split. Qed.

End KnownValues.

(** ** Facts about strings and values *)
(* ================================================================== *)

Module JSFacts.

Import JS.

Lemma str_eqb_refl (a : jsstring) : str_eqb a a = true.
Proof.
  induction a as [|x a IH]; simpl; [reflexivity|].
  now rewrite N.eqb_refl, IH.
Qed.

Lemma str_eqb_eq (a b : jsstring) : str_eqb a b = true <-> a = b.
Proof.
  split.
  - revert b; induction a as [|x a IH]; intros [|y b] H; simpl in H;
      try discriminate; [reflexivity|].
    apply andb_true_iff in H as [Hx Hr].
    apply N.eqb_eq in Hx. subst y. f_equal. now apply IH.
  - intros ->. apply str_eqb_refl.
Qed.

Lemma str_eqb_neq (a b : jsstring) : str_eqb a b = false <-> a <> b.
Proof.
  rewrite <- str_eqb_eq. destruct (str_eqb a b); split; congruence.
Qed.

Lemma str_eqb_sym (a b : jsstring) : str_eqb a b = str_eqb b a.
Proof.
  destruct (str_eqb a b) eqn:H.
  - apply str_eqb_eq in H. subst. symmetry. apply str_eqb_refl.
  - destruct (str_eqb b a) eqn:H'; [|reflexivity].
    apply str_eqb_eq in H'. subst. now rewrite str_eqb_refl in H.
Qed.

Lemma str_truthy_nonempty (s : jsstring) : str_truthy s = negb (str_eqb s []).
Proof. destruct s; reflexivity. Qed.

Lemma str_ltb_irrefl (a : jsstring) : str_ltb a a = false.
Proof.
  induction a as [|x a IH]; simpl; [reflexivity|].
  now rewrite N.ltb_irrefl, N.eqb_refl, IH.
Qed.

Lemma str_ltb_trans (a b c : jsstring) :
  str_ltb a b = true -> str_ltb b c = true -> str_ltb a c = true.
Proof.
  revert b c; induction a as [|x a IH]; intros [|y b] [|z c] Hab Hbc;
    simpl in *; try discriminate; try reflexivity.
  apply orb_true_iff in Hab. apply orb_true_iff in Hbc.
  apply orb_true_iff.
  destruct Hab as [Hxy | Hxy]; destruct Hbc as [Hyz | Hyz].
  - left. apply N.ltb_lt in Hxy, Hyz. apply N.ltb_lt. lia.
  - apply andb_true_iff in Hyz as [Hyz _]. apply N.eqb_eq in Hyz. subst.
    now left.
  - apply andb_true_iff in Hxy as [Hxy _]. apply N.eqb_eq in Hxy. subst.
    now left.
  - apply andb_true_iff in Hxy as [Hxy Hab].
    apply andb_true_iff in Hyz as [Hyz Hbc].
    apply N.eqb_eq in Hxy, Hyz. subst. right.
    rewrite N.eqb_refl. simpl. eapply IH; eassumption.
Qed.

(** Two strings neither of which is below the other are the same. *)
Lemma str_ltb_antisym (a b : jsstring) :
  str_ltb a b = false -> str_ltb b a = false -> a = b.
Proof.
  revert b; induction a as [|x a IH]; intros [|y b] Hab Hba;
    simpl in *; try discriminate; [reflexivity|].
  apply orb_false_iff in Hab as [Hxy Hab].
  apply orb_false_iff in Hba as [Hyx Hba].
  apply N.ltb_ge in Hxy, Hyx.
  assert (x = y) by lia. subst y.
  rewrite N.eqb_refl in Hab, Hba. simpl in Hab, Hba.
  f_equal. now apply IH.
Qed.

Lemma str_ltb_asym (a b : jsstring) :
  str_ltb a b = true -> str_ltb b a = false.
Proof.
  intros H. destruct (str_ltb b a) eqn:H'; [|reflexivity].
  pose proof (str_ltb_trans _ _ _ H H') as Hc.
  now rewrite str_ltb_irrefl in Hc.
Qed.

Lemma lex_le_trans (a b c : jsstring) : lex_le a b -> lex_le b c -> lex_le a c.
Proof.
  unfold lex_le. intros Hab Hbc.
  destruct (str_ltb c a) eqn:Hca; [|reflexivity].
  destruct (str_ltb b c) eqn:Hbc'.
  - pose proof (str_ltb_trans _ _ _ Hbc' Hca). congruence.
  - assert (b = c) by now apply str_ltb_antisym. subst. congruence.
Qed.

Lemma lex_le_antisym (a b : jsstring) : lex_le a b -> lex_le b a -> a = b.
Proof. unfold lex_le. intros. now apply str_ltb_antisym. Qed.

End JSFacts.

(** ** The signer *)

Module SignerFacts.

Import JS JSFacts AsrClient.

(** *** Sorting *)

Lemma sort_insert_perm (x : jsstring) (l : list jsstring) :
  Permutation (sort_insert x l) (x :: l).
Proof.
  induction l as [|y r IH]; simpl; [apply Permutation_refl|].
  destruct (str_ltb y x).
  - eapply Permutation_trans; [apply perm_skip, IH | apply perm_swap].
  - apply Permutation_refl.
Qed.

Lemma sort_perm (l : list jsstring) : Permutation (sort l) l.
Proof.
  induction l as [|x l IH]; simpl; [constructor|].
  eapply Permutation_trans; [apply sort_insert_perm | now apply perm_skip].
Qed.

Lemma sort_insert_sorted (x : jsstring) (l : list jsstring) :
  StronglySorted lex_le l -> StronglySorted lex_le (sort_insert x l).
Proof.
  induction l as [|y r IH]; intros Hs; simpl.
  - constructor; [constructor | constructor].
  - inversion Hs as [|? ? Hr Hy]; subst.
    destruct (str_ltb y x) eqn:Hyx.
    + constructor; [now apply IH|].
      eapply Permutation_Forall;
        [apply Permutation_sym, sort_insert_perm|].
      constructor; [|assumption].
      unfold lex_le. now apply str_ltb_asym.
    + constructor; [assumption|].
      constructor; [exact Hyx|].
      eapply Forall_impl; [|exact Hy].
      intros z Hz. eapply lex_le_trans; [exact Hyx | exact Hz].
Qed.

Lemma sort_sorted (l : list jsstring) : StronglySorted lex_le (sort l).
Proof.
  induction l as [|x l IH]; simpl; [constructor|].
  now apply sort_insert_sorted.
Qed.

(** A list of strings has one sorted arrangement only. *)
Lemma sorted_perm_unique (l1 l2 : list jsstring) :
  StronglySorted lex_le l1 -> StronglySorted lex_le l2 ->
  Permutation l1 l2 -> l1 = l2.
Proof.
  revert l2; induction l1 as [|x l1 IH]; intros l2 H1 H2 HP.
  - apply Permutation_nil in HP. now subst.
  - destruct l2 as [|y l2].
    + apply Permutation_sym, Permutation_nil in HP. discriminate.
    + inversion H1 as [|? ? H1' Hx]; subst.
      inversion H2 as [|? ? H2' Hy]; subst.
      assert (x = y) as ->.
      { assert (Hin1 : In x (y :: l2))
          by (eapply Permutation_in; [exact HP | now left]).
        assert (Hin2 : In y (x :: l1))
          by (eapply Permutation_in;
              [apply Permutation_sym; exact HP | now left]).
        destruct Hin1 as [-> | Hin1]; [reflexivity|].
        destruct Hin2 as [-> | Hin2]; [reflexivity|].
        apply lex_le_antisym.
        - rewrite Forall_forall in Hx. now apply Hx.
        - rewrite Forall_forall in Hy. now apply Hy. }
      f_equal. apply IH; try assumption.
      eapply Permutation_cons_inv; exact HP.
Qed.

Lemma sort_permutation_invariant (l l' : list jsstring) :
  Permutation l l' -> sort l = sort l'.
Proof.
  intros HP. apply sorted_perm_unique; try apply sort_sorted.
  eapply Permutation_trans; [apply sort_perm|].
  eapply Permutation_trans; [exact HP | apply Permutation_sym, sort_perm].
Qed.

Lemma filter_permutation {A} (f : A -> bool) (l l' : list A) :
  Permutation l l' -> Permutation (filter f l) (filter f l').
Proof.
  induction 1 as [| x l l' _ IH | x y l | l l' l'' _ IH1 _ IH2]; simpl.
  - constructor.
  - destruct (f x); [now apply perm_skip | assumption].
  - destruct (f x), (f y); try apply Permutation_refl. apply perm_swap.
  - eapply Permutation_trans; eassumption.
Qed.

(** *** Reading a parameter *)

Lemma param_get_none (p : params) (k : jsstring) :
  ~ In k (object_keys p) -> param_get p k = None.
Proof.
  induction p as [|[k' v] r IH]; simpl; intros Hn; [reflexivity|].
  destruct (str_eqb k k') eqn:Hk.
  - apply str_eqb_eq in Hk. subst. exfalso. apply Hn. now left.
  - apply IH. intros Hin. apply Hn. now right.
Qed.

Lemma param_get_in (p : params) (k v : jsstring) :
  NoDup (object_keys p) -> In (k, v) p -> param_get p k = Some v.
Proof.
  induction p as [|[k' v'] r IH]; simpl; intros Hnd Hin; [contradiction|].
  inversion Hnd as [|? ? Hk' Hr]; subst.
  destruct Hin as [Heq | Hin].
  - inversion Heq; subst. now rewrite str_eqb_refl.
  - destruct (str_eqb k k') eqn:Hk.
    + apply str_eqb_eq in Hk. subst. exfalso. apply Hk'.
      change k' with (fst (k', v)). now apply in_map.
    + now apply IH.
Qed.

Lemma param_get_permutation (p q : params) (k : jsstring) :
  NoDup (object_keys p) -> Permutation p q -> param_get p k = param_get q k.
Proof.
  intros Hnd HP.
  assert (HPk : Permutation (object_keys p) (object_keys q))
    by now apply Permutation_map.
  assert (Hndq : NoDup (object_keys q))
    by (eapply Permutation_NoDup; eassumption).
  destruct (in_dec (list_eq_dec N.eq_dec) k (object_keys p)) as [Hin | Hnin].
  - apply in_map_iff in Hin as [[k' v] [Hk Hin]]. simpl in Hk. subst k'.
    rewrite (param_get_in _ _ _ Hnd Hin).
    symmetry. apply param_get_in; [assumption|].
    eapply Permutation_in; eassumption.
  - rewrite (param_get_none _ _ Hnin). symmetry. apply param_get_none.
    intros Hin. apply Hnin.
    eapply Permutation_in; [apply Permutation_sym; exact HPk | exact Hin].
Qed.

Lemma map_opt_ext {A B} (f g : A -> option B) (l : list A) :
  (forall x, In x l -> f x = g x) -> map_opt f l = map_opt g l.
Proof.
  induction l as [|x l IH]; simpl; intros H; [reflexivity|].
  rewrite (H x (or_introl eq_refl)), IH; [reflexivity|].
  intros y Hy. apply H. now right.
Qed.


Lemma map_opt_total {A B} (f : A -> option B) (l : list A) :
  (forall x, In x l -> f x <> None) -> exists ys, map_opt f l = Some ys.
Proof.
  induction l as [|x l IH]; simpl; intros H; [now eexists|].
  destruct (f x) as [y|] eqn:Hx; [|now exfalso; apply (H x); auto].
  destruct IH as [ys ->]; [intros z Hz; apply H; now right|].
  now eexists.
Qed.

(** *** The code against the wording of the specification *)

Lemma sort_entries_keys (l : list (jsstring * jsstring)) :
  List.map fst (SignerSpec.sort_entries l) = sort (List.map fst l).
Proof.
  induction l as [|e l IH]; simpl; [reflexivity|].
  rewrite <- IH. clear IH.
  generalize (SignerSpec.sort_entries l) as s.
  induction s as [|e' s IHs]; simpl; [reflexivity|].
  destruct (str_ltb (fst e') (fst e)); simpl; [now rewrite IHs | reflexivity].
Qed.

Lemma insert_entry_perm (e : jsstring * jsstring) l :
  Permutation (SignerSpec.insert_entry e l) (e :: l).
Proof.
  induction l as [|y r IH]; simpl; [apply Permutation_refl|].
  destruct (str_ltb (fst y) (fst e)).
  - eapply Permutation_trans; [apply perm_skip, IH | apply perm_swap].
  - apply Permutation_refl.
Qed.

Lemma sort_entries_perm l : Permutation (SignerSpec.sort_entries l) l.
Proof.
  induction l as [|x l IH]; simpl; [constructor|].
  eapply Permutation_trans; [apply insert_entry_perm | now apply perm_skip].
Qed.

(** The entries the specification sorts do come out with their keys in
    ascending order, none lost and none added. *)
Lemma sort_entries_sorted l :
  StronglySorted lex_le (List.map fst (SignerSpec.sort_entries l))
  /\ Permutation (SignerSpec.sort_entries l) l.
Proof.
  split; [rewrite sort_entries_keys; apply sort_sorted|].
  apply sort_entries_perm.
Qed.




(** *** The two properties of the signer *)

Ltac nodup_closed :=
  vm_compute; repeat constructor; simpl; intuition discriminate.



(** C4.  Two enumerations of the same parameter map, in whatever order
    the entries were supplied, get the same signature. *)
Theorem generateSignature_order_independent (config : AsrConfig)
  (p q : params) :
  NoDup (object_keys p) -> Permutation p q ->
  generateSignature config p = generateSignature config q.
Proof.
  intros Hnd HP. unfold generateSignature.
  destruct (accessKeySecret config) as [secret|]; [|reflexivity].
  destruct (negb (str_truthy secret)); [reflexivity|].
  assert (Hget : forall k, param_get p k = param_get q k)
    by (intros k; now apply param_get_permutation).
  assert (Hkeys :
    sort (filter (fun k => negb (str_eqb k (js "signature"))
                           && param_truthy p k) (object_keys p))
    = sort (filter (fun k => negb (str_eqb k (js "signature"))
                             && param_truthy q k) (object_keys q))).
  { apply sort_permutation_invariant.
    rewrite (filter_ext _
               (fun k => negb (str_eqb k (js "signature"))
                         && param_truthy q k)).
    - apply filter_permutation. now apply Permutation_map.
    - intros k. unfold param_truthy. now rewrite Hget. }
  rewrite Hkeys.
  rewrite (map_opt_ext (encode_pair p) (encode_pair q)); [reflexivity|].
  intros k _. unfold encode_pair, encode_param. now rewrite Hget.
Qed.

Lemma generateSignature_order_independent_witness :
  NoDup (object_keys Fixtures.some_params)
  /\ Permutation Fixtures.some_params Fixtures.some_params_permuted
  /\ generateSignature Fixtures.signed_config Fixtures.some_params
     = generateSignature Fixtures.signed_config Fixtures.some_params_permuted.
Proof.
  assert (Hnd : NoDup (object_keys Fixtures.some_params)) by nodup_closed.
  assert (HP : Permutation Fixtures.some_params Fixtures.some_params_permuted).
  { unfold Fixtures.some_params, Fixtures.some_params_permuted.
    apply Permutation_sym.
    apply (Permutation_cons_app
             [(js "b", js "2"); (js "signature", js "zzz"); (js "a", js "1")]
             [] (js "c", [])).
    rewrite app_nil_r.
    apply (Permutation_cons_app
             [(js "b", js "2"); (js "signature", js "zzz")] []
             (js "a", js "1")).
    rewrite app_nil_r. apply Permutation_refl. }
  split; [exact Hnd|]. split; [exact HP|].
  exact (generateSignature_order_independent Fixtures.signed_config _ _ Hnd HP).
Defined.

End SignerFacts.

(** ** The poller *)

Module PollFacts.

Import JS Eff JSFacts AsrClient PollSpec SignerFacts.

(** *** Strings every query can carry *)

Lemma encode_all_total (cps : list (option N)) :
  forallb (fun o => match o with Some _ => true | None => false end) cps
  = true ->
  encode_all cps <> None.
Proof.
  induction cps as [|[cp|] r IH]; simpl; intros H; try discriminate.
  destruct (encode_all r); [discriminate | now apply IH].
Qed.

Lemma well_formed_encodes (s : jsstring) :
  well_formed s = true -> encodeURIComponent s <> None.
Proof. apply encode_all_total. Qed.

Lemma ascii_well_formed (s : jsstring) :
  Forall (fun c => (c < 128)%N) s -> well_formed s = true.
Proof.
  unfold well_formed. induction 1 as [|c r Hc _ IH]; [reflexivity|].
  simpl.
  assert (Hh : is_high_surrogate c = false)
    by (unfold is_high_surrogate; apply andb_false_iff; left;
        apply N.leb_gt; lia).
  assert (Hl : is_low_surrogate c = false)
    by (unfold is_low_surrogate; apply andb_false_iff; left;
        apply N.leb_gt; lia).
  rewrite Hh, Hl. simpl. exact IH.
Qed.

Lemma decode_utf8_ascii (bs : list N) :
  Forall (fun c => (c < 128)%N) bs -> decode_utf8 bs = bs.
Proof.
  induction 1 as [|c r Hc _ IH]; [reflexivity|].
  apply N.ltb_lt in Hc. cbn [decode_utf8]. rewrite Hc. now rewrite IH.
Qed.

Lemma uint_digits_ascii_ne (d : Decimal.uint) :
  Forall (fun c => (c < 128)%N)
    (List.map N_of_ascii (list_ascii_of_string (NilEmpty.string_of_uint d))).
Proof.
  induction d as [| d IH | d IH | d IH | d IH | d IH | d IH | d IH | d IH
                  | d IH | d IH ].
  1: constructor.
  all: cbn [NilEmpty.string_of_uint list_ascii_of_string List.map];
    constructor; [reflexivity | exact IH].
Qed.

Lemma uint_digits_ascii (d : Decimal.uint) :
  Forall (fun c => (c < 128)%N)
    (List.map N_of_ascii (list_ascii_of_string (NilZero.string_of_uint d))).
Proof.
  destruct d; try apply uint_digits_ascii_ne.
  repeat constructor.
Qed.

Lemma decimal_ascii (z : Z) : Forall (fun c => (c < 128)%N) (decimal z).
Proof.
  unfold decimal, js.
  assert (H : Forall (fun c => (c < 128)%N)
                (List.map N_of_ascii
                   (list_ascii_of_string
                      (NilZero.string_of_int (Z.to_int z))))).
  { destruct (Z.to_int z) as [d|d]; simpl.
    - apply uint_digits_ascii.
    - constructor; [reflexivity | apply uint_digits_ascii]. }
  now rewrite decode_utf8_ascii.
Qed.

Lemma strip_zeros_ascii (l : jsstring) :
  Forall (fun c => (c < 128)%N) l ->
  Forall (fun c => (c < 128)%N) (strip_zeros l).
Proof.
  induction 1 as [|c r Hc Hr IH]; [constructor|].
  destruct (N.eq_dec c 48) as [->|Hne]; [exact IH|].
  replace (strip_zeros (c :: r)) with (c :: r); [now constructor|].
  destruct c as [|p]; [reflexivity|].
  do 6 (destruct p as [p|p|]; try reflexivity).
  now elim Hne.
Qed.

Lemma exponent_form_ascii (c : Z) :
  Forall (fun c => (c < 128)%N) (exponent_form c).
Proof.
  unfold exponent_form.
  assert (Hd : Forall (fun c => (c < 128)%N)
                 (rev (strip_zeros (rev (decimal c)))))
    by (apply Forall_rev, strip_zeros_ascii, Forall_rev, decimal_ascii).
  destruct (rev (strip_zeros (rev (decimal c)))) as [|d [|d' more]].
  - apply decimal_ascii.
  - inversion Hd; subst. constructor; [assumption|].
    apply Forall_app; split; [repeat constructor | apply decimal_ascii].
  - inversion Hd; subst. constructor; [assumption|].
    apply Forall_app; split; [repeat constructor|].
    apply Forall_app; split; [assumption|].
    apply Forall_app; split; [repeat constructor | apply decimal_ascii].
Qed.

Lemma nat_to_string_ascii (n : Z) :
  Forall (fun c => (c < 128)%N) (nat_to_string n).
Proof.
  unfold nat_to_string.
  destruct (n <? 2 ^ 53)%Z; [apply decimal_ascii|].
  destruct (2 ^ 1024 <=? round_double n)%Z; [repeat constructor|].
  destruct (shortest (round_double n) <? 10 ^ 21)%Z;
    [apply decimal_ascii | apply exponent_form_ascii].
Qed.

Lemma Z_to_string_ascii (z : Z) : Forall (fun c => (c < 128)%N) (Z_to_string z).
Proof.
  unfold Z_to_string.
  destruct (z <? 0)%Z; [|apply nat_to_string_ascii].
  apply Forall_app; split; [repeat constructor | apply nat_to_string_ascii].
Qed.

Lemma hex_digit_lower_ascii (x : N) :
  (hex_digit_lower (N.land x 15) < 128)%N.
Proof.
  change 15%N with (N.ones 4). rewrite N.land_ones.
  assert (x mod 2 ^ 4 < 16)%N by (apply N.mod_lt; discriminate).
  unfold hex_digit_lower. destruct (_ <? 10)%N; lia.
Qed.

Lemma hex_ascii (bs : list N) : Forall (fun c => (c < 128)%N) (Crypto.hex bs).
Proof.
  unfold Crypto.hex. induction bs as [|b r IH]; simpl; [constructor|].
  constructor; [apply hex_digit_lower_ascii|].
  constructor; [apply hex_digit_lower_ascii | exact IH].
Qed.

(** *** Requests that can be built *)

Lemma param_get_some_in (p : params) (k v : jsstring) :
  param_get p k = Some v -> In (k, v) p.
Proof.
  induction p as [|[k' v'] r IH]; simpl; [discriminate|].
  destruct (str_eqb k k') eqn:Hk.
  - apply str_eqb_eq in Hk. subst. intros H. inversion H. now left.
  - intros H. right. now apply IH.
Qed.

Lemma encode_pair_total (p : params) (k : jsstring) :
  Forall entry_ok p -> In k (object_keys p) -> encode_pair p k <> None.
Proof.
  intros Hp Hin. rewrite Forall_forall in Hp.
  apply in_map_iff in Hin as [[k' v'] [Hk Hin]]. simpl in Hk. subst k'.
  unfold encode_pair, encode_param.
  destruct (encodeURIComponent k) eqn:Hek.
  - destruct (param_get p k) as [v|] eqn:Hg.
    + apply param_get_some_in in Hg.
      destruct (encodeURIComponent v) eqn:Hev; [discriminate|].
      exfalso. apply (well_formed_encodes v); [apply (Hp _ Hg) | exact Hev].
    + discriminate.
  - exfalso. apply (well_formed_encodes k); [apply (Hp _ Hin) | exact Hek].
Qed.

Lemma queryString_total (p : params) :
  Forall entry_ok p -> exists q, queryString p = inr q.
Proof.
  intros Hp. unfold queryString.
  destruct (map_opt_total (encode_pair p) (object_keys p)) as [ys ->].
  - intros k. now apply encode_pair_total.
  - now eexists.
Qed.

Lemma generateSignature_total (config : AsrConfig) (p : params) :
  Forall entry_ok p -> exists sig, generateSignature config p = inr sig.
Proof.
  intros Hp. unfold generateSignature.
  destruct (accessKeySecret config) as [secret|]; [|now eexists].
  destruct (negb (str_truthy secret)); [now eexists|].
  match goal with |- context [map_opt ?f ?l] =>
    destruct (map_opt_total f l) as [ys ->] end.
  - intros k Hk. apply encode_pair_total; [assumption|].
    assert (Hk' : In k (filter (fun k => negb (str_eqb k (js "signature"))
                                         && param_truthy p k) (object_keys p)))
      by (eapply Permutation_in; [apply sort_perm | exact Hk]).
    now apply filter_In in Hk'.
  - now eexists.
Qed.

(** *** Records as they are at run time *)

Lemma lookup_in (p : raw_params) (k : jsstring) :
  In k (List.map fst p) -> In (k, lookup k p) p.
Proof.
  induction p as [|[k' v'] r IH]; simpl; [tauto|].
  destruct (str_eqb k k') eqn:Hk.
  - apply str_eqb_eq in Hk. subst. now left.
  - intros [H|H]; [subst; now rewrite str_eqb_refl in Hk | right; now apply IH].
Qed.

Lemma map_err_total {A B} (f : A -> exn + B) (l : list A) :
  (forall x, In x l -> exists y, f x = inr y) ->
  exists ys, map_err f l = inr ys.
Proof.
  induction l as [|x r IH]; intros H; simpl; [now eexists|].
  destruct (H x) as [y ->]; [now left|].
  destruct IH as [ys ->]; [intros z Hz; apply H; now right|].
  now eexists.
Qed.

Lemma map_err_ext {A B} (f g : A -> exn + B) (l : list A) :
  (forall x, In x l -> f x = g x) -> map_err f l = map_err g l.
Proof.
  induction l as [|x r IH]; intros H; simpl; [reflexivity|].
  rewrite (H x) by now left.
  rewrite IH; [reflexivity|]. intros z Hz. apply H. now right.
Qed.

Lemma encode_value_total (v : value) :
  stringable v = true -> well_formed (to_string v) = true ->
  exists t, encode_value v = inr t.
Proof.
  intros Hs Hw. unfold encode_value, ToString. rewrite Hs.
  destruct (encodeURIComponent (to_string v)) eqn:He; [now eexists|].
  exfalso. now apply (well_formed_encodes (to_string v)).
Qed.

Lemma encode_raw_pair_total (p : raw_params) (k : jsstring) :
  Forall raw_entry_ok p -> In k (List.map fst p) ->
  exists t, encode_raw_pair p k = inr t.
Proof.
  intros Hp Hin. rewrite Forall_forall in Hp.
  destruct (Hp _ (lookup_in p k Hin)) as (Hk & Hs & Hw). cbn [fst snd] in *.
  unfold encode_raw_pair.
  destruct (encodeURIComponent k) eqn:Hek;
    [|exfalso; now apply (well_formed_encodes k)].
  destruct (encode_value_total _ Hs Hw) as [t ->]. now eexists.
Qed.

Lemma queryString_raw_total (p : raw_params) :
  Forall raw_entry_ok p -> exists q, queryString_raw p = inr q.
Proof.
  intros Hp. unfold queryString_raw.
  destruct (map_err_total (encode_raw_pair p) (List.map fst p)) as [ys ->].
  - intros k. now apply encode_raw_pair_total.
  - now eexists.
Qed.

Lemma generateSignature_raw_total (config : AsrConfig) (p : raw_params) :
  Forall raw_entry_ok p -> exists sig, generateSignature_raw config p = inr sig.
Proof.
  intros Hp. unfold generateSignature_raw.
  destruct (accessKeySecret config) as [secret|]; [|now eexists].
  destruct (negb (str_truthy secret)); [now eexists|].
  match goal with |- context [map_err ?f ?l] =>
    destruct (map_err_total f l) as [ys ->] end.
  - intros k Hk. apply encode_raw_pair_total; [assumption|].
    assert (Hk' : In k (filter (fun k => negb (str_eqb k (js "signature"))
                                         && truthy (lookup k p))
                          (List.map fst p)))
      by (eapply Permutation_in; [apply sort_perm | exact Hk]).
    now apply filter_In in Hk'.
  - now eexists.
Qed.

(** On a record of strings the two are [generateSignature] and
    [queryString]. *)
Lemma lookup_as_raw (p : params) (k : jsstring) :
  lookup k (as_raw p)
  = match param_get p k with Some v => VStr v | None => VUndefined end.
Proof.
  induction p as [|[k' v'] r IH]; [reflexivity|].
  cbn [as_raw List.map fst snd lookup param_get].
  destruct (str_eqb k k'); [reflexivity | exact IH].
Qed.

Lemma keys_as_raw (p : params) : List.map fst (as_raw p) = object_keys p.
Proof.
  unfold as_raw, object_keys. rewrite map_map. reflexivity.
Qed.

Lemma map_err_opt {A B} (f : A -> exn + B) (g : A -> option B) (l : list A) :
  (forall x, f x = match g x with Some y => inr y | None => inl URIError end) ->
  map_err f l
  = match map_opt g l with Some ys => inr ys | None => inl URIError end.
Proof.
  intros H. induction l as [|x r IH]; [reflexivity|].
  cbn [map_err map_opt]. rewrite H.
  destruct (g x); [|reflexivity].
  rewrite IH. now destruct (map_opt g r).
Qed.

Lemma encode_raw_pair_strings (p : params) (k : jsstring) :
  encode_raw_pair (as_raw p) k
  = match encode_pair p k with Some t => inr t | None => inl URIError end.
Proof.
  unfold encode_raw_pair, encode_pair, encode_param, encode_value.
  rewrite lookup_as_raw.
  destruct (encodeURIComponent k); [|reflexivity].
  destruct (param_get p k) as [v|].
  - unfold ToString. cbn [stringable to_string].
    now destruct (encodeURIComponent v).
  - reflexivity.
Qed.

Lemma queryString_raw_strings (p : params) :
  queryString_raw (as_raw p) = queryString p.
Proof.
  unfold queryString_raw, queryString. rewrite keys_as_raw.
  rewrite (map_err_opt _ (encode_pair p)) by apply encode_raw_pair_strings.
  now destruct (map_opt (encode_pair p) (object_keys p)).
Qed.

Lemma generateSignature_raw_strings (config : AsrConfig) (p : params) :
  generateSignature_raw config (as_raw p) = generateSignature config p.
Proof.
  unfold generateSignature_raw, generateSignature.
  destruct (accessKeySecret config) as [secret|]; [|reflexivity].
  destruct (negb (str_truthy secret)); [reflexivity|].
  rewrite keys_as_raw.
  rewrite (filter_ext _
             (fun k => negb (str_eqb k (js "signature")) && param_truthy p k)).
  - rewrite (map_err_opt _ (encode_pair p)) by apply encode_raw_pair_strings.
    now destruct (map_opt (encode_pair p) _).
  - intros k. unfold param_truthy. rewrite lookup_as_raw.
    now destruct (param_get p k).
Qed.

Lemma poll_params_ok (config : AsrConfig) (orderId : value) (now : Z)
  (rb : list N) :
  encodable config orderId ->
  Forall raw_entry_ok
    (poll_params config orderId (Z_to_string (now / 1000)) (Crypto.hex rb)).
Proof.
  intros (Happ & Hak & Hs & Hid). unfold poll_params.
  repeat (apply Forall_cons;
          [split; [|split]; cbn [fst snd stringable to_string]|]);
    try apply Forall_nil;
    try assumption; try reflexivity;
    try apply ascii_well_formed, Z_to_string_ascii;
    try apply ascii_well_formed, hex_ascii;
    vm_compute; reflexivity.
Qed.

(** *** One turn of the loop *)

Lemma sleep_eq (s : state) : sleep 10000 s = (Ok tt, after_sleep s).
Proof. reflexivity. Qed.

(** What a turn does with an accepted answer. *)
Lemma pollAttempt_answered (E : env) (config : AsrConfig)
  (orderId : value) (s : state) (payload : value) :
  encodable config orderId ->
  answers E (n_net s) payload ->
  exists req,
    pollAttempt E config orderId s
    = (if strict_eq_num (status_of payload) 4 then Ok (Some payload)
       else if negb (strict_eq_num (status_of payload) 3)
            then Throw (status_report (status_of payload))
            else Ok None,
       after_fetch s req).
Proof.
  intros Henc Hans.
  pose proof (poll_params_ok config orderId (date_now E (n_clock s))
                (random_bytes E (n_random s) 8) Henc) as Hok.
  destruct (generateSignature_raw_total config _ Hok) as [sig Hsig].
  destruct (queryString_raw_total _ Hok) as [q Hq].
  destruct (Hans (poll_request config q sig))
    as (resp & Hresp & Hrok & Hjson & Hcode).
  exists (poll_request config q sig).
  unfold pollAttempt, bind, DateNow, randomBytes.
  cbn [n_clock n_random n_fs n_net n_llm trace].
  rewrite Hsig, Hq. cbn [lift_sum ret].
  unfold fetch at 1. cbn [n_net]. rewrite Hresp. cbn [lift_err ret].
  rewrite Hrok. cbn [negb]. rewrite Hjson. cbn [lift_err ret].
  unfold prop at 1. rewrite Hcode. cbn [lift_option ret].
  unfold strict_eq_str at 1. rewrite str_eqb_refl. cbn [negb].
  fold (status_of payload).
  destruct (strict_eq_num (status_of payload) 4); [reflexivity|].
  destruct (strict_eq_num (status_of payload) 3); [reflexivity|].
  cbn [negb]. unfold status_report.
  destruct (ToString (status_of payload)); reflexivity.
Qed.

(** *** The loop *)

Lemma pollLoop_unfold (E : env) (config : AsrConfig) (fuel : nat)
  (orderId : value) (maxRetries retries : Z) (s : state) :
  pollLoop E config (S fuel) orderId maxRetries retries s
  = if (retries <? maxRetries)%Z then
      bind (pollAttempt E config orderId)
        (fun attempt =>
           match attempt with
           | Some result => ret result
           | None =>
             bind (sleep 10000)
               (fun _ => pollLoop E config fuel orderId maxRetries
                           (retries + 1)%Z)
           end) s
    else
      throw (mkError (js "查询超时: 已重试 " ++ Z_to_string maxRetries
                        ++ js " 次")) s.
Proof. simpl. destruct (retries <? maxRetries)%Z; reflexivity. Qed.

Lemma pollLoop_exhausted (E : env) (config : AsrConfig) (fuel : nat)
  (orderId : value) (maxRetries retries : Z) (s : state) :
  (maxRetries <= retries)%Z ->
  pollLoop E config fuel orderId maxRetries retries s
  = (Throw (mkError (js "查询超时: 已重试 " ++ Z_to_string maxRetries
                       ++ js " 次")), s).
Proof.
  intros H. apply Z.ltb_ge in H.
  destruct fuel; simpl; rewrite H; reflexivity.
Qed.

Lemma processing_from_tail (E : env) (k n : nat) :
  processing_from E k (S n) -> processing_from E (S k) n.
Proof.
  intros H i Hi. destruct (H (S i)) as (payload & Hans & Hst); [lia|].
  exists payload. split; [|exact Hst].
  now replace (S k + i)%nat with (k + S i)%nat by lia.
Qed.

(** [n] turns that all find the order processing: [n] queries, each
    followed by the wait, and the loop is back at its test with [n] more
    retries counted. *)
Lemma pollLoop_rounds (E : env) (config : AsrConfig) (orderId : value)
  (maxRetries : Z) (n : nat) :
  encodable config orderId ->
  forall (fuel : nat) (retries : Z) (s : state),
    processing_from E (n_net s) n ->
    (retries + Z.of_nat n <= maxRetries)%Z ->
    (n <= fuel)%nat ->
    exists reqs s',
      List.length reqs = n
      /\ trace s' = trace s ++ processing_rounds reqs
      /\ n_net s' = (n_net s + n)%nat
      /\ pollLoop E config fuel orderId maxRetries retries s
         = pollLoop E config (fuel - n) orderId maxRetries
             (retries + Z.of_nat n)%Z s'.
Proof.
  intros Henc. induction n as [|n IH]; intros fuel retries s Hproc Hle Hfuel.
  - exists [], s. repeat split.
    + simpl. now rewrite app_nil_r.
    + lia.
    + now rewrite Nat.sub_0_r, Z.add_0_r.
  - destruct fuel as [|fuel]; [lia|].
    destruct (Hproc 0%nat) as (payload & Hans & Hst); [lia|].
    rewrite Nat.add_0_r in Hans.
    destruct (pollAttempt_answered E config orderId s payload Henc Hans)
      as [req Hatt].
    rewrite Hst in Hatt. simpl in Hatt.
    destruct (IH fuel (retries + 1)%Z (after_sleep (after_fetch s req)))
      as (reqs & s' & Hlen & Htr & Hnet & Hloop).
    + apply processing_from_tail. exact Hproc.
    + lia.
    + lia.
    + exists (req :: reqs), s'. repeat split.
      * simpl. now rewrite Hlen.
      * rewrite Htr. simpl. now rewrite <- !app_assoc.
      * rewrite Hnet. simpl. lia.
      * rewrite pollLoop_unfold.
        assert (Hlt : (retries <? maxRetries)%Z = true)
          by (apply Z.ltb_lt; lia).
        rewrite Hlt. unfold bind at 1. rewrite Hatt. cbv beta iota.
        unfold bind at 1. rewrite sleep_eq. cbv beta iota.
        rewrite Hloop. simpl Nat.sub.
        now replace (retries + 1 + Z.of_nat n)%Z
          with (retries + Z.of_nat (S n))%Z by lia.
Qed.

Lemma fetches_app (a b : list event) :
  fetches (a ++ b) = fetches a ++ fetches b.
Proof. unfold fetches. apply flat_map_app. Qed.

Lemma fetches_rounds (reqs : list request) :
  fetches (processing_rounds reqs) = reqs.
Proof.
  induction reqs as [|r reqs IH]; [reflexivity|].
  simpl. now rewrite IH.
Qed.

Lemma strict_eq_num_false (v : value) (n : Z) :
  v <> VNum n -> strict_eq_num v n = false.
Proof.
  destruct v; simpl; try reflexivity.
  intros H. apply Z.eqb_neq. congruence.
Qed.

(** A run that leaves the loop at its [n + 1]-th turn. *)
Lemma pollResult_leaves (E : env) (config : AsrConfig) (orderId : value)
  (maxRetries : option Z) (n : nat) (payload : value) (s : state) :
  encodable config orderId ->
  (Z.of_nat n + 1 <= defaultRetries maxRetries)%Z ->
  processing_from E (n_net s) n ->
  answers E (n_net s + n) payload ->
  exists reqs last s',
    List.length reqs = n
    /\ trace s' = trace s ++ processing_rounds reqs ++ [EvFetch last]
    /\ pollResult E config orderId maxRetries s
       = (if strict_eq_num (status_of payload) 4 then Ok payload
          else if negb (strict_eq_num (status_of payload) 3)
               then Throw (status_report (status_of payload))
               else fst (pollLoop E config
                           (Z.to_nat (defaultRetries maxRetries) - S n)
                           orderId (defaultRetries maxRetries)
                           (Z.of_nat n + 1)
                           (after_sleep s')),
          if strict_eq_num (status_of payload) 4 then s'
          else if negb (strict_eq_num (status_of payload) 3) then s'
               else snd (pollLoop E config
                           (Z.to_nat (defaultRetries maxRetries) - S n)
                           orderId (defaultRetries maxRetries)
                           (Z.of_nat n + 1)
                           (after_sleep s'))).
Proof.
  intros Henc Hle Hproc Hans. unfold pollResult.
  set (m := defaultRetries maxRetries) in *.
  destruct (pollLoop_rounds E config orderId m n Henc (Z.to_nat m) 0%Z s)
    as (reqs & s1 & Hlen & Htr & Hnet & Hloop); [assumption | lia | lia |].
  rewrite Hloop. rewrite <- Hnet in Hans.
  destruct (pollAttempt_answered E config orderId s1 payload Henc Hans)
    as [last Hatt].
  exists reqs, last, (after_fetch s1 last). split; [exact Hlen|]. split.
  - simpl. rewrite Htr. now rewrite <- app_assoc.
  - destruct (Z.to_nat m - n)%nat as [|fuel] eqn:Hfuel; [lia|].
    rewrite pollLoop_unfold.
    assert (Hlt : (0 + Z.of_nat n <? m)%Z = true) by (apply Z.ltb_lt; lia).
    rewrite Hlt. unfold bind at 1. rewrite Hatt.
    destruct (strict_eq_num (status_of payload) 4); [reflexivity|].
    destruct (strict_eq_num (status_of payload) 3); [|reflexivity].
    simpl negb. cbv beta iota.
    unfold bind at 1. rewrite sleep_eq. cbv beta iota.
    replace (Z.to_nat m - S n)%nat with fuel by lia.
    replace (0 + Z.of_nat n + 1)%Z with (Z.of_nat n + 1)%Z by lia.
    now destruct (pollLoop E config fuel orderId m (Z.of_nat n + 1)
                    (after_sleep (after_fetch s1 last))).
Qed.

(** *** The fuel is enough *)

Lemma terminates_ret {A} (a : A) : terminates (ret a).
Proof. intros s. discriminate. Qed.

Lemma terminates_throw {A} (e : exn) : terminates (throw (A:=A) e).
Proof. intros s. discriminate. Qed.

Lemma terminates_bind {A B} (c : M A) (k : A -> M B) :
  terminates c -> (forall a, terminates (k a)) -> terminates (bind c k).
Proof.
  intros Hc Hk s. unfold bind. specialize (Hc s).
  destruct (c s) as [[a|e|] s1]; simpl in *;
    [apply Hk | discriminate | congruence].
Qed.

Lemma terminates_lift_sum {A} (r : exn + A) : terminates (lift_sum r).
Proof. destruct r; intros s; discriminate. Qed.

Lemma terminates_lift_err {A} (r : error_obj + A) : terminates (lift_err r).
Proof. destruct r; intros s; discriminate. Qed.

Lemma terminates_lift_option {A} (o : option A) (e : exn) :
  terminates (lift_option o e).
Proof. destruct o; intros s; discriminate. Qed.

Lemma terminates_DateNow (E : env) : terminates (DateNow E).
Proof. intros s. discriminate. Qed.

Lemma terminates_randomBytes (E : env) (n : nat) : terminates (randomBytes E n).
Proof. intros s. discriminate. Qed.

Lemma terminates_fetch (E : env) (req : request) : terminates (fetch E req).
Proof. intros s. unfold fetch. apply terminates_lift_err. Qed.

Lemma terminates_sleep (ms : Z) : terminates (sleep ms).
Proof. intros s. discriminate. Qed.

Create HintDb terminates.
#[local] Hint Resolve terminates_ret terminates_throw terminates_lift_sum
  terminates_lift_err terminates_lift_option terminates_DateNow
  terminates_randomBytes terminates_fetch terminates_sleep : terminates.

Ltac terminates_step :=
  match goal with
  | |- terminates (bind _ _) => apply terminates_bind; [|intros ?]
  | |- terminates (if ?b then _ else _) => destruct b
  | |- terminates (let x := _ in _) => cbv zeta
  | |- terminates _ => solve [auto with terminates]
  end.

Lemma pollAttempt_terminates (E : env) (config : AsrConfig)
  (orderId : value) : terminates (pollAttempt E config orderId).
Proof.
  unfold pollAttempt, vendor_error, prop. repeat terminates_step.
Qed.

Lemma pollLoop_terminates (E : env) (config : AsrConfig) (orderId : value)
  (maxRetries : Z) (fuel : nat) :
  forall (retries : Z) (s : state),
    (maxRetries - retries <= Z.of_nat fuel)%Z ->
    fst (pollLoop E config fuel orderId maxRetries retries s) <> OutOfFuel.
Proof.
  induction fuel as [|fuel IH]; intros retries s Hle.
  - rewrite pollLoop_exhausted by lia. discriminate.
  - rewrite pollLoop_unfold.
    destruct (retries <? maxRetries)%Z; [|discriminate].
    unfold bind at 1.
    pose proof (pollAttempt_terminates E config orderId s) as Hatt.
    destruct (pollAttempt E config orderId s) as [[[result|]|e|] s1];
      simpl in Hatt; try discriminate; try congruence.
    unfold bind at 1. rewrite sleep_eq. cbv beta iota.
    apply IH. lia.
Qed.

(** [pollResult] always ends: with a payload or with an exception. *)
Lemma pollResult_terminates (E : env) (config : AsrConfig)
  (orderId : value) (maxRetries : option Z) (s : state) :
  fst (pollResult E config orderId maxRetries s) <> OutOfFuel.
Proof. unfold pollResult. apply pollLoop_terminates. lia. Qed.

(** *** Strings that cannot be encoded *)

Lemma encode_all_none (cps : list (option N)) :
  forallb (fun o => match o with Some _ => true | None => false end) cps
  = false ->
  encode_all cps = None.
Proof.
  induction cps as [|[cp|] r IH]; simpl; intros H; try discriminate.
  - now rewrite IH.
  - reflexivity.
Qed.

Lemma malformed_not_encoded (s : jsstring) :
  well_formed s = false -> encodeURIComponent s = None.
Proof. apply encode_all_none. Qed.

Lemma generateSignature_error (config : AsrConfig) (p : params) (e : exn) :
  generateSignature config p = inl e -> e = URIError.
Proof.
  unfold generateSignature.
  destruct (accessKeySecret config) as [secret|]; [|discriminate].
  destruct (negb (str_truthy secret)); [discriminate|].
  destruct (map_opt _ _); [discriminate|]. now intros [= <-].
Qed.

Lemma encoded_well_formed (s t : jsstring) :
  encodeURIComponent s = Some t -> well_formed s = true.
Proof.
  intros H. destruct (well_formed s) eqn:Hw; [reflexivity|].
  rewrite (malformed_not_encoded _ Hw) in H. discriminate.
Qed.

Lemma map_err_inl {A B} (f : A -> exn + B) (l : list A) (e : exn) :
  map_err f l = inl e -> exists x, In x l /\ f x = inl e.
Proof.
  induction l as [|x r IH]; simpl; [discriminate|].
  destruct (f x) as [e'|y] eqn:Hx.
  - intros [= <-]. exists x. split; [now left | exact Hx].
  - destruct (map_err f r) as [e'|ys]; [|discriminate].
    intros [= <-]. destruct IH as (z & Hz & Hfz); [reflexivity|].
    exists z. split; [now right | exact Hfz].
Qed.

Lemma map_err_inr {A B} (f : A -> exn + B) (l : list A) (ys : list B) :
  map_err f l = inr ys -> forall x, In x l -> exists y, f x = inr y.
Proof.
  revert ys. induction l as [|x r IH]; simpl; intros ys H z Hz; [tauto|].
  destruct (f x) as [e'|y] eqn:Hx; [discriminate|].
  destruct (map_err f r) as [e'|ys'] eqn:Hr; [discriminate|].
  destruct Hz as [<-|Hz]; [exists y; exact Hx | now apply (IH ys' eq_refl)].
Qed.

(** The two errors the building of a query can end with. *)
Lemma encode_value_error (v : value) (e : exn) :
  encode_value v = inl e -> e = unbuildable v.
Proof.
  unfold encode_value, ToString, unbuildable.
  destruct (stringable v); [|now intros [= <-]].
  destruct (encodeURIComponent (to_string v)); [discriminate|].
  now intros [= <-].
Qed.

Lemma encode_value_inr (v : value) (t : jsstring) :
  encode_value v = inr t ->
  stringable v = true /\ well_formed (to_string v) = true.
Proof.
  unfold encode_value, ToString.
  destruct (stringable v); [|discriminate].
  destruct (encodeURIComponent (to_string v)) eqn:He; [|discriminate].
  intros _. split; [reflexivity | now apply (encoded_well_formed _ _ He)].
Qed.

Lemma encode_raw_pair_inr (p : raw_params) (k t : jsstring) :
  encode_raw_pair p k = inr t ->
  stringable (lookup k p) = true
  /\ well_formed (to_string (lookup k p)) = true.
Proof.
  unfold encode_raw_pair.
  destruct (encodeURIComponent k); [|discriminate].
  destruct (encode_value (lookup k p)) eqn:He; [discriminate|].
  intros _. now apply (encode_value_inr _ _ He).
Qed.

(** What building the query of [orderId] throws when it throws: the
    [URIError] of [encodeURIComponent], or the [TypeError] of an
    identifier that cannot be converted to a string. *)
Lemma poll_pair_error (config : AsrConfig) (orderId : value)
  (timestamp nonce k : jsstring) (e : exn) :
  encode_raw_pair (poll_params config orderId timestamp nonce) k = inl e ->
  e = URIError \/ e = unbuildable orderId.
Proof.
  unfold encode_raw_pair.
  destruct (encodeURIComponent k); [|intros [= <-]; now left].
  destruct (encode_value _) as [e'|] eqn:He; [|discriminate].
  intros [= <-]. apply encode_value_error in He. subst e'.
  unfold poll_params, lookup.
  repeat match goal with
         | |- context [if ?b then _ else _] => destruct b
         end;
    try (left; reflexivity); right; reflexivity.
Qed.

Lemma poll_signature_error (config : AsrConfig) (orderId : value)
  (timestamp nonce : jsstring) (e : exn) :
  generateSignature_raw config (poll_params config orderId timestamp nonce)
  = inl e ->
  e = URIError \/ e = unbuildable orderId.
Proof.
  unfold generateSignature_raw.
  destruct (accessKeySecret config) as [secret|]; [|discriminate].
  destruct (negb (str_truthy secret)); [discriminate|].
  destruct (map_err _ _) as [e'|] eqn:Hm; [|discriminate].
  intros [= <-]. apply map_err_inl in Hm as (k & _ & Hk).
  now apply poll_pair_error in Hk.
Qed.

Lemma poll_query_error (config : AsrConfig) (orderId : value)
  (timestamp nonce : jsstring) (e : exn) :
  queryString_raw (poll_params config orderId timestamp nonce) = inl e ->
  e = URIError \/ e = unbuildable orderId.
Proof.
  unfold queryString_raw.
  destruct (map_err _ _) as [e'|] eqn:Hm; [|discriminate].
  intros [= <-]. apply map_err_inl in Hm as (k & _ & Hk).
  now apply poll_pair_error in Hk.
Qed.

(** The query string of a status query whose identifier or credentials
    cannot be encoded cannot be built. *)
Lemma queryString_malformed (config : AsrConfig) (orderId : value)
  (timestamp nonce : jsstring) :
  ~ encodable config orderId ->
  exists e,
    queryString_raw (poll_params config orderId timestamp nonce) = inl e.
Proof.
  intros Hne.
  destruct (queryString_raw (poll_params config orderId timestamp nonce))
    as [e|q] eqn:Hq; [now eexists|].
  exfalso. apply Hne. unfold queryString_raw in Hq.
  destruct (map_err _ _) as [|ys] eqn:Hm; [discriminate|].
  pose proof (map_err_inr _ _ _ Hm) as Hall.
  destruct (Hall (js "appId")) as [t1 H1]; [now left|].
  destruct (Hall (js "accessKeyId")) as [t2 H2]; [right; now left|].
  destruct (Hall (js "orderId")) as [t3 H3]; [do 4 right; now left|].
  apply encode_raw_pair_inr in H1, H2, H3.
  change (lookup (js "appId") _)
    with (VStr (str_or (appid config) [])) in H1.
  change (lookup (js "accessKeyId") _)
    with (VStr (str_or (accessKeyId config) [])) in H2.
  change (lookup (js "orderId") _) with orderId in H3.
  cbn [to_string] in H1, H2.
  repeat split; tauto.
Qed.

(** With such an identifier or such credentials [pollResult] throws
    before its first query: the [URIError] of [encodeURIComponent], or the
    [TypeError] of an identifier that cannot be converted to a string. *)
Lemma pollResult_malformed (E : env) (config : AsrConfig)
  (orderId : value) (maxRetries : option Z) (s : state) :
  ~ encodable config orderId ->
  (0 < defaultRetries maxRetries)%Z ->
  exists e s',
    pollResult E config orderId maxRetries s = (Throw e, s')
    /\ (e = URIError \/ e = unbuildable orderId)
    /\ trace s' = trace s.
Proof.
  intros Hne Hpos. unfold pollResult.
  destruct (Z.to_nat (defaultRetries maxRetries)) as [|fuel] eqn:Hfuel; [lia|].
  rewrite pollLoop_unfold.
  replace (0 <? defaultRetries maxRetries)%Z with true
    by (symmetry; apply Z.ltb_lt; lia).
  unfold bind at 1, pollAttempt, bind, DateNow, randomBytes.
  cbn [n_clock n_random].
  destruct (generateSignature_raw config _) as [e | sig] eqn:Hsig;
    cbn [lift_sum throw ret].
  - apply poll_signature_error in Hsig.
    eexists _, _. split; [reflexivity|]. split; [exact Hsig | reflexivity].
  - destruct (queryString_malformed config orderId
                (Z_to_string (date_now E (n_clock s) / 1000))
                (Crypto.hex (random_bytes E (n_random s) 8)) Hne) as [e Hq].
    rewrite Hq. cbn [lift_sum throw].
    apply poll_query_error in Hq.
    eexists _, _. split; [reflexivity|]. split; [exact Hq | reflexivity].
Qed.

(** *** Runs of the poller on the fixtures *)

(** A run in which every turn finds the order processing. *)
Lemma pollResult_exhausts (E : env) (config : AsrConfig)
  (orderId : value) (maxRetries : option Z) (s : state) :
  encodable config orderId ->
  (0 <= defaultRetries maxRetries)%Z ->
  processing_from E (n_net s) (Z.to_nat (defaultRetries maxRetries)) ->
  exists reqs s',
    pollResult E config orderId maxRetries s
    = (Throw (mkError (js "查询超时: 已重试 "
                         ++ Z_to_string (defaultRetries maxRetries)
                         ++ js " 次")), s')
    /\ Z.of_nat (List.length reqs) = defaultRetries maxRetries
    /\ trace s' = trace s ++ processing_rounds reqs.
Proof.
  intros Henc Hpos Hproc. unfold pollResult.
  set (m := defaultRetries maxRetries) in *.
  destruct (pollLoop_rounds E config orderId m (Z.to_nat m) Henc
              (Z.to_nat m) 0%Z s)
    as (reqs & s' & Hlen & Htr & _ & Hloop); [assumption | lia | lia |].
  exists reqs, s'. rewrite Hloop. split.
  - apply pollLoop_exhausted. lia.
  - split; [rewrite Hlen; lia | exact Htr].
Qed.

(** The fixtures answer what they are built to answer. *)
Lemma poller_answers (statuses : nat -> value) (signal : nat -> bool)
  (k : nat) :
  answers (Fixtures.poller statuses signal) k
    (Fixtures.payload_with_status (statuses k)).
Proof.
  intros req. eexists. split; [reflexivity|].
  repeat split.
Qed.

Lemma poller_processing (n : nat) (final : value) (signal : nat -> bool) :
  processing_from
    (Fixtures.poller (Fixtures.processing_then n final) signal) 0 n.
Proof.
  intros i Hi. exists (Fixtures.payload_with_status (VNum 3)).
  split; [|reflexivity].
  pose proof (poller_answers (Fixtures.processing_then n final) signal i)
    as Hans.
  unfold Fixtures.processing_then in Hans at 2.
  apply Nat.ltb_lt in Hi. rewrite Hi in Hans. exact Hans.
Qed.

Lemma poller_always_processing (signal : nat -> bool) (n : nat) :
  processing_from (Fixtures.poller (fun _ => VNum 3) signal) 0 n.
Proof.
  intros i _. exists (Fixtures.payload_with_status (VNum 3)).
  split; [|reflexivity]. apply (poller_answers (fun _ => VNum 3)).
Qed.

Lemma fixture_encodable :
  encodable Fixtures.signed_config (VStr (js "abc123")).
Proof. repeat split. Qed.

End PollFacts.

(** ** Validation and parsing *)

Module AsrFacts.

Import JS Eff JSFacts AsrClient AsrSpec.

(** *** Validation of the audio file *)

(** What [checkAudioFile] throws when it refuses the path. *)
Lemma checkAudioFile_refuses (E : env) (audioPath : jsstring) (s : state) :
  not_regular_file E s audioPath \/ extension_refused audioPath ->
  exists e,
    checkAudioFile E audioPath s = (Throw e, fs_step (EvStat audioPath) s)
    /\ match fs_stat E (n_fs s) audioPath with
       | inl err =>
         e = match err_code err with
             | Some c => if str_eqb c (js "ENOENT")
                         then mkError (js "音频文件不存在: " ++ audioPath)
                         else ErrorObj err
             | None => ErrorObj err
             end
       | inr st =>
         e = if negb (isFile st)
             then mkError (js "不是有效的文件: " ++ audioPath)
             else mkError (js "不支持的音频格式: "
                             ++ toLowerCase (NodePath.extname audioPath)
                             ++ js "，仅支持 wav/mp3/m4a")
       end.
Proof.
  unfold not_regular_file, extension_refused. intros H.
  unfold checkAudioFile, try_catch, bind, stat.
  destruct (fs_stat E (n_fs s) audioPath) as [err | st];
    cbn [lift_err throw ret].
  - unfold exn_code. cbn [lift_option ret].
    destruct (err_code err) as [c|]; cbn [strict_eq_str].
    + destruct (str_eqb c (js "ENOENT")); eexists; split; reflexivity.
    + eexists; split; reflexivity.
  - destruct (isFile st) eqn:Hfile; cbn [negb].
    + destruct H as [H | H]; [discriminate|]. rewrite H. cbn [negb].
      eexists; split; reflexivity.
    + eexists; split; reflexivity.
Qed.

(** C6.  When the path does not name an existing regular file, or its
    lowercased extension is not one of [.wav], [.mp3], [.m4a],
    [transcribe] throws the error of the validation and has done nothing
    but the one [fs.stat]: no request has gone to the network, neither
    the upload nor a status query. *)
Theorem transcribe_rejects_before_network (E : env) (config : AsrConfig)
  (audioPath : jsstring) (s : state) :
  not_regular_file E s audioPath \/ extension_refused audioPath ->
  exists e s',
    transcribe E config audioPath s = (Throw e, s')
    /\ trace s' = trace s ++ [EvStat audioPath]
    /\ fetches (trace s') = fetches (trace s)
    /\ n_net s' = n_net s
    /\ match fs_stat E (n_fs s) audioPath with
       | inl err =>
         e = match err_code err with
             | Some c => if str_eqb c (js "ENOENT")
                         then mkError (js "音频文件不存在: " ++ audioPath)
                         else ErrorObj err
             | None => ErrorObj err
             end
       | inr st =>
         e = if negb (isFile st)
             then mkError (js "不是有效的文件: " ++ audioPath)
             else mkError (js "不支持的音频格式: "
                             ++ toLowerCase (NodePath.extname audioPath)
                             ++ js "，仅支持 wav/mp3/m4a")
       end.
Proof.
  intros H.
  destruct (checkAudioFile_refuses E audioPath s H) as (e & Hcheck & He).
  exists e, (fs_step (EvStat audioPath) s).
  split; [unfold transcribe, bind; rewrite Hcheck; reflexivity|].
  split; [reflexivity|].
  split; [|split; [reflexivity | exact He]].
  cbn [fs_step trace log]. unfold log, fetches.
  rewrite flat_map_app. cbn [flat_map]. now rewrite !app_nil_r.
Qed.

Lemma transcribe_rejects_before_network_witness :
  extension_refused (js "/tmp/meeting.OGG")
  /\ extension_refused (js "/tmp/talk.ÀÉ")
  /\ (exists e s',
        transcribe Fixtures.disk Fixtures.signed_config
          (js "/tmp/meeting.OGG") init = (Throw e, s')
        /\ e = mkError (js "不支持的音频格式: .ogg，仅支持 wav/mp3/m4a")
        /\ fetches (trace s') = [])
  /\ exists e s',
       transcribe Fixtures.disk Fixtures.signed_config
         (js "/tmp/talk.ÀÉ") init = (Throw e, s')
       /\ e = mkError (js "不支持的音频格式: .àé，仅支持 wav/mp3/m4a")
       /\ fetches (trace s') = [].
Proof.
  assert (Hogg : extension_refused (js "/tmp/meeting.OGG"))
    by (vm_compute; reflexivity).
  assert (Hae : extension_refused (js "/tmp/talk.ÀÉ"))
    by (vm_compute; reflexivity).
  split; [exact Hogg|]. split; [exact Hae|]. split.
  - destruct (transcribe_rejects_before_network Fixtures.disk
                Fixtures.signed_config (js "/tmp/meeting.OGG") init
                (or_intror Hogg))
      as (e & s' & Hrun & _ & Hfetch & _ & He).
    exists e, s'. split; [exact Hrun|]. split; [|exact Hfetch].
    rewrite He. vm_compute. reflexivity.
  - destruct (transcribe_rejects_before_network Fixtures.disk
                Fixtures.signed_config (js "/tmp/talk.ÀÉ") init
                (or_intror Hae))
      as (e & s' & Hrun & _ & Hfetch & _ & He).
    exists e, s'. split; [exact Hrun|]. split; [|exact Hfetch].
    rewrite He. vm_compute. reflexivity.
Defined.

(** *** Parsing of the transcript *)

Lemma sentence_fields (x : sentence) :
  get (sentence_json x) (js "speakerId")
  = Some (match speakerId x with Some id => VStr id | None => VUndefined end)
  /\ get (sentence_json x) (js "text")
    = Some (match text x with Some t => VStr t | None => VUndefined end)
  /\ get (sentence_json x) (js "beginTime")
    = Some (optional_number (beginTime x))
  /\ get (sentence_json x) (js "endTime")
    = Some (optional_number (endTime x)).
Proof.
  destruct x as [[id|] [t|] [b|] [e|]]; repeat split; reflexivity.
Qed.

Lemma speaker_of_sentence (x : sentence) :
  or_else (match speakerId x with Some id => VStr id | None => VUndefined end)
          (VStr (js "S0"))
  = VStr (speaker_label x).
Proof.
  unfold speaker_label, or_else.
  destruct (speakerId x) as [id|]; [|reflexivity].
  cbn [truthy]. rewrite str_truthy_nonempty. now destruct (str_eqb id []).
Qed.

Lemma text_of_sentence (x : sentence) :
  or_else (match text x with Some t => VStr t | None => VUndefined end)
          (VStr [])
  = VStr (match text x with Some t => t | None => [] end).
Proof.
  unfold or_else. destruct (text x) as [[|c t]|]; reflexivity.
Qed.

(** The loop, started with any two arrays, appends to them the segments
    and the lines of the retained entries, in the order of the input. *)
Lemma parseLoop_appends (xs : list sentence) :
  forall (segments : list AsrSegment) (textParts : list jsstring),
    parseLoop (List.map sentence_json xs) segments textParts
    = inr (segments ++ List.map segment_of (filter kept xs),
           textParts ++ List.map line_of (filter kept xs)).
Proof.
  induction xs as [|x xs IH]; intros segments textParts.
  - simpl. now rewrite !app_nil_r.
  - cbn [List.map parseLoop].
    destruct (sentence_fields x) as (Hs & Ht & Hb & He).
    rewrite Hs, Ht, Hb, He.
    rewrite speaker_of_sentence, text_of_sentence.
    fold (trimmed_text x). unfold ToString. cbn [stringable to_string filter].
    assert (Hk : str_truthy (trimmed_text x) = kept x)
      by (unfold kept; apply str_truthy_nonempty).
    rewrite Hk. destruct (kept x).
    + rewrite IH. cbn [List.map]. now rewrite <- !app_assoc.
    + apply IH.
Qed.

(** C5.  On a list of vendor sentences the parser keeps exactly the
    entries whose trimmed text is not empty; a retained entry without a
    speaker id gets ["S0"]; the segments are the retained entries in the
    order of the input; and the text is the lines ["speaker: text"] of
    these segments, in the same order, joined with a line feed. *)
Theorem parseTranscript_keeps_order (result : value) (xs : list sentence) :
  sentences_of result = Some (VArr (List.map sentence_json xs)) ->
  exists text segments,
    parseTranscript result = inr (text, segments)
    /\ segments = List.map segment_of (filter kept xs)
    /\ text = join LF (List.map line_of (filter kept xs))
    /\ text = join LF (List.map (fun seg => to_string (speaker seg) ++ js ": "
                                           ++ AsrClient.text seg) segments)
    /\ (forall x, In x xs ->
          (In (segment_of x) segments <-> trimmed_text x <> []))
    /\ (forall x, speakerId x = None -> speaker_label x = js "S0").
Proof.
  intros Hres. unfold sentences_of in Hres.
  unfold parseTranscript.
  destruct (get result (js "content")) as [content|]; [|discriminate].
  inversion Hres as [Hs]. rewrite Hs. cbn [or_else truthy iterate].
  rewrite parseLoop_appends. cbn [app].
  eexists _, _. split; [reflexivity|]. split; [reflexivity|].
  split; [reflexivity|]. split.
  - f_equal. rewrite map_map. reflexivity.
  - split.
    + intros x Hx. split.
      * intros Hin. apply in_map_iff in Hin as (y & Hy & Hin).
        apply filter_In in Hin as [_ Hk]. unfold kept in Hk.
        apply negb_true_iff, str_eqb_neq in Hk.
        assert (Ht : trimmed_text y = trimmed_text x)
          by (change (AsrClient.text (segment_of y)
                      = AsrClient.text (segment_of x)); now rewrite Hy).
        congruence.
      * intros Hne. apply in_map. apply filter_In. split; [exact Hx|].
        unfold kept. now apply negb_true_iff, str_eqb_neq.
    + intros x Hx. unfold speaker_label. now rewrite Hx.
Qed.

Lemma parseTranscript_keeps_order_witness :
  sentences_of Fixtures.completed_payload
  = Some (VArr (List.map sentence_json Fixtures.three_sentences))
  /\ parseTranscript Fixtures.completed_payload
     = inr (js "S0: hello" ++ LF ++ js "S1: world",
            [ {| AsrClient.speaker := VStr (js "S0");
                 AsrClient.text := js "hello";
                 AsrClient.startTime := VNum 0;
                 AsrClient.endTime := VNum 900 |};
              {| AsrClient.speaker := VStr (js "S1");
                 AsrClient.text := js "world";
                 AsrClient.startTime := VUndefined;
                 AsrClient.endTime := VUndefined |} ]).
Proof.
  assert (Hs : sentences_of Fixtures.completed_payload
               = Some (VArr (List.map sentence_json Fixtures.three_sentences)))
    by reflexivity.
  split; [exact Hs|].
  destruct (parseTranscript_keeps_order Fixtures.completed_payload
              Fixtures.three_sentences Hs)
    as (text & segments & Hrun & Hseg & Htext & _).
  rewrite Hrun, Hseg, Htext. vm_compute. reflexivity.
Defined.

End AsrFacts.

(** ** The tools *)

Module ToolFacts.

Import JS Eff JSFacts ToolSpec Tools.

(** *** Relations every step keeps *)

Section Preserves.

Variable R : state -> state -> Prop.
Hypothesis R_refl : forall s, R s s.
Hypothesis R_trans : forall s1 s2 s3, R s1 s2 -> R s2 s3 -> R s1 s3.

Lemma preserves_ret {A} (a : A) : preserves R (ret a).
Proof. intros s. apply R_refl. Qed.

Lemma preserves_throw {A} (e : exn) : preserves R (throw (A:=A) e).
Proof. intros s. apply R_refl. Qed.

Lemma preserves_bind {A B} (c : M A) (k : A -> M B) :
  preserves R c -> (forall a, preserves R (k a)) -> preserves R (bind c k).
Proof.
  intros Hc Hk s. unfold bind. specialize (Hc s).
  destruct (c s) as [[a|e|] s1]; simpl in *; try assumption.
  eapply R_trans; [exact Hc | apply Hk].
Qed.

Lemma preserves_try_catch {A} (c : M A) (h : exn -> M A) :
  preserves R c -> (forall e, preserves R (h e)) ->
  preserves R (try_catch c h).
Proof.
  intros Hc Hh s. unfold try_catch. specialize (Hc s).
  destruct (c s) as [[a|e|] s1]; simpl in *; try assumption.
  eapply R_trans; [exact Hc | apply Hh].
Qed.

Lemma preserves_lift_err {A} (r : error_obj + A) : preserves R (lift_err r).
Proof. destruct r; intros s; apply R_refl. Qed.

Lemma preserves_lift_option {A} (o : option A) (e : exn) :
  preserves R (lift_option o e).
Proof. destruct o; intros s; apply R_refl. Qed.

End Preserves.

Lemma no_network_refl (s : state) : no_network s s.
Proof. reflexivity. Qed.

Lemma no_network_trans (s1 s2 s3 : state) :
  no_network s1 s2 -> no_network s2 s3 -> no_network s1 s3.
Proof. unfold no_network. congruence. Qed.

Lemma extends_by_refl (P : event -> Prop) (s : state) : extends_by P s s.
Proof. exists []. split; [now rewrite app_nil_r | constructor]. Qed.

Lemma extends_by_trans (P : event -> Prop) (s1 s2 s3 : state) :
  extends_by P s1 s2 -> extends_by P s2 s3 -> extends_by P s1 s3.
Proof.
  intros (e1 & H1 & F1) (e2 & H2 & F2). exists (e1 ++ e2). split.
  - now rewrite H2, H1, app_assoc.
  - apply Forall_app. now split.
Qed.

Lemma extends_by_one (P : event -> Prop) (s s' : state) (ev : event) :
  P ev -> trace s' = trace s ++ [ev] -> extends_by P s s'.
Proof. intros HP Ht. exists [ev]. split; [exact Ht | now constructor]. Qed.

(** The primitives other than [fetch] leave the network alone. *)
Lemma DateNow_offline (E : env) : preserves no_network (DateNow E).
Proof. intros s. reflexivity. Qed.

Lemma readFileUtf8_offline (E : env) (p : jsstring) :
  preserves no_network (readFileUtf8 E p).
Proof.
  intros s. unfold readFileUtf8.
  destruct (fs_readFile E (n_fs s) p) as [e|[t|bs]]; reflexivity.
Qed.

Lemma mkdir_offline (E : env) (p : jsstring) : preserves no_network (mkdir E p).
Proof.
  intros s. unfold mkdir. destruct (fs_mkdir E (n_fs s) p); reflexivity.
Qed.

Lemma writeFile_offline (E : env) (p : jsstring) (d : file_data) :
  preserves no_network (writeFile E p d).
Proof.
  intros s. unfold writeFile. destruct (fs_writeFile E (n_fs s) p d);
    reflexivity.
Qed.

Lemma invokeLLM_offline (llm : nat -> jsstring -> exn + jsstring)
  (prompt : jsstring) : preserves no_network (invokeLLM llm prompt).
Proof.
  intros s. unfold invokeLLM. destruct (llm (n_llm s) prompt); reflexivity.
Qed.

(** Each primitive adds at most its own event to the trace. *)
Lemma DateNow_extends (P : event -> Prop) (E : env) :
  preserves (extends_by P) (DateNow E).
Proof.
  intros s. exists []. split; [simpl; now rewrite app_nil_r | constructor].
Qed.

Lemma readFileUtf8_extends (P : event -> Prop) (E : env) (p : jsstring) :
  P (EvReadFile p) -> preserves (extends_by P) (readFileUtf8 E p).
Proof.
  intros HP s. apply (extends_by_one P _ _ (EvReadFile p) HP).
  unfold readFileUtf8.
  destruct (fs_readFile E (n_fs s) p) as [e|[t|bs]]; reflexivity.
Qed.

Lemma mkdir_extends (P : event -> Prop) (E : env) (p : jsstring) :
  P (EvMkdir p) -> preserves (extends_by P) (mkdir E p).
Proof.
  intros HP s. apply (extends_by_one P _ _ (EvMkdir p) HP).
  unfold mkdir. destruct (fs_mkdir E (n_fs s) p); reflexivity.
Qed.

Lemma writeFile_extends (P : event -> Prop) (E : env) (p : jsstring)
  (d : file_data) :
  P (EvWriteFile p d) -> preserves (extends_by P) (writeFile E p d).
Proof.
  intros HP s. apply (extends_by_one P _ _ (EvWriteFile p d) HP).
  unfold writeFile. destruct (fs_writeFile E (n_fs s) p d); reflexivity.
Qed.

Lemma fetch_extends (P : event -> Prop) (E : env) (req : request) :
  P (EvFetch req) -> preserves (extends_by P) (fetch E req).
Proof.
  intros HP s. apply (extends_by_one P _ _ (EvFetch req) HP).
  unfold fetch. destruct (net_fetch E (n_net s) req); reflexivity.
Qed.

Lemma invokeLLM_extends (P : event -> Prop)
  (llm : nat -> jsstring -> exn + jsstring) (prompt : jsstring) :
  P (EvLLM prompt) -> preserves (extends_by P) (invokeLLM llm prompt).
Proof.
  intros HP s. apply (extends_by_one P _ _ (EvLLM prompt) HP).
  unfold invokeLLM. destruct (llm (n_llm s) prompt); reflexivity.
Qed.

Create HintDb steps.
#[local] Hint Resolve no_network_refl extends_by_refl
  preserves_ret preserves_throw preserves_lift_err preserves_lift_option
  DateNow_offline readFileUtf8_offline mkdir_offline writeFile_offline
  invokeLLM_offline DateNow_extends : steps.

Ltac event_ok := first [exact I | reflexivity].

(** One step of the proof that a computation keeps a relation: split a
    [bind], a [try ... catch] or a test, or close a primitive. *)
Ltac preserves_step :=
  match goal with
  | |- preserves _ (bind _ _) =>
    apply preserves_bind;
    [first [exact no_network_trans | apply extends_by_trans] ..
    | | intros ?; cbv beta]
  | |- preserves _ (try_catch _ _) =>
    apply preserves_try_catch;
    [first [exact no_network_trans | apply extends_by_trans] ..
    | | intros ?; cbv beta]
  | |- preserves _ (let _ := _ in _) => cbv zeta
  | |- preserves _ (if ?b then _ else _) => destruct b
  | |- preserves _ (match ?o with Some _ => _ | None => _ end) => destruct o
  | |- preserves (extends_by _) (readFileUtf8 _ _) =>
    apply readFileUtf8_extends; event_ok
  | |- preserves (extends_by _) (mkdir _ _) => apply mkdir_extends; event_ok
  | |- preserves (extends_by _) (writeFile _ _ _) =>
    apply writeFile_extends; event_ok
  | |- preserves (extends_by _) (fetch _ _) => apply fetch_extends; event_ok
  | |- preserves (extends_by _) (invokeLLM _ _) =>
    apply invokeLLM_extends; event_ok
  | |- preserves _ _ => solve [auto with steps]
  end.

Lemma readSource_offline (E : env) (source : jsstring) :
  preserves no_network (readSource E source).
Proof. unfold readSource. repeat preserves_step. Qed.

Lemma outputNameOr_offline (E : env) (name : option jsstring)
  (prefix suffix : jsstring) :
  preserves no_network (outputNameOr E name prefix suffix).
Proof. unfold outputNameOr, generateOutputName. repeat preserves_step. Qed.

Lemma saveMarkdown_offline (E : env) (dir name content : jsstring) :
  preserves no_network (saveMarkdown E dir name content).
Proof. unfold saveMarkdown, ensureOutputDir. repeat preserves_step. Qed.

Lemma readSource_no_image (E : env) (source : jsstring) :
  preserves (extends_by not_image_write) (readSource E source).
Proof. unfold readSource. repeat preserves_step. Qed.

Lemma outputNameOr_extends (P : event -> Prop) (E : env)
  (name : option jsstring) (prefix suffix : jsstring) :
  preserves (extends_by P) (outputNameOr E name prefix suffix).
Proof. unfold outputNameOr, generateOutputName. repeat preserves_step. Qed.

Lemma saveMarkdown_no_image (E : env) (dir name content : jsstring) :
  preserves (extends_by not_image_write) (saveMarkdown E dir name content).
Proof. unfold saveMarkdown, ensureOutputDir. repeat preserves_step. Qed.

Lemma invokeLLM_no_image (llm : nat -> jsstring -> exn + jsstring)
  (prompt : jsstring) :
  preserves (extends_by not_image_write) (invokeLLM llm prompt).
Proof. preserves_step. Qed.

(** *** The Markdown file and the renderer *)

(** A [saveMarkdown] that returns a path has written the content there. *)
Lemma saveMarkdown_written (E : env) (dir name content path : jsstring)
  (s s' : state) :
  saveMarkdown E dir name content s = (Ok path, s') ->
  exists evs,
    trace s' = trace s ++ evs
    /\ In (EvWriteFile path (Text content)) evs
    /\ Forall not_image_write evs.
Proof.
  unfold saveMarkdown, ensureOutputDir, bind, mkdir, writeFile.
  destruct (fs_mkdir E (n_fs s) (path_resolve E dir)) as [e|];
    [discriminate|].
  cbn [fs_step n_fs ret].
  match goal with
  | |- context [fs_writeFile E ?k ?p ?d] =>
    destruct (fs_writeFile E k p d) as [e|]; [discriminate|]
  end.
  intros H. inversion H; subst. cbn [fs_step trace log]. unfold log.
  unfold fs_step, log. cbn [trace]. rewrite <- app_assoc.
  eexists. split; [reflexivity|].
  split; [right; left; reflexivity | repeat constructor].
Qed.

(** A failing request makes [renderMarkmap] return a result without
    success; it never throws. *)
Lemma renderMarkmap_fails (E : env) (client : RendererClient.client)
  (markdown : jsstring) (options : RendererClient.RenderOptions) (s : state) :
  (forall req, render_failure E (net_fetch E (n_net s) req)) ->
  exists req msg,
    RendererClient.renderMarkmap E client markdown options s
    = (Ok (RendererClient.failure msg), after_request s req).
Proof.
  intros Hfail. unfold RendererClient.renderMarkmap.
  match goal with
  | |- context [fetch E ?r] => specialize (Hfail r); exists r
  end.
  unfold try_catch, bind at 1, fetch.
  fold (after_request s).
  unfold render_failure in Hfail.
  match goal with
  | |- context [net_fetch E ?k ?r] =>
    destruct (net_fetch E k r) as [err | resp]
  end; cbn [lift_err throw ret exn_message lift_option bind].
  - eexists. reflexivity.
  - destruct (resp_ok resp) eqn:Hok; cbn [negb].
    + destruct Hfail as [Hf | Hf]; [discriminate|].
      unfold bind at 1.
      destruct (resp_json resp) as [err | result];
        cbn [lift_err throw ret exn_message lift_option].
      * eexists. reflexivity.
      * unfold bind at 1, AsrClient.prop.
        unfold get_opt in Hf.
        destruct (get result (js "image")) as [image|];
          cbn [lift_option throw ret exn_message];
          [|eexists; reflexivity].
        destruct (truthy image).
        -- destruct Hf as [Hf | [e He]]; [discriminate|].
           unfold bind. rewrite He. eexists. reflexivity.
        -- eexists. reflexivity.
    + unfold bind at 1.
      destruct (resp_text resp); cbn [lift_err throw ret exn_message
                                        lift_option];
        eexists; reflexivity.
Qed.

(** With a failing renderer, step 4 yields no image path; the only thing
    it may have done is the request. *)
Lemma renderImage_fails (E : env) (config : ToolsConfig)
  (input : mindmap_input) (markdown markdownPath : jsstring) (s : state) :
  (forall req, render_failure E (net_fetch E (n_net s) req)) ->
  exists s',
    renderImage E config input markdown markdownPath s = (Ok None, s')
    /\ (s' = s
        \/ (render_image input <> Some false
            /\ exists req, s' = after_request s req)).
Proof.
  intros Hfail. unfold renderImage.
  destruct (render_image input) as [[|]|] eqn:Hri;
    destruct (rendererClient config) as [client|];
    try (exists s; split; [reflexivity | now left]).
  all: destruct (renderMarkmap_fails E client markdown
                   RendererClient.no_options s Hfail) as (req & msg & Hr);
    unfold bind; rewrite Hr;
    cbn [RendererClient.success RendererClient.failure];
    exists (after_request s req); split; [reflexivity|];
    right; split; [discriminate | now exists req].
Qed.

(** *** Where the source comes from *)

Lemma startsWith_prefix (s p : jsstring) :
  startsWith s p = true <-> exists rest, s = p ++ rest.
Proof.
  revert s; induction p as [|y p IH]; intros s; simpl.
  - split; [intros _; now exists s | now destruct s].
  - destruct s as [|x s].
    + split; [discriminate | intros [rest H]; discriminate].
    + simpl. rewrite andb_true_iff, N.eqb_eq, IH. split.
      * intros [-> [rest ->]]. now exists rest.
      * intros [rest H]. inversion H; subst. split; [reflexivity|].
        now exists rest.
Qed.

(** [s.endsWith(p)]: [s] is some text followed by [p]. *)
Lemma endsWith_suffix (s p : jsstring) :
  endsWith s p = true <-> exists front, s = front ++ p.
Proof.
  unfold endsWith. rewrite startsWith_prefix. split.
  - intros [rest H]. exists (rev rest).
    rewrite <- (rev_involutive s), H, rev_app_distr, rev_involutive.
    reflexivity.
  - intros [front ->]. exists (rev front). apply rev_app_distr.
Qed.

(** [s.includes("/")]: a slash occurs in [s]. *)
Lemma includes_slash (s : jsstring) :
  includes s (js "/") = true <-> In 47%N s.
Proof.
  induction s as [|c s IH].
  - split; [discriminate | contradiction].
  - change (includes (c :: s) (js "/"))
      with (((c =? 47)%N && startsWith s []) || includes s (js "/")).
    replace (startsWith s []) with true by now destruct s.
    rewrite orb_true_iff, andb_true_r, N.eqb_eq, IH. simpl.
    split; (intros [H | H]; [left; congruence | now right]).
Qed.

(** The test of the two tools, in words: the source ends with [.md] or
    has a slash in it. *)
Lemma looks_like_path_spec (source : jsstring) :
  looks_like_path source = true
  <-> (exists front, source = front ++ js ".md") \/ In 47%N source.
Proof.
  unfold looks_like_path.
  now rewrite orb_true_iff, endsWith_suffix, includes_slash.
Qed.

Lemma renderMarkmap_no_read (E : env) (client : RendererClient.client)
  (markdown : jsstring) (options : RendererClient.RenderOptions) :
  preserves (extends_by not_read)
    (RendererClient.renderMarkmap E client markdown options).
Proof.
  unfold RendererClient.renderMarkmap, AsrClient.prop.
  repeat preserves_step.
Qed.

Lemma error_result_no_read (fallback : jsstring) (e : exn) :
  preserves (extends_by not_read) (error_result fallback e).
Proof. unfold error_result. repeat preserves_step. Qed.

Lemma not_read_no_readFile (evs : list event) :
  Forall not_read evs -> ~ exists p, In (EvReadFile p) evs.
Proof.
  intros HF [p Hin]. rewrite Forall_forall in HF.
  specialize (HF _ Hin). discriminate.
Qed.

(** After its first step, a guarded sequence only does what the rest of
    the sequence and the handler do. *)
Lemma after_first_step {A B} (R : state -> state -> Prop) (c : M A)
  (k : A -> M B) (h : exn -> M B) (s : state) :
  (forall s, R s s) ->
  (forall s1 s2 s3, R s1 s2 -> R s2 s3 -> R s1 s3) ->
  (forall a, preserves R (k a)) ->
  (forall e, preserves R (h e)) ->
  R (snd (c s)) (snd (try_catch (bind c k) h s)).
Proof.
  intros Hrefl Htrans Hk Hh. unfold try_catch, bind.
  destruct (c s) as [[a|e|] s1]; cbn [snd].
  - pose proof (Hk a s1) as Hka.
    destruct (k a s1) as [[b|e|] s2]; cbn [snd] in *; try assumption.
    eapply Htrans; [exact Hka | apply Hh].
  - apply Hh.
  - apply Hrefl.
Qed.

Lemma extends_by_weaken (P : event -> Prop) (s s' : state) :
  extends_by P s s' -> extends_by (fun _ => True) s s'.
Proof.
  intros (evs & Ht & _). exists evs. split; [exact Ht|].
  apply Forall_forall. intros; exact I.
Qed.

(** The rule for a tool whose body is: read the source, then, with an
    LLM, ask it [prompt content] and go on with [rest]. *)
Lemma source_rule_holds (E : env) (source : jsstring)
  (prompt : jsstring -> jsstring)
  (steps : (nat -> jsstring -> exn + jsstring) -> jsstring -> M tool_result)
  (rest : (nat -> jsstring -> exn + jsstring) -> jsstring ->
          jsstring -> M tool_result)
  (h : exn -> M tool_result) (s : state) :
  (forall llm content,
      steps llm content
      = bind (invokeLLM llm (prompt content)) (rest llm content)) ->
  (forall llm content a,
      preserves (extends_by not_read) (rest llm content a)) ->
  (forall e, preserves (extends_by not_read) (h e)) ->
  source_rule E source prompt s
    (snd (try_catch
            (bind (readSource E source)
               (fun content =>
                  match callLLM E with
                  | None => throw (mkError (js "LLM 服务不可用"))
                  | Some llm => steps llm content
                  end)) h s)).
Proof.
  intros Hsteps Hrest Hh.
  assert (Hk : forall content,
             preserves (extends_by not_read)
               (match callLLM E with
                | None => throw (mkError (js "LLM 服务不可用"))
                | Some llm => steps llm content
                end)).
  { intros content. destruct (callLLM E) as [llm|]; [|repeat preserves_step].
    rewrite Hsteps. repeat preserves_step. }
  pose proof (after_first_step (extends_by not_read) (readSource E source)
                _ h s (extends_by_refl _) (extends_by_trans _) Hk Hh)
    as (rest1 & Hrest1 & Hnr).
  unfold source_rule, readSource in *.
  destruct (looks_like_path source) eqn:Hpath.
  - (* a path: the file is read first *)
    assert (Hread : trace (snd (readFileUtf8 E source s))
                    = trace s ++ [EvReadFile source]).
    { unfold readFileUtf8.
      destruct (fs_readFile E (n_fs s) source) as [e|[t|bs]]; reflexivity. }
    rewrite Hread in Hrest1.
    exists (EvReadFile source :: rest1).
    split; [now rewrite Hrest1, <- app_assoc|].
    split; [split; [reflexivity | intros _; exists source; now left]|].
    split; [|discriminate].
    intros _. exists rest1. split; [reflexivity|].
    intros content llm Hfile Hllm.
    revert Hrest1. unfold try_catch, bind at 1, readFileUtf8.
    rewrite Hfile, Hllm, Hsteps.
    set (s1 := fs_step (EvReadFile source) s).
    pose proof (after_first_step (extends_by (fun _ => True))
                  (invokeLLM llm (prompt content)) (rest llm content) h s1
                  (extends_by_refl _) (extends_by_trans _)) as Hllm1.
    destruct Hllm1 as (rest2 & Hrest2 & _).
    { intros a s0. eapply extends_by_weaken. apply Hrest. }
    { intros e s0. eapply extends_by_weaken. apply Hh. }
    fold (try_catch (bind (invokeLLM llm (prompt content)) (rest llm content))
                    h s1).
    rewrite Hrest2.
    assert (Hev : trace (snd (invokeLLM llm (prompt content) s1))
                  = trace s1 ++ [EvLLM (prompt content)]).
    { unfold invokeLLM. destruct (llm (n_llm s1) (prompt content));
        reflexivity. }
    rewrite Hev. subst s1. unfold fs_step, log. cbn [trace].
    rewrite <- !app_assoc. intros Heq. apply app_inv_head in Heq.
    exists rest2. now inversion Heq.
  - (* a text: nothing is read *)
    cbn [ret snd] in Hrest1. exists rest1. split; [exact Hrest1|].
    split.
    { split; [|discriminate]. intros Hex. exfalso.
      now apply (not_read_no_readFile rest1 Hnr). }
    split; [discriminate|].
    intros _ llm Hllm. revert Hrest1.
    unfold try_catch, bind at 1. cbn [ret]. rewrite Hllm, Hsteps.
    pose proof (after_first_step (extends_by (fun _ => True))
                  (invokeLLM llm (prompt source)) (rest llm source) h s
                  (extends_by_refl _) (extends_by_trans _)) as Hllm1.
    destruct Hllm1 as (rest2 & Hrest2 & _).
    { intros a s0. eapply extends_by_weaken. apply Hrest. }
    { intros e s0. eapply extends_by_weaken. apply Hh. }
    fold (try_catch (bind (invokeLLM llm (prompt source)) (rest llm source))
                    h s).
    rewrite Hrest2.
    assert (Hev : trace (snd (invokeLLM llm (prompt source) s))
                  = trace s ++ [EvLLM (prompt source)]).
    { unfold invokeLLM. destruct (llm (n_llm s) (prompt source));
        reflexivity. }
    rewrite Hev, <- app_assoc. intros Heq. apply app_inv_head in Heq.
    exists rest2. now rewrite <- Heq.
Qed.

(** C10.  [meeting_summarize] and [meeting_mindmap] read their source
    from the file system exactly when it ends with [.md] or has a slash
    in it; it is then the first thing they do, and the text of the file
    goes into the prompt.  Any other source goes into the prompt as it
    is.  A text with a slash in it is therefore taken for a path. *)
Theorem source_read_iff_path_like (E : env) (config : ToolsConfig)
  (s : state) :
  (forall input,
      source_rule E (s_source input) summaryPrompt s
        (snd (meeting_summarize E config input s)))
  /\ (forall input,
        source_rule E (source input) mindmapPrompt s
          (snd (meeting_mindmap E config input s)))
  /\ (forall src,
        looks_like_path src = true
        <-> (exists front, src = front ++ js ".md") \/ In 47%N src).
Proof.
  split; [|split].
  - intros input. unfold meeting_summarize.
    apply (source_rule_holds E (s_source input) summaryPrompt
             (summarize_steps E config input)
             (fun llm content summary =>
                bind (outputNameOr E (s_output_name input)
                        (js "meeting") (js "_summary.md"))
                  (fun outputName =>
                     bind (saveMarkdown E (outputDir config) outputName summary)
                       (fun outputPath =>
                          ret (jsonResult
                                 (VObj [(js "status", VStr (js "success"));
                                        (js "message",
                                         VStr (js "会议纪要生成完成"));
                                        (js "output_file",
                                         VStr outputPath)])))))).
    + reflexivity.
    + intros llm content a.
      unfold outputNameOr, generateOutputName, saveMarkdown, ensureOutputDir.
      repeat preserves_step.
    + apply error_result_no_read.
  - intros input. unfold meeting_mindmap.
    apply (source_rule_holds E (source input) mindmapPrompt
             (mindmap_steps E config input)
             (fun llm content mindmapMarkdown =>
                bind (outputNameOr E (output_name input)
                        (js "mindmap") (js ".md"))
                  (fun outputName =>
                     bind (saveMarkdown E (outputDir config) outputName
                             mindmapMarkdown)
                       (fun markdownPath =>
                          bind (renderImage E config input mindmapMarkdown
                                  markdownPath)
                            (fun imagePath =>
                               ret (mindmap_success markdownPath
                                      imagePath)))))).
    + reflexivity.
    + intros llm content a.
      unfold outputNameOr, generateOutputName, saveMarkdown, ensureOutputDir,
        renderImage.
      repeat preserves_step.
      all: try (apply renderMarkmap_no_read).
      all: destruct (RendererClient.success _); repeat preserves_step.
    + apply error_result_no_read.
  - apply looks_like_path_spec.
Qed.

Lemma source_read_iff_path_like_witness :
  In 47%N (js "pros/cons of the plan")
  /\ exists rest,
       trace (snd (meeting_mindmap Fixtures.unreachable_renderer
                     Fixtures.tools_config Fixtures.mindmap_of_slash_text
                     init))
       = EvReadFile (js "pros/cons of the plan")
         :: EvLLM (mindmapPrompt (js "S0: hello")) :: rest.
Proof.
  assert (Hslash : In 47%N (js "pros/cons of the plan"))
    by (vm_compute; tauto).
  split; [exact Hslash|].
  destruct (source_read_iff_path_like Fixtures.unreachable_renderer
              Fixtures.tools_config init) as (_ & Hmindmap & Hspec).
  destruct (Hmindmap Fixtures.mindmap_of_slash_text)
    as (evs & Htrace & _ & Hpath & _).
  destruct (Hpath (proj2 (Hspec _) (or_intror Hslash)))
    as (rest & -> & Hprompt).
  destruct (Hprompt (js "S0: hello") (fun _ _ => inr (js "# Topic"))
              eq_refl eq_refl) as (rest' & ->).
  exists rest'. rewrite Htrace. reflexivity.
Defined.

End ToolFacts.

(* ================================================================== *)
(** * Further properties of the sources *)
(* ================================================================== *)

(** ** The polling loop *)

Module PollBounds.

Import JS Eff JSFacts AsrClient PollSpec ClientSpec SignerFacts PollFacts.

(** *** Every run of the poller *)

(** The error of a vendor code is the one [vendor_report] describes, and
    throwing it changes nothing in the state. *)
Lemma vendor_error_run {A} (prefix : jsstring) (result code : value)
  (s : state) :
  get result (js "code") <> None ->
  vendor_error (A:=A) prefix result code s
  = (Throw (vendor_report prefix result code), s).
Proof.
  intros Hres. unfold vendor_error, vendor_report, bind, prop.
  destruct (ToString code); cbn [lift_sum throw ret]; [reflexivity|].
  assert (Hd : get result (js "descInfo")
               = Some (get_opt result (js "descInfo"))).
  { unfold get_opt. destruct result; try reflexivity; now elim Hres. }
  rewrite Hd. cbn [lift_option ret].
  destruct (ToString _); reflexivity.
Qed.

(** A turn sends at most one request, and sends it when it does not throw. *)
Lemma pollAttempt_trace (E : env) (config : AsrConfig) (orderId : value)
  (s : state) :
  (trace (snd (pollAttempt E config orderId s)) = trace s
   /\ exists e, fst (pollAttempt E config orderId s) = Throw e)
  \/ exists req,
      trace (snd (pollAttempt E config orderId s)) = trace s ++ [EvFetch req].
Proof.
  unfold pollAttempt, bind, DateNow, randomBytes.
  cbn [n_clock n_random].
  destruct (generateSignature_raw config _) as [e | sig];
    cbn [lift_sum throw ret]; [left; split; [reflexivity | now exists e]|].
  destruct (queryString_raw _) as [e | q];
    cbn [lift_sum throw ret]; [left; split; [reflexivity | now exists e]|].
  right. exists (poll_request config q sig).
  unfold fetch at 1. cbn [n_net].
  destruct (net_fetch E (n_net s) (poll_request config q sig)) as [err | resp];
    cbn [lift_err throw ret]; [reflexivity|].
  destruct (negb (resp_ok resp)); [reflexivity|].
  destruct (resp_json resp) as [err | result];
    cbn [lift_err throw ret]; [reflexivity|].
  unfold prop.
  destruct (get result (js "code")) as [code|] eqn:Hcode;
    cbn [lift_option throw ret]; [|reflexivity].
  destruct (negb (strict_eq_str code (js "000000"))).
  - rewrite vendor_error_run by congruence. reflexivity.
  - destruct (strict_eq_num _ 4); [reflexivity|].
    destruct (negb (strict_eq_num _ 3)); [|reflexivity].
    destruct (ToString _); reflexivity.
Qed.

Lemma pollLoop_shape (E : env) (config : AsrConfig) (orderId : value)
  (maxRetries : Z) (fuel : nat) :
  forall (retries : Z) (s : state),
    (maxRetries - retries <= Z.of_nat fuel)%Z ->
    exists reqs tail,
      trace (snd (pollLoop E config fuel orderId maxRetries retries s))
      = trace s ++ processing_rounds reqs ++ tail
      /\ (tail = [] \/ exists last, tail = [EvFetch last])
      /\ (Z.of_nat (List.length reqs + List.length tail)
          <= Z.max 0 (maxRetries - retries))%Z.
Proof.
  induction fuel as [|fuel IH]; intros retries s Hle.
  - rewrite pollLoop_exhausted by lia. exists [], []. cbn [snd].
    split; [now rewrite app_nil_r|]. split; [now left | simpl; lia].
  - rewrite pollLoop_unfold.
    destruct (retries <? maxRetries)%Z eqn:Hlt.
    2:{ exists [], []. cbn [snd throw].
        split; [now rewrite app_nil_r|]. split; [now left | simpl; lia]. }
    apply Z.ltb_lt in Hlt.
    unfold bind at 1.
    pose proof (pollAttempt_trace E config orderId s) as Htr.
    pose proof (pollAttempt_terminates E config orderId s) as Hterm.
    destruct (pollAttempt E config orderId s) as [[[result|]|e|] s1];
      cbn [fst snd] in Htr, Hterm; [| | |congruence].
    + destruct Htr as [[_ [e He]] | [req Hreq]]; [discriminate|].
      exists [], [EvFetch req]. cbn [ret snd].
      split; [exact Hreq|]. split; [right; now exists req | simpl; lia].
    + destruct Htr as [[_ [e He]] | [req Hreq]]; [discriminate|].
      unfold bind at 1. rewrite sleep_eq. cbv beta iota.
      destruct (IH (retries + 1)%Z (after_sleep s1)) as (reqs & tail & Ht & Htail & Hn);
        [lia|].
      exists (req :: reqs), tail. split; [|split; [exact Htail|]].
      * rewrite Ht. cbn [after_sleep trace]. rewrite Hreq.
        simpl. now rewrite <- !app_assoc.
      * simpl List.length. lia.
    + cbn [snd]. destruct Htr as [[Hsame _] | [req Hreq]].
      * exists [], []. split; [now rewrite Hsame, app_nil_r|].
        split; [now left | simpl; lia].
      * exists [], [EvFetch req].
        split; [exact Hreq|]. split; [right; now exists req | simpl; lia].
Qed.

(** X1.  Whatever the network answers, a run of [pollResult] ends, with
    a payload or an exception; what it did is a number of rounds "status
    query, wait of 10000 ms", possibly followed by one last query, and it
    sent at most [maxRetries] queries.  With a budget of zero or less it
    sends nothing and throws the timeout error at once. *)
Theorem pollResult_bounded (E : env) (config : AsrConfig)
  (orderId : value) (maxRetries : option Z) (s : state) :
  (exists reqs tail,
      trace (snd (pollResult E config orderId maxRetries s))
      = trace s ++ processing_rounds reqs ++ tail
      /\ (tail = [] \/ exists last, tail = [EvFetch last])
      /\ (Z.of_nat (List.length reqs + List.length tail)
          <= Z.max 0 (defaultRetries maxRetries))%Z)
  /\ fst (pollResult E config orderId maxRetries s) <> OutOfFuel
  /\ ((defaultRetries maxRetries <= 0)%Z ->
      pollResult E config orderId maxRetries s
      = (Throw (mkError (js "查询超时: 已重试 "
                           ++ Z_to_string (defaultRetries maxRetries)
                           ++ js " 次")), s)).
Proof.
  split; [|split].
  - unfold pollResult.
    destruct (pollLoop_shape E config orderId (defaultRetries maxRetries)
                (Z.to_nat (defaultRetries maxRetries)) 0%Z s)
      as (reqs & tail & Ht & Htail & Hn); [lia|].
    exists reqs, tail. rewrite Z.sub_0_r in Hn. now repeat split.
  - apply pollResult_terminates.
  - intros Hle. unfold pollResult. apply pollLoop_exhausted. lia.
Qed.

Lemma pollResult_bounded_witness :
  (defaultRetries (Some 0%Z) <= 0)%Z
  /\ pollResult (Fixtures.poller (fun _ => VNum 4) Fixtures.never_aborted)
       Fixtures.signed_config (VStr (js "abc123")) (Some 0%Z) init
     = (Throw (mkError (js "查询超时: 已重试 0 次")), init).
Proof.
  split; [simpl; lia|].
  exact (proj2 (proj2 (pollResult_bounded
                         (Fixtures.poller (fun _ => VNum 4)
                            Fixtures.never_aborted)
                         Fixtures.signed_config (VStr (js "abc123")) (Some 0%Z)
                         init))
           ltac:(simpl; lia)).
Defined.

(** *** Queries that fail *)

(** The request a turn sends is the one built from its own clock reading
    and its own random octets. *)
Lemma query_of_built (E : env) (config : AsrConfig) (orderId : value)
  (now : Z) (rb : list N) :
  encodable config orderId ->
  exists sig q,
    generateSignature_raw config
      (poll_params config orderId (Z_to_string (now / 1000)) (Crypto.hex rb))
    = inr sig
    /\ queryString_raw
         (poll_params config orderId (Z_to_string (now / 1000)) (Crypto.hex rb))
       = inr q
    /\ query_of config orderId now rb = Some (poll_request config q sig).
Proof.
  intros Henc.
  pose proof (poll_params_ok config orderId now rb Henc) as Hok.
  destruct (generateSignature_raw_total config _ Hok) as [sig Hsig].
  destruct (queryString_raw_total _ Hok) as [q Hq].
  exists sig, q. split; [exact Hsig|]. split; [exact Hq|].
  unfold query_of. now rewrite Hsig, Hq.
Qed.

(** What a turn does once its request is built: it sends it, and the
    rest depends on the answer alone. *)
Lemma pollAttempt_sends (E : env) (config : AsrConfig) (orderId : value)
  (s : state) :
  encodable config orderId ->
  exists req,
    query_of config orderId (date_now E (n_clock s))
      (random_bytes E (n_random s) 8) = Some req
    /\ snd (pollAttempt E config orderId s) = after_fetch s req
    /\ (forall err,
          net_fetch E (n_net s) req = inl err ->
          fst (pollAttempt E config orderId s) = Throw (ErrorObj err))
    /\ (forall resp,
          net_fetch E (n_net s) req = inr resp -> resp_ok resp = false ->
          fst (pollAttempt E config orderId s)
          = Throw (mkError (js "查询失败: "
                              ++ Z_to_string (resp_status resp))))
    /\ (forall resp payload code,
          net_fetch E (n_net s) req = inr resp -> resp_ok resp = true ->
          resp_json resp = inr payload ->
          get payload (js "code") = Some code ->
          code <> VStr (js "000000") ->
          fst (pollAttempt E config orderId s)
          = Throw (vendor_report (js "查询失败: ") payload code))
    /\ (forall resp payload,
          net_fetch E (n_net s) req = inr resp -> accepted resp payload ->
          status_of payload = VNum 3 ->
          fst (pollAttempt E config orderId s) = Ok None).
Proof.
  intros Henc.
  destruct (query_of_built E config orderId (date_now E (n_clock s))
              (random_bytes E (n_random s) 8) Henc)
    as (sig & q & Hsig & Hq & Hreq).
  exists (poll_request config q sig). split; [exact Hreq|].
  unfold pollAttempt, bind, DateNow, randomBytes.
  cbn [n_clock n_random n_fs n_net n_llm trace].
  rewrite Hsig, Hq. cbn [lift_sum ret].
  unfold fetch at 1 2 3 4 5. cbn [n_net].
  fold (after_fetch s (poll_request config q sig)).
  split; [|split; [|split; [|split]]].
  - destruct (net_fetch E (n_net s) (poll_request config q sig))
      as [err | resp]; cbn [lift_err throw ret]; [reflexivity|].
    destruct (negb (resp_ok resp)); [reflexivity|].
    destruct (resp_json resp) as [err | result];
      cbn [lift_err throw ret]; [reflexivity|].
    unfold prop.
    destruct (get result (js "code")) as [code|] eqn:Hcode;
      cbn [lift_option throw ret]; [|reflexivity].
    destruct (negb (strict_eq_str code (js "000000"))).
    + rewrite vendor_error_run by congruence. reflexivity.
    + destruct (strict_eq_num _ 4); [reflexivity|].
      destruct (negb (strict_eq_num _ 3)); [|reflexivity].
      destruct (ToString _); reflexivity.
  - intros err Herr. rewrite Herr. reflexivity.
  - intros resp Hresp Hok. rewrite Hresp. cbn [lift_err ret].
    rewrite Hok. reflexivity.
  - intros resp payload code Hresp Hok Hjson Hcode Hne.
    rewrite Hresp. cbn [lift_err ret]. rewrite Hok. cbn [negb].
    rewrite Hjson. cbn [lift_err ret]. unfold prop. rewrite Hcode.
    cbn [lift_option ret].
    assert (Hs : strict_eq_str code (js "000000") = false).
    { destruct code; try reflexivity. simpl.
      apply str_eqb_neq. congruence. }
    rewrite Hs. cbn [negb].
    rewrite vendor_error_run by congruence. reflexivity.
  - intros resp payload Hresp (Hok & Hjson & Hcode) Hst.
    rewrite Hresp. cbn [lift_err ret]. rewrite Hok. cbn [negb].
    rewrite Hjson. cbn [lift_err ret]. unfold prop. rewrite Hcode.
    cbn [lift_option ret]. unfold strict_eq_str. rewrite str_eqb_refl.
    cbn [negb]. fold (status_of payload). rewrite Hst. reflexivity.
Qed.

(** A run that stops at its [n + 1]-th turn with an exception. *)
Lemma pollResult_throws_after (E : env) (config : AsrConfig)
  (orderId : value) (maxRetries : option Z) (n : nat) (e : exn)
  (s : state) :
  encodable config orderId ->
  (Z.of_nat n + 1 <= defaultRetries maxRetries)%Z ->
  processing_from E (n_net s) n ->
  (forall s1, n_net s1 = (n_net s + n)%nat ->
              fst (pollAttempt E config orderId s1) = Throw e) ->
  exists reqs last s',
    pollResult E config orderId maxRetries s = (Throw e, s')
    /\ List.length reqs = n
    /\ trace s' = trace s ++ processing_rounds reqs ++ [EvFetch last].
Proof.
  intros Henc Hle Hproc Hthrow. unfold pollResult.
  set (m := defaultRetries maxRetries) in *.
  destruct (pollLoop_rounds E config orderId m n Henc (Z.to_nat m) 0%Z s)
    as (reqs & s1 & Hlen & Htr & Hnet & Hloop); [assumption | lia | lia |].
  rewrite Hloop.
  destruct (pollAttempt_sends E config orderId s1 Henc)
    as (last & _ & Hsnd & _).
  specialize (Hthrow s1 Hnet).
  exists reqs, last, (after_fetch s1 last). split; [|split; [exact Hlen|]].
  - destruct (Z.to_nat m - n)%nat as [|fuel] eqn:Hfuel; [lia|].
    rewrite pollLoop_unfold.
    replace (0 + Z.of_nat n <? m)%Z with true
      by (symmetry; apply Z.ltb_lt; lia).
    unfold bind.
    destruct (pollAttempt E config orderId s1) as [r s2].
    cbn [fst snd] in Hthrow, Hsnd. now subst.
  - cbn [after_fetch trace]. rewrite Htr. now rewrite <- app_assoc.
Qed.

(** X2.  When, after [n] answers that report processing, a status query
    is refused by the network or gets a response that is not an OK one,
    [pollResult] throws at once - the error of [fetch] itself, or
    ["查询失败: <status>"] - and that query is the last thing it did:
    such a failure is never retried. *)
Theorem pollResult_query_failure (E : env) (config : AsrConfig)
  (orderId : value) (maxRetries : option Z) (n : nat) (e : exn)
  (s : state) :
  encodable config orderId ->
  (Z.of_nat n + 1 <= defaultRetries maxRetries)%Z ->
  processing_from E (n_net s) n ->
  (forall req, query_failure (net_fetch E (n_net s + n) req) e) ->
  exists reqs last s',
    pollResult E config orderId maxRetries s = (Throw e, s')
    /\ List.length reqs = n
    /\ trace s' = trace s ++ processing_rounds reqs ++ [EvFetch last].
Proof.
  intros Henc Hle Hproc Hfail.
  apply pollResult_throws_after; try assumption.
  intros s1 Hnet.
  destruct (pollAttempt_sends E config orderId s1 Henc)
    as (req & _ & _ & Hrej & Hhttp & _).
  specialize (Hfail req). rewrite <- Hnet in Hfail.
  unfold query_failure in Hfail.
  destruct (net_fetch E (n_net s1) req) as [err | resp] eqn:Hreply.
  - subst e. now apply Hrej.
  - destruct Hfail as [Hok ->]. now apply Hhttp.
Qed.

(** X3.  When, after [n] answers that report processing, an OK response
    carries a vendor code other than ["000000"], [pollResult] throws at
    once ["查询失败: <code> - <descInfo>"], the code and the description
    as [String()] prints them and ["未知错误"] in place of a missing or
    empty description - or, when the code or the description cannot be
    converted to a string (an object with a [toString] of its own), the
    [TypeError] of that conversion; the status of the order is not looked
    at and nothing is retried. *)
Theorem pollResult_vendor_refusal (E : env) (config : AsrConfig)
  (orderId : value) (maxRetries : option Z) (n : nat) (e : exn)
  (s : state) :
  encodable config orderId ->
  (Z.of_nat n + 1 <= defaultRetries maxRetries)%Z ->
  processing_from E (n_net s) n ->
  (forall req,
      vendor_refusal (js "查询失败: ") (net_fetch E (n_net s + n) req) e) ->
  exists reqs last s',
    pollResult E config orderId maxRetries s = (Throw e, s')
    /\ List.length reqs = n
    /\ trace s' = trace s ++ processing_rounds reqs ++ [EvFetch last].
Proof.
  intros Henc Hle Hproc Hfail.
  apply pollResult_throws_after; try assumption.
  intros s1 Hnet.
  destruct (pollAttempt_sends E config orderId s1 Henc)
    as (req & _ & _ & _ & _ & Hvendor & _).
  destruct (Hfail req)
    as (resp & payload & code & Hreply & Hok & Hjson & Hcode & Hne & ->).
  rewrite <- Hnet in Hreply.
  now apply (Hvendor resp payload code).
Qed.

Lemma first_then_processing (n : nat) (then_ : error_obj + response)
  (llm : option (nat -> jsstring -> exn + jsstring)) :
  processing_from
    (Scenarios.world
       (Scenarios.first_then n Scenarios.processing then_) llm) 0 n.
Proof.
  intros i Hi. exists (Fixtures.payload_with_status (VNum 3)).
  split; [|reflexivity].
  intros req. exists (Fixtures.ok_response
                        (Fixtures.payload_with_status (VNum 3))).
  split; [|repeat split].
  cbn [Scenarios.world net_fetch]. unfold Scenarios.first_then.
  apply Nat.ltb_lt in Hi. cbn [Nat.add]. now rewrite Hi.
Qed.

Lemma pollResult_query_failure_witness :
  exists s',
    pollResult
      (Scenarios.world
         (Scenarios.first_then 2 Scenarios.processing
            Scenarios.bad_gateway) None)
      Fixtures.signed_config (VStr (js "abc123")) None init
    = (Throw (mkError (js "查询失败: 502")), s')
    /\ List.length (fetches (trace s')) = 3%nat.
Proof.
  destruct (pollResult_query_failure
              (Scenarios.world
                 (Scenarios.first_then 2 Scenarios.processing
                    Scenarios.bad_gateway) None)
              Fixtures.signed_config (VStr (js "abc123")) None 2
              (mkError (js "查询失败: 502")) init
              fixture_encodable ltac:(simpl; lia)
              (first_then_processing 2 _ None)
              ltac:(intros req; split; reflexivity))
    as (reqs & last & s' & Hrun & Hlen & Htr).
  exists s'. split; [exact Hrun|].
  rewrite Htr, !fetches_app, fetches_rounds, !length_app, Hlen. reflexivity.
Defined.

Lemma quota_exceeded_refusal (prefix : jsstring) :
  vendor_refusal prefix Scenarios.quota_exceeded
    (mkError (prefix ++ js "100013 - quota exceeded")).
Proof.
  eexists _, _, (VStr (js "100013")).
  repeat split; try reflexivity. discriminate.
Qed.

Lemma opaque_code_refusal (prefix : jsstring) :
  vendor_refusal prefix Scenarios.opaque_code
    (TypeError (js "Cannot convert object to primitive value")).
Proof.
  eexists _, _, Fixtures.opaque_status.
  repeat split; try reflexivity. discriminate.
Qed.

Lemma pollResult_vendor_refusal_witness :
  (exists s',
     pollResult
       (Scenarios.world
          (Scenarios.first_then 1 Scenarios.processing
             Scenarios.quota_exceeded) None)
       Fixtures.signed_config (VStr (js "abc123")) None init
     = (Throw (mkError (js "查询失败: 100013 - quota exceeded")), s')
     /\ List.length (fetches (trace s')) = 2%nat)
  /\ exists s',
       pollResult
         (Scenarios.world
            (Scenarios.first_then 1 Scenarios.processing
               Scenarios.opaque_code) None)
         Fixtures.signed_config (VStr (js "abc123")) None init
       = (Throw (TypeError (js "Cannot convert object to primitive value")),
          s')
       /\ List.length (fetches (trace s')) = 2%nat.
Proof.
  split.
  - destruct (pollResult_vendor_refusal
                (Scenarios.world
                   (Scenarios.first_then 1 Scenarios.processing
                      Scenarios.quota_exceeded) None)
                Fixtures.signed_config (VStr (js "abc123")) None 1
                (mkError (js "查询失败: 100013 - quota exceeded")) init
                fixture_encodable ltac:(simpl; lia)
                (first_then_processing 1 _ None)
                (fun _ => quota_exceeded_refusal (js "查询失败: ")))
      as (reqs & last & s' & Hrun & Hlen & Htr).
    exists s'. split; [exact Hrun|].
    rewrite Htr, !fetches_app, fetches_rounds, !length_app, Hlen.
    reflexivity.
  - destruct (pollResult_vendor_refusal
                (Scenarios.world
                   (Scenarios.first_then 1 Scenarios.processing
                      Scenarios.opaque_code) None)
                Fixtures.signed_config (VStr (js "abc123")) None 1
                (TypeError (js "Cannot convert object to primitive value"))
                init
                fixture_encodable ltac:(simpl; lia)
                (first_then_processing 1 _ None)
                (fun _ => opaque_code_refusal (js "查询失败: ")))
      as (reqs & last & s' & Hrun & Hlen & Htr).
    exists s'. split; [exact Hrun|].
    rewrite Htr, !fetches_app, fetches_rounds, !length_app, Hlen.
    reflexivity.
Defined.

(** *** Fresh parameters at every turn *)

Lemma after_rounds_counters (reqs : list request) :
  forall s,
    n_clock (after_rounds s reqs) = (n_clock s + List.length reqs)%nat
    /\ n_random (after_rounds s reqs) = (n_random s + List.length reqs)%nat
    /\ n_net (after_rounds s reqs) = (n_net s + List.length reqs)%nat
    /\ trace (after_rounds s reqs) = trace s ++ processing_rounds reqs.
Proof.
  induction reqs as [|req reqs IH]; intros s.
  - simpl. rewrite !Nat.add_0_r, app_nil_r. now repeat split.
  - cbn [after_rounds]. destruct (IH (after_sleep (after_fetch s req)))
      as (Hc & Hr & Hn & Ht).
    rewrite Hc, Hr, Hn, Ht. cbn [after_sleep after_fetch n_clock n_random
                                   n_net trace List.length].
    repeat split; try lia.
    simpl. now rewrite <- !app_assoc.
Qed.

(** The rounds of a run whose first [n] answers report processing, with
    the request of each. *)
Lemma pollLoop_rounds_exact (E : env) (config : AsrConfig)
  (orderId : value) (maxRetries : Z) (n : nat) :
  encodable config orderId ->
  forall (fuel : nat) (retries : Z) (s : state),
    processing_from E (n_net s) n ->
    (retries + Z.of_nat n <= maxRetries)%Z ->
    (n <= fuel)%nat ->
    exists reqs,
      List.length reqs = n
      /\ (forall i, (i < n)%nat ->
            nth_error reqs i
            = query_of config orderId (date_now E (n_clock s + i))
                (random_bytes E (n_random s + i) 8))
      /\ pollLoop E config fuel orderId maxRetries retries s
         = pollLoop E config (fuel - n) orderId maxRetries
             (retries + Z.of_nat n)%Z (after_rounds s reqs).
Proof.
  intros Henc. induction n as [|n IH]; intros fuel retries s Hproc Hle Hfuel.
  - exists []. split; [reflexivity|]. split; [intros i Hi; lia|].
    now rewrite Nat.sub_0_r, Z.add_0_r.
  - destruct fuel as [|fuel]; [lia|].
    destruct (Hproc 0%nat) as (payload & Hans & Hst); [lia|].
    rewrite Nat.add_0_r in Hans.
    destruct (pollAttempt_sends E config orderId s Henc)
      as (req & Hreq & Hsnd & _ & _ & _ & Hthree).
    destruct (Hans req) as (resp & Hreply & Hacc).
    specialize (Hthree resp payload Hreply Hacc Hst).
    destruct (IH fuel (retries + 1)%Z (after_sleep (after_fetch s req)))
      as (reqs & Hlen & Hnth & Hloop).
    + apply processing_from_tail. exact Hproc.
    + lia.
    + lia.
    + exists (req :: reqs). split; [simpl; now rewrite Hlen|]. split.
      * intros [|i] Hi.
        -- rewrite !Nat.add_0_r. cbn [nth_error]. now rewrite Hreq.
        -- cbn [nth_error]. rewrite Hnth by lia.
           cbn [after_sleep after_fetch n_clock n_random].
           now replace (S (n_clock s) + i)%nat with (n_clock s + S i)%nat
             by lia;
             replace (S (n_random s) + i)%nat with (n_random s + S i)%nat
             by lia.
      * rewrite pollLoop_unfold.
        replace (retries <? maxRetries)%Z with true
          by (symmetry; apply Z.ltb_lt; lia).
        unfold bind at 1.
        destruct (pollAttempt E config orderId s) as [r s1].
        cbn [fst snd] in Hthree, Hsnd. subst r s1. cbv beta iota.
        unfold bind at 1. rewrite sleep_eq. cbv beta iota.
        rewrite Hloop. cbn [after_rounds Nat.sub].
        now replace (retries + 1 + Z.of_nat n)%Z
          with (retries + Z.of_nat (S n))%Z by lia.
Qed.



(** *** The turn that ends a run *)

(** A run whose first [n] answers report processing comes to its
    [n + 1]-th turn after [n] rounds; the request of every turn is the one
    built from its own clock reading and random octets, and what the last
    turn returns or throws is what the run returns or throws. *)
Lemma pollResult_reaches (E : env) (config : AsrConfig) (orderId : value)
  (maxRetries : option Z) (n : nat) (s : state) :
  encodable config orderId ->
  (Z.of_nat n + 1 <= defaultRetries maxRetries)%Z ->
  processing_from E (n_net s) n ->
  exists reqs last,
    List.length reqs = n
    /\ (forall i, (i <= n)%nat ->
          nth_error (reqs ++ [last]) i
          = query_of config orderId (date_now E (n_clock s + i))
              (random_bytes E (n_random s + i) 8))
    /\ n_net (after_rounds s reqs) = (n_net s + n)%nat
    /\ (forall result,
          fst (pollAttempt E config orderId (after_rounds s reqs))
          = Ok (Some result) ->
          pollResult E config orderId maxRetries s
          = (Ok result, after_fetch (after_rounds s reqs) last))
    /\ (forall e,
          fst (pollAttempt E config orderId (after_rounds s reqs))
          = Throw e ->
          pollResult E config orderId maxRetries s
          = (Throw e, after_fetch (after_rounds s reqs) last)).
Proof.
  intros Henc Hle Hproc. unfold pollResult.
  set (m := defaultRetries maxRetries) in *.
  destruct (pollLoop_rounds_exact E config orderId m n Henc
              (Z.to_nat m) 0%Z s Hproc ltac:(lia) ltac:(lia))
    as (reqs & Hlen & Hnth & Hloop).
  rewrite Hloop.
  destruct (after_rounds_counters reqs s) as (Hc & Hr & Hn & Ht).
  destruct (pollAttempt_sends E config orderId (after_rounds s reqs) Henc)
    as (last & Hlast & Hsnd & _).
  exists reqs, last. split; [exact Hlen|]. split; [|split; [|split]].
  - intros i Hi. destruct (Nat.eq_dec i n) as [-> | Hne].
    + rewrite nth_error_app2 by lia. rewrite Hlen, Nat.sub_diag.
      cbn [nth_error]. rewrite <- Hlast, Hc, Hr, Hlen. reflexivity.
    + rewrite nth_error_app1 by lia. apply Hnth. lia.
  - rewrite Hn, Hlen. reflexivity.
  - intros result Hres.
    destruct (Z.to_nat m - n)%nat as [|fuel] eqn:Hfuel; [lia|].
    rewrite pollLoop_unfold.
    replace (0 + Z.of_nat n <? m)%Z with true
      by (symmetry; apply Z.ltb_lt; lia).
    unfold bind at 1.
    destruct (pollAttempt E config orderId (after_rounds s reqs)) as [r s1].
    cbn [fst snd] in Hres, Hsnd. now subst.
  - intros e Hres.
    destruct (Z.to_nat m - n)%nat as [|fuel] eqn:Hfuel; [lia|].
    rewrite pollLoop_unfold.
    replace (0 + Z.of_nat n <? m)%Z with true
      by (symmetry; apply Z.ltb_lt; lia).
    unfold bind at 1.
    destruct (pollAttempt E config orderId (after_rounds s reqs)) as [r s1].
    cbn [fst snd] in Hres, Hsnd. now subst.
Qed.

Lemma after_last_trace (s : state) (reqs : list request) (last : request) :
  trace (after_fetch (after_rounds s reqs) last)
  = trace s ++ processing_rounds reqs ++ [EvFetch last].
Proof.
  destruct (after_rounds_counters reqs s) as (_ & _ & _ & Ht).
  cbn [after_fetch trace]. rewrite Ht. now rewrite <- app_assoc.
Qed.

(** *** An identifier that cannot go into a query *)

(** With credentials that can be encoded, what the building of a query
    throws is the error of the identifier. *)
Lemma poll_pair_exact (config : AsrConfig) (orderId : value)
  (timestamp nonce k : jsstring) (e : exn) :
  well_formed (str_or (appid config) []) = true ->
  well_formed (str_or (accessKeyId config) []) = true ->
  well_formed timestamp = true ->
  well_formed nonce = true ->
  In k (List.map fst (poll_params config orderId timestamp nonce)) ->
  encode_raw_pair (poll_params config orderId timestamp nonce) k = inl e ->
  e = unbuildable orderId.
Proof.
  intros Happ Hak Hts Hnonce Hin.
  cbn [poll_params List.map fst In] in Hin.
  unfold encode_raw_pair.
  destruct Hin as [<-|[<-|[<-|[<-|[<-|[]]]]]];
    match goal with
    | |- context [encodeURIComponent ?k] =>
      let enc := eval vm_compute in (encodeURIComponent k) in
      change (encodeURIComponent k) with enc
    end;
    match goal with
    | |- context [lookup ?k ?p] =>
      let v := eval cbv [lookup poll_params] in (lookup k p) in
      let v := eval cbn [str_eqb js] in v in
      idtac
    end.
  all: unfold poll_params, lookup.
  all: repeat match goal with
              | |- context [str_eqb ?a ?b] =>
                let r := eval vm_compute in (str_eqb a b) in
                change (str_eqb a b) with r
              end; cbv iota.
  1-4: match goal with
       | |- context [encode_value (VStr ?x)] =>
         destruct (encode_value_total (VStr x) eq_refl) as [t ->];
           [assumption | discriminate]
       end.
  destruct (encode_value orderId) eqn:He; [|discriminate].
  intros [= <-]. now apply encode_value_error.
Qed.

Lemma pollResult_unbuildable (E : env) (config : AsrConfig)
  (orderId : value) (maxRetries : option Z) (s : state) :
  well_formed (str_or (appid config) []) = true ->
  well_formed (str_or (accessKeyId config) []) = true ->
  stringable orderId = false \/ well_formed (to_string orderId) = false ->
  (0 < defaultRetries maxRetries)%Z ->
  exists s',
    pollResult E config orderId maxRetries s
    = (Throw (unbuildable orderId), s')
    /\ trace s' = trace s
    /\ n_net s' = n_net s.
Proof.
  intros Happ Hak Hbad Hpos.
  assert (Hne : ~ encodable config orderId).
  { intros (_ & _ & Hs & Hw). destruct Hbad; congruence. }
  unfold pollResult.
  destruct (Z.to_nat (defaultRetries maxRetries)) as [|fuel] eqn:Hfuel; [lia|].
  rewrite pollLoop_unfold.
  replace (0 <? defaultRetries maxRetries)%Z with true
    by (symmetry; apply Z.ltb_lt; lia).
  unfold bind at 1, pollAttempt, bind, DateNow, randomBytes.
  cbn [n_clock n_random].
  set (timestamp := Z_to_string (date_now E (n_clock s) / 1000)).
  set (nonce := Crypto.hex (random_bytes E (n_random s) 8)).
  assert (Hts : well_formed timestamp = true)
    by apply ascii_well_formed, Z_to_string_ascii.
  assert (Hnonce : well_formed nonce = true)
    by apply ascii_well_formed, hex_ascii.
  destruct (generateSignature_raw config _) as [e | sig] eqn:Hsig;
    cbn [lift_sum throw ret].
  - unfold generateSignature_raw in Hsig.
    destruct (accessKeySecret config) as [secret|]; [|discriminate].
    destruct (negb (str_truthy secret)); [discriminate|].
    destruct (map_err _ _) as [e'|] eqn:Hm; [|discriminate].
    injection Hsig as <-. apply map_err_inl in Hm as (k & Hk & Hfail).
    assert (Hin : In k (List.map fst
                          (poll_params config orderId timestamp nonce))).
    { apply (Permutation_in _ (sort_perm _)) in Hk.
      now apply filter_In in Hk. }
    rewrite (poll_pair_exact config orderId timestamp nonce k e'
               Happ Hak Hts Hnonce Hin Hfail).
    eexists. now repeat split.
  - destruct (queryString_malformed config orderId timestamp nonce Hne)
      as [e Hq].
    rewrite Hq. cbn [lift_sum throw].
    unfold queryString_raw in Hq.
    destruct (map_err _ _) as [e'|] eqn:Hm; [|discriminate].
    injection Hq as <-. apply map_err_inl in Hm as (k & Hk & Hfail).
    rewrite (poll_pair_exact config orderId timestamp nonce k e'
               Happ Hak Hts Hnonce Hk Hfail).
    eexists. now repeat split.
Qed.

End PollBounds.

(** ** The poller, claim by claim *)

Module PollClaims.

Import JS Eff JSFacts AsrClient PollSpec ClientSpec SignerFacts PollFacts
  PollBounds.

(** C1, as stated, fails: the identifier ["ab\uD800"] is an order
    identifier, the first answer reports status 4, and [pollResult]
    returns no payload: it throws the [URIError] of [encodeURIComponent]
    and sends no status query. *)
Lemma pollResult_returns_counterexample :
  let E := Fixtures.poller (fun _ => VNum 4) Fixtures.never_aborted in
  processing_from E 0 0
  /\ answers E 0 (Fixtures.payload_with_status (VNum 4))
  /\ status_of (Fixtures.payload_with_status (VNum 4)) = VNum 4
  /\ fst (pollResult E Fixtures.signed_config
            (VStr Fixtures.lone_surrogate_id) None init)
     = Throw URIError
  /\ fetches (trace (snd (pollResult E Fixtures.signed_config
                            (VStr Fixtures.lone_surrogate_id) None init)))
     = [].
Proof.
  cbv zeta. split; [intros i Hi; lia|].
  split; [apply (poller_answers (fun _ => VNum 4))|].
  split; [reflexivity|]. split; vm_compute; reflexivity.
Qed.

(** C1, as the code has it.  The first [n] answers report status 3 and
    the next one status 4, with [n + 1] within the retry budget.  When
    the identifier can be converted to a string and neither that string
    nor a credential holds an unpaired surrogate, [pollResult] returns
    the whole payload of that last answer; it has sent exactly [n + 1]
    status queries, each built from the clock reading and the random
    octets of its own turn, and each of the first [n] was followed by a
    wait of 10000 ms.  Otherwise no query can be built: [pollResult]
    throws the [URIError] of [encodeURIComponent], or the [TypeError] of
    an identifier that cannot be converted, and sends nothing. *)
Theorem pollResult_returns_completed_payload (E : env) (config : AsrConfig)
  (orderId : value) (maxRetries : option Z) (n : nat) (payload : value)
  (s : state) :
  (Z.of_nat n + 1 <= defaultRetries maxRetries)%Z ->
  processing_from E (n_net s) n ->
  answers E (n_net s + n) payload ->
  status_of payload = VNum 4 ->
  (encodable config orderId ->
   exists reqs last s',
     pollResult E config orderId maxRetries s = (Ok payload, s')
     /\ List.length reqs = n
     /\ (forall i, (i <= n)%nat ->
           nth_error (reqs ++ [last]) i
           = query_of config orderId (date_now E (n_clock s + i))
               (random_bytes E (n_random s + i) 8))
     /\ trace s' = trace s ++ processing_rounds reqs ++ [EvFetch last]
     /\ fetches (trace s') = fetches (trace s) ++ reqs ++ [last])
  /\ (~ encodable config orderId ->
      exists e s',
        pollResult E config orderId maxRetries s = (Throw e, s')
        /\ (e = URIError \/ e = unbuildable orderId)
        /\ trace s' = trace s).
Proof.
  intros Hle Hproc Hans Hst. split.
  - intros Henc.
    destruct (pollResult_reaches E config orderId maxRetries n s
                Henc Hle Hproc)
      as (reqs & last & Hlen & Hnth & Hnet & Hret & _).
    rewrite <- Hnet in Hans.
    destruct (pollAttempt_answered E config orderId (after_rounds s reqs)
                payload Henc Hans) as [last' Hatt].
    rewrite Hst in Hatt. cbn [strict_eq_num Z.eqb Pos.eqb] in Hatt.
    exists reqs, last, (after_fetch (after_rounds s reqs) last).
    split; [apply Hret; now rewrite Hatt|]. split; [exact Hlen|].
    split; [exact Hnth|]. rewrite after_last_trace. split; [reflexivity|].
    now rewrite !fetches_app, fetches_rounds.
  - intros Hne. apply pollResult_malformed; [exact Hne | lia].
Qed.

Lemma pollResult_returns_completed_payload_witness :
  encodable Fixtures.signed_config (VStr (js "abc123"))
  /\ processing_from
       (Fixtures.poller (Fixtures.processing_then 2 (VNum 4))
          Fixtures.never_aborted) 0 2
  /\ exists s',
       pollResult (Fixtures.poller (Fixtures.processing_then 2 (VNum 4))
                     Fixtures.never_aborted)
         Fixtures.signed_config (VStr (js "abc123")) None init
       = (Ok (Fixtures.payload_with_status (VNum 4)), s')
       /\ List.length (fetches (trace s')) = 3%nat.
Proof.
  split; [exact fixture_encodable|].
  split; [apply poller_processing|].
  destruct (proj1 (pollResult_returns_completed_payload
                     (Fixtures.poller (Fixtures.processing_then 2 (VNum 4))
                        Fixtures.never_aborted)
                     Fixtures.signed_config (VStr (js "abc123")) None 2
                     (Fixtures.payload_with_status (VNum 4)) init
                     ltac:(simpl; lia)
                     (poller_processing 2 (VNum 4) Fixtures.never_aborted)
                     (poller_answers (Fixtures.processing_then 2 (VNum 4))
                        Fixtures.never_aborted 2)
                     eq_refl)
              fixture_encodable)
    as (reqs & last & s' & Hres & Hlen & _ & _ & Hf).
  exists s'. split; [exact Hres|].
  rewrite Hf, !length_app, Hlen. reflexivity.
Defined.

(** C2, as stated, fails: every answer reports status 3, and for the
    identifier ["ab\uD800"] [pollResult] makes no attempt at all and
    throws the [URIError] of [encodeURIComponent], not the timeout
    error. *)
Lemma pollResult_times_out_counterexample :
  let E := Fixtures.poller (fun _ => VNum 3) Fixtures.never_aborted in
  processing_from E 0 100
  /\ fst (pollResult E Fixtures.signed_config
            (VStr Fixtures.lone_surrogate_id) None init)
     = Throw URIError
  /\ fetches (trace (snd (pollResult E Fixtures.signed_config
                            (VStr Fixtures.lone_surrogate_id) None init)))
     = [].
Proof.
  cbv zeta. split; [apply poller_always_processing|].
  split; vm_compute; reflexivity.
Qed.

(** C2, as the code has it.  Every answer reports status 3.  When the
    identifier can be converted to a string and neither that string nor a
    credential holds an unpaired surrogate, [pollResult] sends exactly
    [maxRetries] status queries (100 when the argument is left out), each
    built in its own turn and followed by the wait, and then throws the
    timeout error whose message carries that number.  Otherwise, with a
    budget of one or more, it sends nothing and throws the [URIError] of
    [encodeURIComponent] or the [TypeError] of the conversion. *)
Theorem pollResult_times_out (E : env) (config : AsrConfig)
  (orderId : value) (maxRetries : option Z) (s : state) :
  (0 <= defaultRetries maxRetries)%Z ->
  processing_from E (n_net s) (Z.to_nat (defaultRetries maxRetries)) ->
  (encodable config orderId ->
   exists reqs s',
     pollResult E config orderId maxRetries s
     = (Throw (mkError (js "查询超时: 已重试 "
                          ++ Z_to_string (defaultRetries maxRetries)
                          ++ js " 次")), s')
     /\ Z.of_nat (List.length reqs) = defaultRetries maxRetries
     /\ (forall i, (i < List.length reqs)%nat ->
           nth_error reqs i
           = query_of config orderId (date_now E (n_clock s + i))
               (random_bytes E (n_random s + i) 8))
     /\ trace s' = trace s ++ processing_rounds reqs
     /\ fetches (trace s') = fetches (trace s) ++ reqs)
  /\ (~ encodable config orderId ->
      (0 < defaultRetries maxRetries)%Z ->
      exists e s',
        pollResult E config orderId maxRetries s = (Throw e, s')
        /\ (e = URIError \/ e = unbuildable orderId)
        /\ trace s' = trace s)
  /\ defaultRetries None = 100%Z.
Proof.
  intros Hpos Hproc. split; [|split; [|reflexivity]].
  - intros Henc. unfold pollResult.
    set (m := defaultRetries maxRetries) in *.
    destruct (pollLoop_rounds_exact E config orderId m (Z.to_nat m) Henc
                (Z.to_nat m) 0%Z s Hproc ltac:(lia) ltac:(lia))
      as (reqs & Hlen & Hnth & Hloop).
    destruct (after_rounds_counters reqs s) as (_ & _ & _ & Ht).
    exists reqs, (after_rounds s reqs). rewrite Hloop.
    split; [apply pollLoop_exhausted; lia|].
    split; [rewrite Hlen; lia|].
    split; [intros i Hi; apply Hnth; lia|].
    split; [exact Ht|]. now rewrite Ht, fetches_app, fetches_rounds.
  - intros Hne Hbudget. now apply pollResult_malformed.
Qed.

Lemma pollResult_times_out_witness :
  encodable Fixtures.signed_config (VStr (js "abc123"))
  /\ processing_from
       (Fixtures.poller (fun _ => VNum 3) Fixtures.never_aborted) 0 100
  /\ exists s',
       pollResult (Fixtures.poller (fun _ => VNum 3) Fixtures.never_aborted)
         Fixtures.signed_config (VStr (js "abc123")) None init
       = (Throw (mkError (js "查询超时: 已重试 100 次")), s')
       /\ List.length (fetches (trace s')) = 100%nat.
Proof.
  split; [exact fixture_encodable|].
  split; [apply poller_always_processing|].
  destruct (proj1 (pollResult_times_out
                     (Fixtures.poller (fun _ => VNum 3)
                        Fixtures.never_aborted)
                     Fixtures.signed_config (VStr (js "abc123")) None init
                     ltac:(simpl; lia)
                     (poller_always_processing Fixtures.never_aborted _))
              fixture_encodable)
    as (reqs & s' & Hres & Hlen & _ & _ & Hf).
  exists s'. split; [exact Hres|].
  rewrite Hf. simpl in Hlen |- *. lia.
Defined.

(** C7, as stated, fails twice.  A status that is an object with a
    [toString] of its own is a status other than 3 and 4, and the error
    [pollResult] throws does not report it: it is the [TypeError] of the
    conversion to a string.  And for the identifier ["ab\uD800"] no
    answer is ever read: [pollResult] throws the [URIError] of
    [encodeURIComponent] before its first query. *)
Lemma pollResult_unexpected_counterexample :
  let E := Fixtures.poller (fun _ => Fixtures.opaque_status)
             Fixtures.never_aborted in
  answers E 0 (Fixtures.payload_with_status Fixtures.opaque_status)
  /\ status_of (Fixtures.payload_with_status Fixtures.opaque_status)
     = Fixtures.opaque_status
  /\ Fixtures.opaque_status <> VNum 3
  /\ Fixtures.opaque_status <> VNum 4
  /\ fst (pollResult E Fixtures.signed_config (VStr (js "abc123")) None init)
     = Throw (TypeError (js "Cannot convert object to primitive value"))
  /\ fst (pollResult E Fixtures.signed_config
            (VStr Fixtures.lone_surrogate_id) None init)
     = Throw URIError.
Proof.
  cbv zeta.
  split; [apply (poller_answers (fun _ => Fixtures.opaque_status))|].
  split; [reflexivity|]. split; [discriminate|]. split; [discriminate|].
  split; vm_compute; reflexivity.
Qed.

(** C7, as the code has it.  The identifier and the credentials can go
    into a query.  When an answer that is an OK response with the vendor
    code ["000000"] reports a status that is neither 3 nor 4,
    [pollResult] throws at once, and the query that got the answer is the
    last event: no wait and no further query follow.  The error shows the
    status, as [String()] prints it, when the status can be converted to
    a string; for a status that cannot (an object with a [toString] of
    its own) it is the [TypeError] of the conversion. *)
Theorem pollResult_unexpected_status (E : env) (config : AsrConfig)
  (orderId : value) (maxRetries : option Z) (n : nat) (payload : value)
  (s : state) :
  encodable config orderId ->
  (Z.of_nat n + 1 <= defaultRetries maxRetries)%Z ->
  processing_from E (n_net s) n ->
  answers E (n_net s + n) payload ->
  status_of payload <> VNum 3 ->
  status_of payload <> VNum 4 ->
  exists reqs last s',
    pollResult E config orderId maxRetries s
    = (Throw (status_report (status_of payload)), s')
    /\ List.length reqs = n
    /\ (forall i, (i <= n)%nat ->
          nth_error (reqs ++ [last]) i
          = query_of config orderId (date_now E (n_clock s + i))
              (random_bytes E (n_random s + i) 8))
    /\ trace s' = trace s ++ processing_rounds reqs ++ [EvFetch last]
    /\ (stringable (status_of payload) = true ->
        status_report (status_of payload)
        = mkError (js "转写异常: 状态码=" ++ to_string (status_of payload)))
    /\ (stringable (status_of payload) = false ->
        status_report (status_of payload)
        = TypeError (js "Cannot convert object to primitive value")).
Proof.
  intros Henc Hle Hproc Hans H3 H4.
  destruct (pollResult_reaches E config orderId maxRetries n s
              Henc Hle Hproc)
    as (reqs & last & Hlen & Hnth & Hnet & _ & Hthrow).
  rewrite <- Hnet in Hans.
  destruct (pollAttempt_answered E config orderId (after_rounds s reqs)
              payload Henc Hans) as [last' Hatt].
  rewrite (strict_eq_num_false _ _ H3), (strict_eq_num_false _ _ H4) in Hatt.
  cbn [negb] in Hatt.
  exists reqs, last, (after_fetch (after_rounds s reqs) last).
  split; [apply Hthrow; now rewrite Hatt|]. split; [exact Hlen|].
  split; [exact Hnth|]. split; [apply after_last_trace|].
  unfold status_report, ToString.
  split; intros ->; reflexivity.
Qed.

Lemma pollResult_unexpected_status_witness :
  encodable Fixtures.signed_config (VStr (js "abc123"))
  /\ processing_from
       (Fixtures.poller (Fixtures.processing_then 1 (VStr (js "queued")))
          Fixtures.never_aborted) 0 1
  /\ exists s',
       pollResult (Fixtures.poller
                     (Fixtures.processing_then 1 (VStr (js "queued")))
                     Fixtures.never_aborted)
         Fixtures.signed_config (VStr (js "abc123")) None init
       = (Throw (mkError (js "转写异常: 状态码=queued")), s')
       /\ List.length (fetches (trace s')) = 2%nat.
Proof.
  split; [exact fixture_encodable|].
  split; [apply poller_processing|].
  destruct (pollResult_unexpected_status
              (Fixtures.poller
                 (Fixtures.processing_then 1 (VStr (js "queued")))
                 Fixtures.never_aborted)
              Fixtures.signed_config (VStr (js "abc123")) None 1
              (Fixtures.payload_with_status (VStr (js "queued"))) init
              fixture_encodable ltac:(simpl; lia)
              (poller_processing 1 (VStr (js "queued")) Fixtures.never_aborted)
              (poller_answers
                 (Fixtures.processing_then 1 (VStr (js "queued")))
                 Fixtures.never_aborted 1)
              ltac:(discriminate) ltac:(discriminate))
    as (reqs & last & s' & Hres & Hlen & _ & Htr & _).
  exists s'. split; [exact Hres|].
  rewrite Htr, !fetches_app, fetches_rounds, !length_app, Hlen. reflexivity.
Defined.

(** C8, as stated, fails: with the caller's abort signal raised from the
    start and an order that stays in processing, [pollResult] still sends
    both queries of a budget of two and ends with the timeout error. *)
Lemma pollResult_abort_counterexample :
  (forall k,
      abort_signal (Fixtures.poller (fun _ => VNum 3) Fixtures.always_aborted) k
      = true)
  /\ fst (pollResult (Fixtures.poller (fun _ => VNum 3) Fixtures.always_aborted)
            Fixtures.signed_config (VStr (js "abc123")) (Some 2%Z) init)
     = Throw (mkError (js "查询超时: 已重试 2 次"))
  /\ List.length
       (fetches
          (trace (snd (pollResult
                         (Fixtures.poller (fun _ => VNum 3)
                            Fixtures.always_aborted)
                         Fixtures.signed_config (VStr (js "abc123"))
                         (Some 2%Z) init))))
     = 2%nat.
Proof.
  split; [reflexivity|]. split; vm_compute; reflexivity.
Qed.

(** C8, as the code has it.  The loop is not cancellable: whatever the
    abort signal of the caller does, raised from the start, raised later
    or never, an order that stays in processing is polled through the
    whole retry budget - [maxRetries] queries, each followed by the wait
    of 10000 ms - and the error is the timeout error: no polling is
    stopped and there is no cancellation error. *)
Theorem pollResult_not_cancellable (E : env) (signal : nat -> bool)
  (config : AsrConfig) (orderId : value) (maxRetries : option Z)
  (s : state) :
  encodable config orderId ->
  (0 <= defaultRetries maxRetries)%Z ->
  processing_from E (n_net s) (Z.to_nat (defaultRetries maxRetries)) ->
  exists reqs s',
    pollResult (with_abort_signal E signal) config orderId maxRetries s
    = (Throw (mkError (js "查询超时: 已重试 "
                         ++ Z_to_string (defaultRetries maxRetries)
                         ++ js " 次")), s')
    /\ Z.of_nat (List.length reqs) = defaultRetries maxRetries
    /\ trace s' = trace s ++ processing_rounds reqs
    /\ fetches (trace s') = fetches (trace s) ++ reqs.
Proof.
  intros Henc Hpos Hproc.
  assert (Hproc' : processing_from (with_abort_signal E signal) (n_net s)
                     (Z.to_nat (defaultRetries maxRetries)))
    by exact Hproc.
  destruct (pollResult_exhausts (with_abort_signal E signal) config orderId
              maxRetries s Henc Hpos Hproc')
    as (reqs & s' & Hres & Hlen & Htr).
  exists reqs, s'. split; [exact Hres|]. split; [exact Hlen|].
  split; [exact Htr|]. now rewrite Htr, fetches_app, fetches_rounds.
Qed.

Lemma pollResult_not_cancellable_witness :
  encodable Fixtures.signed_config (VStr (js "abc123"))
  /\ processing_from
       (Fixtures.poller (fun _ => VNum 3) Fixtures.never_aborted) 0 2
  /\ exists s',
       pollResult
         (with_abort_signal
            (Fixtures.poller (fun _ => VNum 3) Fixtures.never_aborted)
            Fixtures.always_aborted)
         Fixtures.signed_config (VStr (js "abc123")) (Some 2%Z) init
       = (Throw (mkError (js "查询超时: 已重试 2 次")), s')
       /\ List.length (fetches (trace s')) = 2%nat.
Proof.
  split; [exact fixture_encodable|].
  split; [apply poller_always_processing|].
  destruct (pollResult_not_cancellable
              (Fixtures.poller (fun _ => VNum 3) Fixtures.never_aborted)
              Fixtures.always_aborted
              Fixtures.signed_config (VStr (js "abc123")) (Some 2%Z) init
              fixture_encodable ltac:(simpl; lia)
              (poller_always_processing Fixtures.never_aborted _))
    as (reqs & s' & Hres & Hlen & _ & Hf).
  exists s'. split; [exact Hres|].
  rewrite Hf. simpl in Hlen |- *. lia.
Defined.

End PollClaims.

(** ** Validation, upload and the whole transcription *)

Module UploadFacts.

Import JS Eff JSFacts AsrClient PollSpec AsrSpec ClientSpec SignerFacts
  PollFacts AsrFacts PollBounds.

(** *** Validation *)

Lemma checkAudioFile_accepts (E : env) (audioPath : jsstring) (s : state) :
  valid_audio E (n_fs s) audioPath ->
  checkAudioFile E audioPath s = (Ok tt, fs_step (EvStat audioPath) s).
Proof.
  intros [(st & Hst & Hfile) Hext].
  unfold checkAudioFile, try_catch, bind, stat.
  rewrite Hst. cbn [lift_err ret]. rewrite Hfile. cbn [negb].
  rewrite Hext. reflexivity.
Qed.

(** X5.  [checkAudioFile] lets a path through exactly when [fs.stat]
    finds a regular file there and the extension of the path, whatever
    its case, is [.wav], [.mp3] or [.m4a]; either way all it does is that
    one [fs.stat]. *)
Theorem checkAudioFile_accepts_iff (E : env) (audioPath : jsstring)
  (s : state) :
  (fst (checkAudioFile E audioPath s) = Ok tt
   <-> valid_audio E (n_fs s) audioPath)
  /\ trace (snd (checkAudioFile E audioPath s))
     = trace s ++ [EvStat audioPath].
Proof.
  assert (Hcases : valid_audio E (n_fs s) audioPath
                   \/ (not_regular_file E s audioPath
                       \/ extension_refused audioPath)).
  { unfold valid_audio, not_regular_file, extension_refused.
    destruct (fs_stat E (n_fs s) audioPath) as [err | st] eqn:Hst.
    - right. now left.
    - destruct (isFile st) eqn:Hfile; [|right; now left].
      destruct (arr_includes allowed_extensions _) eqn:Hext.
      + left. split; [now exists st | reflexivity].
      + right. now right. }
  destruct Hcases as [Hvalid | Hrefused].
  - rewrite (checkAudioFile_accepts E audioPath s Hvalid).
    split; [|reflexivity]. split; [intros _; exact Hvalid | reflexivity].
  - destruct (checkAudioFile_refuses E audioPath s Hrefused) as (e & -> & _).
    split; [|reflexivity]. split; [discriminate|].
    intros [(st & Hst & Hfile) Hext]. exfalso.
    unfold not_regular_file, extension_refused in Hrefused.
    rewrite Hst in Hrefused. destruct Hrefused; congruence.
Qed.

Lemma checkAudioFile_accepts_iff_witness :
  valid_audio Fixtures.disk 0 (js "/tmp/Meeting.v2.WAV")
  /\ fst (checkAudioFile Fixtures.disk (js "/tmp/Meeting.v2.WAV") init)
     = Ok tt.
Proof.
  assert (Hv : valid_audio Fixtures.disk (n_fs init)
                 (js "/tmp/Meeting.v2.WAV")).
  { split; [eexists; split; reflexivity | vm_compute; reflexivity]. }
  split; [exact Hv|].
  exact (proj2 (proj1 (checkAudioFile_accepts_iff Fixtures.disk
                         (js "/tmp/Meeting.v2.WAV") init)) Hv).
Defined.

(** *** The upload *)

Lemma upload_params_ok (config : AsrConfig) (audioPath : jsstring)
  (now fileSize : Z) (rb : list N) :
  upload_encodable config audioPath ->
  Forall entry_ok
    [ (js "appId", str_or (appid config) []);
      (js "accessKeyId", str_or (accessKeyId config) []);
      (js "timestamp", Z_to_string (now / 1000));
      (js "nonce", Crypto.hex rb);
      (js "fileSize", Z_to_string fileSize);
      (js "fileName", NodePath.basename audioPath);
      (js "language", js "zh");
      (js "duration", js "0") ].
Proof.
  intros (Happ & Hak & Hname).
  repeat (apply Forall_cons; [split; cbn [fst snd]|]); try apply Forall_nil;
    try assumption;
    try apply ascii_well_formed, Z_to_string_ascii;
    try apply ascii_well_formed, hex_ascii;
    vm_compute; reflexivity.
Qed.

Lemma fetch_bind_run {A : Type} (E : env) (req : request)
  (k : response -> M A) (s : state) :
  bind (fetch E req) k s
  = match net_fetch E (n_net s) req with
    | inl err => (Throw (ErrorObj err), ToolSpec.after_request s req)
    | inr resp => k resp (ToolSpec.after_request s req)
    end.
Proof.
  unfold bind, fetch, ToolSpec.after_request, log.
  destruct (net_fetch E (n_net s) req); reflexivity.
Qed.

(** What [uploadAudio] does with a file it can examine and read: it
    sends one request, and the rest depends on the answer alone. *)
Lemma uploadAudio_sends (E : env) (config : AsrConfig)
  (audioPath : jsstring) (s : state) (st : stats) (data : file_data) :
  fs_stat E (n_fs s) audioPath = inr st ->
  fs_readFile E (S (n_fs s)) audioPath = inr data ->
  upload_encodable config audioPath ->
  exists req,
    upload_request config audioPath data req
    /\ upload_of config audioPath (date_now E (n_clock s))
         (random_bytes E (n_random s) 8) (size st) data = Some req
    /\ snd (uploadAudio E config audioPath s) = after_upload s audioPath req
    /\ (forall e,
          upload_failure (net_fetch E (n_net s) req) e ->
          fst (uploadAudio E config audioPath s) = Throw e)
    /\ (forall e,
          vendor_refusal (js "上传失败: ") (net_fetch E (n_net s) req) e ->
          fst (uploadAudio E config audioPath s) = Throw e)
    /\ (forall resp payload,
          net_fetch E (n_net s) req = inr resp -> accepted resp payload ->
          fst (uploadAudio E config audioPath s) = Ok payload).
Proof.
  intros Hst Hread Henc.
  pose proof (upload_params_ok config audioPath (date_now E (n_clock s))
                (size st) (random_bytes E (n_random s) 8) Henc) as Hok.
  destruct (generateSignature_total config _ Hok) as [sig Hsig].
  destruct (queryString_total _ Hok) as [q Hq].
  destruct (uploadAudio E config audioPath s) as [out s'] eqn:Hrun.
  cbn [fst snd].
  unfold uploadAudio, bind at 1, stat in Hrun. rewrite Hst in Hrun.
  cbn [lift_err ret] in Hrun.
  unfold bind at 1, DateNow in Hrun.
  unfold bind at 1, randomBytes in Hrun.
  cbn [fs_step log n_clock n_random n_fs n_net n_llm trace] in Hrun.
  unfold bind at 1 in Hrun. rewrite Hsig in Hrun. cbn [lift_sum ret] in Hrun.
  unfold bind at 1 in Hrun. rewrite Hq in Hrun. cbn [lift_sum ret] in Hrun.
  unfold bind at 1, readFile in Hrun.
  cbn [fs_step log n_clock n_random n_fs n_net n_llm trace] in Hrun.
  rewrite Hread in Hrun.
  clear Hread Hst Hok.
  destruct data as [t | bs]; cbv beta iota in Hrun.
  all: rewrite fetch_bind_run in Hrun; unfold ToolSpec.after_request in Hrun;
    cbn [fs_step log n_clock n_random n_fs n_net n_llm trace] in Hrun;
    unfold log in Hrun; cbn [trace] in Hrun;
    rewrite <- !app_assoc in Hrun; cbn [app] in Hrun.
  all: match type of Hrun with
       | context [net_fetch _ _ ?r] => exists r; set (req := r) in *
       end.
  all: fold (after_upload s audioPath req) in Hrun.
  all: destruct (net_fetch E (n_net s) req) as [err | resp] eqn:Hreply.
  all: unfold bind, prop, lift_err, lift_option, throw, ret in Hrun.
  all: split;
    [ split; [reflexivity|]; split; [|reflexivity];
      unfold req; cbn [req_url]; apply ToolFacts.startsWith_prefix;
      exists q; now rewrite <- app_assoc | ].
  all: split; [unfold upload_of; cbv zeta; now rewrite Hsig, Hq|].
  all: split; [|split; [|split]].
  - now injection Hrun as <- <-.
  - intros e ->. now injection Hrun as <- <-.
  - intros e (resp0 & payload & code & Habs & _). discriminate.
  - discriminate.
  - destruct (negb (resp_ok resp));
      [ destruct (resp_text resp)
      | destruct (resp_json resp) as [? | result];
        [ | destruct (get result (js "code")) as [code |] eqn:Hcode;
            [ destruct (negb (strict_eq_str code (js "000000")));
              [ rewrite vendor_error_run in Hrun by congruence | ] | ] ] ];
      cbv beta iota in Hrun; now injection Hrun as <- <-.
  - intros e (Hok' & t' & Ht & ->).
    rewrite Hok', Ht in Hrun. cbv beta iota in Hrun. now injection Hrun as <- <-.
  - intros e (resp0 & payload & code & [= <-] & Hok' & Hjson & Hcode
              & Hne & ->).
    rewrite Hok', Hjson, Hcode in Hrun; cbn [negb] in Hrun.
    replace (strict_eq_str code (js "000000")) with false in Hrun
      by (symmetry; destruct code; try reflexivity; simpl;
          apply str_eqb_neq; congruence).
    cbn [negb] in Hrun.
    rewrite vendor_error_run in Hrun by congruence.
    now injection Hrun as <- <-.
  - intros resp0 payload [= <-] (Hok' & Hjson & Hcode).
    rewrite Hok', Hjson, Hcode in Hrun; cbn [negb] in Hrun.
    unfold strict_eq_str in Hrun; rewrite str_eqb_refl in Hrun.
    now injection Hrun as <- <-.
  - now injection Hrun as <- <-.
  - intros e ->. now injection Hrun as <- <-.
  - intros e (resp0 & payload & code & Habs & _). discriminate.
  - discriminate.
  - destruct (negb (resp_ok resp));
      [ destruct (resp_text resp)
      | destruct (resp_json resp) as [? | result];
        [ | destruct (get result (js "code")) as [code |] eqn:Hcode;
            [ destruct (negb (strict_eq_str code (js "000000")));
              [ rewrite vendor_error_run in Hrun by congruence | ] | ] ] ];
      cbv beta iota in Hrun; now injection Hrun as <- <-.
  - intros e (Hok' & t' & Ht & ->).
    rewrite Hok', Ht in Hrun. cbv beta iota in Hrun. now injection Hrun as <- <-.
  - intros e (resp0 & payload & code & [= <-] & Hok' & Hjson & Hcode
              & Hne & ->).
    rewrite Hok', Hjson, Hcode in Hrun; cbn [negb] in Hrun.
    replace (strict_eq_str code (js "000000")) with false in Hrun
      by (symmetry; destruct code; try reflexivity; simpl;
          apply str_eqb_neq; congruence).
    cbn [negb] in Hrun.
    rewrite vendor_error_run in Hrun by congruence.
    now injection Hrun as <- <-.
  - intros resp0 payload [= <-] (Hok' & Hjson & Hcode).
    rewrite Hok', Hjson, Hcode in Hrun; cbn [negb] in Hrun.
    unfold strict_eq_str in Hrun; rewrite str_eqb_refl in Hrun.
    now injection Hrun as <- <-.
Qed.

(** A record of strings whose query string can be built holds only
    strings [encodeURIComponent] accepts. *)
Lemma map_opt_some {A B} (f : A -> option B) (l : list A) (ys : list B) :
  map_opt f l = Some ys -> forall x, In x l -> f x <> None.
Proof.
  revert ys. induction l as [|x r IH]; simpl; intros ys H z Hz; [tauto|].
  destruct (f x) as [y|] eqn:Hx; [|discriminate].
  destruct (map_opt f r) as [ys'|] eqn:Hr; [|discriminate].
  destruct Hz as [<-|Hz]; [congruence | now apply (IH ys' eq_refl)].
Qed.

Lemma encode_pair_well_formed (p : params) (k v : jsstring) :
  param_get p k = Some v -> encode_pair p k <> None ->
  well_formed v = true.
Proof.
  intros Hget. unfold encode_pair, encode_param. rewrite Hget.
  destruct (encodeURIComponent k); [|congruence].
  destruct (encodeURIComponent v) eqn:Hv; [|congruence].
  intros _. now apply (encoded_well_formed _ _ Hv).
Qed.

(** With a credential or a base name that holds an unpaired surrogate
    the upload stops where its query string is built: after the
    [fs.stat], before the file is read. *)
Lemma uploadAudio_malformed (E : env) (config : AsrConfig)
  (audioPath : jsstring) (s : state) (st : stats) :
  fs_stat E (n_fs s) audioPath = inr st ->
  ~ upload_encodable config audioPath ->
  fst (uploadAudio E config audioPath s) = Throw URIError
  /\ trace (snd (uploadAudio E config audioPath s))
     = trace s ++ [EvStat audioPath]
  /\ n_net (snd (uploadAudio E config audioPath s)) = n_net s.
Proof.
  intros Hst Hne.
  destruct (uploadAudio E config audioPath s) as [out s'] eqn:Hrun.
  cbn [fst snd].
  unfold uploadAudio, bind at 1, stat in Hrun. rewrite Hst in Hrun.
  cbn [lift_err ret] in Hrun.
  unfold bind at 1, DateNow in Hrun.
  unfold bind at 1, randomBytes in Hrun.
  cbn [fs_step log n_clock n_random n_fs n_net n_llm trace] in Hrun.
  unfold bind at 1 in Hrun.
  destruct (generateSignature config _) as [e | sig] eqn:Hsig;
    cbn [lift_sum throw ret] in Hrun.
  - apply generateSignature_error in Hsig. subst e.
    injection Hrun as <- <-. now repeat split.
  - unfold bind at 1 in Hrun.
    destruct (queryString _) as [e | q] eqn:Hq;
      cbn [lift_sum throw ret] in Hrun.
    + unfold queryString in Hq. destruct (map_opt _ _); [discriminate|].
      injection Hq as <-. injection Hrun as <- <-. now repeat split.
    + exfalso. apply Hne. unfold queryString in Hq.
      destruct (map_opt _ _) as [ys|] eqn:Hm; [|discriminate].
      pose proof (map_opt_some _ _ _ Hm) as Hall.
      repeat split.
      * eapply (encode_pair_well_formed _ (js "appId"));
          [|apply Hall; now left]; reflexivity.
      * eapply (encode_pair_well_formed _ (js "accessKeyId"));
          [|apply Hall; right; now left]; reflexivity.
      * eapply (encode_pair_well_formed _ (js "fileName"));
          [|apply Hall; do 5 right; now left]; reflexivity.
Qed.

(** X6.  The upload is signed over what it sends.  For a file that can
    be examined and read, and credentials and a base name without an
    unpaired surrogate, [uploadAudio] sends exactly one request, after
    one [fs.stat] and one read of the file: a [POST] to [/v1/upload] whose
    query string carries the application and key identifiers, the clock
    reading in seconds, a nonce of sixteen hexadecimal digits drawn for
    this request, the size [fs.stat] reported, the base name of the file,
    the language [zh] and the duration [0]; whose [signature] header is
    the signature of exactly these parameters; and whose form holds the
    octets read, under the base name.  When a credential or the base name
    holds an unpaired surrogate, no request can be built: [uploadAudio]
    throws the [URIError] of [encodeURIComponent] after the [fs.stat],
    and neither reads the file nor sends anything. *)
Theorem uploadAudio_signed (E : env) (config : AsrConfig)
  (audioPath : jsstring) (s : state) (st : stats) (data : file_data) :
  fs_stat E (n_fs s) audioPath = inr st ->
  fs_readFile E (S (n_fs s)) audioPath = inr data ->
  (upload_encodable config audioPath ->
   exists req,
     upload_request config audioPath data req
     /\ upload_of config audioPath (date_now E (n_clock s))
          (random_bytes E (n_random s) 8) (size st) data = Some req
     /\ trace (snd (uploadAudio E config audioPath s))
        = trace s ++ [EvStat audioPath; EvReadFile audioPath; EvFetch req])
  /\ (~ upload_encodable config audioPath ->
      fst (uploadAudio E config audioPath s) = Throw URIError
      /\ trace (snd (uploadAudio E config audioPath s))
         = trace s ++ [EvStat audioPath]).
Proof.
  intros Hst Hread. split.
  - intros Henc.
    destruct (uploadAudio_sends E config audioPath s st data Hst Hread Henc)
      as (req & Hreq & Hbuilt & Hstate & _).
    exists req. split; [exact Hreq|]. split; [exact Hbuilt|].
    now rewrite Hstate.
  - intros Hne.
    destruct (uploadAudio_malformed E config audioPath s st Hst Hne)
      as (Hout & Htr & _).
    now split.
Qed.

Lemma uploadAudio_signed_witness :
  upload_encodable Fixtures.signed_config (js "/tmp/meeting.wav")
  /\ ~ upload_encodable Fixtures.signed_config (js "/tmp/talk" ++ [55296%N])
  /\ (exists req,
        fetches (trace (snd (uploadAudio Fixtures.disk Fixtures.signed_config
                               (js "/tmp/meeting.wav") init))) = [req]
        /\ req_url req
           = js "http://127.0.0.1:18001/v1/upload?appId=app&accessKeyId=ak"
             ++ js "&timestamp=1700000000&nonce=0000000000000000"
             ++ js "&fileSize=1024&fileName=meeting.wav&language=zh&duration=0")
  /\ fst (uploadAudio Fixtures.disk Fixtures.signed_config
            (js "/tmp/talk" ++ [55296%N]) init) = Throw URIError.
Proof.
  assert (Hyes : upload_encodable Fixtures.signed_config
                   (js "/tmp/meeting.wav")) by (repeat split).
  assert (Hno : ~ upload_encodable Fixtures.signed_config
                    (js "/tmp/talk" ++ [55296%N]))
    by (intros (_ & _ & H); vm_compute in H; discriminate).
  split; [exact Hyes|]. split; [exact Hno|]. split.
  - destruct (proj1 (uploadAudio_signed Fixtures.disk Fixtures.signed_config
                       (js "/tmp/meeting.wav") init
                       {| isFile := true; size := 1024 |}
                       (Bytes [82; 73; 70; 70]%N) eq_refl eq_refl) Hyes)
      as (req & _ & Hbuilt & Htrace).
    exists req. rewrite Htrace. split; [reflexivity|].
    vm_compute in Hbuilt. injection Hbuilt as <-. vm_compute. reflexivity.
  - exact (proj1 (proj2 (uploadAudio_signed Fixtures.disk
                           Fixtures.signed_config
                           (js "/tmp/talk" ++ [55296%N]) init
                           {| isFile := true; size := 1024 |}
                           (Bytes [82; 73; 70; 70]%N) eq_refl eq_refl) Hno)).
Defined.

(** *** The whole transcription *)

(** [transcribe] on a file that passes the validation: the upload is
    sent, and the rest depends on its answer. *)
Lemma transcribe_uploads (E : env) (config : AsrConfig)
  (audioPath : jsstring) (s : state) (data : file_data) :
  readable_audio E (n_fs s) audioPath data ->
  upload_encodable config audioPath ->
  exists req,
    upload_request config audioPath data req
    /\ (forall e,
          upload_failure (net_fetch E (n_net s) req) e
          \/ vendor_refusal (js "上传失败: ") (net_fetch E (n_net s) req) e ->
          transcribe E config audioPath s
          = (Throw e, after_upload (fs_step (EvStat audioPath) s)
                        audioPath req))
    /\ (forall resp payload,
          net_fetch E (n_net s) req = inr resp -> accepted resp payload ->
          transcribe E config audioPath s
          = (let orderId :=
               get_opt (get_opt payload (js "content")) (js "orderId") in
             if negb (truthy orderId)
             then throw (mkError (js "上传失败：未获取到订单ID"))
             else
               bind (pollResult E config orderId None)
                 (fun result =>
                    bind (lift_sum (parseTranscript result))
                      (fun parsed =>
                         ret {| res_text := fst parsed;
                                res_orderId := orderId;
                                res_segments := snd parsed |})))
              (after_upload (fs_step (EvStat audioPath) s) audioPath req)).
Proof.
  intros (Hvalid & (st & Hst) & Hread) Henc.
  destruct (uploadAudio_sends E config audioPath
              (fs_step (EvStat audioPath) s) st data Hst Hread Henc)
    as (req & Hreq & _ & Hstate & Hfail & Hvendor & Hok).
  exists req. split; [exact Hreq|].
  cbn [fs_step n_net] in Hfail, Hvendor, Hok.
  assert (Hstep :
    transcribe E config audioPath s
    = bind (uploadAudio E config audioPath)
        (fun uploadResult =>
           let orderId :=
             get_opt (get_opt uploadResult (js "content")) (js "orderId") in
           if negb (truthy orderId)
           then throw (mkError (js "上传失败：未获取到订单ID"))
           else
             bind (pollResult E config orderId None)
               (fun result =>
                  bind (lift_sum (parseTranscript result))
                    (fun parsed =>
                       ret {| res_text := fst parsed;
                              res_orderId := orderId;
                              res_segments := snd parsed |})))
        (fs_step (EvStat audioPath) s)).
  { unfold transcribe, bind at 1.
    now rewrite (checkAudioFile_accepts E audioPath s Hvalid). }
  destruct (uploadAudio E config audioPath (fs_step (EvStat audioPath) s))
    as [out s'] eqn:Hrun.
  cbn [fst snd] in Hstate, Hfail, Hvendor, Hok. subst s'.
  split.
  - intros e He. rewrite Hstep. unfold bind at 1. rewrite Hrun.
    destruct He as [He | He];
      [rewrite (Hfail e He) | rewrite (Hvendor e He)]; reflexivity.
  - intros resp payload Hreply Hacc.
    rewrite Hstep. unfold bind at 1. rewrite Hrun.
    rewrite (Hok resp payload Hreply Hacc). reflexivity.
Qed.

Lemma after_upload_trace (s : state) (audioPath : jsstring) (req : request) :
  trace (after_upload (fs_step (EvStat audioPath) s) audioPath req)
  = trace s ++ upload_events audioPath req.
Proof.
  unfold after_upload, fs_step, log, upload_events. cbn [trace].
  now rewrite <- app_assoc.
Qed.

(** X7.  When the upload is refused, by the network, by a response that
    is not an OK one or by a vendor code other than [000000], the
    transcription fails with the error of the upload: the error of
    [fetch] itself; or the message with the HTTP status and the text of
    the response; or the message with the vendor code and its
    description, as [String()] prints them - the [TypeError] of that
    conversion when the code or the description cannot be converted to a
    string.  The upload is not sent again and the status of no order is
    asked for: the file is examined twice and read once, and the upload,
    a [POST] of the octets of the file under its base name, is the only
    request. *)
Theorem transcribe_upload_refused (E : env) (config : AsrConfig)
  (audioPath : jsstring) (s : state) (data : file_data) (e : exn) :
  readable_audio E (n_fs s) audioPath data ->
  upload_encodable config audioPath ->
  (forall req,
     upload_failure (net_fetch E (n_net s) req) e
     \/ vendor_refusal (js "上传失败: ") (net_fetch E (n_net s) req) e) ->
  exists req,
    upload_request config audioPath data req
    /\ fst (transcribe E config audioPath s) = Throw e
    /\ trace (snd (transcribe E config audioPath s))
       = trace s ++ upload_events audioPath req.
Proof.
  intros Hread Henc Hrefused.
  destruct (transcribe_uploads E config audioPath s data Hread Henc)
    as (req & Hreq & Hfail & _).
  exists req. split; [exact Hreq|].
  rewrite (Hfail e (Hrefused req)). cbn [fst snd].
  split; [reflexivity | apply after_upload_trace].
Qed.

(** X8.  When the upload is accepted but its answer carries no order
    identifier (no [content], no [orderId], or an empty or null one), the
    transcription fails with the error [上传失败：未获取到订单ID] and asks
    for the status of no order. *)
Theorem transcribe_without_order (E : env) (config : AsrConfig)
  (audioPath : jsstring) (s : state) (data : file_data) (payload : value) :
  readable_audio E (n_fs s) audioPath data ->
  upload_encodable config audioPath ->
  answers E (n_net s) payload ->
  truthy (get_opt (get_opt payload (js "content")) (js "orderId")) = false ->
  exists req,
    upload_request config audioPath data req
    /\ fst (transcribe E config audioPath s)
       = Throw (mkError (js "上传失败：未获取到订单ID"))
    /\ trace (snd (transcribe E config audioPath s))
       = trace s ++ upload_events audioPath req.
Proof.
  intros Hread Henc Hans Hfalsy.
  destruct (transcribe_uploads E config audioPath s data Hread Henc)
    as (req & Hreq & _ & Hok).
  exists req. split; [exact Hreq|].
  destruct (Hans req) as (resp & Hreply & Hacc).
  rewrite (Hok resp payload Hreply Hacc). cbv zeta.
  rewrite Hfalsy. cbn [negb throw fst snd].
  split; [reflexivity | apply after_upload_trace].
Qed.

(** X9.  A transcription that goes through.  The upload is accepted and
    its reply holds a truthy [orderId], which goes to the poller as it
    is; the status queries that follow find the order processing [n]
    times and then completed with [result].  When the identifier can be
    converted to a string that [encodeURIComponent] accepts, the outcome
    is what [parseTranscript] makes of [result], with the identifier of
    the upload beside it (its error, if [result] has no readable
    transcript); the events are those of the upload, [n] queries each
    followed by the wait, and the last query; and every query is the one
    built for this identifier from the clock reading and the random
    octets of its turn.  When it cannot - an object with a [toString] of
    its own, a string with an unpaired surrogate - the transcription
    throws the [TypeError] or the [URIError] of the conversion after the
    upload, and no status query is sent. *)
Theorem transcribe_completes (E : env) (config : AsrConfig)
  (audioPath : jsstring) (s : state) (data : file_data)
  (payload result : value) (n : nat) :
  let orderId := get_opt (get_opt payload (js "content")) (js "orderId") in
  readable_audio E (n_fs s) audioPath data ->
  upload_encodable config audioPath ->
  answers E (n_net s) payload ->
  truthy orderId = true ->
  (Z.of_nat n + 1 <= 100)%Z ->
  processing_from E (S (n_net s)) n ->
  answers E (S (n_net s) + n) result ->
  status_of result = VNum 4 ->
  exists req,
    upload_request config audioPath data req
    /\ (stringable orderId = true ->
        well_formed (to_string orderId) = true ->
        exists reqs last,
          List.length reqs = n
          /\ (forall i, (i <= n)%nat ->
                nth_error (reqs ++ [last]) i
                = query_of config orderId (date_now E (S (n_clock s) + i))
                    (random_bytes E (S (n_random s) + i) 8))
          /\ fst (transcribe E config audioPath s)
             = match parseTranscript result with
               | inl e => Throw e
               | inr parsed =>
                 Ok {| res_text := fst parsed; res_orderId := orderId;
                       res_segments := snd parsed |}
               end
          /\ trace (snd (transcribe E config audioPath s))
             = trace s ++ upload_events audioPath req
                 ++ processing_rounds reqs ++ [EvFetch last])
    /\ (stringable orderId = false
        \/ well_formed (to_string orderId) = false ->
        fst (transcribe E config audioPath s) = Throw (unbuildable orderId)
        /\ trace (snd (transcribe E config audioPath s))
           = trace s ++ upload_events audioPath req).
Proof.
  intros orderId Hread Henc Hans Htruthy Hbudget Hproc Hdone Hstatus.
  destruct (transcribe_uploads E config audioPath s data Hread Henc)
    as (req & Hreq & _ & Hok).
  destruct (Hans req) as (resp & Hreply & Hacc).
  pose proof (Hok resp payload Hreply Hacc) as Hrun. cbv zeta in Hrun.
  fold orderId in Hrun. rewrite Htruthy in Hrun. cbn [negb] in Hrun.
  set (s1 := after_upload (fs_step (EvStat audioPath) s) audioPath req)
    in Hrun.
  destruct Henc as (Happ & Hak & _).
  exists req. split; [exact Hreq|]. split.
  - intros Hs Hwf.
    assert (Henc' : encodable config orderId) by now repeat split.
    destruct (pollResult_reaches E config orderId None n s1
                Henc' Hbudget Hproc)
      as (reqs & last & Hlen & Hnth & Hnet & Hret & _).
    change (n_net s1) with (S (n_net s)) in Hnet.
    rewrite <- Hnet in Hdone.
    destruct (pollAttempt_answered E config orderId (after_rounds s1 reqs)
                result Henc' Hdone) as [last' Hatt].
    rewrite Hstatus in Hatt. cbn [strict_eq_num Z.eqb Pos.eqb] in Hatt.
    specialize (Hret result ltac:(now rewrite Hatt)).
    exists reqs, last. split; [exact Hlen|]. split; [exact Hnth|].
    assert (Hfull :
      transcribe E config audioPath s
      = (match parseTranscript result with
         | inl e => Throw e
         | inr parsed =>
           Ok {| res_text := fst parsed; res_orderId := orderId;
                 res_segments := snd parsed |}
         end, after_fetch (after_rounds s1 reqs) last)).
    { rewrite Hrun. unfold bind at 1. rewrite Hret.
      unfold bind, lift_sum.
      now destruct (parseTranscript result) as [e | parsed]. }
    rewrite Hfull. cbn [fst snd]. split; [reflexivity|].
    rewrite after_last_trace. unfold s1. rewrite after_upload_trace.
    now rewrite <- app_assoc.
  - intros Hbad.
    destruct (pollResult_unbuildable E config orderId None s1
                Happ Hak Hbad ltac:(simpl; lia))
      as (s2 & Hpoll & Htr & _).
    assert (Hfull : transcribe E config audioPath s
                    = (Throw (unbuildable orderId), s2))
      by (rewrite Hrun; unfold bind at 1; now rewrite Hpoll).
    rewrite Hfull. cbn [fst snd]. split; [reflexivity|].
    rewrite Htr. unfold s1. apply after_upload_trace.
Qed.

Lemma world_readable (replies : nat -> error_obj + response)
  (llm : option (nat -> jsstring -> exn + jsstring)) (k : nat) :
  readable_audio (Scenarios.world replies llm) k (js "/tmp/meeting.wav")
    (Text (js "S0: hello")).
Proof.
  split; [split; [eexists; split; reflexivity | vm_compute; reflexivity]|].
  split; [eexists|]; reflexivity.
Qed.

Lemma fixture_upload_encodable :
  upload_encodable Fixtures.signed_config (js "/tmp/meeting.wav").
Proof. repeat split. Qed.

Lemma transcribe_upload_refused_witness :
  (exists req,
     req_body req
     = BodyForm (js "file") (js "meeting.wav") (utf8_encode (js "S0: hello"))
     /\ fst (transcribe (Scenarios.world (fun _ => Scenarios.bad_gateway)
                           None)
               Fixtures.signed_config (js "/tmp/meeting.wav") init)
        = Throw (mkError (js "上传失败: 502 Bad Gateway")))
  /\ fst (transcribe (Scenarios.world (fun _ => Scenarios.quota_exceeded)
                        None)
            Fixtures.signed_config (js "/tmp/meeting.wav") init)
     = Throw (mkError (js "上传失败: 100013 - quota exceeded"))
  /\ fst (transcribe (Scenarios.world (fun _ => Scenarios.opaque_code) None)
            Fixtures.signed_config (js "/tmp/meeting.wav") init)
     = Throw (TypeError (js "Cannot convert object to primitive value")).
Proof.
  split; [|split].
  - destruct (transcribe_upload_refused
                (Scenarios.world (fun _ => Scenarios.bad_gateway) None)
                Fixtures.signed_config (js "/tmp/meeting.wav") init
                (Text (js "S0: hello"))
                (mkError (js "上传失败: 502 Bad Gateway"))
                (world_readable _ _ _) fixture_upload_encodable)
      as (req & (_ & _ & Hbody) & Hout & _).
    + intros req. left. split; [reflexivity|].
      exists (js "Bad Gateway"). split; reflexivity.
    + exists req. split; [exact Hbody | exact Hout].
  - destruct (transcribe_upload_refused
                (Scenarios.world (fun _ => Scenarios.quota_exceeded) None)
                Fixtures.signed_config (js "/tmp/meeting.wav") init
                (Text (js "S0: hello"))
                (mkError (js "上传失败: 100013 - quota exceeded"))
                (world_readable _ _ _) fixture_upload_encodable
                (fun _ => or_intror
                            (quota_exceeded_refusal (js "上传失败: "))))
      as (req & _ & Hout & _).
    exact Hout.
  - destruct (transcribe_upload_refused
                (Scenarios.world (fun _ => Scenarios.opaque_code) None)
                Fixtures.signed_config (js "/tmp/meeting.wav") init
                (Text (js "S0: hello"))
                (TypeError (js "Cannot convert object to primitive value"))
                (world_readable _ _ _) fixture_upload_encodable
                (fun _ => or_intror (opaque_code_refusal (js "上传失败: "))))
      as (req & _ & Hout & _).
    exact Hout.
Defined.

Lemma transcribe_without_order_witness :
  fst (transcribe (Scenarios.world (fun _ => Scenarios.no_order) None)
         Fixtures.signed_config (js "/tmp/meeting.wav") init)
  = Throw (mkError (js "上传失败：未获取到订单ID")).
Proof.
  destruct (transcribe_without_order
              (Scenarios.world (fun _ => Scenarios.no_order) None)
              Fixtures.signed_config (js "/tmp/meeting.wav") init
              (Text (js "S0: hello"))
              (VObj [(js "code", VStr (js "000000")); (js "content", VNull)])
              (world_readable _ _ _) fixture_upload_encodable)
    as (req & _ & Hout & _).
  - intros req. eexists. split; [reflexivity|]. repeat split.
  - reflexivity.
  - exact Hout.
Defined.

Lemma disk_readable :
  readable_audio Fixtures.disk 0 (js "/tmp/meeting.wav")
    (Bytes [82; 73; 70; 70]%N).
Proof.
  split; [split; [eexists; split; reflexivity | vm_compute; reflexivity]|].
  split; [eexists|]; reflexivity.
Qed.

Lemma transcribe_completes_witness :
  (exists r,
     fst (transcribe Fixtures.disk Fixtures.signed_config
            (js "/tmp/meeting.wav") init) = Ok r
     /\ res_orderId r = VStr (js "abc123")
     /\ res_text r = js "S0: hello" ++ LF ++ js "S1: world")
  /\ fst (transcribe
            (Scenarios.world
               (Scenarios.first_then 1
                  (inr (Fixtures.ok_response
                          (VObj [(js "code", VStr (js "000000"));
                                 (js "content",
                                  VObj [(js "orderId",
                                         VObj [(js "toString",
                                                VNum 1)])])])))
                  (inr (Fixtures.ok_response Fixtures.completed_payload)))
               None)
            Fixtures.signed_config (js "/tmp/meeting.wav") init)
     = Throw (TypeError (js "Cannot convert object to primitive value")).
Proof.
  split.
  - destruct (transcribe_completes Fixtures.disk Fixtures.signed_config
                (js "/tmp/meeting.wav") init (Bytes [82; 73; 70; 70]%N)
                (VObj [(js "code", VStr (js "000000"));
                       (js "content",
                        VObj [(js "orderId", VStr (js "abc123"))])])
                Fixtures.completed_payload 1
                disk_readable fixture_upload_encodable)
      as (req & _ & Hyes & _).
    + intros req. eexists. split; [reflexivity|]. repeat split.
    + reflexivity.
    + lia.
    + intros i Hi. assert (i = 0)%nat as -> by lia.
      exists (Fixtures.payload_with_status (VNum 3)).
      split; [|reflexivity].
      intros req. eexists. split; [reflexivity|]. repeat split.
    + intros req. eexists. split; [reflexivity|]. repeat split.
    + reflexivity.
    + destruct (Hyes eq_refl eq_refl) as (reqs & last & _ & _ & Hout & _).
      eexists. split; [exact Hout|]. split; vm_compute; reflexivity.
  - set (reply :=
           VObj [(js "code", VStr (js "000000"));
                 (js "content",
                  VObj [(js "orderId", VObj [(js "toString", VNum 1)])])]).
    destruct (transcribe_completes
                (Scenarios.world
                   (Scenarios.first_then 1
                      (inr (Fixtures.ok_response reply))
                      (inr (Fixtures.ok_response Fixtures.completed_payload)))
                   None)
                Fixtures.signed_config (js "/tmp/meeting.wav") init
                (Text (js "S0: hello")) reply Fixtures.completed_payload 0
                (world_readable _ _ _) fixture_upload_encodable)
      as (req & _ & _ & Hno).
    + intros req. eexists. split; [reflexivity|]. repeat split.
    + reflexivity.
    + lia.
    + intros i Hi. lia.
    + intros req. eexists. split; [reflexivity|]. repeat split.
    + reflexivity.
    + exact (proj1 (Hno (or_introl eq_refl))).
Defined.

(** *** The identifier of a transcription that went through *)

(** A turn that does not throw has built its query, so the identifier
    could be converted and encoded. *)
Lemma pollAttempt_ok_stringable (E : env) (config : AsrConfig)
  (orderId : value) (s s' : state) (a : option value) :
  pollAttempt E config orderId s = (Ok a, s') ->
  stringable orderId = true /\ well_formed (to_string orderId) = true.
Proof.
  unfold pollAttempt, bind, DateNow, randomBytes.
  cbn [n_clock n_random].
  destruct (generateSignature_raw config _) as [e | sig];
    cbn [lift_sum throw ret]; [discriminate|].
  destruct (queryString_raw _) as [e | q] eqn:Hq;
    cbn [lift_sum throw ret]; [discriminate|].
  intros _. unfold queryString_raw in Hq.
  destruct (map_err _ _) as [|ys] eqn:Hm; [discriminate|].
  destruct (map_err_inr _ _ _ Hm (js "orderId")) as [t Ht];
    [do 4 right; now left|].
  now apply encode_raw_pair_inr in Ht.
Qed.

Lemma pollResult_ok_stringable (E : env) (config : AsrConfig)
  (orderId : value) (maxRetries : option Z) (s s' : state) (result : value) :
  pollResult E config orderId maxRetries s = (Ok result, s') ->
  stringable orderId = true.
Proof.
  unfold pollResult.
  destruct (Z.to_nat (defaultRetries maxRetries)) as [|fuel].
  - cbn [pollLoop]. destruct (_ <? _)%Z; discriminate.
  - rewrite pollLoop_unfold. destruct (_ <? _)%Z; [|discriminate].
    unfold bind at 1.
    destruct (pollAttempt E config orderId s) as [[a|e|] s1] eqn:Hatt;
      try discriminate.
    intros _. now apply (pollAttempt_ok_stringable _ _ _ _ _ _ Hatt).
Qed.

Lemma transcribe_ok_stringable (E : env) (config : AsrConfig)
  (audioPath : jsstring) (s s' : state) (r : AsrResult) :
  transcribe E config audioPath s = (Ok r, s') ->
  stringable (res_orderId r) = true.
Proof.
  unfold transcribe, bind.
  destruct (checkAudioFile E audioPath s) as [[u|e|] s1]; try discriminate.
  destruct (uploadAudio E config audioPath s1) as [[up|e|] s2];
    try discriminate.
  cbv zeta. destruct (negb (truthy _)); [discriminate|].
  destruct (pollResult E config _ None s2) as [[res|e|] s3] eqn:Hpoll;
    try discriminate.
  destruct (parseTranscript res) as [e | parsed];
    cbn [lift_sum throw ret]; [discriminate|].
  intros [= <- _]. cbn [res_orderId].
  now apply (pollResult_ok_stringable _ _ _ _ _ _ _ Hpoll).
Qed.

End UploadFacts.

(** ** The parser on any payload *)

Module ParseFacts.

Import JS Eff JSFacts AsrClient AsrSpec ClientSpec.

(** *** [trim] *)

Lemma trimStart_head (s : jsstring) (c : N) :
  hd_error (trimStart s) = Some c -> is_white_space c = false.
Proof.
  induction s as [|x s IH]; cbn [trimStart]; [discriminate|].
  destruct (is_white_space x) eqn:Hx; [exact IH|].
  cbn [hd_error]. now intros [= <-].
Qed.

Lemma trimStart_fixed (s : jsstring) :
  (forall c, hd_error s = Some c -> is_white_space c = false) ->
  trimStart s = s.
Proof.
  destruct s as [|x s]; [reflexivity|]. intros H. cbn [trimStart].
  now rewrite (H x eq_refl).
Qed.

Lemma trimStart_suffix (s : jsstring) : exists p, s = p ++ trimStart s.
Proof.
  induction s as [|x s (p & IH)]; [now exists []|].
  cbn [trimStart]. destruct (is_white_space x).
  - exists (x :: p). cbn [app]. now rewrite <- IH.
  - now exists [].
Qed.

Lemma trimEnd_prefix (s : jsstring) : exists p, s = trimEnd s ++ p.
Proof.
  destruct (trimStart_suffix (rev s)) as (p & Hp).
  exists (rev p). unfold trimEnd. rewrite <- rev_app_distr, <- Hp.
  now rewrite rev_involutive.
Qed.

Lemma trimEnd_idempotent (s : jsstring) : trimEnd (trimEnd s) = trimEnd s.
Proof.
  unfold trimEnd. rewrite rev_involutive. f_equal.
  apply trimStart_fixed, trimStart_head.
Qed.

Lemma trim_head (s : jsstring) (c : N) :
  hd_error (trim s) = Some c -> is_white_space c = false.
Proof.
  unfold trim. destruct (trimEnd_prefix (trimStart s)) as (p & Hp).
  intros Hc. apply (trimStart_head s). rewrite Hp.
  destruct (trimEnd (trimStart s)); [discriminate | exact Hc].
Qed.

Lemma trim_last (s : jsstring) (c : N) :
  hd_error (rev (trim s)) = Some c -> is_white_space c = false.
Proof.
  unfold trim, trimEnd. rewrite rev_involutive. apply trimStart_head.
Qed.

Lemma trim_idempotent (s : jsstring) : trim (trim s) = trim s.
Proof.
  unfold trim at 1.
  rewrite (trimStart_fixed (trim s) (trim_head s)).
  unfold trim. apply trimEnd_idempotent.
Qed.

(** *** The loop on any array *)

Lemma or_else_truthy (a b : value) :
  truthy b = true -> truthy (or_else a b) = true.
Proof. intros Hb. unfold or_else. now destruct (truthy a) eqn:Ha. Qed.

Lemma parseLoop_pushes (elems : list value) :
  forall (segments : list AsrSegment) (textParts : list jsstring)
         (segments' : list AsrSegment) (textParts' : list jsstring),
    parseLoop elems segments textParts = inr (segments', textParts') ->
    exists pushed,
      segments' = segments ++ pushed
      /\ textParts' = textParts ++ List.map segment_line pushed
      /\ Forall segment_ok pushed
      /\ (List.length pushed <= List.length elems)%nat.
Proof.
  induction elems as [|v elems IH];
    intros segments textParts segments' textParts' Hrun.
  - injection Hrun as <- <-. exists []. cbn [List.map List.length].
    rewrite !app_nil_r. repeat split; [constructor | lia].
  - cbn [parseLoop] in Hrun.
    destruct (get v (js "speakerId")) as [speakerId|]; [|discriminate].
    destruct (get v (js "text")) as [text0|]; [|discriminate].
    destruct (get v (js "beginTime")) as [startTime|]; [|discriminate].
    destruct (get v (js "endTime")) as [endTime|]; [|discriminate].
    cbv zeta in Hrun.
    destruct (or_else text0 (VStr [])) as [| | | | |t| |]; try discriminate.
    destruct (str_truthy (trim t)) eqn:Hkeep.
    + destruct (ToString (or_else speakerId (VStr (js "S0"))))
        as [e | label] eqn:Hlabel; [discriminate|].
      assert (Hl : label = to_string (or_else speakerId (VStr (js "S0")))).
      { unfold ToString in Hlabel.
        destruct (stringable _); [now injection Hlabel as <- | discriminate]. }
      subst label.
      destruct (IH _ _ _ _ Hrun) as (pushed & -> & -> & Hall & Hlen).
      exists ({| AsrClient.speaker := or_else speakerId (VStr (js "S0"));
                 AsrClient.text := trim t;
                 AsrClient.startTime := startTime;
                 AsrClient.endTime := endTime |} :: pushed).
      rewrite <- !app_assoc. cbn [app List.map List.length].
      repeat split; [|lia].
      constructor; [|exact Hall].
      unfold segment_ok. cbn [AsrClient.text AsrClient.speaker].
      split; [destruct (trim t); [discriminate | discriminate]|].
      split; [apply trim_idempotent | now apply or_else_truthy].
    + destruct (IH _ _ _ _ Hrun) as (pushed & -> & -> & Hall & Hlen).
      exists pushed. cbn [List.length]. repeat split; [exact Hall | lia].
Qed.

Lemma join_nonempty (sep : jsstring) (parts : list jsstring) :
  Forall (fun p => p <> []) parts -> parts <> [] -> join sep parts <> [].
Proof.
  intros Hall Hne. destruct parts as [|p rest]; [congruence|].
  inversion Hall as [|? ? Hp _]; subst. cbn [join].
  destruct rest; [exact Hp|]. destruct p; [congruence | discriminate].
Qed.

(** X10.  Whatever JSON the vendor returns, a transcript that
    [parseTranscript] hands back is consistent: the text is the lines
    [speaker: text] of the segments, in their order, joined with a line
    feed, so it is empty exactly when there is no segment; and every
    segment has a speaker label and a text that is not empty and has no
    white space left at either end. *)
Theorem parseTranscript_consistent (result : value) (text : jsstring)
  (segments : list AsrSegment) :
  parseTranscript result = inr (text, segments) ->
  text = join LF (List.map segment_line segments)
  /\ Forall segment_ok segments
  /\ (text = [] <-> segments = []).
Proof.
  unfold parseTranscript.
  destruct (get result (js "content")) as [content|]; [|discriminate].
  cbv zeta.
  destruct (iterate _) as [e | elems]; [discriminate|].
  destruct (parseLoop elems [] []) as [e | [segs parts]] eqn:Hloop;
    [discriminate|].
  intros [= <- <-].
  destruct (parseLoop_pushes elems [] [] segs parts Hloop)
    as (pushed & -> & -> & Hall & _).
  cbn [app]. split; [reflexivity|]. split; [exact Hall|].
  split.
  - intros Hempty. destruct pushed as [|g pushed]; [reflexivity|].
    exfalso. revert Hempty. apply join_nonempty; [|discriminate].
    apply Forall_forall. intros p Hp.
    apply in_map_iff in Hp as (g' & <- & _). unfold segment_line.
    destruct (to_string (AsrClient.speaker g')); discriminate.
  - now intros ->.
Qed.

Lemma parseTranscript_consistent_witness :
  exists text segments,
    parseTranscript Fixtures.completed_payload = inr (text, segments)
    /\ text = join LF (List.map segment_line segments)
    /\ segments <> [].
Proof.
  destruct (parseTranscript Fixtures.completed_payload)
    as [e | [text segments]] eqn:Hrun;
    [vm_compute in Hrun; discriminate|].
  destruct (parseTranscript_consistent _ text segments Hrun)
    as (Htext & _ & _).
  exists text, segments. split; [reflexivity|]. split; [exact Htext|].
  vm_compute in Hrun. injection Hrun as _ <-. discriminate.
Defined.

(** X11.  The edges of [parseTranscript].  A payload without [content],
    without [orderResult] or without [sentences], or whose [sentences] is
    null, empty or any other falsy value, gives the empty transcript and
    no segment, and so does a [sentences] that is a string; a [sentences]
    that is a number other than zero, [true] or an object makes the
    parser throw a [TypeError], since it cannot be iterated. *)
Theorem parseTranscript_without_sentences (result content : value) :
  get result (js "content") = Some content ->
  let sentences :=
    get_opt (get_opt content (js "orderResult")) (js "sentences") in
  (truthy sentences = false \/ (exists s, sentences = VStr s) ->
   parseTranscript result = inr ([], []))
  /\ (truthy sentences = true ->
      (forall l, sentences <> VArr l) -> (forall s, sentences <> VStr s) ->
      parseTranscript result
      = inl (TypeError (js "sentences is not iterable"))).
Proof.
  intros Hcontent. unfold parseTranscript. rewrite Hcontent. cbv zeta.
  generalize (get_opt (get_opt content (js "orderResult")) (js "sentences")).
  intros sentences. split.
  - intros [Hfalsy | (s & Hs)].
    + unfold or_else. now rewrite Hfalsy.
    + rewrite Hs. unfold or_else.
      destruct (truthy (VStr s)); [|reflexivity].
      cbn [iterate].
      assert (Hskip : forall cs segments textParts,
                parseLoop (List.map VStr cs) segments textParts
                = inr (segments, textParts)).
      { induction cs as [|c cs IH]; intros segments textParts;
          [reflexivity|].
        cbn [List.map parseLoop get]. cbv zeta.
        cbn [or_else truthy trim trimStart trimEnd rev str_truthy].
        apply IH. }
      now rewrite Hskip.
  - intros Htruthy Harr Hstr. unfold or_else. rewrite Htruthy.
    destruct sentences as [| |b|n|t|s|l|props]; try reflexivity;
      [now destruct (Hstr s) | now destruct (Harr l)].
Qed.

Lemma parseTranscript_without_sentences_witness :
  parseTranscript (VObj [(js "content", VObj [(js "orderResult", VNull)])])
  = inr ([], []).
Proof.
  apply (parseTranscript_without_sentences
           (VObj [(js "content", VObj [(js "orderResult", VNull)])])
           (VObj [(js "orderResult", VNull)]) eq_refl).
  left. reflexivity.
Defined.

End ParseFacts.

(** ** The renderer client *)

Module RenderFacts.

Import JS Eff JSFacts RendererClient RendererMore ToolSpec RenderSpec.

(** What both renderers do with the reply to their request. *)
Lemma render_reply (E : env) (prefix : jsstring) (req : request) (s : state) :
  exists r,
    try_catch
      (bind (fetch E req)
         (fun response =>
            if negb (resp_ok response) then
              bind (lift_err (resp_text response))
                (fun text =>
                   ret (failure (js "渲染失败: "
                                   ++ Z_to_string (resp_status response)
                                   ++ js " " ++ text)))
            else
              bind (lift_err (resp_json response))
                (fun result =>
                   bind (AsrClient.prop result (js "image"))
                     (fun image =>
                        if truthy image then
                          bind (lift_err (buffer_from_base64 E image))
                            (fun imageData =>
                               ret {| success := true;
                                      imageData := Some imageData;
                                      error := None |})
                        else ret (failure (js "渲染结果为空"))))))
      (fun error =>
         bind (lift_option (exn_message error)
                 (cannot_read (thrown_value error) (js "message")))
           (fun message => ret (failure (prefix ++ to_string message)))) s
    = (Ok r, after_request s req)
    /\ render_outcome E prefix (net_fetch E (n_net s) req) r.
Proof.
  unfold try_catch, bind at 1, fetch. fold (after_request s req).
  unfold render_outcome, rendered, render_failure.
  destruct (net_fetch E (n_net s) req) as [err | resp] eqn:Hreply;
    cbn [lift_err throw ret exn_message lift_option bind to_string].
  { eexists. split; [reflexivity|]. split; [right; split; [exact I | eauto]|].
    split; [now intros ? [= <-] | discriminate]. }
  destruct (resp_ok resp) eqn:Hok; cbn [negb].
  2:{ unfold bind at 1.
      destruct (resp_text resp) as [err | t] eqn:Htext;
        cbn [lift_err throw ret exn_message lift_option bind to_string];
        (eexists; split; [reflexivity|]);
        (split; [right; split; [now left | eauto]|]);
        (split; [discriminate|]);
        intros resp0 t0 [= <-] _ Ht; congruence. }
  unfold bind at 1.
  destruct (resp_json resp) as [err | result] eqn:Hjson;
    cbn [lift_err throw ret exn_message lift_option bind to_string].
  { eexists. split; [reflexivity|].
    split; [right; split; [right; exact I | eauto]|].
    split; [discriminate | intros resp0 t0 [= <-]; congruence]. }
  unfold bind at 1, AsrClient.prop, get_opt.
  destruct (get result (js "image")) as [image|] eqn:Himage;
    cbn [lift_option throw ret exn_message lift_option bind to_string].
  2:{ eexists. split; [reflexivity|].
      split; [right; split; [right; left; reflexivity | eauto]|].
      split; [discriminate | intros resp0 t0 [= <-]; congruence]. }
  destruct (truthy image) eqn:Htruthy.
  2:{ eexists. split; [reflexivity|].
      split; [right; split; [right; left; reflexivity | eauto]|].
      split; [discriminate | intros resp0 t0 [= <-]; congruence]. }
  unfold bind at 1.
  destruct (buffer_from_base64 E image) as [err | data] eqn:Hdata;
    cbn [lift_err throw ret exn_message lift_option bind to_string].
  - eexists. split; [reflexivity|].
    split; [right; split; [right; right; now exists err | eauto]|].
    split; [discriminate | intros resp0 t0 [= <-]; congruence].
  - eexists. split; [reflexivity|].
    split; [left; exists data; split; [|reflexivity];
            now exists resp, result, image|].
    split; [discriminate | intros resp0 t0 [= <-]; congruence].
Qed.

Lemma renderMarkmap_reply (E : env) (this : client) (markdown : jsstring)
  (options : RenderOptions) (s : state) :
  exists r,
    renderMarkmap E this markdown options s
    = (Ok r, after_request s (markmap_request this markdown options))
    /\ render_outcome E (js "Markmap 服务不可用: ")
         (net_fetch E (n_net s) (markmap_request this markdown options)) r.
Proof.
  apply (render_reply E (js "Markmap 服务不可用: ")
           (markmap_request this markdown options) s).
Qed.

Lemma renderMermaid_reply (E : env) (this : client) (code : jsstring)
  (options : RenderOptions) (s : state) :
  exists r,
    renderMermaid E this code options s
    = (Ok r, after_request s (mermaid_request this code options))
    /\ render_outcome E (js "Mermaid 服务不可用: ")
         (net_fetch E (n_net s) (mermaid_request this code options)) r.
Proof.
  apply (render_reply E (js "Mermaid 服务不可用: ")
           (mermaid_request this code options) s).
Qed.

(** X12.  Neither renderer ever throws.  [renderMarkmap] sends one
    request, a [POST] of the Markdown to [/render] of the Markmap service
    with the width 1920, the height 1080 and the format [png] unless the
    options say otherwise; [renderMermaid] sends the code to [/render] of
    the Mermaid service in the same way, with the theme [default] besides.
    What they return describes the reply: the decoded image when the
    response is an OK one with an image, and otherwise a failure with a
    message, which is [Markmap 服务不可用: ] (for Mermaid,
    [Mermaid 服务不可用: ]) and the error of the network when the request
    could not be sent, and [渲染失败: ], the status and the text of a
    response that is not an OK one. *)
Theorem renderers_return (E : env) (this : client) (text : jsstring)
  (options : RenderOptions) (s : state) :
  (exists r,
     renderMarkmap E this text options s
     = (Ok r, after_request s (markmap_request this text options))
     /\ render_outcome E (js "Markmap 服务不可用: ")
          (net_fetch E (n_net s) (markmap_request this text options)) r)
  /\ (exists r,
        renderMermaid E this text options s
        = (Ok r, after_request s (mermaid_request this text options))
        /\ render_outcome E (js "Mermaid 服务不可用: ")
             (net_fetch E (n_net s) (mermaid_request this text options)) r).
Proof.
  split; [apply renderMarkmap_reply | apply renderMermaid_reply].
Qed.

(** X13.  [checkHealth] never throws: it sends a [GET] to [/health] of
    the service and answers [true] exactly when a response comes back
    with a status from 200 to 299; a request the network refuses gives
    [false]. *)
Theorem checkHealth_returns (E : env) (this : client) (sv : service)
  (s : state) :
  exists b,
    checkHealth E this sv s
    = (Ok b, after_request s (health_request this sv))
    /\ (b = true
        <-> exists resp,
              net_fetch E (n_net s) (health_request this sv) = inr resp
              /\ (200 <= resp_status resp <= 299)%Z).
Proof.
  unfold checkHealth, try_catch, bind, fetch.
  fold (after_request s (health_request this sv)).
  destruct (net_fetch E (n_net s) (health_request this sv))
    as [err | resp]; cbn [lift_err throw ret].
  - exists false. split; [reflexivity|].
    split; [discriminate | intros (resp & Hr & _); discriminate].
  - exists (resp_ok resp). split; [reflexivity|].
    unfold resp_ok. rewrite andb_true_iff, !Z.leb_le. split.
    + intros H. now exists resp.
    + now intros (resp0 & [= <-] & H).
Qed.

End RenderFacts.

(** ** The four tools *)

Module ToolRunFacts.

Import JS Eff JSFacts Tools ToolsMore ToolSpec ToolRunSpec RenderSpec.

(** *** Computations that end, and what they return *)

Lemma terminates_try_catch {A} (c : M A) (h : exn -> M A) :
  terminates c -> (forall e, terminates (h e)) -> terminates (try_catch c h).
Proof.
  intros Hc Hh s. unfold try_catch. specialize (Hc s).
  destruct (c s) as [[a|e|] s1]; cbn [fst] in *;
    [discriminate | apply Hh | congruence].
Qed.

Lemma terminates_stat (E : env) (p : jsstring) : terminates (stat E p).
Proof. intros s. unfold stat. apply PollFacts.terminates_lift_err. Qed.

Lemma terminates_readFile (E : env) (p : jsstring) :
  terminates (readFile E p).
Proof.
  intros s. unfold readFile.
  now destruct (fs_readFile E (n_fs s) p) as [|[|]].
Qed.

Lemma terminates_readFileUtf8 (E : env) (p : jsstring) :
  terminates (readFileUtf8 E p).
Proof.
  intros s. unfold readFileUtf8.
  now destruct (fs_readFile E (n_fs s) p) as [|[|]].
Qed.

Lemma terminates_mkdir (E : env) (p : jsstring) : terminates (mkdir E p).
Proof. intros s. unfold mkdir. now destruct (fs_mkdir E (n_fs s) p). Qed.

Lemma terminates_writeFile (E : env) (p : jsstring) (d : file_data) :
  terminates (writeFile E p d).
Proof.
  intros s. unfold writeFile. now destruct (fs_writeFile E (n_fs s) p d).
Qed.

Lemma terminates_invokeLLM (llm : nat -> jsstring -> exn + jsstring)
  (prompt : jsstring) : terminates (invokeLLM llm prompt).
Proof. intros s. unfold invokeLLM. apply PollFacts.terminates_lift_sum. Qed.

#[local] Hint Resolve PollFacts.terminates_ret PollFacts.terminates_throw
  PollFacts.terminates_lift_sum PollFacts.terminates_lift_err
  PollFacts.terminates_lift_option PollFacts.terminates_DateNow
  PollFacts.terminates_randomBytes PollFacts.terminates_fetch
  terminates_stat terminates_readFile terminates_readFileUtf8
  terminates_mkdir terminates_writeFile terminates_invokeLLM : terminates.

Ltac ends_step :=
  match goal with
  | |- terminates (bind _ _) =>
    apply PollFacts.terminates_bind; [|intros ?]
  | |- terminates (try_catch _ _) =>
    apply terminates_try_catch; [|intros ?]
  | |- terminates (if ?b then _ else _) => destruct b
  | |- terminates (match ?o with Some _ => _ | None => _ end) => destruct o
  | |- terminates (let x := _ in _) => cbv zeta
  | |- terminates (AsrClient.pollResult _ _ _ _) =>
    intros ?; apply PollFacts.pollResult_terminates
  | |- terminates _ => solve [auto with terminates]
  end.

Lemma transcribe_terminates (E : env) (config : AsrClient.AsrConfig)
  (audioPath : jsstring) :
  terminates (AsrClient.transcribe E config audioPath).
Proof.
  unfold AsrClient.transcribe, AsrClient.checkAudioFile,
    AsrClient.uploadAudio, AsrClient.vendor_error,
    AsrClient.prop.
  repeat ends_step.
Qed.

Lemma outputNameOr_terminates (E : env) (name : option jsstring)
  (prefix suffix : jsstring) :
  terminates (outputNameOr E name prefix suffix).
Proof. unfold outputNameOr, generateOutputName. repeat ends_step. Qed.

Lemma saveMarkdown_terminates (E : env) (dir name content : jsstring) :
  terminates (saveMarkdown E dir name content).
Proof. unfold saveMarkdown, ensureOutputDir. repeat ends_step. Qed.

Lemma renderMarkmap_terminates (E : env) (this : RendererClient.client)
  (markdown : jsstring) (options : RendererClient.RenderOptions) :
  terminates (RendererClient.renderMarkmap E this markdown options).
Proof.
  intros s.
  destruct (RenderFacts.renderMarkmap_reply E this markdown options s)
    as (r & -> & _).
  discriminate.
Qed.

Lemma renderMermaid_terminates (E : env) (this : RendererClient.client)
  (code : jsstring) (options : RendererClient.RenderOptions) :
  terminates (RendererMore.renderMermaid E this code options).
Proof.
  intros s.
  destruct (RenderFacts.renderMermaid_reply E this code options s)
    as (r & -> & _).
  discriminate.
Qed.

Lemma yields_ret {A} (P : A -> Prop) (a : A) : P a -> yields P (ret a).
Proof. intros Ha s b [= <-]. exact Ha. Qed.

Lemma yields_throw {A} (P : A -> Prop) (e : exn) : yields P (throw e).
Proof. intros s b. discriminate. Qed.

Lemma yields_bind {A B} (P : B -> Prop) (c : M A) (k : A -> M B) :
  (forall a, yields P (k a)) -> yields P (bind c k).
Proof.
  intros Hk s b. unfold bind.
  destruct (c s) as [[a|e|] s1]; [apply Hk | discriminate | discriminate].
Qed.

Ltac yields_step :=
  match goal with
  | |- yields _ (bind _ _) => apply yields_bind; intros ?
  | |- yields _ (ret _) => apply yields_ret
  | |- yields _ (throw _) => apply yields_throw
  | |- yields _ (let x := _ in _) => cbv zeta
  | |- yields _ (match ?o with Some _ => _ | None => _ end) => destruct o
  end.

(** A tool is a [try] whose handler builds the result of an error. *)
Lemma tool_answers (body : M tool_result) (handler : exn -> M tool_result)
  (s : state) :
  terminates body ->
  yields (has_status (js "success")) body ->
  (forall e s', exists r,
      handler e s' = (Ok r, s') /\ has_status (js "error") r) ->
  exists r,
    fst (try_catch body handler s) = Ok r
    /\ (has_status (js "success") r \/ has_status (js "error") r).
Proof.
  intros Hends Hyields Hhandler. unfold try_catch.
  specialize (Hends s). specialize (Hyields s).
  destruct (body s) as [[r|e|] s1]; cbn [fst] in *; [| |congruence].
  - exists r. split; [reflexivity|]. left. now apply Hyields.
  - destruct (Hhandler e s1) as (r & -> & Hr). exists r.
    split; [reflexivity|]. now right.
Qed.

Lemma error_result_answers (fallback : jsstring) (e : exn) (s : state) :
  exists r,
    error_result fallback e s = (Ok r, s) /\ has_status (js "error") r.
Proof.
  eexists. split; [reflexivity|].
  destruct e; eexists _, _; reflexivity.
Qed.

Lemma transcribe_error_answers (e : exn) (s : state) :
  exists r,
    transcribe_error e s = (Ok r, s) /\ has_status (js "error") r.
Proof.
  eexists. split; [reflexivity|].
  destruct e; eexists _, _; reflexivity.
Qed.

(** X14.  None of the four tools ever throws: whatever the disk, the
    network, the LLM and the services do, each tool returns a result whose
    status is [success] or [error], with a message. *)
Theorem tools_always_answer (E : env) (config : ToolsConfig)
  (toLocaleString : Z -> jsstring) (s : state) :
  (forall input,
     answered (meeting_transcribe E config toLocaleString input) s)
  /\ (forall input, answered (meeting_summarize E config input) s)
  /\ (forall input, answered (meeting_mindmap E config input) s)
  /\ (forall input, answered (meeting_diagram E config input) s).
Proof.
  unfold answered. repeat split; intros input.
  - unfold meeting_transcribe.
    apply tool_answers; [| |apply transcribe_error_answers].
    + unfold optimizeText.
      repeat first [ apply transcribe_terminates
                   | apply outputNameOr_terminates
                   | apply saveMarkdown_terminates | ends_step ].
    + repeat yields_step. eexists _, _. reflexivity.
  - unfold meeting_summarize.
    apply tool_answers; [| |apply error_result_answers].
    + unfold readSource, summarize_steps.
      repeat first [ apply outputNameOr_terminates
                   | apply saveMarkdown_terminates | ends_step ].
    + unfold summarize_steps. repeat yields_step. eexists _, _. reflexivity.
  - unfold meeting_mindmap.
    apply tool_answers; [| |apply error_result_answers].
    + unfold readSource, mindmap_steps, renderImage.
      repeat first [ apply outputNameOr_terminates
                   | apply saveMarkdown_terminates
                   | apply renderMarkmap_terminates | ends_step ].
    + unfold mindmap_steps. repeat yields_step. eexists _, _. reflexivity.
  - unfold meeting_diagram.
    apply tool_answers; [| |apply error_result_answers].
    + unfold diagram_steps, renderDiagram.
      repeat first [ apply outputNameOr_terminates
                   | apply saveMarkdown_terminates
                   | apply renderMermaid_terminates | ends_step ].
    + unfold diagram_steps. repeat yields_step. eexists _, _. reflexivity.
Qed.

(** *** Without an LLM *)

Lemma readSource_then_no_llm (E : env) (source fallback : jsstring)
  (s : state) (k : jsstring -> M tool_result) :
  (forall content, k content = throw (mkError (js "LLM 服务不可用"))) ->
  exists message,
    try_catch (bind (readSource E source) k) (error_result fallback) s
    = (Ok (failed_with message), after_source source s)
    /\ no_llm_message E source s message.
Proof.
  intros Hk. unfold try_catch, bind, readSource, after_source, no_llm_message.
  destruct (looks_like_path source).
  - unfold readFileUtf8.
    destruct (fs_readFile E (n_fs s) source) as [err | [t | bs]];
      try rewrite Hk; eexists; split; reflexivity.
  - cbn [ret]. rewrite Hk. eexists. split; reflexivity.
Qed.

(** X15.  On a host without an LLM the three generating tools give up
    before anything is written or sent: [meeting_diagram] does nothing at
    all, [meeting_summarize] and [meeting_mindmap] have at most read the
    source; the result has the status [error] and the message
    [LLM 服务不可用] (the message of the read error when the source could
    not be read). *)
Theorem tools_need_llm (E : env) (config : ToolsConfig) (s : state) :
  callLLM E = None ->
  (forall input,
     meeting_diagram E config input s
     = (Ok (failed_with (js "LLM 服务不可用")), s))
  /\ (forall input, exists message,
        meeting_summarize E config input s
        = (Ok (failed_with message), after_source (s_source input) s)
        /\ no_llm_message E (s_source input) s message)
  /\ (forall input, exists message,
        meeting_mindmap E config input s
        = (Ok (failed_with message), after_source (source input) s)
        /\ no_llm_message E (source input) s message).
Proof.
  intros Hllm. split; [|split]; intros input.
  - unfold meeting_diagram. now rewrite Hllm.
  - unfold meeting_summarize. rewrite Hllm.
    now apply readSource_then_no_llm.
  - unfold meeting_mindmap. rewrite Hllm.
    now apply readSource_then_no_llm.
Qed.

Lemma tools_need_llm_witness :
  meeting_diagram Fixtures.disk Fixtures.tools_config
    ToolScenarios.login_diagram init
  = (Ok (failed_with (js "LLM 服务不可用")), init).
Proof.
  apply (tools_need_llm Fixtures.disk Fixtures.tools_config init eq_refl).
Defined.

(** *** The Markdown file *)

Lemma markdown_name_ends (name : jsstring) :
  endsWith (markdown_name name) (js ".md") = true.
Proof.
  unfold markdown_name. destruct (endsWith name (js ".md")) eqn:H;
    [exact H|].
  apply ToolFacts.endsWith_suffix. now exists name.
Qed.

(** X16.  [saveMarkdown] creates the directory before it writes, and
    writes one file, whose name always ends with [.md]: the name it is
    given when that ends with [.md] already, the name followed by [.md]
    otherwise.  When the directory cannot be created nothing is written;
    the path is returned only when the file was written. *)
Theorem saveMarkdown_outcome (E : env) (dir name content : jsstring)
  (s : state) :
  let path := path_join E (path_resolve E dir) (markdown_name name) in
  endsWith (markdown_name name) (js ".md") = true
  /\ match fs_mkdir E (n_fs s) (path_resolve E dir) with
     | Some err =>
       saveMarkdown E dir name content s
       = (Throw (ErrorObj err), fs_step (EvMkdir (path_resolve E dir)) s)
     | None =>
       saveMarkdown E dir name content s
       = (match fs_writeFile E (S (n_fs s)) path (Text content) with
          | Some err => Throw (ErrorObj err)
          | None => Ok path
          end,
          fs_step (EvWriteFile path (Text content))
            (fs_step (EvMkdir (path_resolve E dir)) s))
     end.
Proof.
  cbv zeta. split; [apply markdown_name_ends|].
  unfold saveMarkdown, ensureOutputDir, bind, mkdir, writeFile.
  fold (markdown_name name).
  destruct (fs_mkdir E (n_fs s) (path_resolve E dir)) as [err|];
    [reflexivity|].
  cbn [ret fs_step n_fs].
  now destruct (fs_writeFile E (S (n_fs s)) _ (Text content)).
Qed.

(** *** The requests of the tools *)

#[local] Hint Resolve ToolFacts.no_network_refl ToolFacts.preserves_ret
  ToolFacts.preserves_throw ToolFacts.preserves_lift_err
  ToolFacts.preserves_lift_option ToolFacts.DateNow_offline
  ToolFacts.readFileUtf8_offline ToolFacts.mkdir_offline
  ToolFacts.writeFile_offline ToolFacts.invokeLLM_offline
  ToolFacts.readSource_offline ToolFacts.outputNameOr_offline
  ToolFacts.saveMarkdown_offline : steps.

Import ToolFacts.

Lemma error_result_offline (fallback : jsstring) (e : exn) :
  preserves no_network (error_result fallback e).
Proof. intros s. reflexivity. Qed.

Lemma offline_one_request {A} (c : M A) :
  preserves no_network c -> one_request_at_most c.
Proof. intros Hc s. left. apply Hc. Qed.

Lemma one_request_after_offline {A B} (c : M A) (k : A -> M B) :
  preserves no_network c -> (forall a, one_request_at_most (k a)) ->
  one_request_at_most (bind c k).
Proof.
  intros Hc Hk s. unfold bind. specialize (Hc s). unfold no_network in Hc.
  destruct (c s) as [[a|e|] s1]; cbn [snd] in *; try (now left).
  rewrite <- Hc. apply Hk.
Qed.

Lemma offline_after_one_request {A B} (c : M A) (k : A -> M B) :
  one_request_at_most c -> (forall a, preserves no_network (k a)) ->
  one_request_at_most (bind c k).
Proof.
  intros Hc Hk s. unfold bind. specialize (Hc s).
  destruct (c s) as [[a|e|] s1]; cbn [snd] in *; try exact Hc.
  specialize (Hk a s1). unfold no_network in Hk. now rewrite Hk.
Qed.

Lemma one_request_try {A} (c : M A) (h : exn -> M A) :
  one_request_at_most c -> (forall e, preserves no_network (h e)) ->
  one_request_at_most (try_catch c h).
Proof.
  intros Hc Hh s. unfold try_catch. specialize (Hc s).
  destruct (c s) as [[a|e|] s1]; cbn [snd] in *; try exact Hc.
  specialize (Hh e s1). unfold no_network in Hh. now rewrite Hh.
Qed.

Lemma render_then_write (E : env) (req : request)
  (c : M RendererClient.RenderResult) (markdownPath : jsstring) :
  (forall s0, exists r, c s0 = (Ok r, after_request s0 req)) ->
  one_request_at_most
    (bind c
       (fun renderResult =>
          match RendererClient.success renderResult,
                RendererClient.imageData renderResult with
          | true, Some imageData =>
            bind (writeFile E
                    (replace markdownPath (js ".md") (js ".png"))
                    (Bytes imageData))
              (fun _ =>
                 ret (Some (replace markdownPath (js ".md") (js ".png"))))
          | _, _ => ret None
          end)).
Proof.
  intros Hc. apply offline_after_one_request.
  - intros s0. destruct (Hc s0) as (r & ->). now right.
  - intros r. destruct (RendererClient.success r);
      [destruct (RendererClient.imageData r)|]; repeat preserves_step.
Qed.

Lemma renderImage_one_request (E : env) (config : ToolsConfig)
  (input : mindmap_input) (markdown markdownPath : jsstring) :
  one_request_at_most (renderImage E config input markdown markdownPath)
  /\ (render_image input = Some false \/ renderer config = None ->
      preserves no_network
        (renderImage E config input markdown markdownPath)).
Proof.
  unfold renderImage, rendererClient. split.
  - destruct (render_image input) as [[|]|];
      destruct (renderer config) as [rc|];
      try solve [apply offline_one_request; repeat preserves_step].
    all: apply (render_then_write E
                  (markmap_request (RendererClient.new rc) markdown
                     RendererClient.no_options)).
    all: intros s0;
      destruct (RenderFacts.renderMarkmap_reply E (RendererClient.new rc)
                  markdown RendererClient.no_options s0) as (r & Hr & _);
      now exists r.
  - intros [-> | ->]; [|destruct (render_image input) as [[|]|]];
      repeat preserves_step.
Qed.

Lemma renderDiagram_one_request (E : env) (config : ToolsConfig)
  (input : diagram_input) (code markdownPath : jsstring) :
  one_request_at_most (renderDiagram E config input code markdownPath)
  /\ (d_render_image input = Some false \/ renderer config = None ->
      preserves no_network
        (renderDiagram E config input code markdownPath)).
Proof.
  unfold renderDiagram, rendererClient. split.
  - destruct (d_render_image input) as [[|]|];
      destruct (renderer config) as [rc|];
      try solve [apply offline_one_request; repeat preserves_step].
    all: apply (render_then_write E
                  (RendererMore.mermaid_request (RendererClient.new rc)
                     (trim code) RendererClient.no_options)).
    all: intros s0;
      destruct (RenderFacts.renderMermaid_reply E (RendererClient.new rc)
                  (trim code) RendererClient.no_options s0) as (r & Hr & _);
      now exists r.
  - intros [-> | ->]; [|destruct (d_render_image input) as [[|]|]];
      repeat preserves_step.
Qed.

(** X17.  The requests of the generating tools.  [meeting_summarize]
    never sends one.  [meeting_mindmap] and [meeting_diagram] send at most
    one, the request to the renderer, and none when [render_image] is
    [false] or no renderer is configured. *)
Theorem tools_requests (E : env) (config : ToolsConfig) :
  (forall input, preserves no_network (meeting_summarize E config input))
  /\ (forall input,
        one_request_at_most (meeting_mindmap E config input)
        /\ (render_image input = Some false \/ renderer config = None ->
            preserves no_network (meeting_mindmap E config input)))
  /\ (forall input,
        one_request_at_most (meeting_diagram E config input)
        /\ (d_render_image input = Some false \/ renderer config = None ->
            preserves no_network (meeting_diagram E config input))).
Proof.
  split; [|split]; intros input.
  - unfold meeting_summarize, summarize_steps.
    repeat first [apply error_result_offline | preserves_step].
  - split.
    + unfold meeting_mindmap, mindmap_steps.
      apply one_request_try; [|intros e; apply error_result_offline].
      apply one_request_after_offline; [auto with steps|]. intros content.
      destruct (callLLM E) as [llm|];
        [|apply offline_one_request; repeat preserves_step].
      repeat (apply one_request_after_offline;
              [solve [auto with steps]|]; intros ?).
      apply offline_after_one_request;
        [apply renderImage_one_request | intros ?; repeat preserves_step].
    + intros Hoff. unfold meeting_mindmap, mindmap_steps.
      repeat first [ apply error_result_offline
                   | apply (proj2 (renderImage_one_request _ _ _ _ _) Hoff)
                   | preserves_step ].
  - split.
    + unfold meeting_diagram, diagram_steps.
      apply one_request_try; [|intros e; apply error_result_offline].
      destruct (callLLM E) as [llm|];
        [|apply offline_one_request; repeat preserves_step].
      cbv zeta.
      repeat (apply one_request_after_offline;
              [solve [auto with steps]|]; intros ?).
      apply offline_after_one_request;
        [apply renderDiagram_one_request | intros ?; repeat preserves_step].
    + intros Hoff. unfold meeting_diagram, diagram_steps.
      repeat first [ apply error_result_offline
                   | apply (proj2 (renderDiagram_one_request _ _ _ _ _) Hoff)
                   | preserves_step ].
Qed.

Lemma tools_requests_witness :
  no_network init
    (snd (meeting_mindmap ToolScenarios.studio Fixtures.tools_config
            ToolScenarios.quiet_mindmap init)).
Proof.
  apply (proj2 (proj1 (proj2 (tools_requests ToolScenarios.studio
                                Fixtures.tools_config))
                  ToolScenarios.quiet_mindmap)).
  left. reflexivity.
Defined.

(** *** Running the steps *)

Lemma bind_ok {A B} (c : M A) (k : A -> M B) (s s' : state) (a : A) :
  c s = (Ok a, s') -> bind c k s = k a s'.
Proof. intros H. unfold bind. now rewrite H. Qed.

Lemma outputNameOr_run (E : env) (asked : option jsstring)
  (prefix suffix : jsstring) (s : state) :
  exists name s',
    outputNameOr E asked prefix suffix s = (Ok name, s')
    /\ trace s' = trace s /\ n_fs s' = n_fs s /\ n_net s' = n_net s
    /\ n_llm s' = n_llm s
    /\ (exists j, n_clock s' = (n_clock s + j)%nat)
    /\ (forall n, asked = Some n -> str_truthy n = true -> name = n)
    /\ (AsrClient.str_or asked [] = [] ->
        exists k, name = generated_name E k prefix suffix).
Proof.
  unfold outputNameOr, AsrClient.str_or.
  destruct asked as [n|]; [destruct (str_truthy n) eqn:Hn|].
  - exists n, s. repeat split; [now exists 0%nat | now intros ? [= <-] |].
    intros ->. discriminate.
  - unfold generateOutputName, bind, DateNow, ret.
    eexists _, _. split; [reflexivity|]. cbn [trace n_fs n_net n_llm n_clock].
    repeat split; [exists 2%nat; lia | intros ? [= <-]; congruence |].
    intros _. now exists (n_clock s).
  - unfold generateOutputName, bind, DateNow, ret.
    eexists _, _. split; [reflexivity|]. cbn [trace n_fs n_net n_llm n_clock].
    repeat split; [exists 2%nat; lia | discriminate |].
    intros _. now exists (n_clock s).
Qed.

Lemma saveMarkdown_run (E : env) (dir name content : jsstring) (s : state) :
  disk_accepts E ->
  saveMarkdown E dir name content s
  = (Ok (path_join E (path_resolve E dir) (markdown_name name)),
     fs_step (EvWriteFile
                (path_join E (path_resolve E dir) (markdown_name name))
                (Text content))
       (fs_step (EvMkdir (path_resolve E dir)) s)).
Proof.
  intros [Hmk Hwr].
  unfold saveMarkdown, ensureOutputDir, bind, mkdir, writeFile.
  fold (markdown_name name). rewrite Hmk. cbn [ret fs_step n_fs].
  now rewrite Hwr.
Qed.

Lemma rendered_result (E : env) (prefix : jsstring)
  (reply : error_obj + response) (data : list N)
  (r : RendererClient.RenderResult) :
  rendered E reply data -> render_outcome E prefix reply r ->
  r = image_result data.
Proof.
  intros (resp & result & image & -> & Hok & Hjson & Himage & Htruthy & Hdata)
         [[(data' & Hr & ->) | (Hfail & _)] _].
  - destruct Hr as (resp' & result' & image' & [= <-] & _ & Hjson' & Himage'
                    & _ & Hdata').
    congruence.
  - exfalso. cbn [render_failure] in Hfail. unfold get_opt in Hfail.
    rewrite Hjson, Himage in Hfail.
    destruct Hfail as [Hf | [Hf | (e & Hf)]]; congruence.
Qed.

Lemma startsWith_nil (s : jsstring) : startsWith s [] = true.
Proof. now destruct s. Qed.

Lemma replace_cons (c : N) (t p r : jsstring) :
  startsWith (c :: t) p = false ->
  replace (c :: t) p r = c :: replace t p r.
Proof. intros H. cbn [replace]. now rewrite H. Qed.

Lemma replace_first (a rest : jsstring) :
  includes a (js ".md") = false ->
  replace (a ++ js ".md" ++ rest) (js ".md") (js ".png")
  = a ++ js ".png" ++ rest.
Proof.
  change (js ".md") with [46%N; 109%N; 100%N].
  change (js ".png") with [46%N; 112%N; 110%N; 103%N].
  induction a as [|c a IH]; intros Hfree; [now destruct rest|].
  cbn [includes] in Hfree. apply orb_false_iff in Hfree as [Hhead Htail].
  change ((c :: a) ++ [46%N; 109%N; 100%N] ++ rest)
    with (c :: (a ++ [46%N; 109%N; 100%N] ++ rest)).
  rewrite replace_cons; [cbn [app]; f_equal; now apply IH|].
  clear IH Htail.
  destruct a as [|c1 [|c2 a]]; cbn [app startsWith] in *.
  - destruct (N.eqb_spec c 46) as [->|]; reflexivity.
  - destruct (N.eqb_spec c 46) as [->|]; [|reflexivity].
    destruct (N.eqb_spec c1 109) as [->|]; reflexivity.
  - rewrite startsWith_nil in *. exact Hhead.
Qed.

(** X18.  A mindmap with its image.  The host has an LLM that answers the
    prompt with [markdown], the disk accepts the writes, rendering is not
    turned off and the renderer answers with an image: then
    [meeting_mindmap] on a literal text returns the result with status
    [success], the Markdown path and the image path, after exactly these
    steps: the LLM, the directory, the
    Markdown file, the request to the renderer, the image file.  The
    image path is the Markdown path with its first [.md] replaced by
    [.png]: the same file name with the other extension as long as
    [.md] does not occur earlier in the path. *)
Theorem mindmap_renders (E : env) (config : ToolsConfig)
  (input : mindmap_input) (llm : nat -> jsstring -> exn + jsstring)
  (rc : RendererClient.RendererConfig) (markdown : jsstring)
  (data : list N) (s : state) :
  let req := markmap_request (RendererClient.new rc) markdown
               RendererClient.no_options in
  callLLM E = Some llm ->
  looks_like_path (source input) = false ->
  llm (n_llm s) (mindmapPrompt (source input)) = inr markdown ->
  disk_accepts E ->
  render_image input <> Some false ->
  renderer config = Some rc ->
  rendered E (net_fetch E (n_net s) req) data ->
  exists markdownPath,
    output_path E (outputDir config) (output_name input)
      (js "mindmap") (js ".md") markdownPath
    /\ fst (meeting_mindmap E config input s)
       = Ok (mindmap_success markdownPath
               (Some (replace markdownPath (js ".md") (js ".png"))))
    /\ trace (snd (meeting_mindmap E config input s))
       = trace s ++ rendering_events E (outputDir config) markdownPath
                      (mindmapPrompt (source input)) markdown req data
    /\ (forall stem rest,
          markdownPath = stem ++ js ".md" ++ rest ->
          includes stem (js ".md") = false ->
          replace markdownPath (js ".md") (js ".png")
          = stem ++ js ".png" ++ rest).
Proof.
  intros req Hllm Hsource Hanswer Hdisk Hflag Hrc Himage.
  set (s1 := {| n_clock := n_clock s; n_random := n_random s;
                n_fs := n_fs s; n_net := n_net s; n_llm := S (n_llm s);
                trace := log (EvLLM (mindmapPrompt (source input))) s |}).
  destruct (outputNameOr_run E (output_name input) (js "mindmap") (js ".md")
              s1)
    as (name & s2 & Hname & Htr2 & Hfs2 & Hnet2 & _ & _ & Hasked & Hgen).
  set (markdownPath :=
         path_join E (path_resolve E (outputDir config)) (markdown_name name)).
  exists markdownPath.
  split; [exists name; split; [reflexivity | split; assumption]|].
  set (s3 := fs_step (EvWriteFile markdownPath (Text markdown))
               (fs_step (EvMkdir (path_resolve E (outputDir config))) s2)).
  assert (Hrender :
    renderImage E config input markdown markdownPath s3
    = (Ok (Some (replace markdownPath (js ".md") (js ".png"))),
       fs_step (EvWriteFile (replace markdownPath (js ".md") (js ".png"))
                  (Bytes data))
         (after_request s3 req))).
  { unfold renderImage, rendererClient. rewrite Hrc.
    destruct (RenderFacts.renderMarkmap_reply E (RendererClient.new rc)
                markdown RendererClient.no_options s3) as (r & Hr & Hout).
    fold req in Hr, Hout.
    replace (n_net s3) with (n_net s) in Hout
      by (unfold s3; cbn [fs_step n_net]; now rewrite Hnet2).
    rewrite (rendered_result E _ _ data r Himage Hout) in Hr.
    assert (Hgo :
      bind (RendererClient.renderMarkmap E (RendererClient.new rc) markdown
              RendererClient.no_options)
        (fun renderResult =>
           match RendererClient.success renderResult,
                 RendererClient.imageData renderResult with
           | true, Some imageData =>
             bind (writeFile E (replace markdownPath (js ".md") (js ".png"))
                     (Bytes imageData))
               (fun _ =>
                  ret (Some (replace markdownPath (js ".md") (js ".png"))))
           | _, _ => ret None
           end) s3
      = (Ok (Some (replace markdownPath (js ".md") (js ".png"))),
         fs_step (EvWriteFile (replace markdownPath (js ".md") (js ".png"))
                    (Bytes data))
           (after_request s3 req))).
    { rewrite (bind_ok _ _ _ _ _ Hr).
      cbn [image_result RendererClient.success RendererClient.imageData].
      unfold bind, writeFile. now rewrite (proj2 Hdisk). }
    destruct (render_image input) as [[|]|]; [exact Hgo | | exact Hgo].
    now destruct Hflag. }
  assert (Hrun :
    meeting_mindmap E config input s
    = (Ok (mindmap_success markdownPath
             (Some (replace markdownPath (js ".md") (js ".png")))),
       fs_step (EvWriteFile (replace markdownPath (js ".md") (js ".png"))
                  (Bytes data))
         (after_request s3 req))).
  { unfold meeting_mindmap, try_catch, readSource. rewrite Hsource, Hllm.
    rewrite (bind_ok _ _ s s (source input) eq_refl).
    unfold mindmap_steps.
    rewrite (bind_ok _ _ s s1 markdown)
      by (unfold invokeLLM; now rewrite Hanswer).
    rewrite (bind_ok _ _ _ _ _ Hname).
    rewrite (bind_ok _ _ _ _ _
               (saveMarkdown_run E (outputDir config) name markdown s2 Hdisk)).
    fold markdownPath. fold s3.
    rewrite (bind_ok _ _ _ _ _ Hrender). reflexivity. }
  rewrite Hrun. cbn [fst snd]. split; [reflexivity|]. split.
  - unfold s3, after_request, fs_step, log, rendering_events. cbn [trace].
    rewrite Htr2. unfold s1, log. cbn [trace].
    now rewrite <- !app_assoc.
  - intros stem rest -> Hfree. now apply replace_first.
Qed.

Lemma studio_accepts : disk_accepts ToolScenarios.studio.
Proof. split; reflexivity. Qed.

Lemma studio_renders (k : nat) (req : request) :
  rendered ToolScenarios.studio (net_fetch ToolScenarios.studio k req)
    [137; 80; 78; 71]%N.
Proof.
  eexists _, _, _. split; [reflexivity|]. repeat split.
Qed.

Lemma mindmap_renders_witness :
  fst (meeting_mindmap ToolScenarios.studio Fixtures.tools_config
         Fixtures.mindmap_of_text init)
  = Ok (mindmap_success (js "/out/mm.md") (Some (js "/out/mm.png"))).
Proof.
  destruct (mindmap_renders ToolScenarios.studio Fixtures.tools_config
              Fixtures.mindmap_of_text (fun _ _ => inr ToolScenarios.llm_text)
              {| RendererClient.markmapUrl := None;
                 RendererClient.mermaidUrl := None |}
              ToolScenarios.llm_text [137; 80; 78; 71]%N init
              eq_refl eq_refl eq_refl studio_accepts)
    as (p & (name & Hp & Hasked & _) & Hfst & _).
  - discriminate.
  - reflexivity.
  - apply studio_renders.
  - rewrite (Hasked (js "mm") eq_refl eq_refl) in Hp.
    rewrite Hfst, Hp. vm_compute. reflexivity.
Defined.

(** X19.  A diagram with its image.  The LLM is asked for a diagram of
    the type given, [flowchart] when none is; the Markdown file holds the
    description as a heading and the code of the LLM, trimmed, in a
    [mermaid] fence; the renderer is sent the trimmed code.  With a disk
    that accepts the writes, rendering not turned off and a renderer that
    answers with an image, [meeting_diagram] returns the result with
    status [success] and both paths, after exactly these steps: the LLM, the directory, the Markdown file,
    the request to the renderer, the image file. *)
Theorem diagram_renders (E : env) (config : ToolsConfig)
  (input : diagram_input) (llm : nat -> jsstring -> exn + jsstring)
  (rc : RendererClient.RendererConfig) (code : jsstring)
  (data : list N) (s : state) :
  let prompt :=
    diagramPrompt (AsrClient.str_or (diagram_type input) (js "flowchart"))
      (description input) in
  let req := RendererMore.mermaid_request (RendererClient.new rc) (trim code)
               RendererClient.no_options in
  callLLM E = Some llm ->
  llm (n_llm s) prompt = inr code ->
  disk_accepts E ->
  d_render_image input <> Some false ->
  renderer config = Some rc ->
  rendered E (net_fetch E (n_net s) req) data ->
  exists markdownPath,
    output_path E (outputDir config) (d_output_name input)
      (js "diagram") (js ".md") markdownPath
    /\ fst (meeting_diagram E config input s)
       = Ok (diagram_success markdownPath
               (Some (replace markdownPath (js ".md") (js ".png"))))
    /\ trace (snd (meeting_diagram E config input s))
       = trace s ++ rendering_events E (outputDir config) markdownPath
                      prompt (diagramMarkdown (description input) code)
                      req data.
Proof.
  intros prompt req Hllm Hanswer Hdisk Hflag Hrc Himage.
  set (s1 := {| n_clock := n_clock s; n_random := n_random s;
                n_fs := n_fs s; n_net := n_net s; n_llm := S (n_llm s);
                trace := log (EvLLM prompt) s |}).
  destruct (outputNameOr_run E (d_output_name input) (js "diagram")
              (js ".md") s1)
    as (name & s2 & Hname & Htr2 & Hfs2 & Hnet2 & _ & _ & Hasked & Hgen).
  set (markdownPath :=
         path_join E (path_resolve E (outputDir config)) (markdown_name name)).
  exists markdownPath.
  split; [exists name; split; [reflexivity | split; assumption]|].
  set (content := diagramMarkdown (description input) code).
  set (s3 := fs_step (EvWriteFile markdownPath (Text content))
               (fs_step (EvMkdir (path_resolve E (outputDir config))) s2)).
  assert (Hrender :
    renderDiagram E config input code markdownPath s3
    = (Ok (Some (replace markdownPath (js ".md") (js ".png"))),
       fs_step (EvWriteFile (replace markdownPath (js ".md") (js ".png"))
                  (Bytes data))
         (after_request s3 req))).
  { unfold renderDiagram, rendererClient. rewrite Hrc.
    destruct (RenderFacts.renderMermaid_reply E (RendererClient.new rc)
                (trim code) RendererClient.no_options s3) as (r & Hr & Hout).
    fold req in Hr, Hout.
    replace (n_net s3) with (n_net s) in Hout
      by (unfold s3; cbn [fs_step n_net]; now rewrite Hnet2).
    rewrite (rendered_result E _ _ data r Himage Hout) in Hr.
    assert (Hgo :
      bind (RendererMore.renderMermaid E (RendererClient.new rc) (trim code)
              RendererClient.no_options)
        (fun renderResult =>
           match RendererClient.success renderResult,
                 RendererClient.imageData renderResult with
           | true, Some imageData =>
             bind (writeFile E (replace markdownPath (js ".md") (js ".png"))
                     (Bytes imageData))
               (fun _ =>
                  ret (Some (replace markdownPath (js ".md") (js ".png"))))
           | _, _ => ret None
           end) s3
      = (Ok (Some (replace markdownPath (js ".md") (js ".png"))),
         fs_step (EvWriteFile (replace markdownPath (js ".md") (js ".png"))
                    (Bytes data))
           (after_request s3 req))).
    { rewrite (bind_ok _ _ _ _ _ Hr).
      cbn [image_result RendererClient.success RendererClient.imageData].
      unfold bind, writeFile. now rewrite (proj2 Hdisk). }
    destruct (d_render_image input) as [[|]|]; [exact Hgo | | exact Hgo].
    now destruct Hflag. }
  assert (Hrun :
    meeting_diagram E config input s
    = (Ok (diagram_success markdownPath
             (Some (replace markdownPath (js ".md") (js ".png")))),
       fs_step (EvWriteFile (replace markdownPath (js ".md") (js ".png"))
                  (Bytes data))
         (after_request s3 req))).
  { unfold meeting_diagram, try_catch. rewrite Hllm.
    unfold diagram_steps. cbv zeta. fold prompt.
    rewrite (bind_ok _ _ s s1 code)
      by (unfold invokeLLM; now rewrite Hanswer).
    rewrite (bind_ok _ _ _ _ _ Hname).
    rewrite (bind_ok _ _ _ _ _
               (saveMarkdown_run E (outputDir config) name content s2 Hdisk)).
    fold markdownPath. fold s3.
    rewrite (bind_ok _ _ _ _ _ Hrender). reflexivity. }
  rewrite Hrun. cbn [fst snd]. split; [reflexivity|].
  unfold s3, after_request, fs_step, log, rendering_events. cbn [trace].
  rewrite Htr2. unfold s1, log. cbn [trace].
  now rewrite <- !app_assoc.
Qed.

Lemma diagram_renders_witness :
  exists content,
    In (EvWriteFile (js "/out/login.md") (Text content))
      (trace (snd (meeting_diagram ToolScenarios.studio Fixtures.tools_config
                     ToolScenarios.login_diagram init)))
    /\ content = js "# login flow" ++ LF ++ LF ++ js "```mermaid" ++ LF
                 ++ js "graph TD; A-->B" ++ LF ++ js "```" ++ LF.
Proof.
  destruct (diagram_renders ToolScenarios.studio Fixtures.tools_config
              ToolScenarios.login_diagram
              (fun _ _ => inr ToolScenarios.llm_text)
              {| RendererClient.markmapUrl := None;
                 RendererClient.mermaidUrl := None |}
              ToolScenarios.llm_text [137; 80; 78; 71]%N init
              eq_refl eq_refl studio_accepts)
    as (p & (name & Hp & Hasked & _) & _ & Htrace).
  - discriminate.
  - reflexivity.
  - apply studio_renders.
  - rewrite (Hasked (js "login") eq_refl eq_refl) in Hp.
    eexists. split; [|reflexivity].
    rewrite Htrace, Hp. vm_compute. tauto.
Defined.

(** *** The transcription tool *)

Lemma errors_ret {A} (a : A) : throws_errors (ret a).
Proof. intros s e. discriminate. Qed.

Lemma errors_throw {A} (o : error_obj) :
  throws_errors (throw (A:=A) (ErrorObj o)).
Proof. intros s e [= <-]. now exists o. Qed.

Lemma errors_bind {A B} (c : M A) (k : A -> M B) :
  throws_errors c -> (forall a, throws_errors (k a)) ->
  throws_errors (bind c k).
Proof.
  intros Hc Hk s e. unfold bind. specialize (Hc s).
  destruct (c s) as [[a|e'|] s1]; cbn [fst] in *;
    [apply Hk | intros [= <-]; now apply Hc | discriminate].
Qed.

Lemma errors_try {A} (c : M A) (h : exn -> M A) :
  throws_errors c -> (forall o, throws_errors (h (ErrorObj o))) ->
  throws_errors (try_catch c h).
Proof.
  intros Hc Hh s e. unfold try_catch. specialize (Hc s).
  destruct (c s) as [[a|e'|] s1]; cbn [fst] in *; try discriminate.
  destruct (Hc e' eq_refl) as (o & ->). apply Hh.
Qed.

Lemma errors_lift_err {A} (r : error_obj + A) : throws_errors (lift_err r).
Proof. destruct r; [apply errors_throw | apply errors_ret]. Qed.

Lemma errors_lift_option {A} (o : option A) (e : error_obj) :
  throws_errors (lift_option o (ErrorObj e)).
Proof. destruct o; [apply errors_ret | apply errors_throw]. Qed.

Lemma errors_lift_sum {A} (r : exn + A) :
  (forall e, r = inl e -> exists o, e = ErrorObj o) ->
  throws_errors (lift_sum r).
Proof.
  intros Hr. destruct r as [e | a]; [|apply errors_ret].
  destruct (Hr e eq_refl) as (o & ->). apply errors_throw.
Qed.

Lemma errors_primitive {A} (c : M A) :
  (forall s, match fst (c s) with
             | Throw (Thrown _) => False
             | _ => True
             end) ->
  throws_errors c.
Proof.
  intros Hc s e He. specialize (Hc s). rewrite He in Hc.
  destruct e as [o | v]; [now exists o | contradiction].
Qed.

Lemma errors_stat (E : env) (p : jsstring) : throws_errors (stat E p).
Proof. intros s. unfold stat. apply errors_lift_err. Qed.

Lemma errors_readFile (E : env) (p : jsstring) :
  throws_errors (readFile E p).
Proof.
  apply errors_primitive. intros s. unfold readFile.
  now destruct (fs_readFile E (n_fs s) p) as [|[|]].
Qed.

Lemma errors_fetch (E : env) (req : request) : throws_errors (fetch E req).
Proof. intros s. unfold fetch. apply errors_lift_err. Qed.

Lemma errors_DateNow (E : env) : throws_errors (DateNow E).
Proof. intros s e. discriminate. Qed.

Lemma errors_randomBytes (E : env) (n : nat) :
  throws_errors (randomBytes E n).
Proof. intros s e. discriminate. Qed.

Lemma errors_sleep (ms : Z) : throws_errors (sleep ms).
Proof. intros s e. discriminate. Qed.

Lemma ToString_error (v : value) (e : exn) :
  ToString v = inl e -> exists o, e = ErrorObj o.
Proof.
  unfold ToString. destruct (stringable v); [discriminate|].
  intros [= <-]. now eexists.
Qed.

Lemma errors_ToString (v : value) : throws_errors (lift_sum (ToString v)).
Proof. apply errors_lift_sum. apply ToString_error. Qed.

Lemma encode_raw_pair_error (p : AsrClient.raw_params) (k : jsstring)
  (e : exn) :
  AsrClient.encode_raw_pair p k = inl e -> exists o, e = ErrorObj o.
Proof.
  unfold AsrClient.encode_raw_pair.
  destruct (encodeURIComponent k); [|intros [= <-]; now eexists].
  destruct (AsrClient.encode_value _) as [e'|] eqn:He; [|discriminate].
  intros [= <-]. apply PollFacts.encode_value_error in He. subst e'.
  unfold PollSpec.unbuildable. destruct (stringable _); now eexists.
Qed.

Lemma errors_generateSignature_raw (config : AsrClient.AsrConfig)
  (p : AsrClient.raw_params) :
  throws_errors (lift_sum (AsrClient.generateSignature_raw config p)).
Proof.
  apply errors_lift_sum. intros e. unfold AsrClient.generateSignature_raw.
  destruct (AsrClient.accessKeySecret config); [|discriminate].
  destruct (negb (str_truthy _)); [discriminate|].
  destruct (AsrClient.map_err _ _) as [e'|] eqn:Hm; [|discriminate].
  intros [= <-]. apply PollFacts.map_err_inl in Hm as (k & _ & Hk).
  now apply encode_raw_pair_error in Hk.
Qed.

Lemma errors_queryString_raw (p : AsrClient.raw_params) :
  throws_errors (lift_sum (AsrClient.queryString_raw p)).
Proof.
  apply errors_lift_sum. intros e. unfold AsrClient.queryString_raw.
  destruct (AsrClient.map_err _ _) as [e'|] eqn:Hm; [|discriminate].
  intros [= <-]. apply PollFacts.map_err_inl in Hm as (k & _ & Hk).
  now apply encode_raw_pair_error in Hk.
Qed.

Lemma errors_generateSignature (config : AsrClient.AsrConfig)
  (p : AsrClient.params) :
  throws_errors (lift_sum (AsrClient.generateSignature config p)).
Proof.
  apply errors_lift_sum. intros e He.
  rewrite (PollFacts.generateSignature_error config p e He). now eexists.
Qed.

Lemma errors_queryString (p : AsrClient.params) :
  throws_errors (lift_sum (AsrClient.queryString p)).
Proof.
  apply errors_lift_sum. unfold AsrClient.queryString.
  destruct (AsrClient.map_opt _ _); intros e [= <-]. now eexists.
Qed.

Lemma parseLoop_errors (elems : list value) :
  forall segments textParts e,
    AsrClient.parseLoop elems segments textParts = inl e ->
    exists o, e = ErrorObj o.
Proof.
  induction elems as [|v elems IH]; intros segments textParts e;
    cbn [AsrClient.parseLoop]; [discriminate|].
  destruct (get v (js "speakerId")); [|intros [= <-]; now eexists].
  destruct (get v (js "text")); [|intros [= <-]; now eexists].
  destruct (get v (js "beginTime")); [|intros [= <-]; now eexists].
  destruct (get v (js "endTime")); [|intros [= <-]; now eexists].
  cbv zeta.
  destruct (or_else _ (VStr [])); try (intros [= <-]; now eexists).
  destruct (str_truthy _); [|apply IH].
  destruct (ToString _) as [e' | label] eqn:Hlabel; [|apply IH].
  intros [= <-]. now apply (ToString_error _ _ Hlabel).
Qed.

Lemma errors_parseTranscript (result : value) :
  throws_errors (lift_sum (AsrClient.parseTranscript result)).
Proof.
  apply errors_lift_sum. unfold AsrClient.parseTranscript.
  destruct (get result (js "content")); [|intros e [= <-]; now eexists].
  cbv zeta. unfold AsrClient.iterate.
  destruct (or_else _ _); try (intros e [= <-]; now eexists).
  - destruct (AsrClient.parseLoop _ [] []) as [e' | [? ?]] eqn:Hloop;
      intros e [= <-]. apply (parseLoop_errors _ _ _ _ Hloop).
  - destruct (AsrClient.parseLoop _ [] []) as [e' | [? ?]] eqn:Hloop;
      intros e [= <-]. apply (parseLoop_errors _ _ _ _ Hloop).
Qed.

Create HintDb errors.
#[local] Hint Resolve errors_ret errors_lift_err errors_stat errors_readFile
  errors_fetch errors_DateNow errors_randomBytes errors_sleep
  errors_generateSignature errors_queryString errors_parseTranscript
  errors_ToString errors_generateSignature_raw errors_queryString_raw
  : errors.

Ltac errors_step :=
  match goal with
  | |- throws_errors (bind _ _) => apply errors_bind; [|intros ?]
  | |- throws_errors (try_catch _ _) => apply errors_try; [|intros ?]
  | |- throws_errors (if ?b then _ else _) => destruct b
  | |- throws_errors (match ?o with Some _ => _ | None => _ end) =>
    destruct o
  | |- throws_errors (let x := _ in _) => cbv zeta
  | |- throws_errors (throw (mkError _)) => apply errors_throw
  | |- throws_errors (throw (ErrorObj _)) => apply errors_throw
  | |- throws_errors (lift_option _ (TypeError _)) =>
    apply errors_lift_option
  | |- throws_errors (lift_option _ (cannot_read _ _)) =>
    unfold cannot_read; apply errors_lift_option
  | |- throws_errors _ => solve [auto with errors]
  end.

Lemma errors_pollAttempt (E : env) (config : AsrClient.AsrConfig)
  (orderId : value) :
  throws_errors (AsrClient.pollAttempt E config orderId).
Proof.
  unfold AsrClient.pollAttempt, AsrClient.vendor_error, AsrClient.prop.
  repeat errors_step.
Qed.

Lemma errors_pollLoop (E : env) (config : AsrClient.AsrConfig)
  (orderId : value) (maxRetries : Z) (fuel : nat) :
  forall retries,
    throws_errors (AsrClient.pollLoop E config fuel orderId maxRetries
                     retries).
Proof.
  induction fuel as [|fuel IH]; intros retries; cbn [AsrClient.pollLoop];
    destruct (retries <? maxRetries)%Z; try (apply errors_throw).
  - intros s e. discriminate.
  - apply errors_bind; [apply errors_pollAttempt|].
    intros [result|]; [apply errors_ret|].
    apply errors_bind; [apply errors_sleep | intros _; apply IH].
Qed.

Lemma errors_transcribe (E : env) (config : AsrClient.AsrConfig)
  (audioPath : jsstring) :
  throws_errors (AsrClient.transcribe E config audioPath).
Proof.
  unfold AsrClient.transcribe, AsrClient.checkAudioFile,
    AsrClient.uploadAudio, AsrClient.vendor_error, AsrClient.prop,
    AsrClient.pollResult.
  repeat first [apply errors_pollLoop | errors_step].
Qed.

(** X20.  What [meeting_transcribe] does with a transcription that
    failed.  Whatever makes the ASR client fail, what it throws is an
    [Error], so that the message of the result is the message of that
    error, never the fallback [转写失败]; the result has the status
    [error] and the tip to check the ASR service, and the tool does
    nothing more: no LLM is asked and nothing is written. *)
Theorem meeting_transcribe_reports (E : env) (config : ToolsConfig)
  (toLocaleString : Z -> jsstring) (input : transcribe_input)
  (e : exn) (s s1 : state) :
  AsrClient.transcribe E (asr config) (audio_path input) s = (Throw e, s1) ->
  exists o,
    e = ErrorObj o
    /\ meeting_transcribe E config toLocaleString input s
       = (Ok (jsonResult
                (VObj [(js "status", VStr (js "error"));
                       (js "message", VStr (err_message o));
                       (js "tip", VStr (js "请确保 ASR 服务已启动"))])), s1).
Proof.
  intros Hrun.
  destruct (errors_transcribe E (asr config) (audio_path input) s e)
    as (o & ->); [now rewrite Hrun|].
  exists o. split; [reflexivity|].
  unfold meeting_transcribe, try_catch, bind. now rewrite Hrun.
Qed.

Lemma optimizeText_run (E : env) (input : transcribe_input)
  (transcript text : jsstring) (evs : list event) (s : state) :
  optimized E (optimize input) (n_llm s) transcript text evs ->
  exists s',
    optimizeText E input transcript s = (Ok text, s')
    /\ trace s' = trace s ++ evs
    /\ n_fs s' = n_fs s /\ n_clock s' = n_clock s.
Proof.
  unfold optimizeText.
  intros [([Hoff | Hnone] & -> & ->) | (llm & Hon & Hllm & Hanswer & ->)].
  - rewrite Hoff. exists s. rewrite app_nil_r. now repeat split.
  - rewrite Hnone. exists s. rewrite app_nil_r.
    destruct (optimize input) as [[|]|]; now repeat split.
  - rewrite Hllm.
    destruct (optimize input) as [[|]|]; try (now destruct Hon);
      unfold invokeLLM; rewrite Hanswer; eexists;
      (split; [reflexivity | now repeat split]).
Qed.

(** X21.  A transcription that is saved.  When the ASR client returns a
    transcript and the disk accepts the writes, [meeting_transcribe]
    saves one Markdown file and returns the result with status [success],
    the path of the file and the order identifier.  The file holds the
    base name of the audio file, a time, the order identifier ([N/A]
    when it is missing) and the text: the transcript as it is when
    [optimize] is [false] or the host has no LLM, the answer of the LLM to
    the optimizing prompt otherwise.  Unless the caller names the file,
    its name is made of the date, the name of the audio file without its
    extension, the time in base 36 and [_transcript.md]. *)
Theorem meeting_transcribe_saves (E : env) (config : ToolsConfig)
  (toLocaleString : Z -> jsstring) (input : transcribe_input)
  (r : AsrClient.AsrResult) (text : jsstring) (evs : list event)
  (s s1 : state) :
  AsrClient.transcribe E (asr config) (audio_path input) s = (Ok r, s1) ->
  optimized E (optimize input) (n_llm s1) (AsrClient.res_text r) text evs ->
  disk_accepts E ->
  exists outputPath k,
    output_path E (outputDir config) (t_output_name input)
      (NodePathSuffix.basename_suffix (audio_path input)
         (NodePath.extname (audio_path input)))
      (js "_transcript.md") outputPath
    /\ fst (meeting_transcribe E config toLocaleString input s)
       = Ok (transcribed outputPath (AsrClient.res_orderId r))
    /\ trace (snd (meeting_transcribe E config toLocaleString input s))
       = trace s1 ++ evs
           ++ [EvMkdir (path_resolve E (outputDir config));
               EvWriteFile outputPath
                 (Text (transcriptMarkdown
                          (NodePath.basename (audio_path input))
                          (toLocaleString (date_now E k))
                          (AsrClient.res_orderId r) text))].
Proof.
  intros Hrun Hopt Hdisk.
  destruct (optimizeText_run E input (AsrClient.res_text r) text evs s1 Hopt)
    as (s2 & Htext & Htr2 & _).
  destruct (outputNameOr_run E (t_output_name input)
              (NodePathSuffix.basename_suffix (audio_path input)
                 (NodePath.extname (audio_path input)))
              (js "_transcript.md") s2)
    as (name & s3 & Hname & Htr3 & _ & _ & _ & _ & Hasked & Hgen).
  set (outputPath :=
         path_join E (path_resolve E (outputDir config)) (markdown_name name)).
  exists outputPath, (n_clock s3).
  split; [exists name; split; [reflexivity | split; assumption]|].
  set (content := transcriptMarkdown (NodePath.basename (audio_path input))
                    (toLocaleString (date_now E (n_clock s3)))
                    (AsrClient.res_orderId r) text).
  set (s4 := {| n_clock := S (n_clock s3); n_random := n_random s3;
                n_fs := n_fs s3; n_net := n_net s3; n_llm := n_llm s3;
                trace := trace s3 |}).
  assert (Hfull :
    meeting_transcribe E config toLocaleString input s
    = (Ok (transcribed outputPath (AsrClient.res_orderId r)),
       fs_step (EvWriteFile outputPath (Text content))
         (fs_step (EvMkdir (path_resolve E (outputDir config))) s4))).
  { unfold meeting_transcribe, try_catch.
    rewrite (bind_ok _ _ _ _ _ Hrun).
    rewrite (bind_ok _ _ _ _ _ Htext). cbv zeta.
    rewrite (bind_ok _ _ _ _ _ Hname).
    rewrite (bind_ok _ _ s3 s4 (date_now E (n_clock s3)) eq_refl).
    assert (Hid : lift_sum
                    (ToString (or_else (AsrClient.res_orderId r)
                                 (VStr (js "N/A")))) s4
                  = (Ok (to_string (or_else (AsrClient.res_orderId r)
                                      (VStr (js "N/A")))), s4)).
    { unfold ToString, or_else.
      destruct (truthy (AsrClient.res_orderId r)); [|reflexivity].
      now rewrite (UploadFacts.transcribe_ok_stringable _ _ _ _ _ _ Hrun). }
    rewrite (bind_ok _ _ _ _ _ Hid).
    fold content.
    rewrite (bind_ok _ _ _ _ _
               (saveMarkdown_run E (outputDir config) name content s4 Hdisk)).
    reflexivity. }
  rewrite Hfull. cbn [fst snd]. split; [reflexivity|].
  unfold s4, fs_step, log. cbn [trace]. rewrite Htr3, Htr2.
  now rewrite <- !app_assoc.
Qed.

Lemma meeting_transcribe_saves_witness :
  exists outputPath,
    fst (meeting_transcribe Fixtures.disk Fixtures.tools_config
           (fun _ => js "2023/11/15 06:13:20")
           ToolScenarios.meeting_audio init)
    = Ok (transcribed outputPath (VStr (js "abc123"))).
Proof.
  destruct (AsrClient.transcribe Fixtures.disk Fixtures.unsigned_config
              (js "/tmp/meeting.wav") init) as [[r| |] s1] eqn:Hrun;
    try (vm_compute in Hrun; discriminate).
  destruct (meeting_transcribe_saves Fixtures.disk Fixtures.tools_config
              (fun _ => js "2023/11/15 06:13:20")
              ToolScenarios.meeting_audio
              r (AsrClient.res_text r) [] init s1 Hrun)
    as (p & k & _ & Hfst & _).
  - left. repeat split. now right.
  - split; reflexivity.
  - exists p. rewrite Hfst. vm_compute in Hrun. injection Hrun as <- _.
    reflexivity.
Defined.

Lemma meeting_transcribe_reports_witness :
  fst (meeting_transcribe Fixtures.disk Fixtures.tools_config
         (fun _ => js "2023/11/15 06:13:20")
         ToolScenarios.meeting_notes init)
  = Ok (jsonResult
          (VObj [(js "status", VStr (js "error"));
                 (js "message",
                  VStr (js "不支持的音频格式: .txt，仅支持 wav/mp3/m4a"));
                 (js "tip", VStr (js "请确保 ASR 服务已启动"))])).
Proof.
  destruct (meeting_transcribe_reports Fixtures.disk Fixtures.tools_config
              (fun _ => js "2023/11/15 06:13:20")
              ToolScenarios.meeting_notes
              (mkError (js "不支持的音频格式: .txt，仅支持 wav/mp3/m4a"))
              init (fs_step (EvStat (js "/tmp/notes.txt")) init))
    as (o & Ho & Hrun).
  - vm_compute. reflexivity.
  - rewrite Hrun. injection Ho as <-. reflexivity.
Defined.

End ToolRunFacts.

(** ** The tools and the LLM *)

Module ToolLlmFacts.

Import JS Eff JSFacts Tools ToolsMore ToolSpec ToolRunSpec ToolRunFacts.

Lemma invokeLLM_refused (llm : nat -> jsstring -> exn + jsstring)
  (prompt : jsstring) (e : exn) (s : state) :
  llm (n_llm s) prompt = inl e ->
  invokeLLM llm prompt s = (Throw e, after_llm s prompt).
Proof. intros H. unfold invokeLLM. now rewrite H. Qed.

Lemma bind_throw {A B} (c : M A) (k : A -> M B) (s s' : state) (e : exn) :
  c s = (Throw e, s') -> bind c k s = (Throw e, s').
Proof. intros H. unfold bind. now rewrite H. Qed.

Lemma error_result_reported (fallback : jsstring) (e : exn) (s : state) :
  error_result fallback e s = (Ok (failed_with (reported fallback e)), s).
Proof. now destruct e. Qed.

(** The first step of [meeting_summarize] and [meeting_mindmap], when
    the content can be had. *)
Lemma readSource_run (E : env) (source content : jsstring) (s : state) :
  source_content E (n_fs s) source content ->
  readSource E source s = (Ok content, after_source source s).
Proof.
  unfold source_content, readSource, after_source.
  destruct (looks_like_path source); [|now intros ->].
  intros (data & Hdata & ->). unfold readFileUtf8. rewrite Hdata.
  now destruct data.
Qed.

Lemma after_source_llm (source : jsstring) (s : state) :
  n_llm (after_source source s) = n_llm s.
Proof. unfold after_source. now destruct (looks_like_path source). Qed.

(** X22.  When the LLM fails, a generating tool reports it and leaves
    nothing behind: after the prompt nothing is written and nothing is
    sent, and the result has the status [error] with the message of the
    error (the fallback of the tool when what the LLM threw is not an
    [Error]).  This holds of [meeting_summarize] and [meeting_mindmap]
    for every source whose content can be had, a literal text as well as
    a file that is read: the read and the prompt are all that happened.
    For [meeting_transcribe] it means that a transcript the ASR service
    delivered is not saved when the optimizing LLM fails. *)
Theorem tools_llm_failure (E : env) (config : ToolsConfig)
  (toLocaleString : Z -> jsstring)
  (llm : nat -> jsstring -> exn + jsstring) (e : exn) (s : state) :
  callLLM E = Some llm ->
  (forall k prompt, llm k prompt = inl e) ->
  (forall input content,
     source_content E (n_fs s) (s_source input) content ->
     meeting_summarize E config input s
     = (Ok (failed_with (reported (js "纪要生成失败") e)),
        after_llm (after_source (s_source input) s) (summaryPrompt content))
     /\ trace (after_llm (after_source (s_source input) s)
                 (summaryPrompt content))
        = trace s ++ source_events (s_source input)
            ++ [EvLLM (summaryPrompt content)])
  /\ (forall input content,
        source_content E (n_fs s) (source input) content ->
        meeting_mindmap E config input s
        = (Ok (failed_with (reported (js "思维导图生成失败") e)),
           after_llm (after_source (source input) s) (mindmapPrompt content))
        /\ trace (after_llm (after_source (source input) s)
                    (mindmapPrompt content))
           = trace s ++ source_events (source input)
               ++ [EvLLM (mindmapPrompt content)])
  /\ (forall input,
        meeting_diagram E config input s
        = (Ok (failed_with (reported (js "图表生成失败") e)),
           after_llm s
             (diagramPrompt
                (AsrClient.str_or (diagram_type input) (js "flowchart"))
                (description input))))
  /\ (forall input r s1,
        AsrClient.transcribe E (asr config) (audio_path input) s
        = (Ok r, s1) ->
        optimize input <> Some false ->
        exists result,
          meeting_transcribe E config toLocaleString input s
          = (Ok result,
             after_llm s1 (optimizePrompt (AsrClient.res_text r)))
          /\ has_status (js "error") result).
Proof.
  intros Hllm Hfail.
  assert (Htrace : forall source prompt,
             trace (after_llm (after_source source s) prompt)
             = trace s ++ source_events source ++ [EvLLM prompt]).
  { intros source prompt. unfold after_llm, after_source, source_events.
    destruct (looks_like_path source); cbn [trace fs_step]; unfold log;
      now rewrite <- ?app_assoc. }
  repeat split.
  - unfold meeting_summarize, try_catch.
    rewrite (bind_ok _ _ _ _ _ (readSource_run E _ _ s H)). rewrite Hllm.
    unfold summarize_steps.
    rewrite (bind_throw _ _ _ _ _
               (invokeLLM_refused llm _ e _ (Hfail _ _))).
    apply error_result_reported.
  - apply Htrace.
  - unfold meeting_mindmap, try_catch.
    rewrite (bind_ok _ _ _ _ _ (readSource_run E _ _ s H)). rewrite Hllm.
    unfold mindmap_steps.
    rewrite (bind_throw _ _ _ _ _
               (invokeLLM_refused llm _ e _ (Hfail _ _))).
    apply error_result_reported.
  - apply Htrace.
  - intros input.
    unfold meeting_diagram, try_catch. rewrite Hllm.
    unfold diagram_steps. cbv zeta.
    rewrite (bind_throw _ _ _ _ _
               (invokeLLM_refused llm _ e s (Hfail _ _))).
    apply error_result_reported.
  - intros input r s1 Hrun Hon.
    unfold meeting_transcribe, try_catch.
    rewrite (bind_ok _ _ _ _ _ Hrun).
    assert (Hopt : optimizeText E input (AsrClient.res_text r) s1
                   = (Throw e, after_llm s1
                                 (optimizePrompt (AsrClient.res_text r)))).
    { unfold optimizeText. rewrite Hllm.
      destruct (optimize input) as [[|]|]; try (now destruct Hon);
        apply invokeLLM_refused, Hfail. }
    rewrite (bind_throw _ _ _ _ _ Hopt).
    destruct (transcribe_error_answers e
                (after_llm s1 (optimizePrompt (AsrClient.res_text r))))
      as (result & Hresult & Hstatus).
    exists result. now split.
Qed.

Lemma tools_llm_failure_witness :
  source_content ToolScenarios.mute_studio 0 (js "/notes/weekly.md")
    (js "S0: hello")
  /\ meeting_summarize ToolScenarios.mute_studio Fixtures.tools_config
       ToolScenarios.weekly_notes init
     = (Ok (failed_with (js "model overloaded")),
        after_llm (fs_step (EvReadFile (js "/notes/weekly.md")) init)
          (summaryPrompt (js "S0: hello")))
  /\ meeting_mindmap ToolScenarios.mute_studio Fixtures.tools_config
       ToolScenarios.quiet_mindmap init
     = (Ok (failed_with (js "model overloaded")),
        after_llm init (mindmapPrompt (js "notes of the meeting")))
  /\ meeting_diagram ToolScenarios.mute_studio Fixtures.tools_config
       ToolScenarios.login_diagram init
     = (Ok (failed_with (js "model overloaded")),
        after_llm init
          (diagramPrompt (js "flowchart") (js "login flow"))).
Proof.
  assert (Hfile : source_content ToolScenarios.mute_studio (n_fs init)
                    (js "/notes/weekly.md") (js "S0: hello"))
    by (exists (Text (js "S0: hello")); split; reflexivity).
  destruct (tools_llm_failure ToolScenarios.mute_studio Fixtures.tools_config
              (fun _ => []) (fun _ _ => inl (mkError (js "model overloaded")))
              (mkError (js "model overloaded")) init eq_refl
              ltac:(reflexivity))
    as (Hsum & Hmind & Hdiag & _).
  split; [exact Hfile|].
  split; [exact (proj1 (Hsum ToolScenarios.weekly_notes _ Hfile))|].
  split; [|exact (Hdiag ToolScenarios.login_diagram)].
  exact (proj1 (Hmind ToolScenarios.quiet_mindmap
                  (js "notes of the meeting") eq_refl)).
Defined.

(** X23.  A summary that is saved.  With an LLM that answers the prompt
    with [summary] and a disk that accepts the writes, [meeting_summarize]
    on a literal text returns the result with status [success] and the
    path of the file, after exactly these steps: the LLM, the directory,
    the file, which holds the answer of the LLM as it is.  The file is
    named as asked, or by [generateOutputName] with the prefix [meeting]
    and the suffix [_summary.md]. *)
Theorem summarize_saves (E : env) (config : ToolsConfig)
  (input : summarize_input) (llm : nat -> jsstring -> exn + jsstring)
  (summary : jsstring) (s : state) :
  callLLM E = Some llm ->
  looks_like_path (s_source input) = false ->
  llm (n_llm s) (summaryPrompt (s_source input)) = inr summary ->
  disk_accepts E ->
  exists outputPath,
    output_path E (outputDir config) (s_output_name input)
      (js "meeting") (js "_summary.md") outputPath
    /\ fst (meeting_summarize E config input s) = Ok (summarized outputPath)
    /\ trace (snd (meeting_summarize E config input s))
       = trace s ++ [EvLLM (summaryPrompt (s_source input));
                     EvMkdir (path_resolve E (outputDir config));
                     EvWriteFile outputPath (Text summary)].
Proof.
  intros Hllm Hsource Hanswer Hdisk.
  set (s1 := after_llm s (summaryPrompt (s_source input))).
  destruct (outputNameOr_run E (s_output_name input) (js "meeting")
              (js "_summary.md") s1)
    as (name & s2 & Hname & Htr2 & _ & _ & _ & _ & Hasked & Hgen).
  set (outputPath :=
         path_join E (path_resolve E (outputDir config)) (markdown_name name)).
  exists outputPath.
  split; [exists name; split; [reflexivity | split; assumption]|].
  assert (Hrun :
    meeting_summarize E config input s
    = (Ok (summarized outputPath),
       fs_step (EvWriteFile outputPath (Text summary))
         (fs_step (EvMkdir (path_resolve E (outputDir config))) s2))).
  { unfold meeting_summarize, try_catch, readSource. rewrite Hsource, Hllm.
    rewrite (bind_ok _ _ s s (s_source input) eq_refl).
    unfold summarize_steps.
    rewrite (bind_ok _ _ s s1 summary)
      by (unfold invokeLLM; now rewrite Hanswer).
    rewrite (bind_ok _ _ _ _ _ Hname).
    rewrite (bind_ok _ _ _ _ _
               (saveMarkdown_run E (outputDir config) name summary s2 Hdisk)).
    reflexivity. }
  rewrite Hrun. cbn [fst snd]. split; [reflexivity|].
  unfold fs_step, log. cbn [trace]. rewrite Htr2. unfold s1, after_llm.
  cbn [trace]. now rewrite <- !app_assoc.
Qed.

Lemma summarize_saves_witness :
  fst (meeting_summarize ToolScenarios.studio Fixtures.tools_config
         ToolScenarios.weekly_summary init)
  = Ok (summarized (js "/out/weekly.md")).
Proof.
  destruct (summarize_saves ToolScenarios.studio Fixtures.tools_config
              ToolScenarios.weekly_summary
              (fun _ _ => inr ToolScenarios.llm_text)
              ToolScenarios.llm_text init
              eq_refl eq_refl eq_refl studio_accepts)
    as (p & (name & Hp & Hasked & _) & Hfst & _).
  rewrite (Hasked (js "weekly") eq_refl eq_refl) in Hp.
  rewrite Hfst, Hp. vm_compute. reflexivity.
Defined.

End ToolLlmFacts.

(** ** The mindmap without its image *)

Module FallbackFacts.

Import JS Eff JSFacts Tools ToolsMore ToolSpec ToolRunSpec RenderSpec
  ToolRunFacts ToolLlmFacts.

(** What each step has done when it has not thrown. *)
Lemma readSource_ok (E : env) (source content : jsstring) (s s1 : state) :
  readSource E source s = (Ok content, s1) ->
  source_content E (n_fs s) source content /\ s1 = after_source source s.
Proof.
  unfold readSource, source_content, after_source.
  destruct (looks_like_path source); [|now intros [= <- <-]].
  unfold readFileUtf8.
  destruct (fs_readFile E (n_fs s) source) as [err | [t | bs]];
    intros [= <- <-]; (split; [eexists; split; reflexivity | reflexivity]).
Qed.

Lemma invokeLLM_ok (llm : nat -> jsstring -> exn + jsstring)
  (prompt answer : jsstring) (s s1 : state) :
  invokeLLM llm prompt s = (Ok answer, s1) ->
  llm (n_llm s) prompt = inr answer /\ s1 = after_llm s prompt.
Proof.
  unfold invokeLLM. destruct (llm (n_llm s) prompt); intros [= <- <-].
  now split.
Qed.

Lemma saveMarkdown_ok (E : env) (dir name content path : jsstring)
  (s s1 : state) :
  saveMarkdown E dir name content s = (Ok path, s1) ->
  path = path_join E (path_resolve E dir) (markdown_name name)
  /\ s1 = fs_step (EvWriteFile path (Text content))
            (fs_step (EvMkdir (path_resolve E dir)) s).
Proof.
  unfold saveMarkdown, ensureOutputDir, bind, mkdir, writeFile.
  fold (markdown_name name).
  destruct (fs_mkdir E (n_fs s) (path_resolve E dir)); [discriminate|].
  cbn [ret fs_step n_fs].
  destruct (fs_writeFile E _ _ _); [discriminate|].
  intros [= <- <-]. now split.
Qed.

(** A request that fails gives a result without success. *)
Lemma failed_render (E : env) (prefix : jsstring)
  (reply : error_obj + response) (r : RendererClient.RenderResult) :
  render_failure E reply -> render_outcome E prefix reply r ->
  exists msg, r = RendererClient.failure msg.
Proof.
  intros Hfail [[(data & Himage & _) | (_ & Hmsg)] _]; [|exact Hmsg].
  exfalso.
  destruct Himage as (resp & result & image & -> & Hok & Hjson & Himage
                      & Htruthy & Hdata).
  cbn [render_failure] in Hfail. unfold get_opt in Hfail.
  rewrite Hjson, Himage in Hfail.
  destruct Hfail as [Hf | [Hf | (e & Hf)]]; congruence.
Qed.

(** Step 4 of [meeting_mindmap] with a renderer that fails: when it has
    sent something, that is the request of [renderMarkmap] for the
    Markdown, and there is no image. *)
Lemma renderImage_fallback (E : env) (config : ToolsConfig)
  (input : mindmap_input) (markdown markdownPath : jsstring) (s : state) :
  (forall req, render_failure E (net_fetch E (n_net s) req)) ->
  renderImage E config input markdown markdownPath s = (Ok None, s)
  \/ exists client,
       rendererClient config = Some client
       /\ render_image input <> Some false
       /\ renderImage E config input markdown markdownPath s
          = (Ok None,
             after_request s
               (markmap_request client markdown RendererClient.no_options)).
Proof.
  intros Hfail. unfold renderImage.
  destruct (rendererClient config) as [client|];
    [|left; now destruct (render_image input) as [[|]|]].
  destruct (RenderFacts.renderMarkmap_reply E client markdown
              RendererClient.no_options s) as (r & Hr & Hout).
  destruct (failed_render E _ _ r (Hfail _) Hout) as (msg & ->).
  assert (Hgo :
    bind (RendererClient.renderMarkmap E client markdown
            RendererClient.no_options)
      (fun renderResult =>
         match RendererClient.success renderResult,
               RendererClient.imageData renderResult with
         | true, Some imageData =>
           bind (writeFile E (replace markdownPath (js ".md") (js ".png"))
                   (Bytes imageData))
             (fun _ =>
                ret (Some (replace markdownPath (js ".md") (js ".png"))))
         | _, _ => ret None
         end) s
    = (Ok None,
       after_request s
         (markmap_request client markdown RendererClient.no_options)))
    by (now rewrite (bind_ok _ _ _ _ _ Hr)).
  destruct (render_image input) as [[|]|] eqn:Hflag.
  - right. exists client. now repeat split.
  - now left.
  - right. exists client. now repeat split.
Qed.

(** C9.  When the renderer request of a [meeting_mindmap] invocation
    fails (the network refuses it, the response is not an OK one, or it
    yields no image), the invocation that sent it has saved the Markdown
    file and returns the result with status [success], the path of that
    file, no image file and the tip that says no image was generated.
    The file is the one [saveMarkdown] writes: it holds the answer of the
    LLM to the prompt made of the content of the source, under the name
    asked for (or a generated one) in the output directory.  What the
    invocation did is exactly: the read of the source when it looks like
    a path, the LLM, the directory, the Markdown file, and the request to
    the renderer; no image was written.  (A request is sent only when
    [render_image] is not [false] and a renderer is configured.) *)
Theorem mindmap_survives_renderer_failure (E : env) (config : ToolsConfig)
  (input : mindmap_input) (s : state) :
  (forall req, render_failure E (net_fetch E (n_net s) req)) ->
  n_net (snd (meeting_mindmap E config input s)) <> n_net s ->
  exists llm client content markdown markdownPath,
    callLLM E = Some llm
    /\ rendererClient config = Some client
    /\ render_image input <> Some false
    /\ source_content E (n_fs s) (source input) content
    /\ llm (n_llm s) (mindmapPrompt content) = inr markdown
    /\ output_path E (outputDir config) (output_name input)
         (js "mindmap") (js ".md") markdownPath
    /\ fst (meeting_mindmap E config input s) = Ok (markdown_only markdownPath)
    /\ trace (snd (meeting_mindmap E config input s))
       = trace s ++ source_events (source input)
           ++ [EvLLM (mindmapPrompt content);
               EvMkdir (path_resolve E (outputDir config));
               EvWriteFile markdownPath (Text markdown);
               EvFetch (markmap_request client markdown
                          RendererClient.no_options)].
Proof.
  intros Hfail.
  destruct (meeting_mindmap E config input s) as [r s'] eqn:Hrun.
  cbn [fst snd]. revert Hrun.
  unfold meeting_mindmap, try_catch, bind at 1.
  pose proof (ToolFacts.readSource_offline E (source input) s) as Hn1.
  destruct (readSource E (source input) s) as [[content|e|] s1] eqn:Hread;
    cbn [snd] in Hn1; unfold no_network in Hn1;
    try (cbn [error_result ret]; intros [= <- <-] Hsent; congruence).
  destruct (readSource_ok E _ _ _ _ Hread) as (Hcontent & Hs1).
  destruct (callLLM E) as [llm|] eqn:Hllm;
    [|cbn [throw error_result ret]; intros [= <- <-] Hsent; congruence].
  unfold mindmap_steps, bind at 1.
  pose proof (ToolFacts.invokeLLM_offline llm (mindmapPrompt content) s1)
    as Hn2.
  destruct (invokeLLM llm (mindmapPrompt content) s1)
    as [[markdown|e|] s2] eqn:Hask;
    cbn [snd] in Hn2; unfold no_network in Hn2;
    try (cbn [error_result ret]; intros [= <- <-] Hsent; congruence).
  destruct (invokeLLM_ok llm _ _ _ _ Hask) as (Hanswer & Hs2).
  destruct (outputNameOr_run E (output_name input) (js "mindmap") (js ".md")
              s2)
    as (name & s3 & Hname & Htr3 & _ & Hnet3 & _ & _ & Hasked & Hgen).
  unfold bind at 1. rewrite Hname.
  unfold bind at 1.
  pose proof (ToolFacts.saveMarkdown_offline E (outputDir config) name
                markdown s3) as Hn4.
  destruct (saveMarkdown E (outputDir config) name markdown s3)
    as [[markdownPath|e|] s4] eqn:Hsave;
    cbn [snd] in Hn4; unfold no_network in Hn4;
    try (cbn [error_result ret]; intros [= <- <-] Hsent; congruence).
  destruct (saveMarkdown_ok E _ _ _ _ _ _ Hsave) as (Hpath & Hs4).
  assert (Hfail4 : forall req, render_failure E (net_fetch E (n_net s4) req)).
  { intros req. replace (n_net s4) with (n_net s) by congruence. apply Hfail. }
  unfold bind.
  destruct (renderImage_fallback E config input markdown markdownPath s4
              Hfail4) as [Hnone | (client & Hclient & Hflag & Hsent4)].
  - rewrite Hnone. cbn [ret]. intros [= <- <-] Hsent. congruence.
  - rewrite Hsent4. cbn [ret]. intros [= <- <-] _.
    exists llm, client, content, markdown, markdownPath.
    split; [reflexivity|]. split; [exact Hclient|]. split; [exact Hflag|].
    split; [exact Hcontent|].
    split; [rewrite <- Hanswer, Hs1; now rewrite after_source_llm|].
    split; [exists name; split; [exact Hpath | split; assumption]|].
    split; [reflexivity|].
    cbn [after_request trace]. rewrite Hs4. unfold fs_step, log.
    cbn [trace]. rewrite Htr3, Hs2. cbn [after_llm trace]. rewrite Hs1.
    unfold after_source, source_events.
    destruct (looks_like_path (source input)); unfold fs_step, log;
      cbn [trace]; now rewrite <- !app_assoc.
Qed.

Lemma mindmap_survives_renderer_failure_witness :
  (forall req,
      render_failure Fixtures.unreachable_renderer
        (net_fetch Fixtures.unreachable_renderer 0 req))
  /\ fst (meeting_mindmap Fixtures.unreachable_renderer Fixtures.tools_config
            Fixtures.mindmap_of_text init)
     = Ok (markdown_only (js "/out/mm.md"))
  /\ exists req,
       trace (snd (meeting_mindmap Fixtures.unreachable_renderer
                     Fixtures.tools_config Fixtures.mindmap_of_text init))
       = [EvLLM (mindmapPrompt (js "notes of the meeting"));
          EvMkdir (js "/out");
          EvWriteFile (js "/out/mm.md") (Text (js "# Topic"));
          EvFetch req].
Proof.
  assert (Hfail : forall req,
             render_failure Fixtures.unreachable_renderer
               (net_fetch Fixtures.unreachable_renderer (n_net init) req))
    by (intros req; exact I).
  split; [exact Hfail|].
  destruct (mindmap_survives_renderer_failure Fixtures.unreachable_renderer
              Fixtures.tools_config Fixtures.mindmap_of_text init Hfail
              ltac:(vm_compute; discriminate))
    as (llm & client & content & markdown & path & Hllm & _ & _ & Hcontent
        & Hanswer & (name & Hpath & Hasked & _) & Hres & Htr).
  injection Hllm as <-. injection Hanswer as <-.
  change (content = js "notes of the meeting") in Hcontent. subst content.
  rewrite (Hasked (js "mm") eq_refl eq_refl) in Hpath.
  change (path = js "/out/mm.md") in Hpath. subst path.
  split; [exact Hres|]. eexists. exact Htr.
Defined.

End FallbackFacts.

(** ** The plugin entry *)

Module PluginFacts.

Import JS Eff JSFacts Plugin.

Lemma str_or_nonempty (o : option jsstring) (d : jsstring) :
  d <> [] -> AsrClient.str_or o d <> [].
Proof.
  intros Hd. unfold AsrClient.str_or.
  destruct o as [[|c t]|]; cbn [str_truthy]; [exact Hd | discriminate | exact Hd].
Qed.

Lemma str_or_given (t d : jsstring) :
  t <> [] -> AsrClient.str_or (Some t) d = t.
Proof. intros Ht. destruct t; [congruence | reflexivity]. Qed.

(** X24.  [register] registers nothing exactly when the configuration
    says [enabled: false]; a missing configuration counts as an enabled
    one.  Otherwise it registers the four tools, in the order
    [meeting_transcribe], [meeting_summarize], [meeting_mindmap],
    [meeting_diagram], with a configuration that is complete whatever the
    host gave: the output directory and the URL of the ASR service are
    not empty (those of the host when it gave them, the defaults
    otherwise), the tools always get a renderer client, both of whose URLs
    are not empty, and the credentials are handed over unchanged. *)
Theorem register_outcome (getConfig : option MeetAIConfig)
  (HOME USERPROFILE : option jsstring) :
  let config := match getConfig with Some c => c | None => empty_config end in
  (register getConfig HOME USERPROFILE = None <-> enabled config = Some false)
  /\ (forall tc names,
        register getConfig HOME USERPROFILE = Some (tc, names) ->
        names = [js "meeting_transcribe"; js "meeting_summarize";
                 js "meeting_mindmap"; js "meeting_diagram"]
        /\ Tools.outputDir tc <> []
        /\ AsrClient.serviceUrl (Tools.asr tc) <> []
        /\ (exists client,
              Tools.rendererClient tc = Some client
              /\ RendererClient.cl_markmapUrl client <> []
              /\ RendererClient.cl_mermaidUrl client <> [])
        /\ (forall d, cfg_outputDir config = Some d -> d <> [] ->
            Tools.outputDir tc = d)
        /\ (forall u, asr_field config set_serviceUrl = Some u -> u <> [] ->
            AsrClient.serviceUrl (Tools.asr tc) = u)
        /\ AsrClient.appid (Tools.asr tc) = asr_field config set_appid
        /\ AsrClient.accessKeyId (Tools.asr tc)
           = asr_field config set_accessKeyId
        /\ AsrClient.accessKeySecret (Tools.asr tc)
           = asr_field config set_accessKeySecret).
Proof.
  cbv zeta. unfold register.
  set (config := match getConfig with Some c => c | None => empty_config end).
  split.
  - destruct (enabled config) as [[|]|]; split; congruence.
  - intros tc names Hreg.
    assert (Htc : tc = toolsConfig config HOME USERPROFILE
                  /\ names = ToolsMore.tool_names)
      by (destruct (enabled config) as [[|]|]; [| discriminate |];
          injection Hreg as <- <-; now split).
    destruct Htc as [-> ->]. clear Hreg.
    split; [reflexivity|].
    unfold toolsConfig. cbn [Tools.outputDir Tools.asr AsrClient.serviceUrl
                               AsrClient.appid AsrClient.accessKeyId
                               AsrClient.accessKeySecret].
    split.
    { apply str_or_nonempty. unfold homeDir.
      intros Habs. apply app_eq_nil in Habs as [_ Habs]. discriminate. }
    split; [apply str_or_nonempty; discriminate|].
    split.
    { unfold Tools.rendererClient. cbn [Tools.renderer].
      eexists. split; [reflexivity|].
      unfold RendererClient.new.
      cbn [RendererClient.cl_markmapUrl RendererClient.cl_mermaidUrl].
      split; apply str_or_nonempty; discriminate. }
    split; [intros d -> Hd; now apply str_or_given|].
    split; [intros u -> Hu; now apply str_or_given|].
    now repeat split.
Qed.

Lemma register_outcome_witness :
  exists tc names,
    register None None None = Some (tc, names)
    /\ Tools.outputDir tc = js "/tmp/.openclaw/workspace/meetings"
    /\ List.length names = 4%nat.
Proof.
  destruct (register None None None) as [[tc names]|] eqn:Hreg;
    [|vm_compute in Hreg; discriminate].
  destruct (register_outcome None None None) as [_ H].
  destruct (H tc names Hreg) as (Hnames & _).
  exists tc, names. split; [reflexivity|].
  split; [|now rewrite Hnames].
  vm_compute in Hreg. injection Hreg as <- _. vm_compute. reflexivity.
Defined.

End PluginFacts.

(** ** Query strings and signatures *)

Module WireFacts.

Import JS AsrClient WireSpec.
Local Open Scope N_scope.

(** *** What [encodeURIComponent] lets through *)

Lemma hex_digit_upper_plain (n : N) : uri_delimiter (hex_digit_upper n) = false.
Proof.
  unfold hex_digit_upper, uri_delimiter.
  destruct (N.ltb_spec n 10);
    repeat (apply orb_false_intro); apply N.eqb_neq; lia.
Qed.

Lemma unreserved_plain (c : N) :
  uri_unreserved c = true -> uri_delimiter c = false.
Proof.
  unfold uri_unreserved, uri_delimiter. intros H.
  repeat (apply orb_false_intro); apply N.eqb_neq; intros ->;
    vm_compute in H; discriminate.
Qed.

Lemma percent_octet_plain (b : N) :
  forallb (fun c => negb (uri_delimiter c)) (percent_octet b) = true.
Proof.
  unfold percent_octet. cbn [forallb].
  now rewrite !hex_digit_upper_plain.
Qed.

Lemma forallb_flat_map {A B} (P : B -> bool) (f : A -> list B) (l : list A) :
  (forall a, forallb P (f a) = true) -> forallb P (flat_map f l) = true.
Proof.
  intros H. induction l as [|a l IH]; [reflexivity|].
  cbn [flat_map]. now rewrite forallb_app, H, IH.
Qed.

Lemma encode_code_point_plain (cp : N) :
  forallb (fun c => negb (uri_delimiter c)) (encode_code_point cp) = true.
Proof.
  unfold encode_code_point. destruct (uri_unreserved cp) eqn:H.
  - cbn [forallb]. now rewrite (unreserved_plain cp H).
  - apply forallb_flat_map, percent_octet_plain.
Qed.

Lemma encode_all_plain (cps : list (option N)) (t : jsstring) :
  encode_all cps = Some t ->
  forallb (fun c => negb (uri_delimiter c)) t = true.
Proof.
  revert t. induction cps as [|[cp|] cps IH]; intros t; cbn [encode_all].
  - now intros [= <-].
  - destruct (encode_all cps) as [t'|]; [|discriminate].
    intros [= <-]. now rewrite forallb_app, encode_code_point_plain, IH.
  - discriminate.
Qed.

Lemma encodeURIComponent_plain (s t : jsstring) :
  encodeURIComponent s = Some t ->
  forallb (fun c => negb (uri_delimiter c)) t = true.
Proof. apply encode_all_plain. Qed.

(** *** Counting the delimiters of a query string *)

Lemma occurrences_app (c : N) (a b : jsstring) :
  occurrences c (a ++ b) = (occurrences c a + occurrences c b)%nat.
Proof. unfold occurrences. now rewrite filter_app, length_app. Qed.

Lemma occurrences_plain (c : N) (t : jsstring) :
  uri_delimiter c = true ->
  forallb (fun c => negb (uri_delimiter c)) t = true ->
  occurrences c t = 0%nat.
Proof.
  intros Hc. unfold occurrences.
  induction t as [|x t IH]; [reflexivity|]. cbn [forallb filter].
  intros H. apply andb_true_iff in H as [Hx Ht].
  destruct (N.eqb_spec c x) as [<-|]; [|now apply IH].
  now rewrite Hc in Hx.
Qed.

Lemma encode_pair_counts (p : params) (k pair : jsstring) (c : N) :
  encode_pair p k = Some pair ->
  uri_delimiter c = true ->
  occurrences c pair = if N.eqb c 61 then 1%nat else 0%nat.
Proof.
  unfold encode_pair, encode_param. intros Hpair Hc.
  destruct (encodeURIComponent k) as [ek|] eqn:Hk; [|discriminate].
  assert (Hv : exists ev,
             pair = ek ++ js "=" ++ ev
             /\ forallb (fun c => negb (uri_delimiter c)) ev = true).
  { destruct (param_get p k) as [v|].
    - destruct (encodeURIComponent v) as [ev|] eqn:Hev; [|discriminate].
      injection Hpair as <-. exists ev. split; [reflexivity|].
      now apply (encodeURIComponent_plain v).
    - injection Hpair as <-. exists (js "undefined"). now split. }
  destruct Hv as (ev & -> & Hev).
  rewrite !occurrences_app.
  rewrite (occurrences_plain c ek Hc (encodeURIComponent_plain k ek Hk)).
  rewrite (occurrences_plain c ev Hc Hev).
  change (js "=") with [61]. unfold occurrences. cbn [filter].
  destruct (c =? 61); reflexivity.
Qed.

Lemma join_counts (c : N) (pairs : list jsstring) (each : nat) :
  Forall (fun pair => occurrences c pair = each) pairs ->
  occurrences c (join (js "&") pairs)
  = (each * List.length pairs
     + (if N.eqb c 38 then 1 else 0) * (List.length pairs - 1))%nat.
Proof.
  induction 1 as [|pair rest Hpair Hrest IH]; [cbn; lia|].
  cbn [join]. destruct rest as [|pair' rest].
  - cbn [List.length]. rewrite Hpair. lia.
  - rewrite !occurrences_app, Hpair, IH.
    change (js "&") with [38]. unfold occurrences at 1. cbn [filter].
    cbn [List.length]. destruct (c =? 38); cbn [List.length]; lia.
Qed.

Lemma map_opt_length {A B} (f : A -> option B) (l : list A) (r : list B) :
  map_opt f l = Some r -> List.length r = List.length l.
Proof.
  revert r. induction l as [|a l IH]; intros r; cbn [map_opt].
  - now intros [= <-].
  - destruct (f a); [|discriminate].
    destruct (map_opt f l) as [r'|]; [|discriminate].
    intros [= <-]. cbn [List.length]. now rewrite (IH r' eq_refl).
Qed.

Lemma map_opt_Forall {A B} (f : A -> option B) (P : B -> Prop)
  (l : list A) (r : list B) :
  (forall a b, f a = Some b -> P b) ->
  map_opt f l = Some r -> Forall P r.
Proof.
  intros Hf. revert r. induction l as [|a l IH]; intros r; cbn [map_opt].
  - intros [= <-]. constructor.
  - destruct (f a) as [b|] eqn:Hb; [|discriminate].
    destruct (map_opt f l) as [r'|]; [|discriminate].
    intros [= <-]. constructor; [now apply (Hf a) | now apply IH].
Qed.

(** X25.  The query string of a request has the shape the server expects
    whatever the values are: one [=] for each parameter, one [&] between
    two parameters and nowhere else, and no [?], [#], [/], [+] or space.
    A value (an order identifier, a file name) cannot add a parameter of
    its own or cut the query short. *)
Theorem queryString_delimiters (p : params) (q : jsstring) :
  queryString p = inr q ->
  occurrences 61 q = List.length p
  /\ occurrences 38 q = (List.length p - 1)%nat
  /\ (forall c, In c [63; 35; 47; 43; 32] -> occurrences c q = 0%nat).
Proof.
  unfold queryString.
  destruct (map_opt (encode_pair p) (object_keys p)) as [pairs|] eqn:Hpairs;
    [|discriminate].
  intros [= <-].
  assert (Hlen : List.length pairs = List.length p).
  { rewrite (map_opt_length _ _ _ Hpairs). apply length_map. }
  assert (Hcount : forall c, uri_delimiter c = true ->
            occurrences c (join (js "&") pairs)
            = ((if N.eqb c 61 then 1 else 0) * List.length pairs
               + (if N.eqb c 38 then 1 else 0) * (List.length pairs - 1))%nat).
  { intros c Hc. apply join_counts.
    apply (map_opt_Forall (encode_pair p) _ _ _
             (fun k pair Hk => encode_pair_counts p k pair c Hk Hc) Hpairs). }
  split; [rewrite (Hcount 61 eq_refl); cbn [N.eqb Pos.eqb]; lia|].
  split; [rewrite (Hcount 38 eq_refl); cbn [N.eqb Pos.eqb]; lia|].
  intros c Hin. cbn [In] in Hin.
  destruct Hin as [<- | [<- | [<- | [<- | [<- | []]]]]];
    rewrite Hcount by reflexivity; cbn [N.eqb Pos.eqb]; lia.
Qed.

Lemma queryString_delimiters_witness :
  exists q,
    queryString [(js "orderId", js "a&b=c d"); (js "fileName", js "x?.wav")]
    = inr q
    /\ occurrences 38 q = 1%nat.
Proof.
  destruct (queryString [(js "orderId", js "a&b=c d");
                         (js "fileName", js "x?.wav")])
    as [e | q] eqn:Hq; [vm_compute in Hq; discriminate|].
  exists q. split; [reflexivity|].
  apply (queryString_delimiters _ q Hq).
Defined.

(** *** The shape of a signature *)

Lemma base64_char_unit (n : N) : base64_unit (Crypto.base64_char n) = true.
Proof.
  unfold Crypto.base64_char, base64_unit.
  destruct (N.ltb_spec n 26);
    [|destruct (N.ltb_spec n 52);
      [|destruct (N.ltb_spec n 62); [|destruct (N.eqb_spec n 62)]]].
  all: repeat match goal with
         | |- context [?a <=? ?b] =>
           destruct (N.leb_spec a b); cbn [andb orb]
         | |- context [?a =? ?b] =>
           destruct (N.eqb_spec a b); cbn [andb orb]
         end; try reflexivity; lia.
Qed.

Lemma sha1_length (msg : list N) : List.length (Crypto.sha1 msg) = 20%nat.
Proof.
  unfold Crypto.sha1. cbv zeta.
  now destruct (Crypto.sha1_blocks _ _ _) as [[[[h0 h1] h2] h3] h4].
Qed.

Lemma base64_digest (bs : list N) :
  List.length bs = 20%nat ->
  List.length (Crypto.base64 bs) = 28%nat
  /\ forallb base64_unit (Crypto.base64 bs) = true
  /\ last (Crypto.base64 bs) 0 = 61.
Proof.
  intros Hlen.
  do 20 (destruct bs as [|? bs]; [discriminate|]).
  destruct bs; [|discriminate].
  unfold Crypto.base64. cbn [List.length Crypto.base64_groups app].
  split; [reflexivity|]. split; [|reflexivity].
  cbn [forallb]. rewrite !base64_char_unit. reflexivity.
Qed.

(** X26.  What a signature looks like.  Without a secret it is the empty
    string.  With one, it is the Base64 text of the twenty octets of an
    HMAC-SHA1: twenty-eight characters, all of them letters, digits, [+],
    [/] or [=], the last one the padding [=]; whatever the parameters
    are, it is a value an HTTP header can carry. *)
Theorem generateSignature_shape (config : AsrConfig) (p : params)
  (signature : jsstring) :
  generateSignature config p = inr signature ->
  (SignerSpec.no_secret (accessKeySecret config) /\ signature = [])
  \/ (~ SignerSpec.no_secret (accessKeySecret config)
      /\ List.length signature = 28%nat
      /\ forallb base64_unit signature = true
      /\ last signature 0 = 61).
Proof.
  unfold generateSignature, SignerSpec.no_secret.
  destruct (accessKeySecret config) as [[|c secret]|]; cbn [str_truthy negb].
  - intros [= <-]. left. split; [now right | reflexivity].
  - cbv zeta. destruct (map_opt _ _) as [pairs|]; [|discriminate].
    intros [= <-]. right. split; [intros [H | H]; discriminate|].
    unfold Crypto.hmac_sha1_base64, Crypto.hmac_sha1.
    apply base64_digest, sha1_length.
  - intros [= <-]. left. split; [now left | reflexivity].
Qed.

Lemma generateSignature_shape_witness :
  exists signature,
    generateSignature Fixtures.signed_config Fixtures.some_params
    = inr signature
    /\ List.length signature = 28%nat.
Proof.
  destruct (generateSignature Fixtures.signed_config Fixtures.some_params)
    as [e | signature] eqn:Hsig; [vm_compute in Hsig; discriminate|].
  exists signature. split; [reflexivity|].
  destruct (generateSignature_shape _ _ _ Hsig) as [[Hno _] | (_ & Hlen & _)];
    [|exact Hlen].
  destruct Hno as [Hno | Hno]; discriminate.
Defined.

End WireFacts.
